(* ===== verification/_CoqProject ===== *)
-Q . S2P
Prelude.v
JsString.v
Utf8.v
JsNumber.v
Json.v
JsMath.v
JsonFacts.v
Encoding.v
Framework.v
Wire.v
Abi.v
Instances.v
Protocol.v
StreamHandlers.v
StreamProps.v
Handlers.v
Server.v
Conformance.v
InstructionSender.v
Queue.v
Serving.v
EnclaveClient.v
Node.v
Main.v
TeeKeys.v
Scripts.v
Vault.v
VaultFacts.v
VaultProps.v
EndToEnd.v
Chain.v
Pages.v
Dashboard.v
AuditPages.v
Employer.v
Views.v
LandingView.v
DashboardView.v
RecordView.v
EmployerView.v
ScriptMains.v
Live.v
Rehearsal.v
E2eRun.v
ClientCheck.v
OfflineChecks.v
