(* ===== verification/Prelude.v ===== *)
(** * StealthWage: a verification library for the confidential payroll streams

    StealthWage streams salaries whose terms stay secret.  An employer seals the terms
    of a stream to the key of an enclave and publishes their keccak commitment in a
    contract; whoever is a party to the terms signs a challenge, and the enclave opens
    the terms, computes what has accrued and signs an authorization; the contract pays
    what the enclave signed.  Four web pages, a server for the enclave, and scripts
    sit around this core.  This library models the TypeScript sources and the Solidity
    contracts as executable functions and proves what makes them work together.

    ** The parts, and where they are modelled

    The file names are relative to [src/]; the definitions keep the names of the code.

    - The language.  [JsString] (strings of UTF-16 units, trimming, splitting,
      [parseInt], [BigInt]), [Utf8] ([TextEncoder], [Buffer], [TextDecoder]),
      [JsNumber] and [JsMath] (doubles: rounding, shortest decimals, [Number],
      products and quotients, [toFixed], dates), [Json] and [JsonFacts] ([JSON.parse]
      and [JSON.stringify], with their round trip).
    - The wire.  [Encoding] is [typescript/src/base/encoding.ts]; [Framework] the
      handler registry of [base/types.ts]; [Wire] the requests and answers as JSON.
    - Interfaces.  [Abi] is the ABI codec in words; [Instances] gives each interface
      (viem, keccak and [ecrecover], ECIES, ERC-20 tokens, the JavaScript engine) a
      concrete instance, in which the examples are evaluated.
    - [Protocol] is [shared/protocol.ts]: terms, commitment, accrual, the digests and
      the challenges.  [StreamHandlers] and [StreamProps] are
      [app/streamHandlers.ts]: the whole of [authorize], every refusal included.
      [Handlers] is [app/handlers.ts] with [abi.ts] and [config.ts].
    - The server.  [Server] is [base/server.ts]: routing, actions, state reports and
      transport; [Queue] the chain of promises that serializes the actions, as a step
      relation; [Serving] both together; [Node] is [base/node.ts]; [Main] is
      [main.ts] and [scripts/serve-extension.ts].  [Conformance] has the wire types of
      [base/types.ts] and the contract of [docs/extension-contract.md] as a relation
      between requests and answers, and says exactly where the server follows it.
    - The greetings.  [InstructionSender] is [contracts/InstructionSender.sol], up to
      the registries of Flare, and follows an instruction from its transaction to the
      server's answer.
    - The contract.  [Vault] is [contracts/StreamVault.sol]: storage, each external
      function as a transaction, events, the reentrancy flag and the recovery of
      signatures; [VaultFacts] and [VaultProps] are its reachable states.  [EndToEnd]
      joins the enclave and the contract.
    - The pages ([frontend/]).  [EnclaveClient] is [lib/enclave.ts]; [Chain] is
      [lib/chain.ts]; [Pages] what the pages share: handlers as traces of updates,
      and their interleavings.  [Dashboard] ([app/stream/[id]/page.tsx]),
      [AuditPages] ([app/page.tsx] and [app/verify/[id]/page.tsx]) and [Employer]
      ([app/app/page.tsx]) are the states and handlers; [Views] is a small model of
      what a component returns, and [DashboardView], [LandingView], [RecordView] and
      [EmployerView] are the renderings, as functions of the state.
    - The scripts.  [ScriptMains] ([test-settle.ts], [create-demo-stream.ts],
      [e2e-coston2.ts], [verify-browser-ciphertext.ts]), [ClientCheck]
      ([check-enclave-client.ts]), [OfflineChecks] ([gen-golden-vectors.ts]),
      [Scripts] (their action envelopes) and [TeeKeys] ([gen-tee-keys.ts]).  [Live]
      is a world for them to run in, with the vault, token allowances, the server and
      a clock;
      [Rehearsal] and [E2eRun] run them.

    A component is a record for its state, an inductive type for its updates or
    events, and one definition per operation.  Exceptions are values of [outcome]; a
    handler of a page is a list of updates and its outcome ([act]); a script is a
    function of its world that may end the process ([script]).  What is not in the
    repository is an argument: viem, ECIES, keccak and [ecrecover], tokens, [fetch],
    wallets, the RPC endpoint and the explorer, the clock and randomness.  What the
    code relies on of them is stated as laws of a class or as hypotheses, and every
    theorem with a hypothesis has a witness in a concrete instance.

    ** What is shown

    - End to end: on payday an honest party's question is granted, and the contract
      pays it exactly what accrued ([EndToEnd]); whatever the contract pays was
      granted by the enclave to a party of the committed terms; the scripts run to their end on a correct deployment; the
      client reads the verdict that the enclave gave, for every request.
    - The scaffold: the server answers a request as the extension contract says,
      exactly unless it is an [OPTIONS] request or carries an invalid DataFixed with
      an operation type; a greeting sent on chain is answered letter for
      letter; the sender's extension id is the least of its own and final.
    - The enclave: [authorize] succeeds exactly for well-formed, fresh requests
      signed by a permitted party over terms that hash to the commitment; each
      refusal is characterized; the server answers every request (but one whose
      operation is not a string or whose id has no string form), in the order of the
      queue.
    - The contract: solvency, cumulative payouts within the funding, replays pay
      nothing, settlements split the funding, only the entitled change a stream, the
      log tells the truth, over all reachable states.
    - The pages: what is shown is authentic.  The renderings are compared with the
      contract and the enclave: amounts are exact to the last unit although they
      pass through doubles, the verdict of the audit record is the contract's own,
      the employer's wallet is asked for the commitment that is on display, and the
      buttons are exactly those that the state allows.
    - The encodings and parsers: round trips, bounds, and the errors they throw.

    Nothing assumes that keccak has no collisions.  Where a theorem needs that some
    inputs do not clash, it names them ([no_clash] of Protocol.v): the encodings that
    the enclave signed against the one that the vault checks, or the bytes that were
    opened or revealed against the audited ones.

    Where a proof showed that code and intention differ, the theorem states what the
    code does: the pages' ABI lacks the functions that they call, a replay pays after
    a top-up, a start beyond the last JavaScript date breaks the audit record, a
    spent authorization disables the recipient's page for good, and others.

    ** Fuel and bounds

    The JSON parser takes fuel of twice the length of the text plus one;
    [JSON_parse_total] shows that it never runs out.  The digits of a number take its
    binary logarithm ([radix_fuel_enough]).  The search for the shortest decimal of a
    double tries up to 17 digits, which IEEE-754 says suffice; the theorems only print
    integers, whose digits are proved.  Everything else is structural.
    Amounts shown are proved exact below [2 ^ 52] units of the last place shown, and
    a number beyond [2 ^ 53] is rounded as the language rounds it.

    ** Not modelled

    The sockets of requests (node:http), printing, class names that do not depend on
    the state, Next.js routing and its [Suspense] fallback, the wagmi
    and Next.js configuration; the Go and Python ports of the scaffold, tests and containers, which are other programs; the
    registries of Flare, which are an interface.  In [Live] a transaction takes a
    fixed time and no other account acts while a script runs. *)

From Stdlib Require Export ZArith Lia.
From stdpp Require Export base tactics numbers list option strings gmap sorting.

#[global] Open Scope Z_scope.

(** ** Strings and bytes

    A JavaScript string is a sequence of UTF-16 code units, a [Uint8Array] a
    sequence of bytes.  Both are lists of [Z]; [is_unit] and [is_byte] are the
    range invariants. *)

Abbreviation jsstr := (list Z).
Abbreviation bytes := (list Z).

Definition is_byte (b : Z) : Prop := 0 ≤ b < 256.
Definition is_unit (c : Z) : Prop := 0 ≤ c < 65536.
Abbreviation is_bytes := (Forall is_byte).
Abbreviation is_units := (Forall is_unit).

#[export] Instance is_byte_dec b : Decision (is_byte b).
Proof. unfold is_byte. apply _. Defined.
#[export] Instance is_unit_dec c : Decision (is_unit c).
Proof. unfold is_unit. apply _. Defined.

(** An ASCII literal as a JavaScript string. *)
Definition js (s : string) : jsstr :=
  (λ a, Z.of_N (Ascii.N_of_ascii a)) <$> String.list_ascii_of_string s.
Arguments js _%_string_scope : simpl never.

(** Comparison [===] of two strings. *)
Definition str_eqb (s t : jsstr) : bool := bool_decide (s = t).

Lemma str_eqb_true s t : str_eqb s t = true ↔ s = t.
Proof. unfold str_eqb. by rewrite bool_decide_eq_true. Qed.
Lemma str_eqb_false s t : str_eqb s t = false ↔ s ≠ t.
Proof. unfold str_eqb. by rewrite bool_decide_eq_false. Qed.
Lemma str_eqb_refl s : str_eqb s s = true.
Proof. by apply str_eqb_true. Qed.

(** ** Exceptions

    A computation that may throw.  Every value the program throws is an
    [Error] object, with a name and a message. *)

Record js_error := Error { err_name : jsstr; err_message : jsstr }.

#[export] Instance js_error_eq_dec : EqDecision js_error.
Proof. solve_decision. Defined.

(** [String(e)], that is [Error.prototype.toString]. *)
Definition err_to_string (e : js_error) : jsstr :=
  match err_name e, err_message e with
  | [], m => m
  | n, [] => n
  | n, m => n ++ js ": " ++ m
  end.

Inductive outcome (A : Type) : Type :=
| Ret (a : A)
| Throw (e : js_error).
Arguments Ret {A} _.
Arguments Throw {A} _.

#[export] Instance outcome_eq_dec `{EqDecision A} : EqDecision (outcome A).
Proof. solve_decision. Defined.

#[export] Instance outcome_ret : MRet outcome := λ A a, Ret a.
#[export] Instance outcome_bind : MBind outcome := λ A B f m,
  match m with Ret a => f a | Throw e => Throw e end.
#[export] Instance outcome_fmap : FMap outcome := λ A B f m,
  match m with Ret a => Ret (f a) | Throw e => Throw e end.

(** [try { m } catch (e) { h e }]. *)
Definition try_catch {A} (m : outcome A) (h : js_error → A) : A :=
  match m with Ret a => a | Throw e => h e end.

Definition throws {A} (m : outcome A) : Prop := ∃ e, m = Throw e.
Definition returns {A} (m : outcome A) : Prop := ∃ a, m = Ret a.

Lemma bind_Ret_inv {A B} (m : outcome A) (f : A → outcome B) b :
  (m ≫= f) = Ret b → ∃ a, m = Ret a ∧ f a = Ret b.
Proof. destruct m; cbn; [eauto|discriminate]. Qed.

Lemma bind_Ret_iff {A B} (m : outcome A) (f : A → outcome B) b :
  (m ≫= f) = Ret b ↔ ∃ a, m = Ret a ∧ f a = Ret b.
Proof. split; [apply bind_Ret_inv|]. by intros (a & -> & ?). Qed.

Definition TypeError (m : jsstr) : js_error := Error (js "TypeError") m.
Definition SyntaxError (m : jsstr) : js_error := Error (js "SyntaxError") m.
Definition PlainError (m : jsstr) : js_error := Error (js "Error") m.

(** ** Tactics and hints shared by the components *)

Create HintDb sw.
Create Rewrite HintDb sw_len.
#[export] Hint Rewrite @length_app @length_fmap @length_replicate @length_cons
  @length_take @length_drop : sw_len.
#[export] Hint Resolve str_eqb_refl : sw.
#[export] Hint Unfold is_byte is_unit : sw.

(** Destruct every bind that is known to have returned. *)
Ltac inv_bind :=
  repeat match goal with
  | H : (_ ≫= _) = Ret _ |- _ =>
      apply bind_Ret_inv in H; destruct H as (? & ? & H)
  | H : Ret _ = Ret _ |- _ => injection H as H; subst
  | H : Throw _ = Ret _ |- _ => discriminate H
  | H : Ret _ = Throw _ |- _ => discriminate H
  end.

(** Case analysis on the scrutinee of the match in hypothesis [H]; closes the
    branches that contradict it. *)
Ltac case_in H :=
  match type of H with
  | context [match ?x with _ => _ end] =>
      lazymatch x with
      | context [match _ with _ => _ end] => fail
      | _ => destruct x eqn:?; try discriminate H
      end
  end.

Ltac reflect_Z :=
  repeat match goal with
  | H : (_ <? _) = true |- _ => apply Z.ltb_lt in H
  | H : (_ <? _) = false |- _ => apply Z.ltb_ge in H
  | H : (_ <=? _) = true |- _ => apply Z.leb_le in H
  | H : (_ <=? _) = false |- _ => apply Z.leb_gt in H
  | H : (_ >? _) = true |- _ => apply Z.gtb_lt in H
  | H : (_ >? _) = false |- _ => rewrite Z.gtb_ltb in H; apply Z.ltb_ge in H
  | H : (_ =? _) = true |- _ => apply Z.eqb_eq in H
  | H : (_ =? _) = false |- _ => apply Z.eqb_neq in H
  | H : (_ && _) = true |- _ => apply andb_prop in H as [? ?]
  | H : bool_decide _ = true |- _ => apply bool_decide_eq_true in H
  | H : bool_decide _ = false |- _ => apply bool_decide_eq_false in H
  | H : str_eqb _ _ = true |- _ => apply str_eqb_true in H
  | H : str_eqb _ _ = false |- _ => apply str_eqb_false in H
  end.

(** ** Generic lemmas on lists and integers *)

Lemma js_units s : Forall (λ c, 0 ≤ c < 256) (js s).
Proof.
  unfold js. apply Forall_fmap, Forall_true. intros a. simpl.
  pose proof (Ascii.N_ascii_bounded a). lia.
Qed.

Lemma js_app s t : js (s +:+ t) = js s ++ js t.
Proof. induction s as [|a s IH]; [done|]. unfold js in *. cbn. by rewrite <- IH. Qed.

Lemma is_bytes_units b : is_bytes b → is_units b.
Proof. intros H. eapply Forall_impl; [exact H|]. unfold is_byte, is_unit. lia. Qed.

Lemma js_bytes s : is_bytes (js s).
Proof. eapply Forall_impl; [apply js_units|]. done. Qed.

Lemma js_is_units s : is_units (js s).
Proof. apply is_bytes_units, js_bytes. Qed.

#[export] Hint Resolve js_units js_bytes js_is_units is_bytes_units : sw.

Lemma forallb_Forall {A} (f : A → bool) (l : list A) :
  forallb f l = true ↔ Forall (λ x, f x = true) l.
Proof. by rewrite Forall_forall, forallb_forall; setoid_rewrite list_elem_of_In. Qed.

Lemma NoDup_3 {A} (x y z : A) : NoDup [x; y; z] ↔ x ≠ y ∧ x ≠ z ∧ y ≠ z.
Proof.
  rewrite !NoDup_cons, !not_elem_of_cons.
  split; [tauto|]. intros (? & ? & ?).
  split_and!; try done; try apply not_elem_of_nil; apply NoDup_nil_2.
Qed.
