(* ===== verification/JsString.v ===== *)
(** * JavaScript strings and integers

    The operations of the language's standard library on strings and BigInts
    that the program uses: slicing, padding, trimming, splitting, lower-casing,
    code-unit order, conversion of integers to and from digit strings.

    Two things depend on the JavaScript engine and not on the language or on
    ASCII: the Unicode tables behind [toLowerCase] and the text of the messages
    of [SyntaxError].  They are the class [JsEngine]. *)

From S2P Require Import Prelude.

Class JsEngine := {
  (** [s.toLowerCase()] for a string that holds a non-ASCII code unit. *)
  unicode_lower : jsstr → jsstr;
  (** the message of the [SyntaxError] that [JSON.parse(s)] throws *)
  json_error_message : jsstr → jsstr;
}.

(** An engine for the concrete instances: the identity on the strings it has no
    ASCII rule for, one message for every [SyntaxError]. *)
Definition plain_engine : JsEngine :=
  {| unicode_lower := id; json_error_message := λ _, js "Unexpected token" |}.

(** ** Slicing and searching *)

Definition str_length (s : jsstr) : Z := Z.of_nat (length s).

(** A relative index of [String.prototype.slice], clamped to the string. *)
Definition rel_index (len i : Z) : nat :=
  Z.to_nat (if i <? 0 then Z.max (len + i) 0 else Z.min i len).

(** [s.slice(i, j)]. *)
Definition slice (s : jsstr) (i j : Z) : jsstr :=
  let from := rel_index (str_length s) i in
  let to := rel_index (str_length s) j in
  take (to - from) (drop from s).

(** [s.slice(i)]. *)
Definition slice_from (s : jsstr) (i : Z) : jsstr := slice s i (str_length s).

Fixpoint starts_with (s p : jsstr) {struct p} : bool :=
  match p, s with
  | [], _ => true
  | c :: p', d :: s' => (c =? d) && starts_with s' p'
  | _ :: _, [] => false
  end.

(** The rest of [s] after the unit [c], when [s] begins with it. *)
Definition expect (c : Z) (s : jsstr) : option jsstr :=
  match s with d :: r => if d =? c then Some r else None | [] => None end.

(** [s.repeat(n)]. *)
Definition str_repeat (s : jsstr) (n : nat) : jsstr := mjoin (replicate n s).

(** [s.padStart(n, c)] with a one-unit filler. *)
Definition pad_start (s : jsstr) (n : nat) (c : Z) : jsstr :=
  replicate (n - length s) c ++ s.

(** [s.split(c)] for a one-unit separator. *)
Fixpoint split_on (c : Z) (s : jsstr) : list jsstr :=
  match s with
  | [] => [[]]
  | d :: s' =>
      if d =? c then [] :: split_on c s'
      else match split_on c s' with
           | w :: ws => (d :: w) :: ws
           | [] => [[d]]
           end
  end.

(** ** Character classes *)

Definition is_digit (c : Z) : bool := (48 <=? c) && (c <=? 57).

(** [[0-9a-fA-F]] *)
Definition is_hex_digit (c : Z) : bool :=
  is_digit c || ((97 <=? c) && (c <=? 102)) || ((65 <=? c) && (c <=? 70)).

(** WhiteSpace and LineTerminator, as [trim] and [BigInt] strip them. *)
Definition is_js_space (c : Z) : bool :=
  ((9 <=? c) && (c <=? 13)) || (c =? 32) || (c =? 160) || (c =? 0x1680)
  || ((0x2000 <=? c) && (c <=? 0x200A)) || (c =? 0x2028) || (c =? 0x2029)
  || (c =? 0x202F) || (c =? 0x205F) || (c =? 0x3000) || (c =? 0xFEFF).

Definition is_ascii (c : Z) : bool := (0 <=? c) && (c <? 128).

Fixpoint drop_while (f : Z → bool) (s : jsstr) : jsstr :=
  match s with
  | c :: s' => if f c then drop_while f s' else s
  | [] => []
  end.

Fixpoint take_while (f : Z → bool) (s : jsstr) : jsstr :=
  match s with
  | c :: s' => if f c then c :: take_while f s' else []
  | [] => []
  end.

(** [s.trim()] and [s.trimEnd()]. *)
Definition trim_end (s : jsstr) : jsstr := reverse (drop_while is_js_space (reverse s)).
Definition trim (s : jsstr) : jsstr := trim_end (drop_while is_js_space s).

(** [s.toLowerCase()]. *)
Definition ascii_lower (c : Z) : Z := if (65 <=? c) && (c <=? 90) then c + 32 else c.
Definition to_lower `{JsEngine} (s : jsstr) : jsstr :=
  if forallb is_ascii s then ascii_lower <$> s else unicode_lower s.

(** Code-unit order, the order of [Array.prototype.sort] on strings. *)
Fixpoint str_leb (s t : jsstr) : bool :=
  match s, t with
  | [], _ => true
  | _ :: _, [] => false
  | c :: s', d :: t' => (c <? d) || ((c =? d) && str_leb s' t')
  end.

(** ** Integers and digit strings *)

(** The character of a digit, as [toString(radix)] prints it. *)
Definition digit_char (d : Z) : Z := if d <? 10 then 48 + d else 87 + d.

(** The value of a digit character, for radix at most 16. *)
Definition digit_val (c : Z) : Z :=
  if is_digit c then c - 48
  else if (97 <=? c) && (c <=? 102) then c - 87 else c - 55.

(** Digits of [n], least significant first; [fuel] bounds their number. *)
Fixpoint radix_digits (fuel : nat) (r n : Z) : list Z :=
  match fuel with
  | O => []
  | S f => if n <? r then [n] else n mod r :: radix_digits f r (n / r)
  end.

Definition radix_fuel (n : Z) : nat := S (Z.to_nat (Z.log2 n)).

(** [n.toString(r)] for [0 ≤ n]. *)
Definition to_radix (r n : Z) : jsstr :=
  digit_char <$> reverse (radix_digits (radix_fuel n) r n).

(** [n.toString()] of a BigInt. *)
Definition bigint_to_string (n : Z) : jsstr :=
  if n <? 0 then 45 :: to_radix 10 (- n) else to_radix 10 n.

Definition digits_value (r : Z) (s : jsstr) : Z :=
  fold_left (λ acc c, acc * r + digit_val c) s 0.

Definition nonempty_all (f : Z → bool) (s : jsstr) : bool :=
  match s with [] => false | _ => forallb f s end.

Definition is_radix_digit (r c : Z) : bool :=
  is_hex_digit c && (digit_val c <? r).

(** The radix a [0x], [0o] or [0b] prefix of [s] announces. *)
Definition radix_prefix (s : jsstr) : option Z :=
  match s with
  | c :: p :: _ =>
      if negb (c =? 48) then None
      else if (p =? 120) || (p =? 88) then Some 16
      else if (p =? 111) || (p =? 79) then Some 8
      else if (p =? 98) || (p =? 66) then Some 2
      else None
  | _ => None
  end.

(** StringToBigInt on a trimmed string. *)
Definition parse_bigint (s : jsstr) : option Z :=
  match s with
  | [] => Some 0
  | c :: s' =>
      match radix_prefix s with
      | Some r =>
          let ds := drop 2 s in
          if nonempty_all (is_radix_digit r) ds then Some (digits_value r ds) else None
      | None =>
          if c =? 45 then
            if nonempty_all is_digit s' then Some (- digits_value 10 s') else None
          else if c =? 43 then
            if nonempty_all is_digit s' then Some (digits_value 10 s') else None
          else if nonempty_all is_digit s then Some (digits_value 10 s) else None
      end
  end.

(** [BigInt(s)] of a string. *)
Definition BigInt (s : jsstr) : outcome Z :=
  match parse_bigint (trim s) with
  | Some n => Ret n
  | None => Throw (SyntaxError (js "Cannot convert " ++ s ++ js " to a BigInt"))
  end.

(** [parseInt(s, 16)]: the longest prefix of hex digits after white space, a
    sign and an optional [0x]; [None] is [NaN]. *)
Definition parse_int_16 (s : jsstr) : option Z :=
  let s := drop_while is_js_space s in
  let '(sign, s) :=
    match expect 45 s with
    | Some s' => (-1, s')
    | None => (1, default s (expect 43 s))
    end in
  let s := if bool_decide (radix_prefix s = Some 16) then drop 2 s else s in
  match take_while is_hex_digit s with
  | [] => None
  | ds => Some (sign * digits_value 16 ds)
  end.

(** ** Digit strings: lemmas *)

Ltac unfold_classes :=
  unfold digit_char, digit_val, ascii_lower, is_radix_digit, is_hex_digit,
    is_digit, is_ascii, is_js_space in *.

(** Case analysis on every boolean test on integers in the goal. *)
Ltac no_match t :=
  lazymatch t with context [match _ with _ => _ end] => fail | _ => idtac end.
Ltac Zbool :=
  repeat match goal with
  | |- context [?a <? ?b] => no_match (a + b); destruct (Z.ltb_spec a b)
  | |- context [?a <=? ?b] => no_match (a + b); destruct (Z.leb_spec a b)
  | |- context [?a =? ?b] => no_match (a + b); destruct (Z.eqb_spec a b)
  | |- _ => progress cbn [andb orb negb]
  end; cbn in *; try lia; try done.

Lemma digit_val_char d : 0 ≤ d < 16 → digit_val (digit_char d) = d.
Proof. intros. unfold_classes. Zbool. Qed.

Lemma digit_char_hex d : 0 ≤ d < 16 → is_hex_digit (digit_char d) = true.
Proof. intros. unfold_classes. Zbool. Qed.

Lemma digit_char_digit d : 0 ≤ d < 10 → is_digit (digit_char d) = true.
Proof. intros. unfold_classes. Zbool. Qed.

Lemma digit_char_unit d : 0 ≤ d < 16 → 48 ≤ digit_char d < 103.
Proof. intros. unfold_classes. Zbool. Qed.

#[export] Hint Resolve digit_char_hex digit_char_digit : sw.

Lemma digits_value_snoc r s c :
  digits_value r (s ++ [c]) = digits_value r s * r + digit_val c.
Proof. unfold digits_value. by rewrite fold_left_app. Qed.

Section radix.
Context (r : Z) (Hr : 2 ≤ r ≤ 16).

Lemma radix_digits_range fuel n :
  0 ≤ n → Forall (λ d, 0 ≤ d < r) (radix_digits fuel r n).
Proof using Hr.
  revert n. induction fuel as [|f IH]; intros n Hn; cbn; [constructor|].
  destruct (Z.ltb_spec n r).
  - repeat constructor; lia.
  - constructor; [apply Z.mod_pos_bound; lia|]. apply IH, Z.div_pos; lia.
Qed.

Lemma radix_digits_value fuel n :
  0 ≤ n < 2 ^ Z.of_nat fuel →
  digits_value r (digit_char <$> reverse (radix_digits fuel r n)) = n.
Proof using Hr.
  revert n. induction fuel as [|f IH]; intros n Hn.
  - assert (n = 0) as -> by (cbn in Hn; lia). done.
  - cbn [radix_digits]. destruct (Z.ltb_spec n r).
    + unfold digits_value. cbn. rewrite digit_val_char; lia.
    + pose proof (Z.mod_pos_bound n r ltac:(lia)).
      rewrite reverse_cons, fmap_app. cbn [fmap list_fmap].
      rewrite digits_value_snoc, digit_val_char by lia.
      rewrite IH.
      2:{ split; [apply Z.div_pos; lia|].
          rewrite Nat2Z.inj_succ, Z.pow_succ_r in Hn by lia.
          apply Z.div_lt_upper_bound; nia. }
      pose proof (Z.div_mod n r ltac:(lia)). lia.
Qed.

Lemma radix_fuel_enough n : 0 ≤ n → n < 2 ^ Z.of_nat (radix_fuel n).
Proof.
  intros Hn. unfold radix_fuel.
  destruct (Z.eq_dec n 0) as [->|]; [done|].
  rewrite Nat2Z.inj_succ, Z2Nat.id by apply Z.log2_nonneg.
  apply Z.log2_spec. lia.
Qed.

Lemma to_radix_value n : 0 ≤ n → digits_value r (to_radix r n) = n.
Proof using Hr.
  intros. unfold to_radix. apply radix_digits_value.
  split; [done|]. by apply radix_fuel_enough.
Qed.

Lemma to_radix_digits n : 0 ≤ n →
  Forall (λ c, ∃ d, 0 ≤ d < r ∧ c = digit_char d) (to_radix r n).
Proof using Hr.
  intros. unfold to_radix. apply Forall_fmap, Forall_reverse.
  eapply Forall_impl; [by apply radix_digits_range|]. cbn. eauto.
Qed.

Lemma to_radix_nonempty n : to_radix r n ≠ [].
Proof.
  unfold to_radix, radix_fuel. cbn [radix_digits].
  destruct (n <? r); [done|].
  rewrite reverse_cons, fmap_app. by intros [_ ?]%app_eq_nil.
Qed.

(** A number below [r ^ k] has at most [k] digits. *)
Lemma radix_digits_length fuel n k :
  0 ≤ n < r ^ Z.of_nat k → (k ≠ 0)%nat →
  (length (radix_digits fuel r n) ≤ k)%nat.
Proof using Hr.
  revert n k. induction fuel as [|f IH]; intros n k Hn Hk; cbn; [lia|].
  destruct (Z.ltb_spec n r); cbn; [lia|].
  destruct k as [|[|k]]; [done| |].
  - rewrite Z.pow_1_r in Hn. lia.
  - apply le_n_S, IH; [|done]. split; [apply Z.div_pos; lia|].
    rewrite Nat2Z.inj_succ, Z.pow_succ_r in Hn by lia.
    apply Z.div_lt_upper_bound; lia.
Qed.

Lemma to_radix_length n k :
  0 ≤ n < r ^ Z.of_nat k → (k ≠ 0)%nat → (length (to_radix r n) ≤ k)%nat.
Proof using Hr.
  intros. unfold to_radix. rewrite length_fmap, length_reverse.
  by apply radix_digits_length.
Qed.
End radix.

(** ** Lower-casing *)

Section lower.
Context `{JsEngine}.

Lemma to_lower_ascii s :
  Forall (λ c, is_ascii c = true) s → to_lower s = ascii_lower <$> s.
Proof. intros Hs. unfold to_lower. by rewrite (proj2 (forallb_Forall _ _) Hs). Qed.

Lemma ascii_lower_idem c : ascii_lower (ascii_lower c) = ascii_lower c.
Proof. unfold_classes. Zbool. Qed.

Lemma ascii_lower_is_ascii c : is_ascii c = true → is_ascii (ascii_lower c) = true.
Proof. unfold_classes. Zbool. Qed.

Lemma to_lower_idem_ascii s :
  Forall (λ c, is_ascii c = true) s → to_lower (to_lower s) = to_lower s.
Proof.
  intros Hs. rewrite (to_lower_ascii s Hs), to_lower_ascii.
  - rewrite <- list_fmap_compose. apply list_fmap_ext. intros. apply ascii_lower_idem.
  - apply Forall_fmap. eapply Forall_impl; [exact Hs|]. apply ascii_lower_is_ascii.
Qed.

Lemma to_lower_length_ascii s :
  Forall (λ c, is_ascii c = true) s → length (to_lower s) = length s.
Proof. intros Hs. by rewrite to_lower_ascii, length_fmap. Qed.

(** A string of ASCII characters without capitals is its own lower case. *)
Definition is_lower_ascii (c : Z) : bool :=
  is_ascii c && negb ((65 <=? c) && (c <=? 90)).

Lemma to_lower_id s :
  Forall (λ c, is_lower_ascii c = true) s → to_lower s = s.
Proof.
  intros Hs. rewrite to_lower_ascii.
  - induction Hs as [|c s Hc _ IH]; [done|]. cbn. rewrite IH. f_equal.
    unfold is_lower_ascii, ascii_lower in *. revert Hc.
    unfold_classes. Zbool.
  - eapply Forall_impl; [exact Hs|]. unfold is_lower_ascii. intros c.
    by intros [? _]%andb_prop.
Qed.

Lemma digit_char_lower d : 0 ≤ d < 16 → is_lower_ascii (digit_char d) = true.
Proof. intros. unfold is_lower_ascii. unfold_classes. Zbool. Qed.
End lower.

(** ** BigInt and decimal strings *)

Lemma drop_while_none f s :
  match s with c :: _ => f c = false | [] => True end → drop_while f s = s.
Proof. destruct s as [|c s]; [done|]. cbn. by intros ->. Qed.

Lemma trim_digits s :
  Forall (λ c, is_js_space c = false) s → trim s = s.
Proof.
  intros Hs. unfold trim, trim_end.
  rewrite (drop_while_none _ s), drop_while_none, reverse_involutive; [done| |].
  - apply Forall_reverse in Hs. by destruct Hs.
  - by destruct Hs.
Qed.

Lemma digit_not_space c : is_digit c = true → is_js_space c = false.
Proof.
  unfold is_digit, is_js_space. intros [? ?]%andb_prop. reflect_Z.
  rewrite !(proj2 (Z.eqb_neq _ _)), !(proj2 (Z.leb_gt 0x2000 _)), (proj2 (Z.leb_gt _ 13))
    by lia.
  by rewrite andb_false_r.
Qed.

Lemma radix_prefix_digits s : forallb is_digit s = true → radix_prefix s = None.
Proof.
  intros Hs. destruct s as [|c [|p s]]; [done|done|].
  cbn in Hs. unfold radix_prefix. apply andb_prop in Hs as [_ [Hp _]%andb_prop].
  unfold is_digit in Hp. reflect_Z.
  destruct (negb _); [done|].
  by rewrite !(proj2 (Z.eqb_neq _ _)) by lia.
Qed.

Lemma parse_bigint_digits s :
  s ≠ [] → forallb is_digit s = true → parse_bigint s = Some (digits_value 10 s).
Proof.
  intros Hne Hs. unfold parse_bigint.
  rewrite (radix_prefix_digits s Hs).
  destruct s as [|c s]; [done|]. unfold nonempty_all. rewrite Hs.
  cbn in Hs. apply andb_prop in Hs as [Hc _].
  unfold is_digit in Hc. reflect_Z.
  by rewrite !(proj2 (Z.eqb_neq _ _)) by lia.
Qed.

Lemma decimal_digits n : 0 ≤ n → Forall (λ c, is_digit c = true) (to_radix 10 n).
Proof.
  intros. eapply Forall_impl; [by apply to_radix_digits|].
  cbn. intros c (d & ? & ->). by apply digit_char_digit.
Qed.

Lemma BigInt_digits s : s ≠ [] → Forall (λ c, is_digit c = true) s →
  BigInt s = Ret (digits_value 10 s).
Proof.
  intros Hne Hs. unfold BigInt. rewrite trim_digits.
  - by rewrite parse_bigint_digits by (done || by apply forallb_Forall).
  - eapply Forall_impl; [exact Hs|]. apply digit_not_space.
Qed.

Lemma digits_value_app r s t :
  digits_value r (s ++ t) = digits_value r s * r ^ Z.of_nat (length t) + digits_value r t.
Proof.
  induction t as [|c t IH] using rev_ind.
  - rewrite app_nil_r. cbn. lia.
  - rewrite app_assoc, !digits_value_snoc, IH, length_app, Nat.add_1_r.
    rewrite Nat2Z.inj_succ, Z.pow_succ_r by lia. lia.
Qed.

Lemma digits_value_bound s : Forall (λ c, is_digit c = true) s →
  0 ≤ digits_value 10 s < 10 ^ Z.of_nat (length s).
Proof.
  induction s as [|c s IH] using rev_ind; intros Hs; [cbn; lia|].
  apply Forall_app in Hs as [Hs [Hc _]%Forall_cons].
  rewrite digits_value_snoc, length_app, Nat.add_1_r, Nat2Z.inj_succ, Z.pow_succ_r by lia.
  unfold digit_val. rewrite Hc. unfold is_digit in Hc. reflect_Z. specialize (IH Hs). lia.
Qed.

Lemma digits_value_zeros r k : digits_value r (replicate k 48) = 0.
Proof.
  induction k as [|k IH]; [done|]. rewrite replicate_S_end, digits_value_snoc, IH.
  change (digit_val 48) with 0. lia.
Qed.

(** [s.split(c)] of a string with one separator, and without. *)
Lemma split_on_none c s : c ∉ s → split_on c s = [s].
Proof.
  induction s as [|d s IH]; [done|]. rewrite not_elem_of_cons. intros [Hd Hs]. cbn.
  rewrite (proj2 (Z.eqb_neq _ _)) by done. by rewrite IH.
Qed.

Lemma split_on_app c s t : c ∉ s → split_on c (s ++ c :: t) = s :: split_on c t.
Proof.
  induction s as [|d s IH]; cbn.
  - intros _. by rewrite Z.eqb_refl.
  - rewrite not_elem_of_cons. intros [Hd Hs].
    rewrite (proj2 (Z.eqb_neq _ _)) by done. by rewrite IH.
Qed.

Lemma digits_no_unit c s : is_digit c = false → Forall (λ c, is_digit c = true) s → c ∉ s.
Proof. intros Hc Hs Hin. rewrite Forall_forall in Hs. apply Hs in Hin. congruence. Qed.

(** [BigInt(n.toString()) = n]. *)
Lemma BigInt_to_string n : BigInt (bigint_to_string n) = Ret n.
Proof.
  unfold BigInt, bigint_to_string. destruct (Z.ltb_spec n 0).
  - pose proof (decimal_digits (- n) ltac:(lia)) as Hd.
    rewrite trim_digits.
    + unfold parse_bigint. destruct (to_radix 10 (- n)) as [|c s] eqn:E.
      { by apply to_radix_nonempty in E. }
      cbn [radix_prefix Z.eqb negb]. cbn [nonempty_all Z.eqb Pos.eqb].
      rewrite (proj2 (forallb_Forall _ _) Hd), <- E, to_radix_value by lia.
      by rewrite Z.opp_involutive.
    + constructor; [done|]. eapply Forall_impl; [exact Hd|]. apply digit_not_space.
  - pose proof (decimal_digits n ltac:(lia)) as Hd.
    rewrite trim_digits by (eapply Forall_impl; [exact Hd|]; apply digit_not_space).
    rewrite parse_bigint_digits, to_radix_value; try lia; try done.
    + apply to_radix_nonempty.
    + by apply forallb_Forall.
Qed.

Lemma bigint_to_string_inj n m : bigint_to_string n = bigint_to_string m → n = m.
Proof.
  intros E. pose proof (BigInt_to_string n) as H. rewrite E, BigInt_to_string in H.
  by injection H.
Qed.

Lemma bigint_to_string_ascii n :
  Forall (λ c, is_lower_ascii c = true) (bigint_to_string n).
Proof.
  assert (∀ m, 0 ≤ m → Forall (λ c, is_lower_ascii c = true) (to_radix 10 m)).
  { intros. eapply Forall_impl; [by apply to_radix_digits|].
    cbn. intros c (d & ? & ->). apply digit_char_lower. lia. }
  unfold bigint_to_string. destruct (Z.ltb_spec n 0); [constructor; [done|]|]; auto with lia.
Qed.

Lemma is_lower_ascii_unit c : is_lower_ascii c = true → 0 ≤ c < 128.
Proof. unfold is_lower_ascii. unfold_classes. Zbool. Qed.

(** ** Slices at non-negative positions *)

Lemma rel_index_nat len n : 0 ≤ n → rel_index (Z.of_nat len) n = Nat.min (Z.to_nat n) len.
Proof. intros. unfold rel_index. rewrite (proj2 (Z.ltb_ge _ _)) by lia. lia. Qed.

Lemma slice_take_drop s i j : 0 ≤ i → 0 ≤ j →
  slice s i j = take (Z.to_nat j - Z.to_nat i) (drop (Z.to_nat i) s).
Proof.
  intros. unfold slice, str_length. rewrite !rel_index_nat by done.
  destruct (decide (Z.to_nat i ≤ length s)%nat).
  - rewrite (Nat.min_l (Z.to_nat i)) by done.
    destruct (decide (Z.to_nat j ≤ length s)%nat).
    + by rewrite Nat.min_l.
    + rewrite Nat.min_r by lia. rewrite !take_ge; [done|rewrite length_drop; lia..].
  - rewrite (Nat.min_r (Z.to_nat i)) by lia. by rewrite !drop_ge, !take_nil by lia.
Qed.

Lemma slice_from_drop s i : 0 ≤ i → slice_from s i = drop (Z.to_nat i) s.
Proof.
  intros. unfold slice_from. rewrite slice_take_drop by (unfold str_length; lia).
  rewrite take_ge; [done|]. rewrite length_drop. unfold str_length. lia.
Qed.
