(* ===== verification/Utf8.v ===== *)
(** * UTF-8

    [TextEncoder.encode] and [Buffer.from(s, "utf-8")] (lone surrogates become
    U+FFFD), [Buffer.toString("utf-8")] (each maximal ill-formed subpart
    becomes one U+FFFD) and [TextDecoder.decode] (the same, and a leading byte
    order mark is dropped), on UTF-16 code units. *)

From S2P Require Import Prelude.

Definition between (lo hi x : Z) : bool := (lo <=? x) && (x <=? hi).
Definition is_high (c : Z) : bool := between 0xD800 0xDBFF c.
Definition is_low (c : Z) : bool := between 0xDC00 0xDFFF c.

(** The code point of a surrogate pair, and back. *)
Definition pair_cp (c d : Z) : Z := 0x10000 + (c - 0xD800) * 1024 + (d - 0xDC00).
Definition cp_units (cp : Z) : jsstr :=
  if cp <? 0x10000 then [cp]
  else [0xD800 + (cp - 0x10000) / 1024; 0xDC00 + (cp - 0x10000) mod 1024].

Definition enc3 (c : Z) : bytes :=
  [0xE0 + c / 4096; 0x80 + c / 64 mod 64; 0x80 + c mod 64].
Definition enc4 (c : Z) : bytes :=
  [0xF0 + c / 262144; 0x80 + c / 4096 mod 64; 0x80 + c / 64 mod 64; 0x80 + c mod 64].

Fixpoint utf8_encode (s : jsstr) : bytes :=
  match s with
  | [] => []
  | c :: s' =>
      if c <? 0x80 then c :: utf8_encode s'
      else if c <? 0x800 then [0xC0 + c / 64; 0x80 + c mod 64] ++ utf8_encode s'
      else if is_high c then
        match s' with
        | d :: s'' =>
            if is_low d then enc4 (pair_cp c d) ++ utf8_encode s''
            else enc3 0xFFFD ++ utf8_encode s'
        | [] => enc3 0xFFFD
        end
      else if is_low c then enc3 0xFFFD ++ utf8_encode s'
      else enc3 c ++ utf8_encode s'
  end.

Definition is_cont (b : Z) : bool := between 0x80 0xBF b.

(** The range of the second byte of a three- or four-byte sequence. *)
Definition second_ok (b0 b1 : Z) : bool :=
  between (if b0 =? 0xE0 then 0xA0 else if b0 =? 0xF0 then 0x90 else 0x80)
          (if b0 =? 0xED then 0x9F else if b0 =? 0xF4 then 0x8F else 0xBF) b1.

Fixpoint utf8_decode (b : bytes) : jsstr :=
  match b with
  | [] => []
  | b0 :: r0 =>
      if b0 <? 0x80 then b0 :: utf8_decode r0
      else if between 0xC2 0xDF b0 then
        match r0 with
        | b1 :: r1 =>
            if is_cont b1 then (b0 - 0xC0) * 64 + (b1 - 0x80) :: utf8_decode r1
            else 0xFFFD :: utf8_decode r0
        | [] => [0xFFFD]
        end
      else if between 0xE0 0xEF b0 then
        match r0 with
        | b1 :: r1 =>
            if second_ok b0 b1 then
              match r1 with
              | b2 :: r2 =>
                  if is_cont b2 then
                    (b0 - 0xE0) * 4096 + (b1 - 0x80) * 64 + (b2 - 0x80) :: utf8_decode r2
                  else 0xFFFD :: utf8_decode r1
              | [] => [0xFFFD]
              end
            else 0xFFFD :: utf8_decode r0
        | [] => [0xFFFD]
        end
      else if between 0xF0 0xF4 b0 then
        match r0 with
        | b1 :: r1 =>
            if second_ok b0 b1 then
              match r1 with
              | b2 :: r2 =>
                  if is_cont b2 then
                    match r2 with
                    | b3 :: r3 =>
                        if is_cont b3 then
                          cp_units ((b0 - 0xF0) * 262144 + (b1 - 0x80) * 4096
                                    + (b2 - 0x80) * 64 + (b3 - 0x80)) ++ utf8_decode r3
                        else 0xFFFD :: utf8_decode r2
                    | [] => [0xFFFD]
                    end
                  else 0xFFFD :: utf8_decode r1
              | [] => [0xFFFD]
              end
            else 0xFFFD :: utf8_decode r0
        | [] => [0xFFFD]
        end
      else 0xFFFD :: utf8_decode r0
  end.

(** [new TextDecoder("utf-8").decode(b)]. *)
Definition text_decode (b : bytes) : jsstr :=
  if bool_decide (take 3 b = [0xEF; 0xBB; 0xBF]) then utf8_decode (drop 3 b)
  else utf8_decode b.

(** A string without lone surrogates ([isWellFormed]). *)
Fixpoint well_formed (s : jsstr) : bool :=
  match s with
  | [] => true
  | c :: s' =>
      if is_high c then
        match s' with d :: s'' => is_low d && well_formed s'' | [] => false end
      else negb (is_low c) && well_formed s'
  end.

(** ** Round trip *)

Ltac unfold_utf8 := unfold is_high, is_low, is_cont, second_ok, between in *.

Lemma between_true lo hi x : between lo hi x = true ↔ lo ≤ x ≤ hi.
Proof. unfold between. rewrite andb_true_iff, !Z.leb_le. done. Qed.
Lemma between_false lo hi x : between lo hi x = false ↔ x < lo ∨ hi < x.
Proof. unfold between. rewrite andb_false_iff, !Z.leb_gt. done. Qed.

(** Decide a range test in the goal by arithmetic. *)
Ltac range_true := rewrite (proj2 (between_true _ _ _)) by lia.
Ltac range_false := rewrite (proj2 (between_false _ _ _)) by lia.

(** Induction on strings by one or two units at a time. *)
Lemma pair_ind (P : jsstr → Prop) :
  P [] → (∀ c, P [c]) →
  (∀ c d s, P s → P (d :: s) → P (c :: d :: s)) → ∀ s, P s.
Proof.
  intros H0 H1 H2 s. enough (P s ∧ ∀ c, P (c :: s)) as [? _] by done.
  induction s as [|d s [IH1 IH2]]; split; auto.
Qed.

Lemma div_mod_le a b : 0 < b → 0 ≤ a → a = b * (a / b) + a mod b ∧ 0 ≤ a mod b < b ∧ 0 ≤ a / b.
Proof.
  intros. split; [apply Z.div_mod; lia|].
  split; [by apply Z.mod_pos_bound|by apply Z.div_pos].
Qed.

Lemma decode_enc2 c r : 0x80 ≤ c < 0x800 →
  utf8_decode ([0xC0 + c / 64; 0x80 + c mod 64] ++ r) = c :: utf8_decode r.
Proof.
  intros. destruct (div_mod_le c 64) as (? & ? & ?); [lia..|].
  cbn [app utf8_decode]. rewrite (proj2 (Z.ltb_ge _ _)) by lia.
  unfold is_cont. do 2 range_true. f_equal. lia.
Qed.

Lemma decode_enc3 c r : 0x800 ≤ c < 0x10000 → is_high c = false → is_low c = false →
  utf8_decode (enc3 c ++ r) = c :: utf8_decode r.
Proof.
  unfold is_high, is_low. rewrite !between_false. intros.
  destruct (div_mod_le c 64) as (? & ? & ?); [lia..|].
  destruct (div_mod_le (c / 64) 64) as (? & ? & ?); [lia..|].
  assert (c / 4096 = c / 64 / 64) as Hc by (rewrite Z.div_div by lia; done).
  unfold enc3. cbn [app utf8_decode]. rewrite Hc.
  rewrite (proj2 (Z.ltb_ge _ _)) by lia.
  range_false. range_true. unfold second_ok, is_cont.
  match goal with |- context [between ?lo ?hi ?x] => rewrite (proj2 (between_true lo hi x)) end.
  - range_true. f_equal. lia.
  - destruct (Z.eqb_spec (0xE0 + c / 64 / 64) 0xE0), (Z.eqb_spec (0xE0 + c / 64 / 64) 0xED),
      (Z.eqb_spec (0xE0 + c / 64 / 64) 0xF0), (Z.eqb_spec (0xE0 + c / 64 / 64) 0xF4); lia.
Qed.

Lemma decode_enc4 c r : 0x10000 ≤ c < 0x110000 →
  utf8_decode (enc4 c ++ r) = cp_units c ++ utf8_decode r.
Proof.
  intros.
  destruct (div_mod_le c 64) as (? & ? & ?); [lia..|].
  destruct (div_mod_le (c / 64) 64) as (? & ? & ?); [lia..|].
  destruct (div_mod_le (c / 64 / 64) 64) as (? & ? & ?); [lia..|].
  assert (c / 4096 = c / 64 / 64) as Hq1 by (rewrite Z.div_div by lia; done).
  assert (c / 262144 = c / 64 / 64 / 64) as Hq2 by (rewrite !Z.div_div by lia; done).
  unfold enc4. cbn [app utf8_decode]. rewrite Hq1, Hq2.
  rewrite (proj2 (Z.ltb_ge _ _)) by lia.
  do 2 range_false. range_true. unfold second_ok, is_cont.
  set (q := c / 64 / 64 / 64) in *.
  match goal with |- context [between ?lo ?hi ?x] => rewrite (proj2 (between_true lo hi x)) end.
  - do 2 range_true. do 2 f_equal. lia.
  - destruct (Z.eqb_spec (0xF0 + q) 0xE0), (Z.eqb_spec (0xF0 + q) 0xED),
      (Z.eqb_spec (0xF0 + q) 0xF0), (Z.eqb_spec (0xF0 + q) 0xF4); lia.
Qed.

Lemma cp_units_pair c d : is_high c = true → is_low d = true →
  0x10000 ≤ pair_cp c d < 0x110000 ∧ cp_units (pair_cp c d) = [c; d].
Proof.
  unfold is_high, is_low. rewrite !between_true. intros. unfold pair_cp.
  split; [lia|]. unfold cp_units. rewrite (proj2 (Z.ltb_ge _ _)) by lia.
  replace (0x10000 + (c - 0xD800) * 1024 + (d - 0xDC00) - 0x10000)
    with ((d - 0xDC00) + (c - 0xD800) * 1024) by lia.
  rewrite Z.div_add, Z.mod_add, Z.div_small, Z.mod_small by lia.
  do 2 f_equal; [|f_equal]; lia.
Qed.

Lemma encode_scalar c s : is_unit c → is_high c = false → is_low c = false →
  utf8_decode (utf8_encode (c :: s)) = c :: utf8_decode (utf8_encode s).
Proof.
  unfold is_unit. intros Hc Hh Hl. cbn [utf8_encode].
  destruct (Z.ltb_spec c 0x80).
  - cbn [utf8_decode]. rewrite (proj2 (Z.ltb_lt _ _)) by lia. done.
  - destruct (Z.ltb_spec c 0x800).
    + apply decode_enc2. lia.
    + rewrite Hh, Hl. apply decode_enc3; [lia|done|done].
Qed.

(** Decoding inverts encoding on every well-formed string. *)
Lemma utf8_roundtrip s :
  is_units s → well_formed s = true → utf8_decode (utf8_encode s) = s.
Proof.
  induction s as [|c|c d s IH1 IH2] using pair_ind; intros Hu Hwf; [done| |].
  - inversion_clear Hu as [|?? Hc]. cbn in Hwf.
    destruct (is_high c) eqn:Hh; [done|]. rewrite andb_true_r in Hwf.
    rewrite encode_scalar; [done|done|done|]. by destruct (is_low c).
  - inversion_clear Hu as [|?? Hc Hu']. cbn [well_formed] in Hwf.
    destruct (is_high c) eqn:Hh.
    + apply andb_prop in Hwf as [Hl Hwf].
      destruct (cp_units_pair c d Hh Hl) as [Hr Hu].
      assert (0xD800 ≤ c) by (unfold is_high in Hh; apply between_true in Hh; lia).
      cbn [utf8_encode]. rewrite !(proj2 (Z.ltb_ge _ _)) by lia.
      rewrite Hh, Hl, decode_enc4, Hu by done. cbn [app].
      rewrite IH1; [done| |done]. by inversion Hu'.
    + apply andb_prop in Hwf as [Hl Hwf].
      rewrite encode_scalar; [|done|done|by destruct (is_low c)].
      by rewrite IH2.
Qed.

Lemma enc3_bytes c : 0 ≤ c < 0x10000 → is_bytes (enc3 c).
Proof.
  intros. unfold enc3.
  pose proof (Z.mod_pos_bound (c / 64) 64 ltac:(lia)).
  pose proof (Z.mod_pos_bound c 64 ltac:(lia)).
  assert (0 ≤ c / 4096 < 16) by
    (split; [apply Z.div_pos; lia|apply Z.div_lt_upper_bound; lia]).
  repeat constructor; lia.
Qed.

Lemma enc4_bytes c : 0 ≤ c < 0x110000 → is_bytes (enc4 c).
Proof.
  intros. unfold enc4.
  pose proof (Z.mod_pos_bound (c / 4096) 64 ltac:(lia)).
  pose proof (Z.mod_pos_bound (c / 64) 64 ltac:(lia)).
  pose proof (Z.mod_pos_bound c 64 ltac:(lia)).
  assert (0 ≤ c / 262144 < 5) by
    (split; [apply Z.div_pos; lia|apply Z.div_lt_upper_bound; lia]).
  repeat constructor; lia.
Qed.

Lemma utf8_encode_cons2 c d s :
  utf8_encode (c :: d :: s) =
    if c <? 0x80 then c :: utf8_encode (d :: s)
    else if c <? 0x800 then [0xC0 + c / 64; 0x80 + c mod 64] ++ utf8_encode (d :: s)
    else if is_high c then
      if is_low d then enc4 (pair_cp c d) ++ utf8_encode s
      else enc3 0xFFFD ++ utf8_encode (d :: s)
    else if is_low c then enc3 0xFFFD ++ utf8_encode (d :: s)
    else enc3 c ++ utf8_encode (d :: s).
Proof. reflexivity. Qed.

Lemma utf8_encode_bytes s : is_units s → is_bytes (utf8_encode s).
Proof.
  induction s as [|c|c d s IH1 IH2] using pair_ind; intros Hu; [constructor| |];
    inversion_clear Hu as [|?? Hc Hu']; unfold is_unit in Hc.
  - cbn [utf8_encode]. destruct (Z.ltb_spec c 0x80); [repeat constructor; lia|].
    destruct (Z.ltb_spec c 0x800).
    { destruct (div_mod_le c 64) as (? & ? & ?); [lia..|]. repeat constructor; lia. }
    destruct (is_high c), (is_low c); rewrite ?app_nil_r; by apply enc3_bytes.
  - rewrite utf8_encode_cons2. specialize (IH2 Hu'). assert (is_bytes (utf8_encode s)) by (apply IH1; by inversion Hu').
    destruct (Z.ltb_spec c 0x80); [constructor; [unfold is_byte; lia|done]|].
    destruct (Z.ltb_spec c 0x800).
    { destruct (div_mod_le c 64) as (? & ? & ?); [lia..|]. apply Forall_app; split; [repeat constructor; lia|done]. }
    destruct (is_high c) eqn:Hh.
    { destruct (is_low d) eqn:Hl; apply Forall_app; (split; [|done]).
      - apply enc4_bytes. destruct (cp_units_pair c d Hh Hl). lia.
      - by apply enc3_bytes. }
    destruct (is_low c); apply Forall_app; (split; [|done]); by apply enc3_bytes.
Qed.

(** ASCII strings encode to themselves. *)
Lemma utf8_encode_ascii s : Forall (λ c, 0 ≤ c < 128) s → utf8_encode s = s.
Proof.
  induction 1 as [|c s Hc _ IH]; [done|]. cbn [utf8_encode].
  rewrite (proj2 (Z.ltb_lt _ _)) by lia. by rewrite IH.
Qed.

Lemma utf8_decode_ascii s : Forall (λ c, 0 ≤ c < 128) s → utf8_decode s = s.
Proof.
  induction 1 as [|c s Hc _ IH]; [done|]. cbn [utf8_decode].
  rewrite (proj2 (Z.ltb_lt _ _)) by lia. by rewrite IH.
Qed.

Lemma well_formed_ascii s : Forall (λ c, 0 ≤ c < 128) s → well_formed s = true.
Proof.
  induction 1 as [|c s Hc _ IH]; [done|]. cbn [well_formed].
  unfold is_high, is_low. do 2 range_false. done.
Qed.

Lemma well_formed_app_ascii s t : Forall (λ c, 0 ≤ c < 128) s →
  well_formed (s ++ t) = well_formed t.
Proof.
  induction 1 as [|c s Hc _ IH]; [done|]. cbn [well_formed app].
  unfold is_high, is_low. do 2 range_false. done.
Qed.

(** [TextDecoder] and [Buffer.toString] agree when there is no byte order mark. *)
Lemma text_decode_no_bom b : take 3 b ≠ [0xEF; 0xBB; 0xBF] → text_decode b = utf8_decode b.
Proof.
  intros Hb. unfold text_decode. by rewrite bool_decide_eq_false_2.
Qed.
