(* ===== verification/JsNumber.v ===== *)
(** * JavaScript numbers

    The IEEE-754 doubles that [JSON.parse] and [JSON.stringify] read and write:
    correct rounding of a decimal literal, the shortest round-tripping decimal
    of a double, truthiness and the increment [n++] of a counter.  A finite
    non-zero double is [NFin m e], the value [m * 2 ^ e] with [m] odd, so that
    Rocq's equality is the equality of values.  [NaN] is no JSON number. *)

From S2P Require Import Prelude JsString.

Inductive jsnum : Type :=
| NZero (neg : bool)
| NFin (m e : Z)
| NInf (neg : bool).

#[export] Instance jsnum_eq_dec : EqDecision jsnum.
Proof. solve_decision. Defined.

(** Make the significand odd. *)
Fixpoint strip_pos (m : positive) (e : Z) : positive * Z :=
  match m with xO m' => strip_pos m' (e + 1) | _ => (m, e) end.

Definition signed (neg : bool) (m : Z) : Z := if neg then - m else m.

(** [± m * 2 ^ e] as a canonical double, when it is exact. *)
Definition num_exact (neg : bool) (m e : Z) : jsnum :=
  match m with
  | Zpos p => let '(p', e') := strip_pos p e in NFin (signed neg (Zpos p')) e'
  | _ => NZero neg
  end.

(** Division rounded to nearest, ties to even. *)
Definition div_half_even (a b : Z) : Z :=
  let q := a / b in
  let r := a mod b in
  if 2 * r <? b then q
  else if b <? 2 * r then q + 1
  else if Z.even q then q else q + 1.

(** The double nearest to [± num / den]. *)
Definition num_round (neg : bool) (num den : Z) : jsnum :=
  let e0 := Z.log2 num - Z.log2 den - 52 in
  let scaled e := if 0 <=? e then (num, den * 2 ^ e) else (num * 2 ^ (- e), den) in
  let '(a0, b0) := scaled e0 in
  let e := Z.max (-1074) (if a0 / b0 <? 2 ^ 52 then e0 - 1 else e0) in
  let '(a, b) := scaled e in
  let m := div_half_even a b in
  if (971 <? e) || ((e =? 971) && (2 ^ 53 <=? m)) then NInf neg
  else num_exact neg m e.

Definition num_of_Z (z : Z) : jsnum :=
  if Z.abs z <=? 2 ^ 53 then num_exact (z <? 0) (Z.abs z) 0
  else num_round (z <? 0) (Z.abs z) 1.

(** The double of the decimal literal [± m * 10 ^ e].  A literal beyond the
    largest double or below half the smallest one is decided by its magnitude,
    without computing the power of ten. *)
Definition num_of_decimal (neg : bool) (m e : Z) : jsnum :=
  if m =? 0 then NZero neg
  else
    let mag := Z.of_nat (length (to_radix 10 m)) + e in
    if 400 <? mag then NInf neg
    else if mag <? -400 then NZero neg
    else if 0 <=? e then
      let n := m * 10 ^ e in
      if n <=? 2 ^ 53 then num_exact neg n 0 else num_round neg n 1
    else num_round neg m (10 ^ (- e)).

(** ** Number::toString *)

(** [a / b < 10 ^ n]. *)
Definition below_pow10 (a b n : Z) : bool :=
  if 0 <=? n then a <? b * 10 ^ n else a * 10 ^ (- n) <? b.

(** The [n] with [10 ^ (n - 1) ≤ a / b < 10 ^ n], searched upwards from an
    estimate that is at most three too low. *)
Definition decimal_point_from (a b : Z) : Z :=
  (Z.log2 a - Z.log2 b - 1) * 30103 / 100000 - 1.

Fixpoint decimal_point (fuel : nat) (a b n : Z) : Z :=
  match fuel with
  | O => n
  | S f => if below_pow10 a b n then n else decimal_point f a b (n + 1)
  end.

(** The least [k] and the digits [s] of [k] digits for which [s * 10 ^ (n - k)]
    rounds to the double [x = a / b]; the closer of two candidates. *)
Fixpoint shortest (fuel : nat) (x : jsnum) (a b n k : Z) : Z * Z :=
  match fuel with
  | O => (0, k)
  | S f =>
      let p := n - k in
      let '(a', b') := if 0 <=? p then (a, b * 10 ^ p) else (a * 10 ^ (- p), b) in
      let s := a' / b' in
      let good t := bool_decide (num_of_decimal false t p = x) in
      let lo := (10 ^ (k - 1) <=? s) && good s in
      let hi := (s + 1 <? 10 ^ k) && good (s + 1) in
      if lo && (negb hi || (2 * (a' mod b') <=? b')) then (s, k)
      else if hi then (s + 1, k)
      else shortest f x a b n (k + 1)
  end.

(** The layout of the digits [ds] with the decimal point after place [n]. *)
Definition layout (ds : jsstr) (n : Z) : jsstr :=
  let k := str_length ds in
  let zeros z := replicate (Z.to_nat z) 48 in
  if (k <=? n) && (n <=? 21) then ds ++ zeros (n - k)
  else if (0 <? n) && (n <=? 21) then slice ds 0 n ++ [46] ++ slice_from ds n
  else if (-6 <? n) && (n <=? 0) then [48; 46] ++ zeros (- n) ++ ds
  else
    let ex := (if 0 <=? n - 1 then [43] else [45]) ++ to_radix 10 (Z.abs (n - 1)) in
    if k =? 1 then ds ++ [101] ++ ex
    else slice ds 0 1 ++ [46] ++ slice_from ds 1 ++ [101] ++ ex.

Definition fin_to_string (m e : Z) : jsstr :=
  let am := Z.abs m in
  let '(a, b) := if 0 <=? e then (am * 2 ^ e, 1) else (am, 2 ^ (- e)) in
  let n := decimal_point 5 a b (decimal_point_from a b) in
  let '(s, _) := shortest 18 (NFin am e) a b n 1 in
  (if m <? 0 then [45] else []) ++ layout (to_radix 10 s) n.

(** [String(n)]; an integer up to [2 ^ 53] prints its decimal digits. *)
Definition num_to_string (n : jsnum) : jsstr :=
  match n with
  | NZero _ => js "0"
  | NInf false => js "Infinity"
  | NInf true => js "-Infinity"
  | NFin m e =>
      if (0 <=? e) && (Z.abs m * 2 ^ e <=? 2 ^ 53) then bigint_to_string (m * 2 ^ e)
      else fin_to_string m e
  end.

(** [Boolean(n)]. *)
Definition num_truthy (n : jsnum) : bool :=
  match n with NZero _ => false | _ => true end.

(** The value of a counter after [n++], for a non-negative integer double: at
    [2 ^ 53] the sum rounds back to [2 ^ 53]. *)
Definition num_incr (n : Z) : Z := if n <? 2 ^ 53 then n + 1 else n.

(** ** Lemmas *)

Lemma strip_pos_value m e : 0 ≤ e →
  let '(m', e') := strip_pos m e in 0 ≤ e' ∧ Zpos m' * 2 ^ e' = Zpos m * 2 ^ e.
Proof.
  revert e. induction m as [m IH|m IH|]; intros e He; cbn [strip_pos]; [done| |done].
  specialize (IH (e + 1) ltac:(lia)). destruct (strip_pos m (e + 1)) as [m' e'].
  destruct IH as [? ->]. split; [done|]. rewrite Z.pow_add_r, Z.pow_1_r by lia. lia.
Qed.

(** A safe integer prints as its decimal digits. *)
Lemma num_to_string_of_Z z :
  Z.abs z ≤ 2 ^ 53 → num_to_string (num_of_Z z) = bigint_to_string z.
Proof.
  intros Hz. unfold num_of_Z. rewrite (proj2 (Z.leb_le _ _) Hz).
  destruct (Z.eq_dec z 0) as [->|Hne]; [done|]. unfold num_exact.
  destruct (Z.abs z) as [|p|p] eqn:Ep; [lia| |lia].
  pose proof (strip_pos_value p 0 ltac:(lia)) as Hs.
  destruct (strip_pos p 0) as [p' e']. destruct Hs as [He Hv].
  rewrite Z.pow_0_r, Z.mul_1_r in Hv. cbn [num_to_string].
  rewrite (proj2 (Z.leb_le 0 e') He). unfold signed.
  destruct (Z.ltb_spec z 0).
  - rewrite Z.abs_opp, Z.abs_eq, Hv, (proj2 (Z.leb_le _ _) Hz) by lia. cbn [andb].
    f_equal. lia.
  - rewrite Z.abs_eq, Hv, (proj2 (Z.leb_le _ _) Hz) by lia. cbn [andb]. f_equal. lia.
Qed.

Lemma num_incr_bounds n : 0 ≤ n ≤ 2 ^ 53 → n ≤ num_incr n ≤ 2 ^ 53.
Proof. unfold num_incr. destruct (Z.ltb_spec n (2 ^ 53)); lia. Qed.

Lemma num_incr_succ n : n < 2 ^ 53 → num_incr n = n + 1.
Proof. intros. unfold num_incr. by rewrite (proj2 (Z.ltb_lt _ _)). Qed.

(** The rounding and printing agree with an engine on known doubles: 0.1, a
    tie above 2 ^ 53, an exponent form, the smallest double, an overflow. *)
Example num_decimal_tenth :
  num_to_string (num_of_decimal false 1 (-1)) = js "0.1".
Proof. vm_compute. reflexivity. Qed.
Example num_decimal_ties :
  num_to_string (num_of_decimal false 9007199254740993 0) = js "9007199254740992".
Proof. vm_compute. reflexivity. Qed.
Example num_decimal_exponent :
  num_to_string (num_of_decimal true 1 22) = js "-1e+22".
Proof. vm_compute. reflexivity. Qed.
Example num_decimal_small :
  num_to_string (num_of_decimal false 49 (-325)) = js "5e-324".
Proof. vm_compute. reflexivity. Qed.
Example num_decimal_overflow : num_of_decimal false 18 308 = NInf false.
Proof. vm_compute. reflexivity. Qed.
Example num_decimal_underflow : num_of_decimal false 1 (-400) = NZero false.
Proof. vm_compute. reflexivity. Qed.
