(* ===== verification/Json.v ===== *)
(** * JSON

    The values [JSON.parse] builds, [JSON.parse] itself (RFC 8259 grammar,
    duplicate keys, property enumeration order) and [JSON.stringify] without
    indentation (control characters and lone surrogates escaped).

    The parser is written with fuel; [JSON_parse] gives it one unit more than
    twice the characters of the text, which [JSON_parse_total] shows is enough for
    every text: the result is a value or a [SyntaxError], never "out of fuel". *)

From S2P Require Import Prelude JsString JsNumber Utf8.

#[local] Set Warnings "-register-all".

Inductive json : Type :=
| JNull
| JBool (b : bool)
| JNum (n : jsnum)
| JStr (s : jsstr)
| JArr (l : list json)
| JObj (kvs : list (jsstr * json)).

Section json_ind.
Context (P : json → Prop)
  (Hnull : P JNull) (Hbool : ∀ b, P (JBool b)) (Hnum : ∀ n, P (JNum n))
  (Hstr : ∀ s, P (JStr s)) (Harr : ∀ l, Forall P l → P (JArr l))
  (Hobj : ∀ kvs, Forall (λ kv, P kv.2) kvs → P (JObj kvs)).

Fixpoint json_nested_ind (v : json) : P v :=
  match v with
  | JNull => Hnull
  | JBool b => Hbool b
  | JNum n => Hnum n
  | JStr s => Hstr s
  | JArr l => Harr l ((fix go l : Forall P l :=
      match l with
      | [] => Forall_nil_2 _
      | x :: l' => Forall_cons_2 _ _ _ (json_nested_ind x) (go l')
      end) l)
  | JObj kvs => Hobj kvs ((fix go l : Forall (λ kv, P kv.2) l :=
      match l with
      | [] => Forall_nil_2 _
      | kv :: l' => Forall_cons_2 _ _ _ (json_nested_ind kv.2) (go l')
      end) kvs)
  end.
End json_ind.

#[export] Instance json_eq_dec : EqDecision json.
Proof.
  refine (fix go (v w : json) : {v = w} + {v ≠ w} :=
    match v, w with
    | JNull, JNull => left eq_refl
    | JBool a, JBool b => cast_if (decide (a = b))
    | JNum a, JNum b => cast_if (decide (a = b))
    | JStr a, JStr b => cast_if (decide (a = b))
    | JArr a, JArr b => cast_if (@list_eq_dec _ go a b)
    | JObj a, JObj b => cast_if (@list_eq_dec _ (@prod_eq_dec _ _ _ go) a b)
    | _, _ => right _
    end); clear go; abstract congruence.
Defined.

(** ** Objects

    The properties of an object in enumeration order: array indices ascending,
    then the other keys in order of creation. *)

Definition array_index (k : jsstr) : option Z :=
  if nonempty_all is_digit k then
    let n := digits_value 10 k in
    if (n <? 2 ^ 32 - 1) && str_eqb (bigint_to_string n) k then Some n else None
  else None.

Fixpoint insert_prop (i : Z) (kv : jsstr * json) (kvs : list (jsstr * json)) :=
  match kvs with
  | (k, v) :: kvs' =>
      match array_index k with
      | Some j => if j <? i then (k, v) :: insert_prop i kv kvs' else kv :: kvs
      | None => kv :: kvs
      end
  | [] => [kv]
  end.

Fixpoint replace_prop (k : jsstr) (v : json) (kvs : list (jsstr * json)) :=
  match kvs with
  | (k', v') :: kvs' =>
      if str_eqb k' k then (k', v) :: kvs' else (k', v') :: replace_prop k v kvs'
  | [] => []
  end.

Definition has_prop (k : jsstr) (kvs : list (jsstr * json)) : bool :=
  existsb (λ kv, str_eqb kv.1 k) kvs.

(** CreateDataProperty. *)
Definition obj_put (kvs : list (jsstr * json)) (k : jsstr) (v : json) :=
  if has_prop k kvs then replace_prop k v kvs
  else match array_index k with
       | Some i => insert_prop i (k, v) kvs
       | None => kvs ++ [(k, v)]
       end.

Fixpoint lookup_prop (k : jsstr) (kvs : list (jsstr * json)) : option json :=
  match kvs with
  | (k', v) :: kvs' => if str_eqb k' k then Some v else lookup_prop k kvs'
  | [] => None
  end.

(** [v.k], for a key that no prototype of a JSON value defines; [None] is
    [undefined].  The program reads no property of [null] or [undefined]. *)
Definition get (v : json) (k : jsstr) : option json :=
  match v with JObj kvs => lookup_prop k kvs | _ => None end.

Definition object_keys (kvs : list (jsstr * json)) : list jsstr := kvs.*1.

(** An object literal whose properties may be [undefined], as
    [JSON.stringify] sees it. *)
Definition obj_defined (kvs : list (jsstr * option json)) : json :=
  JObj (omap (λ kv, (λ v, (kv.1, v)) <$> kv.2) kvs).

(** [Boolean(v)]. *)
Definition truthy (v : json) : bool :=
  match v with
  | JNull => false
  | JBool b => b
  | JNum n => num_truthy n
  | JStr s => bool_decide (s ≠ [])
  | JArr _ | JObj _ => true
  end.

Definition truthy_opt (v : option json) : bool :=
  match v with Some v => truthy v | None => false end.

(** ** Parsing *)

Definition is_json_space (c : Z) : bool := (c =? 32) || (c =? 9) || (c =? 10) || (c =? 13).
Definition skip_ws (s : jsstr) : jsstr := drop_while is_json_space s.

(** The unit a one-letter escape denotes. *)
Definition simple_escape (e : Z) : option Z :=
  if (e =? 34) || (e =? 92) || (e =? 47) then Some e
  else if e =? 98 then Some 8
  else if e =? 102 then Some 12
  else if e =? 110 then Some 10
  else if e =? 114 then Some 13
  else if e =? 116 then Some 9
  else None.

Definition cons_fst (c : Z) (r : option (jsstr * jsstr)) : option (jsstr * jsstr) :=
  match r with Some (t, rest) => Some (c :: t, rest) | None => None end.

(** The characters of a string literal after its opening quote. *)
Fixpoint parse_chars (s : jsstr) : option (jsstr * jsstr) :=
  match s with
  | [] => None
  | c :: r =>
      if c =? 34 then Some ([], r)
      else if c =? 92 then
        match r with
        | e :: r' =>
            if e =? 117 then
              match r' with
              | h1 :: h2 :: h3 :: h4 :: r'' =>
                  if forallb is_hex_digit [h1; h2; h3; h4]
                  then cons_fst (digits_value 16 [h1; h2; h3; h4]) (parse_chars r'')
                  else None
              | _ => None
              end
            else match simple_escape e with
                 | Some u => cons_fst u (parse_chars r')
                 | None => None
                 end
        | [] => None
        end
      else if c <? 32 then None
      else cons_fst c (parse_chars r)
  end.

(** An optional one-character sign. *)
Definition opt_sign (sign : Z) (s : jsstr) : bool * jsstr :=
  match expect sign s with Some r => (true, r) | None => (false, s) end.

(** The fraction digits and the exponent of a number, where they are present. *)
Definition parse_frac (s : jsstr) : option (jsstr * jsstr) :=
  match expect 46 s with
  | Some r =>
      match take_while is_digit r with
      | [] => None
      | ds => Some (ds, drop_while is_digit r)
      end
  | None => Some ([], s)
  end.

Definition parse_exp (s : jsstr) : option (Z * jsstr) :=
  match s with
  | c :: r =>
      if (c =? 101) || (c =? 69) then
        let '(neg, r) := opt_sign 45 r in
        let r := if neg then r else (opt_sign 43 r).2 in
        match take_while is_digit r with
        | [] => None
        | ds => Some (signed neg (digits_value 10 ds), drop_while is_digit r)
        end
      else Some (0, s)
  | [] => Some (0, s)
  end.

Definition valid_int (ds : jsstr) : bool :=
  match ds with [] => false | [_] => true | c :: _ => negb (c =? 48) end.

Definition parse_number (s : jsstr) : option (jsnum * jsstr) :=
  let '(neg, s) := opt_sign 45 s in
  let ip := take_while is_digit s in
  if valid_int ip then
    match parse_frac (drop_while is_digit s) with
    | Some (fp, s) =>
        match parse_exp s with
        | Some (ex, s) =>
            Some (num_of_decimal neg (digits_value 10 (ip ++ fp)) (ex - str_length fp), s)
        | None => None
        end
    | None => None
    end
  else None.

Inductive presult (A : Type) : Type :=
| POk (a : A) (rest : jsstr)
| PErr
| PFuel.
Arguments POk {A} _ _.
Arguments PErr {A}.
Arguments PFuel {A}.

Definition parse_literal (s : jsstr) : presult json :=
  if starts_with s (js "true") then POk (JBool true) (drop 4 s)
  else if starts_with s (js "false") then POk (JBool false) (drop 5 s)
  else if starts_with s (js "null") then POk JNull (drop 4 s)
  else match parse_number s with Some (n, r) => POk (JNum n) r | None => PErr end.

(** The key of a member, its colon and the white space around it. *)
Definition parse_key (s : jsstr) : option (jsstr * jsstr) :=
  match expect 34 s with
  | Some r =>
      match parse_chars r with
      | Some (k, r1) =>
          match expect 58 (skip_ws r1) with
          | Some r2 => Some (k, skip_ws r2)
          | None => None
          end
      | None => None
      end
  | None => None
  end.

(** A value at the head of [s]; the members of an object from a key on; the
    elements of an array from a value on. *)
Fixpoint parse_value (fuel : nat) (s : jsstr) {struct fuel} : presult json :=
  match fuel with
  | O => PFuel
  | S f =>
      match s with
      | [] => PErr
      | c :: r =>
          if c =? 123 then
            match expect 125 (skip_ws r) with
            | Some r' => POk (JObj []) r'
            | None => parse_members f [] (skip_ws r)
            end
          else if c =? 91 then
            match expect 93 (skip_ws r) with
            | Some r' => POk (JArr []) r'
            | None => parse_elements f [] (skip_ws r)
            end
          else if c =? 34 then
            match parse_chars r with
            | Some (t, r') => POk (JStr t) r'
            | None => PErr
            end
          else parse_literal s
      end
  end
with parse_members (fuel : nat) (acc : list (jsstr * json)) (s : jsstr) {struct fuel} :=
  match fuel with
  | O => PFuel
  | S f =>
      match parse_key s with
      | None => PErr
      | Some (k, r) =>
          match parse_value f r with
          | POk v r' =>
              let acc' := obj_put acc k v in
              match expect 44 (skip_ws r') with
              | Some r'' => parse_members f acc' (skip_ws r'')
              | None =>
                  match expect 125 (skip_ws r') with
                  | Some r'' => POk (JObj acc') r''
                  | None => PErr
                  end
              end
          | PErr => PErr
          | PFuel => PFuel
          end
      end
  end
with parse_elements (fuel : nat) (acc : list json) (s : jsstr) {struct fuel} :=
  match fuel with
  | O => PFuel
  | S f =>
      match parse_value f s with
      | POk v r =>
          let acc' := acc ++ [v] in
          match expect 44 (skip_ws r) with
          | Some r' => parse_elements f acc' (skip_ws r')
          | None =>
              match expect 93 (skip_ws r) with
              | Some r' => POk (JArr acc') r'
              | None => PErr
              end
          end
      | PErr => PErr
      | PFuel => PFuel
      end
  end.

(** [JSON.parse(s)]. *)
Definition JSON_parse `{JsEngine} (s : jsstr) : outcome json :=
  let s' := skip_ws s in
  match parse_value (S (2 * length s')) s' with
  | POk v r =>
      match skip_ws r with
      | [] => Ret v
      | _ => Throw (SyntaxError (json_error_message s))
      end
  | _ => Throw (SyntaxError (json_error_message s))
  end.

(** ** Printing *)

Definition unicode_escape (c : Z) : jsstr := [92; 117] ++ pad_start (to_radix 16 c) 4 48.

Definition short_escape (c : Z) : option Z :=
  if (c =? 34) || (c =? 92) then Some c
  else if c =? 8 then Some 98
  else if c =? 12 then Some 102
  else if c =? 10 then Some 110
  else if c =? 13 then Some 114
  else if c =? 9 then Some 116
  else None.

Fixpoint quote_units (s : jsstr) : jsstr :=
  match s with
  | [] => []
  | c :: s' =>
      match short_escape c with
      | Some e => [92; e] ++ quote_units s'
      | None =>
          if c <? 32 then unicode_escape c ++ quote_units s'
          else if is_high c then
            match s' with
            | d :: s'' =>
                if is_low d then [c; d] ++ quote_units s''
                else unicode_escape c ++ quote_units s'
            | [] => unicode_escape c
            end
          else if is_low c then unicode_escape c ++ quote_units s'
          else c :: quote_units s'
      end
  end.

Definition quote (s : jsstr) : jsstr := [34] ++ quote_units s ++ [34].

(** [parts.join(",")]. *)
Fixpoint comma_sep (parts : list jsstr) : jsstr :=
  match parts with
  | [] => []
  | [p] => p
  | p :: ps => p ++ [44] ++ comma_sep ps
  end.

(** [JSON.stringify(v)]; infinities print as [null]. *)
Fixpoint JSON_stringify (v : json) : jsstr :=
  match v with
  | JNull => js "null"
  | JBool true => js "true"
  | JBool false => js "false"
  | JNum (NInf _) => js "null"
  | JNum n => num_to_string n
  | JStr s => quote s
  | JArr l => [91] ++ comma_sep (JSON_stringify <$> l) ++ [93]
  | JObj kvs =>
      [123] ++ comma_sep ((λ kv, quote kv.1 ++ [58] ++ JSON_stringify kv.2) <$> kvs) ++ [125]
  end.

(** [String(v)] of a JSON value: arrays join their elements; an object whose
    own [toString] shadows the inherited one has no primitive value. *)
Fixpoint to_string_json (v : json) : outcome jsstr :=
  match v with
  | JNull => Ret (js "null")
  | JBool true => Ret (js "true")
  | JBool false => Ret (js "false")
  | JNum n => Ret (num_to_string n)
  | JStr s => Ret s
  | JArr l =>
      (fix go l first : outcome jsstr :=
         match l with
         | [] => Ret []
         | x :: l' =>
             match (match x with JNull => Ret [] | _ => to_string_json x end) with
             | Ret s =>
                 match go l' false with
                 | Ret t => Ret ((if first : bool then [] else [44]) ++ s ++ t)
                 | Throw e => Throw e
                 end
             | Throw e => Throw e
             end
         end) l true
  | JObj kvs =>
      if has_prop (js "toString") kvs
      then Throw (TypeError (js "Cannot convert object to primitive value"))
      else Ret (js "[object Object]")
  end.

(** [`${v}`] of a value that may be [undefined]. *)
Definition template (v : option json) : outcome jsstr :=
  match v with Some v => to_string_json v | None => Ret (js "undefined") end.
