(* ===== verification/JsMath.v ===== *)
(** * Arithmetic on JavaScript numbers

    [Number] of a string, sums, products and quotients rounded to doubles, and
    [toFixed]; then [Date.prototype.toISOString].  A number that may be [NaN] is an
    option. *)

From S2P Require Import Prelude JsString JsNumber Json.

(** A decimal literal without a sign; [None] is [NaN]. *)
Definition decimal_literal (neg : bool) (s : jsstr) : option jsnum :=
  if str_eqb s (js "Infinity") then Some (NInf neg) else
  let ip := take_while is_digit s in
  let '(fp, r) :=
    match expect 46 (drop_while is_digit s) with
    | Some r => (take_while is_digit r, drop_while is_digit r)
    | None => ([], drop_while is_digit s)
    end in
  if bool_decide (ip ++ fp = []) then None
  else
    match parse_exp r with
    | Some (ex, []) => Some (num_of_decimal neg (digits_value 10 (ip ++ fp)) (ex - str_length fp))
    | _ => None
    end.

(** [Number(s)]. *)
Definition Number (s : jsstr) : option jsnum :=
  let t := trim s in
  match t with
  | [] => Some (NZero false)
  | c :: t' =>
      match radix_prefix t with
      | Some r =>
          if nonempty_all (is_radix_digit r) (drop 2 t) then Some (num_of_Z (digits_value r (drop 2 t))) else None
      | None =>
          if c =? 45 then decimal_literal true t'
          else if c =? 43 then decimal_literal false t'
          else decimal_literal false t
      end
  end.

(** [n + 1]. *)
Definition num_plus_one (n : jsnum) : jsnum :=
  match n with
  | NZero _ => num_of_Z 1
  | NInf neg => NInf neg
  | NFin m e =>
      if 0 <=? e then num_of_Z (m * 2 ^ e + 1)
      else
        let a := m + 2 ^ (- e) in
        num_round (a <? 0) (Z.abs a) (2 ^ (- e))
  end.

(** [String(n)]. *)
Definition number_text (n : option jsnum) : jsstr :=
  match n with Some n => num_to_string n | None => js "NaN" end.

(** [a * b] and [a / b]; [None] is [NaN]. *)
Definition num_sign (n : jsnum) : bool :=
  match n with NZero s | NInf s => s | NFin m _ => m <? 0 end.

Definition num_mul (a b : jsnum) : option jsnum :=
  let s := xorb (num_sign a) (num_sign b) in
  match a, b with
  | NFin m e, NFin m' e' =>
      Some (num_round s (Z.abs (m * m') * 2 ^ Z.max 0 (e + e')) (2 ^ Z.max 0 (- (e + e'))))
  | NZero _, NInf _ | NInf _, NZero _ => None
  | NInf _, _ | _, NInf _ => Some (NInf s)
  | _, _ => Some (NZero s)
  end.

Definition num_div (a b : jsnum) : option jsnum :=
  let s := xorb (num_sign a) (num_sign b) in
  match a, b with
  | NFin m e, NFin m' e' =>
      Some (num_round s (Z.abs m * 2 ^ Z.max 0 (e - e')) (Z.abs m' * 2 ^ Z.max 0 (e' - e)))
  | NZero _, NZero _ | NInf _, NInf _ => None
  | _, NZero _ | NInf _, _ => Some (NInf s)
  | _, _ => Some (NZero s)
  end.

(** [⌊x * k + 1/2⌋] of a finite double. *)
Definition scaled_round (m e k : Z) : Z :=
  (2 * m * k * 2 ^ Z.max 0 e + 2 ^ Z.max 0 (- e)) / (2 * 2 ^ Z.max 0 (- e)).

(** [Math.round]. *)
Definition math_round (n : jsnum) : jsnum :=
  match n with
  | NFin m e =>
      if 0 <=? e then n
      else let q := scaled_round m e 1 in if q =? 0 then NZero (m <? 0) else num_of_Z q
  | _ => n
  end.

(** [x.toFixed(dp)], for [0 < dp]. *)
Definition to_fixed (dp : nat) (n : option jsnum) : jsstr :=
  match n with
  | Some (NFin m e) =>
      if 10 ^ 21 * 2 ^ Z.max 0 (- e) <=? Z.abs m * 2 ^ Z.max 0 e then num_to_string (NFin m e)
      else
        let ds := pad_start (to_radix 10 (scaled_round (Z.abs m) e (10 ^ Z.of_nat dp))) (S dp) 48 in
        (if m <? 0 then [45] else []) ++ take (length ds - dp) ds ++ [46] ++ drop (length ds - dp) ds
  | Some (NZero _) => js "0." ++ replicate dp 48
  | n => number_text n
  end.

(** [BigInt(n)] of a number. *)
Definition bigint_of_number (n : option jsnum) : outcome Z :=
  let error := Throw (Error (js "RangeError") (js "cannot be converted to a BigInt because it is not an integer")) in
  match n with
  | Some (NZero _) => Ret 0
  | Some (NFin m e) => if 0 <=? e then Ret (m * 2 ^ e) else error
  | _ => error
  end.

(** [BigInt(v)] of a value read from JSON. *)
Definition bigint_of_json (v : option json) : outcome Z :=
  match v with
  | Some (JStr s) => BigInt s
  | Some (JNum n) => bigint_of_number (Some n)
  | Some (JBool b) => Ret (Z.b2z b)
  | Some JNull | None => Throw (TypeError (js "Cannot convert to a BigInt"))
  | Some v => s ← to_string_json v; BigInt s
  end.

(** ** Dates

    The proleptic Gregorian date of a day number, counted from 1970-01-01: the
    calendar repeats every 146097 days, and a year is counted from March. *)

Definition civil_of_days (n : Z) : Z * Z * Z :=
  let z := n + 719468 in
  let era := z / 146097 in
  let doe := z mod 146097 in
  let yoe := (doe - doe / 1460 + doe / 36524 - doe / 146096) / 365 in
  let doy := doe - (365 * yoe + yoe / 4 - yoe / 100) in
  let mp := (5 * doy + 2) / 153 in
  let m := if mp <? 10 then mp + 3 else mp - 9 in
  (yoe + era * 400 + (if m <=? 2 then 1 else 0), m, doy - (153 * mp + 2) / 5 + 1).

Definition pad_num (n : nat) (z : Z) : jsstr := pad_start (to_radix 10 z) n 48.

(** [Date.prototype.toISOString] of the time value [t], in milliseconds. *)
Definition iso_string (t : Z) : jsstr :=
  let '(y, m, d) := civil_of_days (t / 86400000) in
  let ms := t mod 86400000 in
  let year := if (0 <=? y) && (y <=? 9999) then pad_num 4 y
              else (if y <? 0 then [45] else [43]) ++ pad_num 6 (Z.abs y) in
  year ++ js "-" ++ pad_num 2 m ++ js "-" ++ pad_num 2 d ++ js "T"
    ++ pad_num 2 (ms / 3600000) ++ js ":" ++ pad_num 2 (ms / 60000 mod 60) ++ js ":"
    ++ pad_num 2 (ms / 1000 mod 60) ++ js "." ++ pad_num 3 (ms mod 1000) ++ js "Z".

(** [new Date(n).toISOString()]: an invalid date throws. *)
Definition date_iso (n : option jsnum) : outcome jsstr :=
  let invalid := Throw (Error (js "RangeError") (js "Invalid time value")) in
  match n with
  | Some (NZero _) => Ret (iso_string 0)
  | Some (NFin m e) =>
      let t := if 0 <=? e then m * 2 ^ e else Z.quot m (2 ^ (- e)) in
      if Z.abs m * 2 ^ Z.max 0 e <=? 8640000000000000 * 2 ^ Z.max 0 (- e) then Ret (iso_string t) else invalid
  | _ => invalid
  end.

(** The calendar as ECMAScript defines it: the first day of a year, and of a
    month in it. *)
Definition day_from_year (y : Z) : Z :=
  365 * (y - 1970) + (y - 1969) / 4 - (y - 1901) / 100 + (y - 1601) / 400.
Definition leap_year (y : Z) : bool := (y mod 4 =? 0) && (negb (y mod 100 =? 0) || (y mod 400 =? 0)).
Definition days_before_month (y m : Z) : Z :=
  let l := if leap_year y then 1 else 0 in
  nth (Z.to_nat (m - 1)) [0; 31; 59 + l; 90 + l; 120 + l; 151 + l; 181 + l; 212 + l; 243 + l; 273 + l; 304 + l; 334 + l] 0.

(** The months of four centuries begin where ECMAScript lets them begin, and end
    the day before. *)
Definition month_ok (ym : Z * Z) : bool :=
  let '(y, m) := ym in
  let n := day_from_year y + days_before_month y m in
  bool_decide (civil_of_days n = (y, m, 1)) && bool_decide (civil_of_days (n + 27) = (y, m, 28)) &&
  let '(y', m', d) := civil_of_days (n - 1) in
  (y' * 12 + m' =? y * 12 + m - 1) && (d =? n - (day_from_year y' + days_before_month y' m')).

Lemma calendar_period : forallb month_ok (list_prod (seqZ 1900 400) (seqZ 1 12)) = true.
Proof. vm_compute. reflexivity. Qed.

Example iso_epoch : iso_string 0 = js "1970-01-01T00:00:00.000Z".
Proof. vm_compute. reflexivity. Qed.
Example iso_leap : iso_string 1709208000123 = js "2024-02-29T12:00:00.123Z".
Proof. vm_compute. reflexivity. Qed.
Example iso_last : iso_string 8640000000000000 = js "+275760-09-13T00:00:00.000Z".
Proof. vm_compute. reflexivity. Qed.

(** ** Rounding errors *)

Lemma strip_pos_scale m e : let '(m', e') := strip_pos m e in e ≤ e' ∧ Zpos m = Zpos m' * 2 ^ (e' - e).
Proof.
  revert e. induction m as [m IH|m IH|]; intros e; cbn [strip_pos]; [rewrite Z.sub_diag; lia| |rewrite Z.sub_diag; lia].
  specialize (IH (e + 1)). destruct (strip_pos m (e + 1)) as [m' e']. destruct IH as [He IH]. split; [lia|].
  change (Z.pos m~0) with (2 * Z.pos m). rewrite IH. replace (e' - e) with (Z.succ (e' - (e + 1))) by lia.
  rewrite Z.pow_succ_r by lia. lia.
Qed.

(** [m * 2 ^ e] as a fraction: its numerator and denominator. *)
Definition num_up (m e : Z) : Z := m * 2 ^ Z.max 0 e.
Definition num_down (e : Z) : Z := 2 ^ Z.max 0 (- e).

Lemma num_down_pos e : 0 < num_down e.
Proof. apply Z.pow_pos_nonneg; lia. Qed.

Lemma num_exact_value m e : 0 < m →
  ∃ m' e', num_exact false m e = NFin m' e' ∧ 0 < m' ∧ num_up m' e' * num_down e = num_up m e * num_down e'.
Proof.
  destruct m as [|p|p]; try lia. intros _. cbn [num_exact]. pose proof (strip_pos_scale p e) as Hs.
  destruct (strip_pos p e) as [p' e']. destruct Hs as [He Hp]. exists (Z.pos p'), e'. split; [done|]. split; [lia|].
  rewrite Hp. unfold num_up, num_down. rewrite <- !Z.mul_assoc. f_equal.
  rewrite <- !Z.pow_add_r by lia. f_equal. lia.
Qed.

(** A correctly rounded quotient is within a [2 ^ 53]rd of the exact one. *)
Lemma div_half_even_error a b : 0 < b → 2 * Z.abs (div_half_even a b * b - a) ≤ b.
Proof.
  intros Hb. unfold div_half_even. pose proof (Z.div_mod a b ltac:(lia)). pose proof (Z.mod_pos_bound a b Hb).
  destruct (Z.ltb_spec (2 * (a mod b)) b), (Z.ltb_spec b (2 * (a mod b))), (Z.even (a / b)); lia.
Qed.

Section quotient.
Context (n d : Z) (Hn : 0 < n < 2 ^ 200) (Hd : 0 < d < 2 ^ 200).

Let U e := n * num_down e.
Let D e := d * 2 ^ Z.max 0 e.
Let e0 := Z.log2 n - Z.log2 d - 52.

Lemma quotient_exponent : -252 ≤ e0 ≤ 147.
Proof using All.
  assert (0 ≤ Z.log2 n < 200) by (split; [apply Z.log2_nonneg|apply Z.log2_lt_pow2; lia]).
  assert (0 ≤ Z.log2 d < 200) by (split; [apply Z.log2_nonneg|apply Z.log2_lt_pow2; lia]). unfold e0. lia.
Qed.

Lemma quotient_D_pos e : 0 < D e.
Proof using All. unfold D. apply Z.mul_pos_pos; [lia|]. apply Z.pow_pos_nonneg; lia. Qed.

Lemma quotient_size : 2 ^ 51 * D e0 < U e0 < 2 ^ 53 * D e0.
Proof using All.
  destruct (Z.log2_spec n ltac:(lia)) as [N1 N2]. destruct (Z.log2_spec d ltac:(lia)) as [D1 D2].
  set (a := Z.max 0 e0) in *. set (b := Z.max 0 (- e0)) in *.
  assert (0 < 2 ^ a) by (apply Z.pow_pos_nonneg; lia). assert (0 < 2 ^ b) by (apply Z.pow_pos_nonneg; lia).
  pose proof (Z.log2_nonneg n). pose proof (Z.log2_nonneg d).
  assert (Z.log2 n + b = Z.log2 d + 52 + a) as Hab by (unfold a, b, e0; lia).
  unfold U, D, num_down. fold a b. split.
  - apply Z.lt_le_trans with (2 ^ 51 * (2 ^ Z.succ (Z.log2 d) * 2 ^ a)); [nia|].
    apply Z.le_trans with (2 ^ Z.log2 n * 2 ^ b); [|nia].
    rewrite <- !Z.pow_add_r by lia. apply Z.pow_le_mono_r; lia.
  - apply Z.lt_le_trans with (2 ^ Z.succ (Z.log2 n) * 2 ^ b); [nia|].
    apply Z.le_trans with (2 ^ 53 * (2 ^ Z.log2 d * 2 ^ a)); [|nia].
    rewrite <- !Z.pow_add_r by lia. apply Z.pow_le_mono_r; lia.
Qed.

Lemma quotient_half : U (e0 - 1) * D e0 = 2 * U e0 * D (e0 - 1).
Proof using All.
  unfold U, D, num_down.
  assert (2 ^ Z.max 0 (- (e0 - 1)) * 2 ^ Z.max 0 e0 = 2 * 2 ^ Z.max 0 (- e0) * 2 ^ Z.max 0 (e0 - 1)) as E.
  { change 2 with (2 ^ 1) at 3. rewrite <- !Z.pow_add_r by lia. f_equal. lia. }
  transitivity (n * d * (2 ^ Z.max 0 (- (e0 - 1)) * 2 ^ Z.max 0 e0)); [ring|]. rewrite E. ring.
Qed.

(** The exponent that [num_round] settles on. *)
Lemma quotient_settled : let e := if U e0 / D e0 <? 2 ^ 52 then e0 - 1 else e0 in
  2 ^ 52 * D e ≤ U e < 2 ^ 53 * D e.
Proof using All.
  pose proof quotient_size as Hs. pose proof (quotient_D_pos e0) as Hp. pose proof (quotient_D_pos (e0 - 1)) as Hp1.
  pose proof quotient_half as Hh. cbv zeta. destruct (Z.ltb_spec (U e0 / D e0) (2 ^ 52)) as [Hlt|Hge].
  - assert (U e0 < 2 ^ 52 * D e0).
    { pose proof (Z.div_mod (U e0) (D e0) ltac:(lia)). pose proof (Z.mod_pos_bound (U e0) (D e0) Hp). nia. }
    split; [apply Z.lt_le_incl|].
    + apply (Z.mul_lt_mono_pos_r (D e0)); [done|]. rewrite Hh. nia.
    + apply (Z.mul_lt_mono_pos_r (D e0)); [done|]. rewrite Hh. nia.
  - split; [|lia]. pose proof (Z.mul_div_le (U e0) (D e0) Hp). nia.
Qed.

Lemma scaled_pair e : (if 0 <=? e then (n, d * 2 ^ e) else (n * 2 ^ (- e), d)) = (U e, D e).
Proof using All.
  unfold U, D, num_down. destruct (Z.leb_spec 0 e).
  - rewrite (Z.max_r 0 e), (Z.max_l 0 (- e)), Z.pow_0_r, Z.mul_1_r by lia. done.
  - rewrite (Z.max_l 0 e), (Z.max_r 0 (- e)), Z.pow_0_r, Z.mul_1_r by lia. done.
Qed.

(** [n / d] as a double: the error is at most a [2 ^ 53]rd. *)
Lemma num_round_error : ∃ m e, num_round false n d = NFin m e ∧ 0 < m ∧
  Z.abs (num_up m e * d - n * num_down e) * 2 ^ 53 ≤ n * num_down e.
Proof using All.
  unfold num_round. fold e0. rewrite scaled_pair. pose proof quotient_settled as Hs. cbv zeta in Hs.
  pose proof quotient_exponent as He.
  set (e := if U e0 / D e0 <? 2 ^ 52 then e0 - 1 else e0) in *.
  assert (Z.max (-1074) e = e) as -> by (unfold e; destruct (_ <? _); lia). rewrite scaled_pair.
  pose proof (quotient_D_pos e) as Hp. pose proof (div_half_even_error (U e) (D e) Hp) as Herr.
  set (q := div_half_even (U e) (D e)) in *.
  assert (2 ^ 52 ≤ q) as Hq by nia.
  rewrite (proj2 (Z.ltb_ge _ _)), (proj2 (Z.eqb_neq _ _)) by (unfold e; destruct (_ <? _); lia). cbn [andb orb].
  destruct (num_exact_value q e ltac:(lia)) as (m & e' & -> & Hm & Hv). exists m, e'. split; [done|]. split; [done|].
  pose proof (num_down_pos e). pose proof (num_down_pos e').
  apply (Z.mul_le_mono_pos_r _ _ (num_down e)); [done|].
  assert (Z.abs (num_up q e * d - U e) * 2 ^ 53 ≤ U e) as Hu.
  { replace (num_up q e * d) with (q * D e) by (unfold num_up, D; ring). lia. }
  replace (Z.abs (num_up m e' * d - n * num_down e') * 2 ^ 53 * num_down e)
    with (Z.abs (num_up q e * d - U e) * 2 ^ 53 * num_down e').
  - replace (n * num_down e' * num_down e) with (U e * num_down e') by (unfold U; ring). nia.
  - rewrite <- (Z.abs_eq (num_down e)), <- (Z.abs_eq (num_down e')) at 1 by lia.
    transitivity (Z.abs ((num_up q e * d - U e) * num_down e') * 2 ^ 53); [rewrite Z.abs_mul; ring|].
    transitivity (Z.abs ((num_up m e' * d - n * num_down e') * num_down e) * 2 ^ 53); [|rewrite Z.abs_mul, (Z.abs_eq (num_down e)) by lia; ring].
    f_equal. f_equal. unfold U. nia.
Qed.
End quotient.

(** ** Amounts

    [v] base units of a token with [d] decimals: the digits of [v] with the point
    before the last [d]. *)
Definition amount_text (v : Z) (d : nat) : jsstr :=
  let ds := pad_start (to_radix 10 v) (S d) 48 in
  take (length ds - d) ds ++ [46] ++ drop (length ds - d) ds.

Lemma scaled_round_exact m e v k : 0 ≤ v < 2 ^ 52 →
  Z.abs (num_up m e * k - v * num_down e) * 2 ^ 53 ≤ v * num_down e → scaled_round m e k = v.
Proof.
  intros Hv He. pose proof (num_down_pos e) as Hp. unfold scaled_round.
  replace (2 * m * k * 2 ^ Z.max 0 e) with (2 * (num_up m e * k)) by (unfold num_up; ring).
  fold (num_down e). set (x := num_up m e * k) in *. set (p := num_down e) in *.
  assert (2 * Z.abs (x - v * p) < p) as Hlt by nia.
  symmetry. apply Z.div_unique with (2 * x + p - 2 * p * v); [left; nia|ring].
Qed.

(** An amount of less than [2 ^ 52] units of the last place that is shown survives
    the trip through a double; [k] more places hold zeros. *)
Lemma to_fixed_whole v (d k : nat) : 0 ≤ v < 2 ^ 52 → (0 < d)%nat → (d + k ≤ 40)%nat →
  to_fixed d (Some (num_of_decimal false (v * 10 ^ Z.of_nat k) (- Z.of_nat (d + k)))) = amount_text v d.
Proof.
  intros Hv Hd Hk. assert (0 < 10 ^ Z.of_nat k ≤ 10 ^ 40) as H10k
    by (split; [apply Z.pow_pos_nonneg; lia|apply Z.pow_le_mono_r; lia]).
  unfold num_of_decimal. destruct (Z.eqb_spec (v * 10 ^ Z.of_nat k) 0) as [E|Hne].
  - assert (v = 0) as -> by nia. unfold to_fixed, amount_text. change (to_radix 10 0) with [48]. unfold pad_start. cbn [length].
    replace (S d - 1)%nat with d by lia. rewrite length_app, length_replicate. cbn [length].
    replace (d + 1 - d)%nat with 1%nat by lia. destruct d as [|d]; [lia|]. cbn [replicate app take drop].
    rewrite <- (replicate_S_end d). done.
  - assert (0 < v) by nia. assert (0 < 10 ^ Z.of_nat (d + k) < 2 ^ 200) as H10.
    { split; [apply Z.pow_pos_nonneg; lia|].
      apply Z.le_lt_trans with (10 ^ 40); [apply Z.pow_le_mono_r; lia|reflexivity]. }
    assert (0 < v * 10 ^ Z.of_nat k < 2 ^ 52 * 10 ^ 40) as Hn by nia.
    destruct (num_round_error (v * 10 ^ Z.of_nat k) (10 ^ Z.of_nat (d + k)) ltac:(lia) H10) as (m & e & Hr & Hm & He).
    assert (length (to_radix 10 (v * 10 ^ Z.of_nat k)) ≤ 60)%nat as Hl by (apply to_radix_length; lia).
    rewrite (proj2 (Z.ltb_ge _ _)), (proj2 (Z.ltb_ge _ _)), (proj2 (Z.leb_gt _ _)) by lia.
    rewrite Z.opp_involutive, Hr. unfold to_fixed. rewrite (Z.abs_eq m) by lia. pose proof (num_down_pos e) as Hp.
    assert (Z.abs (num_up m e * 10 ^ Z.of_nat d - v * num_down e) * 2 ^ 53 ≤ v * num_down e) as He'.
    { rewrite Nat2Z.inj_add, Z.pow_add_r in He by lia. apply (Z.mul_le_mono_pos_r _ _ (10 ^ Z.of_nat k)); [lia|].
      replace (num_up m e * (10 ^ Z.of_nat d * 10 ^ Z.of_nat k) - v * 10 ^ Z.of_nat k * num_down e)
        with ((num_up m e * 10 ^ Z.of_nat d - v * num_down e) * 10 ^ Z.of_nat k) in He by ring.
      rewrite Z.abs_mul, (Z.abs_eq (10 ^ Z.of_nat k)) in He by lia. nia. }
    rewrite (scaled_round_exact m e v _ ltac:(lia) He'). rewrite (proj2 (Z.ltb_ge m 0)) by lia.
    rewrite (proj2 (Z.leb_gt _ _)); [done|]. fold (num_up m e) (num_down e).
    assert (0 < 10 ^ Z.of_nat d) by (apply Z.pow_pos_nonneg; lia).
    assert (0 ≤ num_up m e) by (unfold num_up; apply Z.mul_nonneg_nonneg; lia).
    assert (num_up m e ≤ num_up m e * 10 ^ Z.of_nat d) by nia.
    assert (num_up m e * 10 ^ Z.of_nat d ≤ 2 * (v * num_down e)) by lia. nia.
Qed.

(** ** Integers as doubles *)

Lemma strip_pos_shift p k e : strip_pos (Z.to_pos (Z.pos p * 2 ^ Z.of_nat k)) e = strip_pos p (e + Z.of_nat k).
Proof.
  revert e. induction k as [|k IH]; intros e.
  - rewrite Z.pow_0_r, Z.mul_1_r, Z.add_0_r. done.
  - rewrite Nat2Z.inj_succ, Z.pow_succ_r by lia.
    replace (Z.pos p * (2 * 2 ^ Z.of_nat k)) with (2 * (Z.pos p * 2 ^ Z.of_nat k)) by lia.
    assert (0 < Z.pos p * 2 ^ Z.of_nat k) as Hp by (apply Z.mul_pos_pos; [lia|apply Z.pow_pos_nonneg; lia]).
    specialize (IH (e + 1)). destruct (Z.pos p * 2 ^ Z.of_nat k) as [|q|q]; try lia.
    change (Z.to_pos (2 * Z.pos q)) with (xO q). cbn [strip_pos]. cbn [Z.to_pos] in IH. rewrite IH. f_equal. lia.
Qed.

Lemma num_exact_shift n k e : 0 < n → num_exact false (n * 2 ^ Z.of_nat k) e = num_exact false n (e + Z.of_nat k).
Proof.
  intros Hn. destruct n as [|p|p]; try lia.
  assert (0 < Z.pos p * 2 ^ Z.of_nat k) as Hp by (apply Z.mul_pos_pos; [lia|apply Z.pow_pos_nonneg; lia]).
  rewrite <- (Z2Pos.id _ Hp). cbn [num_exact]. by rewrite strip_pos_shift.
Qed.

(** An integer below [2 ^ 53] is its own double. *)
Lemma num_round_small n : 0 < n < 2 ^ 53 → num_round false n 1 = num_exact false n 0.
Proof.
  intros Hn. destruct (Z.log2_spec n ltac:(lia)) as [L1 L2].
  assert (0 ≤ Z.log2 n ≤ 52) as Hl.
  { split; [apply Z.log2_nonneg|]. enough (Z.log2 n < 53) by lia. apply Z.log2_lt_pow2; lia. }
  assert (Z.log2 1 = 0) as E1 by done.
  unfold num_round. rewrite E1, Z.sub_0_r. set (e0 := Z.log2 n - 52) in *.
  assert ((if 0 <=? e0 then (n, 1 * 2 ^ e0) else (n * 2 ^ (- e0), 1)) = (n * 2 ^ (- e0), 1)) as Esc.
  { destruct (Z.leb_spec 0 e0); [|done]. replace e0 with 0 by lia. rewrite Z.pow_0_r. f_equal; lia. }
  rewrite Esc, Z.div_1_r.
  assert (2 ^ 52 ≤ n * 2 ^ (- e0)) as Hlow.
  { apply Z.le_trans with (2 ^ Z.log2 n * 2 ^ (- e0)).
    - rewrite <- Z.pow_add_r by lia. apply Z.pow_le_mono_r; lia.
    - apply Z.mul_le_mono_nonneg_r; [apply Z.pow_nonneg; lia|done]. }
  rewrite (proj2 (Z.ltb_ge _ _)) by done. rewrite Z.max_r by lia. rewrite Esc.
  rewrite (proj2 (Z.ltb_ge 971 e0)), (proj2 (Z.eqb_neq e0 971)) by lia. cbn [andb orb].
  unfold div_half_even. rewrite Z.div_1_r, Z.mod_1_r. change (2 * 0 <? 1) with true. cbv iota.
  replace (- e0) with (Z.of_nat (Z.to_nat (- e0))) by lia. rewrite num_exact_shift by lia. f_equal. lia.
Qed.

(** One above is close to its double, which is an integer. *)
Lemma num_round_large n : 2 ^ 53 ≤ n < 2 ^ 200 → ∃ m e, num_round false n 1 = NFin m e ∧ 0 < m ∧ 0 ≤ e ∧
  Z.abs (m * 2 ^ e - n) * 2 ^ 53 ≤ n.
Proof.
  intros Hn. destruct (num_round_error n 1 ltac:(lia) ltac:(lia)) as (m & e & E & Hm & He).
  exists m, e. split; [done|]. split; [done|].
  assert (0 ≤ e) as H0.
  { unfold num_round in E. assert (53 ≤ Z.log2 n) by (apply Z.log2_le_pow2; lia). assert (Z.log2 1 = 0) as E1 by done.
    rewrite E1, Z.sub_0_r in E. set (e0 := Z.log2 n - 52) in *.
    destruct (if 0 <=? e0 then _ else _) as [a0 b0]. 
    assert (0 ≤ Z.max (-1074) (if a0 / b0 <? 2 ^ 52 then e0 - 1 else e0)) as Hx by (destruct (_ <? _); lia).
    set (x := Z.max _ _) in *. destruct (if 0 <=? x then _ else _) as [a b].
    destruct (_ || _); [done|]. destruct (div_half_even a b) as [|p|p]; cbn [num_exact] in E; [done| |done].
    pose proof (strip_pos_scale p x) as Hs. destruct (strip_pos p x) as [p' e']. injection E as _ <-. lia. }
  unfold num_up, num_down in He. rewrite (Z.max_r 0 e), (Z.max_l 0 (- e)), Z.pow_0_r, !Z.mul_1_r in He by lia. done.
Qed.

(** [Number(n)] of a BigInt: an integer within a [2 ^ 53]rd. *)
Lemma num_of_Z_close n : 0 < n < 2 ^ 200 → ∃ m e, num_of_Z n = NFin m e ∧ 0 < m ∧ 0 ≤ e ∧
  Z.abs (m * 2 ^ e - n) * 2 ^ 53 ≤ n ∧ (n ≤ 2 ^ 53 → m * 2 ^ e = n).
Proof.
  intros Hn. unfold num_of_Z. rewrite (proj2 (Z.ltb_ge n 0)), Z.abs_eq by lia.
  destruct (Z.leb_spec n (2 ^ 53)) as [Hle|Hgt].
  - destruct n as [|p|p]; try lia. cbn [num_exact]. pose proof (strip_pos_scale p 0) as Hs.
    destruct (strip_pos p 0) as [p' e']. destruct Hs as [He Hp]. rewrite Z.sub_0_r in Hp.
    exists (Z.pos p'), e'. cbn [signed]. rewrite <- Hp. repeat split; lia.
  - destruct (num_round_large n ltac:(lia)) as (m & e & -> & ? & ? & ?). exists m, e. repeat split; try done. lia.
Qed.

(** ** The date of a number of seconds *)

Definition MAX_DATE : Z := 8640000000000.

(** [new Date(Number(t) * 1000).toISOString()]: the date when it is one, and an
    exception beyond. *)
Lemma date_iso_seconds t : 0 ≤ t < 2 ^ 180 →
  date_iso (num_mul (num_of_Z t) (num_of_Z 1000)) =
    if t <=? MAX_DATE then Ret (iso_string (t * 1000)) else Throw (Error (js "RangeError") (js "Invalid time value")).
Proof.
  intros Ht. assert (num_of_Z 1000 = NFin 125 3) as -> by (vm_compute; reflexivity). unfold MAX_DATE.
  destruct (Z.eq_dec t 0) as [->|Hne]; [done|].
  destruct (num_of_Z_close t ltac:(lia)) as (m & e & -> & Hm & He & Hc & Hex).
  unfold num_mul. cbn [num_sign]. rewrite (proj2 (Z.ltb_ge m 0)), (Z.max_r 0 (e + 3)), (Z.max_l 0 (- (e + 3))) by lia.
  rewrite Z.pow_0_r. change (xorb false (125 <? 0)) with false. rewrite Z.abs_eq by lia.
  assert (m * 125 * 2 ^ (e + 3) = m * 2 ^ e * 1000) as -> by (rewrite Z.pow_add_r by lia; lia).
  set (N := m * 2 ^ e) in *. destruct (Z.leb_spec t 8640000000000) as [Hle|Hgt].
  - rewrite (Hex ltac:(lia)). rewrite num_round_small by lia. unfold num_exact.
    destruct (t * 1000) as [|p|p] eqn:Ep; [lia| |lia].
    pose proof (strip_pos_scale p 0) as Hs. destruct (strip_pos p 0) as [p' e']. destruct Hs as [H1 H2].
    rewrite Z.sub_0_r in H2. cbn [signed date_iso].
    rewrite (Z.max_r 0 e'), (Z.max_l 0 (- e')), Z.pow_0_r, (proj2 (Z.leb_le 0 e')) by lia.
    rewrite (Z.abs_eq (Z.pos p')), <- H2 by lia. by rewrite (proj2 (Z.leb_le _ _)) by lia.
  - assert (∃ m' e', num_round false (N * 1000) 1 = NFin m' e' ∧ 0 < m' ∧ 0 ≤ e' ∧ 8640000000000000 < m' * 2 ^ e')
      as (m' & e' & -> & Hm' & He' & Hbig).
    { destruct (Z.lt_ge_cases (N * 1000) (2 ^ 53)) as [Hs|Hl].
      - rewrite (Hex ltac:(lia)) in *. rewrite num_round_small by lia. unfold num_exact.
        destruct (t * 1000) as [|p|p] eqn:Ep; [lia| |lia].
        pose proof (strip_pos_scale p 0) as Hsc. destruct (strip_pos p 0) as [p' e']. destruct Hsc as [H1 H2].
        rewrite Z.sub_0_r in H2. exists (Z.pos p'), e'. cbn [signed]. rewrite <- H2. repeat split; lia.
      - destruct (num_round_large (N * 1000) ltac:(lia)) as (m' & e' & -> & ? & ? & Hcl).
        exists m', e'. repeat split; try done. lia. }
    cbn [date_iso]. rewrite (Z.max_r 0 e'), (Z.max_l 0 (- e')), Z.pow_0_r, (Z.abs_eq m') by lia.
    by rewrite (proj2 (Z.leb_gt _ _)) by lia.
Qed.
