(* ===== verification/JsonFacts.v ===== *)
(** * Facts about JSON

    Termination of the parser with the fuel it is given, and the round trip
    [JSON.parse(JSON.stringify(v)) = v] on the values the program exchanges. *)

From S2P Require Import Prelude JsString JsNumber Utf8 Json.

(** ** Every parser consumes input *)

Lemma take_drop_while f s : take_while f s ++ drop_while f s = s.
Proof. induction s as [|c s IH]; [done|]. cbn. destruct (f c); cbn; by rewrite ?IH. Qed.

Lemma drop_while_length f s : (length (drop_while f s) ≤ length s)%nat.
Proof. rewrite <- (take_drop_while f s) at 2. rewrite length_app. lia. Qed.

Lemma drop_while_lt f s : take_while f s ≠ [] → (length (drop_while f s) < length s)%nat.
Proof.
  intros Hne. rewrite <- (take_drop_while f s) at 2. rewrite length_app.
  destruct (take_while f s); [done|]. cbn. lia.
Qed.

Lemma skip_ws_length s : (length (skip_ws s) ≤ length s)%nat.
Proof. apply drop_while_length. Qed.

Lemma expect_Some c s r : expect c s = Some r ↔ s = c :: r.
Proof.
  destruct s as [|d s]; cbn; [done|]. destruct (Z.eqb_spec d c); naive_solver.
Qed.

Lemma expect_length c s r : expect c s = Some r → (length r < length s)%nat.
Proof. intros ->%expect_Some. cbn. lia. Qed.

Lemma cons_fst_Some c o t r : cons_fst c o = Some (t, r) → ∃ t', o = Some (t', r) ∧ t = c :: t'.
Proof. destruct o as [[t' r']|]; cbn; [|done]. intros [= <- <-]. eauto. Qed.

Lemma parse_chars_length s t r : parse_chars s = Some (t, r) → (length r < length s)%nat.
Proof.
  revert t r. induction s as [s IH] using (induction_ltof1 _ length). unfold ltof in IH.
  assert (∀ s' c t r, (length s' < length s)%nat →
    cons_fst c (parse_chars s') = Some (t, r) → (length r < length s)%nat) as Hc.
  { intros s' c t r Hl (t' & E & _)%cons_fst_Some. apply IH in E; lia. }
  intros t r. destruct s as [|c s]; [done|]. cbn [parse_chars].
  repeat case_match; subst; try done; try (intros [= <- <-]; cbn; lia);
    apply Hc; cbn; lia.
Qed.

Lemma opt_sign_length m s : (length (opt_sign m s).2 ≤ length s)%nat.
Proof.
  unfold opt_sign. destruct (expect m s) eqn:E; cbn; [|done].
  apply expect_length in E. lia.
Qed.

Lemma parse_frac_length s ds r : parse_frac s = Some (ds, r) → (length r ≤ length s)%nat.
Proof.
  unfold parse_frac. destruct (expect 46 s) as [s'|] eqn:E; [|by intros [= <- <-]].
  apply expect_length in E. pose proof (drop_while_length is_digit s').
  destruct (take_while is_digit s'); [done|]. intros [= <- <-]. lia.
Qed.

Lemma parse_exp_length s n r : parse_exp s = Some (n, r) → (length r ≤ length s)%nat.
Proof.
  unfold parse_exp. destruct s as [|c s]; [by intros [= <- <-]|].
  pose proof (opt_sign_length 45 s). destruct (opt_sign 45 s) as [neg r']; cbn in *.
  pose proof (opt_sign_length 43 r').
  destruct (_ || _); [|intros [= <- <-]; cbn; lia].
  set (q := if neg then r' else _). assert (length q ≤ length r')%nat by (by destruct neg).
  pose proof (drop_while_length is_digit q).
  destruct (take_while is_digit q); [done|]. intros [= <- <-]. lia.
Qed.

Lemma parse_number_length s n r : parse_number s = Some (n, r) → (length r < length s)%nat.
Proof.
  unfold parse_number. pose proof (opt_sign_length 45 s).
  destruct (opt_sign 45 s) as [neg s']; cbn in *. intros E.
  destruct (valid_int _) eqn:Hv; [|done].
  destruct (parse_frac _) as [[fp s1]|] eqn:Hf; [|done].
  destruct (parse_exp s1) as [[ex s2]|] eqn:He; [|done]. simplify_eq.
  apply parse_frac_length in Hf. apply parse_exp_length in He.
  assert (take_while is_digit s' ≠ []) as Hne by (by destruct (take_while is_digit s')).
  apply drop_while_lt in Hne. lia.
Qed.

Lemma starts_with_length s p : starts_with s p = true → (length p ≤ length s)%nat.
Proof.
  revert s. induction p as [|c p IH]; intros [|d s]; cbn; try done; try lia.
  intros [_ ?%IH]%andb_prop. lia.
Qed.

Lemma parse_literal_length s v r : parse_literal s = POk v r → (length r < length s)%nat.
Proof.
  assert (∀ w k, length (js w) = k → (0 < k)%nat → starts_with s (js w) = true →
    (length (drop k s) < length s)%nat) as Hw.
  { intros w k <- Hk E%starts_with_length. rewrite length_drop. lia. }
  unfold parse_literal.
  destruct (starts_with s (js "true")) eqn:E1.
  { intros [= <- <-]. by apply (Hw "true"%string); [|lia|]. }
  destruct (starts_with s (js "false")) eqn:E2.
  { intros [= <- <-]. by apply (Hw "false"%string); [|lia|]. }
  destruct (starts_with s (js "null")) eqn:E3.
  { intros [= <- <-]. by apply (Hw "null"%string); [|lia|]. }
  destruct (parse_number s) as [[n r']|] eqn:E; [|done].
  intros [= <- <-]. by eapply parse_number_length.
Qed.

Lemma parse_literal_no_fuel s : parse_literal s ≠ PFuel.
Proof. unfold parse_literal. by repeat case_match. Qed.

(** Add the bound on every [skip_ws] that occurs. *)
Ltac ws_length s :=
  lazymatch goal with
  | _ : (length (skip_ws s) ≤ length s)%nat |- _ => fail
  | _ => pose proof (skip_ws_length s)
  end.
Ltac ws_lengths :=
  repeat match goal with
  | _ : context [skip_ws ?s] |- _ => ws_length s
  | |- context [skip_ws ?s] => ws_length s
  end; cbn in *; lia.

Lemma parse_key_length s k r : parse_key s = Some (k, r) → (length r < length s)%nat.
Proof.
  unfold parse_key. intros E. repeat case_match; simplify_eq.
  repeat match goal with H : expect _ _ = Some _ |- _ => apply expect_length in H end.
  match goal with H : parse_chars _ = Some _ |- _ => apply parse_chars_length in H end.
  ws_lengths.
Qed.

(** Turn every parse equation into a length inequality and conclude. *)
Ltac use_lengths :=
  repeat match goal with
  | H : expect _ _ = Some _ |- _ => apply expect_length in H
  | H : parse_chars _ = Some _ |- _ => apply parse_chars_length in H
  | H : parse_key _ = Some _ |- _ => apply parse_key_length in H
  | H : parse_literal _ = POk _ _ |- _ => apply parse_literal_length in H
  end; ws_lengths.

Lemma parse_length fuel :
  (∀ s v r, parse_value fuel s = POk v r → (length r < length s)%nat) ∧
  (∀ acc s v r, parse_members fuel acc s = POk v r → (length r < length s)%nat) ∧
  (∀ acc s v r, parse_elements fuel acc s = POk v r → (length r < length s)%nat).
Proof.
  induction fuel as [|f (IHv & IHm & IHe)]; [done|]. split; [|split].
  - intros s v r. destruct s as [|c s]; [done|]. cbn [parse_value].
    intros E. repeat case_match; simplify_eq;
      try apply IHm in E; try apply IHe in E; use_lengths.
  - intros acc s v r. cbn [parse_members]. intros E. repeat case_match; simplify_eq;
      try apply IHm in E;
      match goal with H : parse_value _ _ = _ |- _ => apply IHv in H end; use_lengths.
  - intros acc s v r. cbn [parse_elements]. intros E. repeat case_match; simplify_eq;
      try apply IHe in E;
      match goal with H : parse_value _ _ = _ |- _ => apply IHv in H end; use_lengths.
Qed.

Lemma parse_value_length f s v r :
  parse_value f s = POk v r → (length r < length s)%nat.
Proof. apply (parse_length f). Qed.

(** More fuel than twice the characters is enough: the parser never runs out. *)
Lemma parse_fuel fuel :
  (∀ s, (2 * length s < fuel)%nat → parse_value fuel s ≠ PFuel) ∧
  (∀ acc s, (2 * length s < fuel)%nat → parse_members fuel acc s ≠ PFuel) ∧
  (∀ acc s, (2 * length s + 1 < fuel)%nat → parse_elements fuel acc s ≠ PFuel).
Proof.
  induction fuel as [|f (IHv & IHm & IHe)]; [split; [|split]; intros; lia|].
  split; [|split].
  - intros s Hs. destruct s as [|c s]; [done|]. cbn [parse_value] in *. cbn in Hs.
    repeat case_match; subst; try done; try apply parse_literal_no_fuel;
      first [apply IHm | apply IHe]; use_lengths.
  - intros acc s Hs. cbn [parse_members].
    destruct (parse_key s) as [[k r]|] eqn:Ek; [|done].
    destruct (parse_value f r) as [v r'| |] eqn:Ev; [|done|].
    + apply parse_value_length in Ev. repeat case_match; try done.
      apply IHm. use_lengths.
    + exfalso. revert Ev. apply IHv. use_lengths.
  - intros acc s Hs. cbn [parse_elements].
    destruct (parse_value f s) as [v r'| |] eqn:Ev; [|done|].
    + apply parse_value_length in Ev. repeat case_match; try done.
      apply IHe. use_lengths.
    + exfalso. revert Ev. apply IHv. use_lengths.
Qed.

(** The fuel [JSON_parse] gives is enough for every text. *)
Lemma JSON_parse_total s : parse_value (S (2 * length s)) s ≠ PFuel.
Proof. apply (parse_fuel (S (2 * length s))). lia. Qed.

(** ** String literals *)

Lemma cons_fst_of c o t r : o = Some (t, r) → cons_fst c o = Some (c :: t, r).
Proof. by intros ->. Qed.

Lemma digits_value_pad k s : digits_value 16 (replicate k 48 ++ s) = digits_value 16 s.
Proof.
  unfold digits_value. rewrite fold_left_app. f_equal.
  induction k as [|k IH]; [done|]. cbn. exact IH.
Qed.

Lemma hex4_pad c : 0 ≤ c < 65536 →
  let h := pad_start (to_radix 16 c) 4 48 in
  length h = 4%nat ∧ forallb is_hex_digit h = true ∧ digits_value 16 h = c.
Proof.
  intros Hc. cbn zeta. unfold pad_start.
  pose proof (to_radix_length 16 ltac:(lia) c 4 ltac:(cbn; lia) ltac:(done)) as Hl.
  split; [|split].
  - rewrite length_app, length_replicate. lia.
  - apply forallb_Forall, Forall_app. split; [by apply Forall_replicate|].
    eapply Forall_impl; [apply to_radix_digits; lia|].
    cbn. intros ? (d & ? & ->). apply digit_char_hex. lia.
  - rewrite digits_value_pad. apply to_radix_value; lia.
Qed.

Lemma parse_unicode_escape c t : 0 ≤ c < 65536 →
  parse_chars (unicode_escape c ++ t) = cons_fst c (parse_chars t).
Proof.
  intros Hc. destruct (hex4_pad c Hc) as (Hl & Hh & Hv). unfold unicode_escape.
  destruct (pad_start _ _ _) as [|h1 [|h2 [|h3 [|h4 [|]]]]]; try done.
  cbn [app]. cbn [parse_chars]. cbn [Z.eqb Pos.eqb]. rewrite Hh, Hv. done.
Qed.

Lemma short_escape_Some c e : short_escape c = Some e → simple_escape e = Some c ∧ e ≠ 117.
Proof.
  unfold short_escape. intros E.
  repeat case_match; simplify_eq; reflect_Z; subst; try (split; [done|lia]).
  match goal with H : _ || _ = true |- _ => apply orb_prop in H as [?|?]; reflect_Z; subst; done end.
Qed.

Lemma short_escape_None c : short_escape c = None → c ≠ 34 ∧ c ≠ 92.
Proof. unfold short_escape. intros E. split; intros ->; done. Qed.

Lemma parse_plain c t : c ≠ 34 → c ≠ 92 → 32 ≤ c →
  parse_chars (c :: t) = cons_fst c (parse_chars t).
Proof.
  intros. cbn [parse_chars].
  by rewrite !(proj2 (Z.eqb_neq _ _)), (proj2 (Z.ltb_ge _ _)).
Qed.

Lemma parse_short c e t : short_escape c = Some e →
  parse_chars ([92; e] ++ t) = cons_fst c (parse_chars t).
Proof.
  intros [He Hu]%short_escape_Some. cbn [app parse_chars]. cbn [Z.eqb Pos.eqb].
  by rewrite (proj2 (Z.eqb_neq _ _)), He.
Qed.

(** The unit [c] of a literal that does not start a surrogate pair. *)
Lemma parse_quote_unit c s t r :
  is_unit c → match s with d :: _ => is_high c && is_low d = false | [] => True end →
  parse_chars (quote_units s ++ t) = Some (s, r) →
  parse_chars (quote_units (c :: s) ++ t) = Some (c :: s, r).
Proof.
  intros Hc Hp Hs. apply (cons_fst_of c) in Hs. rewrite <- Hs. clear Hs.
  cbn [quote_units]. destruct (short_escape c) as [e|] eqn:Es.
  { rewrite <- app_assoc. by apply parse_short. }
  destruct (short_escape_None c Es) as [H1 H2]. unfold is_unit in Hc.
  destruct (Z.ltb_spec c 32).
  { rewrite <- app_assoc. by apply parse_unicode_escape. }
  destruct (is_high c) eqn:Hh.
  - destruct s as [|d s].
    + rewrite parse_unicode_escape by done. done.
    + cbn in Hp. rewrite Hp, <- app_assoc. by apply parse_unicode_escape.
  - destruct (is_low c).
    + rewrite <- app_assoc. by apply parse_unicode_escape.
    + cbn [app]. apply parse_plain; lia.
Qed.

Lemma quote_pair c d s : is_high c = true → is_low d = true →
  quote_units (c :: d :: s) = c :: d :: quote_units s ∧ 32 ≤ c ∧ c ≠ 34 ∧ c ≠ 92 ∧ 
  32 ≤ d ∧ d ≠ 34 ∧ d ≠ 92.
Proof.
  intros Hc Hd. assert (0xD800 ≤ c ∧ 0xDC00 ≤ d) as [? ?].
  { unfold is_high, is_low in *. rewrite between_true in *. lia. }
  split; [|lia]. cbn [quote_units].
  assert (short_escape c = None) as ->.
  { unfold short_escape. by rewrite !(proj2 (Z.eqb_neq c _)) by lia. }
  rewrite (proj2 (Z.ltb_ge c 32)) by lia. by rewrite Hc, Hd.
Qed.

Lemma parse_quote s rest :
  is_units s → parse_chars (quote_units s ++ 34 :: rest) = Some (s, rest).
Proof.
  induction s as [|c|c d s IH1 IH2] using pair_ind; intros Hu; [done| |].
  - inversion_clear Hu. by apply (parse_quote_unit c []).
  - inversion_clear Hu as [|?? Hc Hu'].
    destruct (is_high c && is_low d) eqn:Hp.
    + apply andb_prop in Hp as [Hh Hl].
      destruct (quote_pair c d s Hh Hl) as (-> & ? & ? & ? & ? & ? & ?).
      cbn [app]. rewrite !parse_plain, IH1 by (done || by inversion Hu'). done.
    + apply parse_quote_unit; [done|by rewrite Hp|by apply IH2].
Qed.

(** ** Numbers *)

(** What may follow a number: nothing that would extend it. *)
Definition number_stop (rest : jsstr) : Prop :=
  match rest with c :: _ => c = 44 ∨ c = 93 ∨ c = 125 | [] => True end.

Lemma take_while_app f s t :
  Forall (λ c, f c = true) s → match t with c :: _ => f c = false | [] => True end →
  take_while f (s ++ t) = s ∧ drop_while f (s ++ t) = t.
Proof.
  intros Hs Ht. induction Hs as [|c s Hc _ [IH1 IH2]]; cbn.
  - destruct t as [|c t]; [done|]. cbn. by rewrite Ht.
  - rewrite Hc. by rewrite IH1, IH2.
Qed.

Lemma number_stop_digit rest :
  number_stop rest → match rest with c :: _ => is_digit c = false | [] => True end.
Proof. destruct rest as [|c rest]; [done|]. by intros [->|[->| ->]]. Qed.

Lemma radix_digits_last fuel n d : 0 < n < 2 ^ Z.of_nat fuel →
  last (radix_digits fuel 10 n) = Some d → d ≠ 0.
Proof.
  revert n. induction fuel as [|f IH]; intros n Hn; [done|]. cbn [radix_digits].
  destruct (Z.ltb_spec n 10); [intros [= <-]; lia|].
  rewrite Nat2Z.inj_succ, Z.pow_succ_r in Hn by lia.
  assert (0 < n / 10 < 2 ^ Z.of_nat f) as Hq.
  { split; [apply Z.div_str_pos; lia|]. apply Z.div_lt_upper_bound; lia. }
  specialize (IH _ Hq). destruct (radix_digits f 10 (n / 10)) as [|e l] eqn:E; [|done].
  destruct f as [|f]; [cbn in Hq; lia|]. cbn in E. by destruct (n / 10 <? 10).
Qed.

Lemma fmap_head {A B} (f : A → B) l : head (f <$> l) = f <$> head l.
Proof. by destruct l. Qed.

Lemma to_radix_valid n : 0 ≤ n → valid_int (to_radix 10 n) = true.
Proof.
  intros Hn. destruct (Z.eq_dec n 0) as [->|]; [done|].
  unfold valid_int. destruct (to_radix 10 n) as [|c l] eqn:E.
  { by apply to_radix_nonempty in E. }
  destruct l as [|c' l]; [done|].
  assert (head (to_radix 10 n) = Some c) as Hh by (by rewrite E).
  unfold to_radix in Hh. rewrite fmap_head, head_reverse in Hh.
  destruct (last _) as [d|] eqn:El; [|done]. injection Hh as <-.
  assert (0 < n) as Hpos by lia.
  pose proof (radix_digits_last _ n d (conj Hpos (radix_fuel_enough n Hn)) El).
  assert (0 ≤ d < 10).
  { pose proof (radix_digits_range 10 ltac:(lia) (radix_fuel n) n Hn) as Hr.
    eapply Forall_forall in Hr; [exact Hr|]. apply last_Some in El as [l' ->].
    apply elem_of_app. right. by constructor. }
  apply negb_true_iff, Z.eqb_neq. unfold digit_char. destruct (Z.ltb_spec d 10); lia.
Qed.

Lemma parse_number_digits n neg s rest :
  0 ≤ n → number_stop rest → s = to_radix 10 n ++ rest →
  parse_number ((if neg : bool then [45] else []) ++ s) = 
    Some (num_of_decimal neg n 0, rest).
Proof.
  intros Hn Hr ->. pose proof (decimal_digits n Hn) as Hd.
  destruct (take_while_app is_digit _ rest Hd (number_stop_digit rest Hr)) as [E1 E2].
  assert (opt_sign 45 ((if neg then [45] else []) ++ to_radix 10 n ++ rest)
    = (neg, to_radix 10 n ++ rest)) as Es.
  { destruct neg; [done|]. cbn [app]. unfold opt_sign.
    destruct (to_radix 10 n) as [|c l] eqn:E; [by apply to_radix_nonempty in E|].
    cbn. apply Forall_cons in Hd as [Hc _]. unfold is_digit in Hc. reflect_Z.
    by rewrite (proj2 (Z.eqb_neq _ _)) by lia. }
  unfold parse_number. rewrite Es, E1, E2, to_radix_valid by done.
  assert (parse_frac rest = Some ([], rest) ∧ parse_exp rest = Some (0, rest)) as [-> ->].
  { destruct rest as [|c rest]; [done|]. by destruct Hr as [->|[->| ->]]. }
  cbn [str_length length]. by rewrite app_nil_r, to_radix_value by lia.
Qed.

(** The doubles the program puts into JSON: integers, exactly represented. *)
Definition safe_num (n : jsnum) : bool :=
  match n with
  | NZero neg => negb neg
  | NFin m e =>
      (0 <=? e) && (Z.abs m * 2 ^ e <=? 2 ^ 53) && bool_decide (num_of_Z (m * 2 ^ e) = n)
  | NInf _ => false
  end.

Lemma safe_num_Z n : safe_num n = true → ∃ z, Z.abs z ≤ 2 ^ 53 ∧ n = num_of_Z z.
Proof.
  destruct n as [[]|m e|]; cbn; try done; [by exists 0|].
  intros [[He Hm]%andb_prop Hz]%andb_prop. reflect_Z.
  exists (m * 2 ^ e). split; [|done]. rewrite Z.abs_mul, (Z.abs_eq (2 ^ e)) by (apply Z.pow_nonneg; lia). done.
Qed.

Lemma safe_num_of_Z z : Z.abs z ≤ 2 ^ 53 → safe_num (num_of_Z z) = true.
Proof.
  intros Hz. destruct (Z.eq_dec z 0) as [->|Hne]; [done|].
  assert (∃ m e, num_of_Z z = NFin m e ∧ 0 ≤ e ∧ m * 2 ^ e = z) as (m & e & E & He & Hm).
  { unfold num_of_Z. rewrite (proj2 (Z.leb_le _ _) Hz). unfold num_exact.
    destruct (Z.abs z) as [|p|p] eqn:Ep; [lia| |lia].
    pose proof (strip_pos_value p 0 ltac:(lia)) as Hs.
    destruct (strip_pos p 0) as [p' e']. destruct Hs as [He Hv].
    rewrite Z.pow_0_r, Z.mul_1_r in Hv. exists (signed (z <? 0) (Zpos p')), e'.
    split; [done|]. split; [done|]. unfold signed.
    destruct (Z.ltb_spec z 0); lia. }
  rewrite E. cbn [safe_num]. rewrite Hm, E, (proj2 (Z.leb_le _ _) He), bool_decide_eq_true_2 by done.
  assert (Z.abs m * 2 ^ e = Z.abs z) as ->.
  { rewrite <- Hm, Z.abs_mul, (Z.abs_eq (2 ^ e)); [done|]. apply Z.pow_nonneg. lia. }
  by rewrite (proj2 (Z.leb_le _ _) Hz).
Qed.

Lemma num_of_decimal_Z z : Z.abs z ≤ 2 ^ 53 →
  num_of_decimal (z <? 0) (Z.abs z) 0 = num_of_Z z.
Proof.
  intros Hz. unfold num_of_decimal, num_of_Z.
  rewrite (proj2 (Z.leb_le _ _) Hz). cbn zeta.
  destruct (Z.eqb_spec (Z.abs z) 0) as [E|]; [by rewrite E|].
  assert (length (to_radix 10 (Z.abs z)) ≤ 20)%nat.
  { apply to_radix_length; [lia| |done]. cbn. lia. }
  rewrite (proj2 (Z.ltb_ge 400 _)), (proj2 (Z.ltb_ge _ (-400))) by lia.
  rewrite Z.pow_0_r, Z.mul_1_r. by rewrite (proj2 (Z.leb_le _ _) Hz).
Qed.

Lemma starts_with_head c s p d : head p = Some d → c ≠ d → starts_with (c :: s) p = false.
Proof. destruct p; [done|]. intros [= ->] Hc. cbn. by rewrite (proj2 (Z.eqb_neq _ _)). Qed.

(** A text whose first character is no letter of a literal is a number. *)
Lemma parse_literal_number s : match s with c :: _ => c < 97 | [] => False end →
  parse_literal s = match parse_number s with Some (n, r) => POk (JNum n) r | None => PErr end.
Proof.
  destruct s as [|c s]; [done|]. intros Hc. unfold parse_literal.
  rewrite (starts_with_head c s (js "true") 116), (starts_with_head c s (js "false") 102),
    (starts_with_head c s (js "null") 110) by (done || lia). done.
Qed.

Lemma parse_safe_num z rest : Z.abs z ≤ 2 ^ 53 → number_stop rest →
  parse_literal (bigint_to_string z ++ rest) = POk (JNum (num_of_Z z)) rest.
Proof.
  intros Hz Hr. rewrite parse_literal_number.
  - rewrite <- num_of_decimal_Z by done. unfold bigint_to_string.
    destruct (Z.ltb_spec z 0).
    + rewrite Z.abs_neq by lia.
      pose proof (parse_number_digits (- z) true _ rest ltac:(lia) Hr eq_refl) as E.
      cbn [app] in *. by rewrite E.
    + rewrite Z.abs_eq by lia.
      pose proof (parse_number_digits z false _ rest ltac:(lia) Hr eq_refl) as E.
      cbn [app] in *. by rewrite E.
  - unfold bigint_to_string. destruct (Z.ltb_spec z 0); [done|].
    pose proof (decimal_digits z ltac:(lia)) as Hd.
    destruct (to_radix 10 z) as [|c l] eqn:E; [by apply to_radix_nonempty in E|].
    apply Forall_cons in Hd as [Hc _]. unfold is_digit in Hc. reflect_Z. cbn. lia.
Qed.

(** ** Values *)

(** The values the program serializes: exactly represented integers, strings of
    code units, objects with distinct keys that are no array indices. *)
Fixpoint json_ok (v : json) : bool :=
  match v with
  | JNull | JBool _ => true
  | JNum n => safe_num n
  | JStr s => bool_decide (is_units s)
  | JArr l => forallb json_ok l
  | JObj kvs =>
      bool_decide (NoDup kvs.*1)
      && forallb (λ kv, bool_decide (is_units kv.1) && bool_decide (array_index kv.1 = None)
                        && json_ok kv.2) kvs
  end.

Lemma stringify_num z : Z.abs z ≤ 2 ^ 53 →
  JSON_stringify (JNum (num_of_Z z)) = bigint_to_string z.
Proof.
  intros Hz. rewrite <- num_to_string_of_Z by done. unfold num_of_Z.
  rewrite (proj2 (Z.leb_le _ _) Hz). cbn. unfold num_exact.
  destruct (Z.abs z); try done. by destruct (strip_pos p 0).
Qed.

Lemma bigint_to_string_head z : ∃ c t, bigint_to_string z = c :: t ∧ 45 ≤ c ≤ 57.
Proof.
  unfold bigint_to_string. destruct (Z.ltb_spec z 0); [by repeat eexists|].
  pose proof (decimal_digits z ltac:(lia)) as Hd.
  destruct (to_radix 10 z) as [|c l] eqn:E; [by apply to_radix_nonempty in E|].
  apply Forall_cons in Hd as [Hc _]. unfold is_digit in Hc. reflect_Z.
  exists c, l. split; [done|lia].
Qed.

Lemma stringify_head v : json_ok v = true →
  ∃ c t, JSON_stringify v = c :: t ∧ is_json_space c = false ∧ c ≠ 93 ∧ c ≠ 125.
Proof.
  destruct v as [|[]|n|s|l|kvs]; intros Hok; try (by repeat eexists).
  cbn [json_ok] in Hok. apply safe_num_Z in Hok as (z & Hz & ->).
  rewrite stringify_num by done.
  destruct (bigint_to_string_head z) as (c & t & -> & Hc).
  exists c, t. split; [done|]. unfold is_json_space.
  rewrite !(proj2 (Z.eqb_neq _ _)) by lia. split_and!; [done|lia..].
Qed.

Lemma skip_ws_stringify v t : json_ok v = true →
  skip_ws (JSON_stringify v ++ t) = JSON_stringify v ++ t.
Proof.
  intros (c & s & -> & Hc & _)%stringify_head. unfold skip_ws. cbn. by rewrite Hc.
Qed.

(** Appending properties with fresh keys that are no indices. *)
Lemma has_prop_false k kvs : has_prop k kvs = false ↔ k ∉ kvs.*1.
Proof.
  unfold has_prop. induction kvs as [|[k' v'] kvs IH]; cbn; [set_solver|].
  rewrite orb_false_iff, IH, not_elem_of_cons, str_eqb_false.
  split; intros [? ?]; split; auto.
Qed.

Lemma obj_put_fresh acc k v :
  k ∉ acc.*1 → array_index k = None → obj_put acc k v = acc ++ [(k, v)].
Proof. intros Hk Hi. unfold obj_put. by rewrite (proj2 (has_prop_false _ _) Hk), Hi. Qed.

Lemma comma_sep_cons p q ps : comma_sep (p :: q :: ps) = p ++ [44] ++ comma_sep (q :: ps).
Proof. done. Qed.

(** What the round trip says of one value, in front of any text that cannot
    extend it. *)
Definition roundtrips (v : json) : Prop :=
  ∀ fuel rest, number_stop rest → (2 * length (JSON_stringify v ++ rest) < fuel)%nat →
    parse_value fuel (JSON_stringify v ++ rest) = POk v rest.

Lemma parse_elements_roundtrip l acc fuel rest :
  Forall (λ v, json_ok v = true ∧ roundtrips v) l → l ≠ [] →
  (2 * length (comma_sep (JSON_stringify <$> l) ++ 93%Z :: rest) + 1 < fuel)%nat →
  parse_elements fuel acc (comma_sep (JSON_stringify <$> l) ++ 93 :: rest)
  = POk (JArr (acc ++ l)) rest.
Proof.
  revert acc fuel. induction l as [|v l IH]; intros acc fuel Hl Hne Hf; [done|].
  apply Forall_cons in Hl as [[Hok Hv] Hl]. destruct fuel as [|f]; [lia|].
  destruct l as [|w l].
  - cbn [fmap list_fmap comma_sep parse_elements] in *.
    rewrite Hv; [|cbn; tauto|rewrite ?length_app in *; cbn in *; lia]. done.
  - cbn [fmap list_fmap] in *. rewrite comma_sep_cons in *. rewrite <- !app_assoc in *.
    cbn [app] in *. cbn [parse_elements].
    rewrite Hv; [|cbn; tauto|lia].
    assert (∀ t, skip_ws (44 :: t) = 44 :: t) as -> by done.
    cbn [expect]. cbn [Z.eqb Pos.eqb].
    assert (Hw : json_ok w = true) by (by apply Forall_cons in Hl as [[? _] _]).
    assert (∃ t, comma_sep (JSON_stringify w :: (JSON_stringify <$> l)) ++ 93 :: rest
                 = JSON_stringify w ++ t) as [t Et].
    { destruct l; cbn; eexists; rewrite <- ?app_assoc; reflexivity. }
    rewrite Et, skip_ws_stringify, <- Et by done.
    rewrite IH; [by rewrite <- app_assoc|done|done|].
    cbn [fmap list_fmap]. rewrite length_app in Hf. cbn in Hf. cbn. lia.
Qed.

Definition member (kv : jsstr * json) : jsstr := quote kv.1 ++ [58] ++ JSON_stringify kv.2.

Lemma parse_key_member k v t : is_units k → json_ok v = true →
  parse_key (quote k ++ [58] ++ JSON_stringify v ++ t) = Some (k, JSON_stringify v ++ t).
Proof.
  intros Hk Hv. unfold parse_key, quote. cbn [app expect]. cbn [Z.eqb Pos.eqb].
  rewrite <- app_assoc. cbn [app]. rewrite parse_quote by done.
  cbn. by rewrite skip_ws_stringify.
Qed.

Lemma parse_members_roundtrip kvs acc fuel rest :
  Forall (λ kv, is_units kv.1 ∧ json_ok kv.2 = true ∧ roundtrips kv.2) kvs → kvs ≠ [] →
  (2 * length (comma_sep (member <$> kvs) ++ 125%Z :: rest) < fuel)%nat →
  parse_members fuel acc (comma_sep (member <$> kvs) ++ 125 :: rest)
  = POk (JObj (foldl (λ a kv, obj_put a kv.1 kv.2) acc kvs)) rest.
Proof.
  revert acc fuel. induction kvs as [|[k v] kvs IH]; intros acc fuel Hl Hne Hf; [done|].
  apply Forall_cons in Hl as [(Hk & Hok & Hv) Hl]. destruct fuel as [|f]; [lia|].
  cbn [fst snd] in *. destruct kvs as [|[k' v'] kvs].
  - cbn [fmap list_fmap comma_sep parse_members] in *. unfold member in *. cbn [fst snd] in *.
    rewrite <- !app_assoc in *. rewrite parse_key_member by done.
    rewrite Hv; [done|cbn; tauto|]. rewrite !length_app in *. cbn in *. lia.
  - cbn [fmap list_fmap] in *. rewrite comma_sep_cons in *. unfold member at 1.
    unfold member at 1 in Hf. cbn [fst snd] in *. rewrite <- !app_assoc in *.
    cbn [parse_members]. rewrite parse_key_member by done.
    rewrite Hv; [|cbn; tauto|rewrite !length_app in *; cbn in *; lia].
    assert (∃ t, comma_sep (member (k', v') :: (member <$> kvs)) ++ 125 :: rest = 34 :: t) as [t Et].
    { destruct kvs; by eexists. }
    cbn [app]. assert (∀ t, skip_ws (44 :: t) = 44 :: t) as -> by done.
    cbn [expect]. cbn [Z.eqb Pos.eqb].
    assert (∀ t, skip_ws (34 :: t) = 34 :: t) as Hs by done.
    rewrite Et, Hs, <- Et. rewrite IH; [done|done|done|].
    rewrite !length_app in *. cbn [fmap list_fmap length] in *. lia.
Qed.

Lemma foldl_obj_put acc kvs :
  NoDup (acc ++ kvs).*1 → Forall (λ kv, array_index kv.1 = None) kvs →
  foldl (λ a kv, obj_put a kv.1 kv.2) acc kvs = acc ++ kvs.
Proof.
  revert acc. induction kvs as [|[k v] kvs IH]; intros acc Hnd Hi; cbn.
  { by rewrite app_nil_r. }
  apply Forall_cons in Hi as [Hk Hi].
  rewrite obj_put_fresh; [|intros Hin|done].
  - rewrite IH; [by rewrite <- app_assoc|by rewrite <- app_assoc|done].
  - rewrite fmap_app in Hnd. apply NoDup_app in Hnd as (_ & Hd & _).
    eapply Hd; [exact Hin|]. cbn. by constructor.
Qed.

Lemma parse_value_literal f c s : 45 ≤ c ≤ 57 →
  parse_value (S f) (c :: s) = parse_literal (c :: s).
Proof. intros. cbn [parse_value]. by rewrite !(proj2 (Z.eqb_neq _ _)) by lia. Qed.

Lemma expect_head c d s : c ≠ d → expect c (d :: s) = None.
Proof. intros. cbn. by rewrite (proj2 (Z.eqb_neq _ _)) by lia. Qed.

Lemma json_roundtrips v : json_ok v = true → roundtrips v.
Proof.
  induction v as [|b|n|s|l IH|kvs IH] using json_nested_ind; intros Hok fuel rest Hr Hf;
    (destruct fuel as [|f]; [lia|]).
  - done.
  - by destruct b.
  - cbn [json_ok] in Hok. apply safe_num_Z in Hok as (z & Hz & ->).
    rewrite stringify_num by done. rewrite <- parse_safe_num by done.
    destruct (bigint_to_string_head z) as (c & t & -> & Hc). by apply parse_value_literal.
  - cbn in Hok. reflect_Z. cbn [JSON_stringify]. unfold quote. cbn [app parse_value].
    cbn [Z.eqb Pos.eqb]. rewrite <- app_assoc. cbn [app]. by rewrite parse_quote.
  - cbn [json_ok] in Hok. apply forallb_Forall in Hok.
    cbn [JSON_stringify] in *. rewrite <- !app_assoc in *. cbn [app] in *.
    destruct l as [|v l]; [done|].
    assert (∃ t, comma_sep (JSON_stringify <$> v :: l) ++ 93 :: rest
                 = JSON_stringify v ++ t) as [t Et].
    { destruct l; cbn; eexists; rewrite <- ?app_assoc; reflexivity. }
    cbn [parse_value]. cbn [Z.eqb Pos.eqb].
    assert (json_ok v = true) as Hv by (by apply Forall_cons in Hok as [? _]).
    rewrite Et, skip_ws_stringify by done.
    destruct (stringify_head v Hv) as (c & u & Ec & _ & H93 & _).
    rewrite Ec at 1. cbn [app]. rewrite expect_head by done. rewrite <- Et.
    rewrite parse_elements_roundtrip; [done| |done|cbn [length] in Hf; lia].
    rewrite Forall_forall in IH. rewrite Forall_forall in Hok |- *. auto.
  - cbn [json_ok] in Hok. apply andb_prop in Hok as [Hnd Hok]. reflect_Z.
    apply forallb_Forall in Hok.
    assert (Forall (λ kv, is_units kv.1 ∧ json_ok kv.2 = true ∧ roundtrips kv.2) kvs ∧
            Forall (λ kv, array_index kv.1 = None) kvs) as [Hkvs Hidx].
    { rewrite Forall_forall in IH. rewrite Forall_forall in Hok. rewrite !Forall_forall.
      split; intros kv Hin; specialize (Hok kv Hin); reflect_Z; auto. }
    cbn [JSON_stringify] in *. rewrite <- !app_assoc in *. cbn [app] in *.
    destruct kvs as [|kv kvs]; [done|].
    cbn [parse_value]. cbn [Z.eqb Pos.eqb]. change (λ kv, quote kv.1 ++ _) with member in *.
    assert (∃ t, comma_sep (member <$> kv :: kvs) ++ 125 :: rest = 34 :: t) as [t Et].
    { destruct kvs; by eexists. }
    rewrite Et. assert (skip_ws (34 :: t) = 34 :: t) as -> by done.
    rewrite expect_head by done. rewrite <- Et.
    rewrite parse_members_roundtrip; [|done|done|cbn [length] in Hf; lia].
    by rewrite foldl_obj_put.
Qed.

(** [JSON.parse(JSON.stringify(v))] is [v]. *)
Lemma JSON_roundtrip `{JsEngine} v : json_ok v = true →
  JSON_parse (JSON_stringify v) = Ret v.
Proof.
  intros Hok. unfold JSON_parse.
  pose proof (skip_ws_stringify v [] Hok) as Hs. rewrite app_nil_r in Hs. rewrite Hs.
  pose proof (json_roundtrips v Hok (S (2 * length (JSON_stringify v))) [] I) as E.
  rewrite app_nil_r in E. rewrite E by lia. done.
Qed.

(** ** The printed text is well-formed UTF-16 *)

Definition wf_text (s : jsstr) : Prop := is_units s ∧ well_formed s = true.

Lemma well_formed_app a b :
  well_formed a = true → well_formed b = true → well_formed (a ++ b) = true.
Proof.
  induction a as [|c|c d a IH1 IH2] using pair_ind; intros Ha Hb; [done| |].
  - cbn in *. destruct (is_high c); [done|]. by rewrite andb_true_r in Ha; rewrite Ha.
  - cbn [app well_formed] in *. destruct (is_high c).
    + apply andb_prop in Ha as [-> Ha]. by apply IH1.
    + apply andb_prop in Ha as [-> Ha]. by apply IH2.
Qed.

Lemma wf_text_app a b : wf_text a → wf_text b → wf_text (a ++ b).
Proof.
  intros [? ?] [? ?]. split; [by apply Forall_app|by apply well_formed_app].
Qed.

Lemma wf_text_ascii s : Forall (λ c, 0 ≤ c < 128) s → wf_text s.
Proof.
  intros Hs. split; [|by apply well_formed_ascii].
  eapply Forall_impl; [exact Hs|]. unfold is_unit. lia.
Qed.

Lemma wf_text_nil : wf_text [].
Proof. by split. Qed.

#[export] Hint Resolve wf_text_app wf_text_nil : sw.

Lemma to_radix_wf r n : 2 ≤ r ≤ 16 → 0 ≤ n → wf_text (to_radix r n).
Proof.
  intros. apply wf_text_ascii. eapply Forall_impl; [by apply to_radix_digits|].
  cbn. intros c (d & ? & ->). pose proof (digit_char_unit d). lia.
Qed.

Lemma bigint_to_string_wf z : wf_text (bigint_to_string z).
Proof.
  apply wf_text_ascii. eapply Forall_impl; [apply bigint_to_string_ascii|].
  apply is_lower_ascii_unit.
Qed.

Lemma unicode_escape_wf c : 0 ≤ c → wf_text (unicode_escape c).
Proof.
  intros. unfold unicode_escape, pad_start.
  apply wf_text_app; [by apply wf_text_ascii; repeat constructor|].
  apply wf_text_app; [|apply to_radix_wf; lia].
  apply wf_text_ascii. by apply Forall_replicate.
Qed.

Lemma short_escape_ascii c e : short_escape c = Some e → 0 ≤ e < 128.
Proof.
  unfold short_escape. destruct (_ || _) eqn:E.
  { intros [= <-]. apply orb_prop in E as [?|?]; reflect_Z; subst; lia. }
  intros E'. repeat case_match; simplify_eq; lia.
Qed.

Lemma quote_unit_wf c s :
  is_unit c → match s with d :: _ => is_high c && is_low d = false | [] => True end →
  wf_text (quote_units s) → wf_text (quote_units (c :: s)).
Proof.
  intros Hc Hp Hs. cbn [quote_units]. destruct (short_escape c) as [e|] eqn:Ee.
  { apply wf_text_app; [|done]. apply short_escape_ascii in Ee.
    apply wf_text_ascii. repeat constructor; lia. }
  unfold is_unit in Hc. pose proof (unicode_escape_wf c ltac:(lia)).
  destruct (c <? 32); [by apply wf_text_app|].
  destruct (is_high c) eqn:Hh.
  - destruct s as [|d s]; [done|]. cbn in Hp. rewrite Hp. by apply wf_text_app.
  - destruct (is_low c) eqn:Hl; [by apply wf_text_app|].
    destruct Hs as [Hu Hw]. split; [by constructor|]. cbn. by rewrite Hh, Hl.
Qed.

Lemma quote_units_wf s : is_units s → wf_text (quote_units s).
Proof.
  induction s as [|c|c d s IH1 IH2] using pair_ind; intros Hu; [by split| |].
  - inversion_clear Hu. by apply (quote_unit_wf c []).
  - inversion_clear Hu as [|?? Hc Hu'].
    destruct (is_high c && is_low d) eqn:Hp.
    + apply andb_prop in Hp as [Hh Hl].
      destruct (quote_pair c d s Hh Hl) as (-> & _).
      inversion_clear Hu' as [|?? Hd Hs]. destruct (IH1 Hs) as [Hu Hw].
      split; [by repeat constructor; try apply Hc; try apply Hd|].
      cbn. by rewrite Hh, Hl.
    + apply quote_unit_wf; [done|by rewrite Hp|by apply IH2].
Qed.

Lemma quote_wf s : is_units s → wf_text (quote s).
Proof.
  intros. unfold quote. apply wf_text_app; [by apply wf_text_ascii; repeat constructor|].
  apply wf_text_app; [by apply quote_units_wf|by apply wf_text_ascii; repeat constructor].
Qed.

Lemma comma_sep_wf l : Forall wf_text l → wf_text (comma_sep l).
Proof.
  induction 1 as [|x l Hx _ IH]; [by split|]. destruct l as [|y l]; [done|].
  rewrite comma_sep_cons. apply wf_text_app; [done|].
  apply wf_text_app; [by apply wf_text_ascii; repeat constructor|done].
Qed.

Lemma stringify_wf v : json_ok v = true → wf_text (JSON_stringify v).
Proof.
  assert (∀ c, 0 ≤ c < 128 → wf_text [c]) as H1.
  { intros. apply wf_text_ascii. by repeat constructor; lia. }
  induction v as [|b|n|s|l IH|kvs IH] using json_nested_ind; intros Hok.
  - by apply wf_text_ascii; repeat constructor.
  - by destruct b; apply wf_text_ascii; repeat constructor.
  - cbn [json_ok] in Hok. apply safe_num_Z in Hok as (z & Hz & ->).
    rewrite stringify_num by done. apply bigint_to_string_wf.
  - cbn in Hok. reflect_Z. by apply quote_wf.
  - cbn [json_ok] in Hok. apply forallb_Forall in Hok. cbn [JSON_stringify].
    repeat apply wf_text_app; try (apply H1; lia).
    apply comma_sep_wf, Forall_fmap. rewrite Forall_forall in IH, Hok.
    apply Forall_forall. auto.
  - cbn [json_ok] in Hok. apply andb_prop in Hok as [_ Hok]. apply forallb_Forall in Hok.
    cbn [JSON_stringify]. repeat apply wf_text_app; try (apply H1; lia).
    apply comma_sep_wf, Forall_fmap. rewrite Forall_forall in IH, Hok.
    apply Forall_forall. intros kv Hin. specialize (IH kv Hin). specialize (Hok kv Hin).
    cbn beta in *. reflect_Z. apply wf_text_app; [by apply quote_wf|].
    apply (wf_text_app [58]); [apply H1; lia|auto].
Qed.

(** Serialize, encode, decode and parse again: the path every message takes. *)
Lemma JSON_utf8_roundtrip `{JsEngine} v : json_ok v = true →
  JSON_parse (utf8_decode (utf8_encode (JSON_stringify v))) = Ret v.
Proof.
  intros Hok. destruct (stringify_wf v Hok). rewrite utf8_roundtrip by done.
  by apply JSON_roundtrip.
Qed.
