(* ===== verification/Encoding.v ===== *)
(** * Hex and bytes32 encodings ([typescript/src/base/encoding.ts])

    [hexToBytes], [bytesToHex], [stringToBytes32Hex] and [bytes32HexToString],
    with the laws the wire format rests on: hex round trips in both directions,
    which inputs are rejected and with which error, and the exact domain on
    which the bytes32 identifiers are faithful. *)

From S2P Require Import Prelude JsString JsNumber Utf8 Json JsonFacts.

(** ** hexToBytes *)

Definition strip_0x (s : jsstr) : jsstr :=
  if starts_with s (js "0x") || starts_with s (js "0X") then slice_from s 2 else s.

(** The byte at [i]: [parseInt(s.slice(i * 2, i * 2 + 2), 16)], two characters
    at a time. *)
Fixpoint hex_pairs (s : jsstr) : bytes :=
  match s with
  | h :: l :: s' => digits_value 16 [h; l] :: hex_pairs s'
  | _ => []
  end.

Definition hexStringToBytes (h : jsstr) : outcome bytes :=
  let s := strip_0x h in
  if bool_decide (s = []) then Ret []
  else if Nat.odd (length s) then
    Throw (PlainError (js "invalid hex: odd length (" ++ bigint_to_string (str_length s) ++ js ")"))
  else if negb (forallb is_hex_digit s) then
    Throw (PlainError (js "invalid hex: non-hex characters"))
  else Ret (hex_pairs s).

(** [hexToBytes(h)].  The argument comes from untyped JSON: [undefined] and
    [null] decode to no bytes, a value that is no string has no [startsWith]. *)
Definition hexToBytes (h : option json) : outcome bytes :=
  match h with
  | None | Some JNull => Ret []
  | Some (JStr s) => hexStringToBytes s
  | Some _ => Throw (TypeError (js "s.startsWith is not a function"))
  end.

(** ** bytesToHex *)

Definition byte_hex (b : Z) : jsstr := pad_start (to_radix 16 b) 2 48.

Definition bytesToHex (b : bytes) : jsstr := fold_left (λ s x, s ++ byte_hex x) b (js "0x").

(** ** bytes32 identifiers *)

Definition stringToBytes32Hex (s : jsstr) : outcome jsstr :=
  let encoded := utf8_encode s in
  if (32 <? Z.of_nat (length encoded)) then
    Throw (PlainError (js "string too long for bytes32 ("
      ++ bigint_to_string (str_length encoded) ++ js " bytes): " ++ s))
  else Ret (bytesToHex (encoded ++ replicate (32 - length encoded) 0)).

(** [while (end > 0 && b[end - 1] === 0) end--]. *)
Fixpoint trim_zeros (b : bytes) (end_ : nat) : nat :=
  match end_ with
  | O => O
  | S e => if bool_decide (b !! e = Some 0) then trim_zeros b e else end_
  end.

Definition bytes32HexToString (h : option json) : jsstr :=
  match hexToBytes h with
  | Throw _ => []
  | Ret b => text_decode (take (trim_zeros b (length b)) b)
  end.

(** ** Lemmas *)

Lemma byte_hex_char b : is_byte b →
  ∃ h l, byte_hex b = [h; l] ∧ is_hex_digit h = true ∧ is_hex_digit l = true ∧
    is_lower_ascii h = true ∧ is_lower_ascii l = true ∧ digits_value 16 [h; l] = b.
Proof.
  unfold is_byte. intros Hb. unfold byte_hex, pad_start.
  pose proof (to_radix_length 16 ltac:(lia) b 2 ltac:(cbn; lia) ltac:(done)) as Hl.
  pose proof (to_radix_digits 16 ltac:(lia) b ltac:(lia)) as Hd.
  pose proof (to_radix_value 16 ltac:(lia) b ltac:(lia)) as Hv.
  destruct (to_radix 16 b) as [|h [|l [|]]] eqn:E; [by apply to_radix_nonempty in E| | |cbn in Hl; lia];
    apply Forall_cons in Hd as [(d1 & ? & ->) Hd].
  - exists 48, (digit_char d1). cbn [length replicate Nat.sub app].
    split_and!; try done; [apply digit_char_hex; lia|apply digit_char_lower; lia].
  - apply Forall_cons in Hd as [(d2 & ? & ->) _]. exists (digit_char d1), (digit_char d2).
    split_and!; try done; try (apply digit_char_hex; lia); apply digit_char_lower; lia.
Qed.

Lemma fold_left_app_concat {A} (f : A → jsstr) l s :
  fold_left (λ s x, s ++ f x) l s = s ++ mjoin (f <$> l).
Proof.
  revert s. induction l as [|x l IH]; intros s; cbn; [by rewrite app_nil_r|].
  by rewrite IH, app_assoc.
Qed.

(** The digits after the [0x]. *)
Definition hex_digits (b : bytes) : jsstr := mjoin (byte_hex <$> b).

Lemma bytesToHex_digits b : bytesToHex b = 48 :: 120 :: hex_digits b.
Proof. unfold bytesToHex, hex_digits. by rewrite fold_left_app_concat. Qed.

Lemma hex_digits_cons x b : hex_digits (x :: b) = byte_hex x ++ hex_digits b.
Proof. done. Qed.

Lemma hex_digits_app a b : hex_digits (a ++ b) = hex_digits a ++ hex_digits b.
Proof. unfold hex_digits. by rewrite fmap_app, join_app. Qed.

Lemma hex_digits_facts b : is_bytes b →
  length (hex_digits b) = (2 * length b)%nat ∧
  Forall (λ c, is_hex_digit c = true ∧ is_lower_ascii c = true) (hex_digits b) ∧
  hex_pairs (hex_digits b) = b.
Proof.
  induction 1 as [|x b Hx _ (IH1 & IH2 & IH3)]; [done|].
  destruct (byte_hex_char x Hx) as (h & l & E & ? & ? & ? & ? & Hv).
  rewrite hex_digits_cons, E. cbn [app length hex_pairs]. rewrite IH1, IH3, Hv.
  split_and!; [lia| |done]. by repeat constructor.
Qed.

Lemma strip_0x_prefixed s : strip_0x (48 :: 120 :: s) = s.
Proof.
  unfold strip_0x. cbn [starts_with]. rewrite slice_from_drop by lia. done.
Qed.

Lemma hexStringToBytes_valid s :
  Forall (λ c, is_hex_digit c = true) s → Nat.odd (length s) = false →
  hexStringToBytes (48 :: 120 :: s) = Ret (hex_pairs s).
Proof.
  intros Hs Ho. unfold hexStringToBytes. rewrite strip_0x_prefixed.
  case_bool_decide as Hn; [by subst|]. rewrite Ho.
  by rewrite (proj2 (forallb_Forall _ _) Hs).
Qed.

(** Decoding inverts encoding. *)
Lemma hexToBytes_bytesToHex_str b : is_bytes b → hexStringToBytes (bytesToHex b) = Ret b.
Proof.
  intros (Hl & Hc & Hp)%hex_digits_facts. rewrite bytesToHex_digits, hexStringToBytes_valid.
  - by rewrite Hp.
  - eapply Forall_impl; [exact Hc|]. by intros ? [? _].
  - rewrite Hl. apply negb_true_iff. rewrite Nat.negb_odd. apply Nat.even_spec.
    by exists (length b).
Qed.

Lemma bytesToHex_inj a b : is_bytes a → is_bytes b → bytesToHex a = bytesToHex b → a = b.
Proof.
  intros Ha Hb E. pose proof (hexToBytes_bytesToHex_str a Ha) as H.
  rewrite E, hexToBytes_bytesToHex_str in H by done. by injection H.
Qed.

Lemma bytesToHex_length b : is_bytes b → length (bytesToHex b) = (2 + 2 * length b)%nat.
Proof. intros (Hl & _)%hex_digits_facts. rewrite bytesToHex_digits. cbn. lia. Qed.

Lemma bytesToHex_lower b : is_bytes b → Forall (λ c, is_lower_ascii c = true) (bytesToHex b).
Proof.
  intros (_ & Hc & _)%hex_digits_facts. rewrite bytesToHex_digits.
  repeat constructor. eapply Forall_impl; [exact Hc|]. by intros ? [_ ?].
Qed.

Lemma bytesToHex_to_lower `{JsEngine} b : is_bytes b → to_lower (bytesToHex b) = bytesToHex b.
Proof. intros. by apply to_lower_id, bytesToHex_lower. Qed.

Lemma bytesToHex_wf b : is_bytes b → wf_text (bytesToHex b).
Proof.
  intros. apply wf_text_ascii. eapply Forall_impl; [by apply bytesToHex_lower|].
  apply is_lower_ascii_unit.
Qed.

Lemma bytesToHex_units b : is_bytes b → is_units (bytesToHex b).
Proof. intros. by apply bytesToHex_wf. Qed.

#[export] Hint Resolve bytesToHex_units bytesToHex_wf bytesToHex_lower utf8_encode_bytes : sw.

(** ** JSON carried as hex

    A JSON value serialized, UTF-8 encoded and hex encoded, as every payload
    crosses the wire, and back. *)

Definition json_to_hex (v : json) : jsstr := bytesToHex (utf8_encode (JSON_stringify v)).

Lemma json_to_hex_units v : json_ok v = true → is_units (json_to_hex v).
Proof. intros Hok%stringify_wf. unfold json_to_hex. destruct Hok. auto with sw. Qed.

Lemma json_to_hex_bytes v : json_ok v = true →
  hexStringToBytes (json_to_hex v) = Ret (utf8_encode (JSON_stringify v)).
Proof.
  intros [Hu _]%stringify_wf. apply hexToBytes_bytesToHex_str. by apply utf8_encode_bytes.
Qed.

(** ** Lemmas on bytes32 identifiers *)

Definition pad32 (b : bytes) : bytes := b ++ replicate (32 - length b) 0.

Lemma pad32_bytes b : is_bytes b → is_bytes (pad32 b).
Proof. intros. apply Forall_app. split; [done|]. by apply Forall_replicate. Qed.

Lemma pad32_length b : (length b ≤ 32)%nat → length (pad32 b) = 32%nat.
Proof. intros. unfold pad32. rewrite length_app, length_replicate. lia. Qed.

Lemma stringToBytes32Hex_ok s : (length (utf8_encode s) ≤ 32)%nat →
  stringToBytes32Hex s = Ret (bytesToHex (pad32 (utf8_encode s))).
Proof. intros. unfold stringToBytes32Hex. by rewrite (proj2 (Z.ltb_ge _ _)) by lia. Qed.

Lemma trim_zeros_app b n k :
  n = length b → last b ≠ Some 0 → trim_zeros (b ++ replicate k 0) (n + k) = n.
Proof.
  intros -> Hl. induction k as [|k IH].
  - rewrite app_nil_r, Nat.add_0_r.
    destruct b as [|x b _] using rev_ind; [done|].
    rewrite length_app, Nat.add_1_r. cbn [trim_zeros].
    rewrite bool_decide_eq_false_2; [done|].
    rewrite lookup_app_r, Nat.sub_diag by done. rewrite last_snoc in Hl. naive_solver.
  - rewrite Nat.add_succ_r. cbn [trim_zeros]. rewrite bool_decide_eq_true_2.
    + rewrite replicate_S_end, app_assoc.
      transitivity (trim_zeros (b ++ replicate k 0) (length b + k)); [|exact IH].
      assert (∀ a c n, (n ≤ length a)%nat → trim_zeros (a ++ c) n = trim_zeros a n) as Ha.
      { intros a c n. induction n as [|m IHm]; intros; [done|]. cbn [trim_zeros].
        rewrite lookup_app_l by lia. by rewrite IHm by lia. }
      apply Ha. rewrite length_app, length_replicate. lia.
    + rewrite lookup_app_r by lia. rewrite lookup_replicate. split; [done|lia].
Qed.

(** The bytes before the padding are recovered when they do not end in zero. *)
Lemma trim_zeros_pad32 b : (length b ≤ 32)%nat → last b ≠ Some 0 →
  take (trim_zeros (pad32 b) (length (pad32 b))) (pad32 b) = b.
Proof.
  intros Hb Hl. rewrite pad32_length by done.
  replace 32%nat with (length b + (32 - length b))%nat at 1 by lia.
  unfold pad32. rewrite trim_zeros_app by done. apply take_app_length.
Qed.

(** An identifier that survives the padding: at most 32 bytes of well-formed
    UTF-16, not ending in NUL. *)
Definition identifier (s : jsstr) : Prop :=
  wf_text s ∧ (length (utf8_encode s) ≤ 32)%nat ∧ last (utf8_encode s) ≠ Some 0.

(** A short ASCII name without NUL, checked by evaluation. *)
Definition ascii_name (s : jsstr) : bool :=
  forallb (λ c, (0 <? c) && (c <? 128)) s && (length s <=? 32)%nat.

Lemma identifier_ascii s : ascii_name s = true → identifier s.
Proof.
  unfold ascii_name. rewrite andb_true_iff, forallb_Forall, Nat.leb_le. intros [Hs Hl].
  assert (Forall (λ c, 0 ≤ c < 128) s) as Ha.
  { eapply Forall_impl; [exact Hs|]. intros c. cbn. lia. }
  split; [by apply wf_text_ascii|]. rewrite utf8_encode_ascii by done. split; [done|].
  intros Hz%last_Some_elem_of. rewrite Forall_forall in Hs. by apply Hs in Hz.
Qed.

Lemma identifier_bytes s : identifier s → is_bytes (utf8_encode s).
Proof. intros [[? _] _]. by apply utf8_encode_bytes. Qed.

Lemma pad32_inj a b : (length a ≤ 32)%nat → (length b ≤ 32)%nat →
  last a ≠ Some 0 → last b ≠ Some 0 → pad32 a = pad32 b → a = b.
Proof.
  intros Ha Hb La Lb E. rewrite <- (trim_zeros_pad32 a Ha La), E. by apply trim_zeros_pad32.
Qed.

(** Distinct identifiers have distinct encodings. *)
Lemma bytes32_inj s t h : identifier s → identifier t →
  stringToBytes32Hex s = Ret h → stringToBytes32Hex t = Ret h → s = t.
Proof.
  intros Hs Ht. pose proof (identifier_bytes s Hs). pose proof (identifier_bytes t Ht).
  destruct Hs as ([Us Ws] & Ls & Zs), Ht as ([Ut Wt] & Lt & Zt).
  rewrite !stringToBytes32Hex_ok by done. intros [= <-] [= E].
  apply bytesToHex_inj in E; [|by apply pad32_bytes..].
  apply pad32_inj in E; [|done..].
  rewrite <- (utf8_roundtrip s), <- (utf8_roundtrip t) by done. by rewrite E.
Qed.

Lemma hex_digit_lower c : is_hex_digit c = true →
  digit_char (digit_val c) = ascii_lower c ∧ 0 ≤ digit_val c < 16.
Proof.
  unfold is_hex_digit, is_digit. rewrite !orb_true_iff, !andb_true_iff, !Z.leb_le.
  unfold digit_val, is_digit, digit_char, ascii_lower.
  intros [[H|H]|H];
    rewrite ?(proj2 (andb_true_iff (48 <=? c) (c <=? 57))) by (rewrite !Z.leb_le; lia).
  - rewrite (proj2 (Z.ltb_lt _ _)), (proj2 (Z.leb_gt 65 _)) by lia. cbn [andb]. lia.
  - rewrite (proj2 (Z.leb_gt c 57)), andb_false_r by lia.
    rewrite (proj2 (andb_true_iff (97 <=? c) (c <=? 102))) by (rewrite !Z.leb_le; lia).
    rewrite (proj2 (Z.ltb_ge _ _)), (proj2 (Z.leb_gt c 90)), andb_false_r by lia. lia.
  - rewrite (proj2 (Z.leb_gt c 57)), andb_false_r by lia.
    rewrite (proj2 (Z.leb_gt 97 c)) by lia. cbn [andb].
    rewrite (proj2 (Z.ltb_ge _ _)) by lia.
    rewrite (proj2 (andb_true_iff (65 <=? c) (c <=? 90))) by (rewrite !Z.leb_le; lia). lia.
Qed.

Lemma hex_pairs_bytes s : Forall (λ c, is_hex_digit c = true) s → is_bytes (hex_pairs s).
Proof.
  induction s as [|c|c d s IH1 _] using pair_ind; intros Hs; [constructor|constructor|].
  apply Forall_cons in Hs as [[_ Hc]%hex_digit_lower Hs].
  apply Forall_cons in Hs as [[_ Hd]%hex_digit_lower Hs].
  cbn [hex_pairs]. constructor; [|auto].
  unfold is_byte, digits_value. cbn [fold_left]. lia.
Qed.

Lemma hexStringToBytes_bytes s b : hexStringToBytes s = Ret b → is_bytes b.
Proof.
  unfold hexStringToBytes. case_bool_decide; [by intros [= <-]; constructor|].
  destruct (Nat.odd _); [done|]. destruct (forallb _ _) eqn:E; [|done].
  apply forallb_Forall in E. intros [= <-]. by apply hex_pairs_bytes.
Qed.

Lemma hexToBytes_bytes v b : hexToBytes (Some v) = Ret b → is_bytes b.
Proof.
  destruct v; try discriminate; [intros [= <-]; constructor|]. apply hexStringToBytes_bytes.
Qed.

Lemma byte_hex_pair a b : 0 ≤ a < 16 → 0 ≤ b < 16 →
  byte_hex (a * 16 + b) = [digit_char a; digit_char b].
Proof.
  intros Ha Hb. unfold byte_hex, pad_start, to_radix, radix_fuel. cbn [radix_digits].
  destruct (Z.ltb_spec (a * 16 + b) 16).
  - assert (a = 0) as -> by lia. by rewrite Z.mul_0_l, Z.add_0_l.
  - rewrite (Z.add_comm _ b), Z.mod_add, Z.div_add, Z.div_small, Z.mod_small, Z.add_0_l by lia.
    destruct (Z.to_nat (Z.log2 (b + a * 16))) as [|k] eqn:E.
    { assert (16 ≤ b + a * 16) as Hge by lia. apply (Z.log2_le_mono 16) in Hge.
      change (Z.log2 16) with 4 in Hge. lia. }
    cbn [radix_digits]. by rewrite (proj2 (Z.ltb_lt a 16)) by lia.
Qed.

Lemma byte_digits x : is_byte x → ∃ a b, byte_hex x = [digit_char a; digit_char b] ∧
  0 ≤ a < 16 ∧ 0 ≤ b < 16 ∧ x = a * 16 + b.
Proof.
  unfold is_byte. intros Hx. exists (x / 16), (x mod 16).
  pose proof (Z.mod_pos_bound x 16 ltac:(lia)).
  assert (0 ≤ x / 16 < 16) by (split; [apply Z.div_pos; lia|apply Z.div_lt_upper_bound; lia]).
  pose proof (Z.div_mod x 16 ltac:(lia)).
  rewrite <- byte_hex_pair by done. split; [f_equal; lia|]. split_and!; lia.
Qed.

Lemma hex_digits_pairs s :
  Forall (λ c, is_hex_digit c = true) s → Nat.even (length s) = true →
  hex_digits (hex_pairs s) = ascii_lower <$> s.
Proof.
  induction s as [|c|c d s IH _] using pair_ind; intros Hs He; [done|done|].
  apply Forall_cons in Hs as [Hc Hs]. apply Forall_cons in Hs as [Hd Hs].
  apply hex_digit_lower in Hc as [Ec ?], Hd as [Ed ?].
  cbn [hex_pairs fmap list_fmap]. rewrite hex_digits_cons.
  unfold digits_value. cbn [fold_left]. rewrite Z.mul_0_l, Z.add_0_l.
  rewrite byte_hex_pair, Ec, Ed by done. cbn [app]. by rewrite <- IH.
Qed.

(** ** Properties *)

(** decoding inverts encoding: [hexToBytes(bytesToHex(b))] is [b] for every
    byte array, and the encoding has two lower-case characters per byte. *)
Theorem hexToBytes_bytesToHex b : is_bytes b →
  hexToBytes (Some (JStr (bytesToHex b))) = Ret b ∧
  length (bytesToHex b) = (2 + 2 * length b)%nat ∧
  Forall (λ c, is_lower_ascii c = true) (bytesToHex b).
Proof. intros. cbn. auto using hexToBytes_bytesToHex_str, bytesToHex_length, bytesToHex_lower. Qed.

Lemma hexToBytes_bytesToHex_witness :
  is_bytes [222; 173; 0] ∧ hexToBytes (Some (JStr (bytesToHex [222; 173; 0]))) = Ret [222; 173; 0].
Proof.
  assert (is_bytes [222; 173; 0]) as H by (repeat constructor; lia).
  split; [exact H|]. exact (proj1 (hexToBytes_bytesToHex _ H)).
Defined.

(** [hexToBytes] accepts exactly the strings that, after an optional [0x] or
    [0X], have an even number of hex digits; what it then returns are bytes, and
    encoding them gives the input back in lower case with an [0x] prefix.  Every
    other string makes it throw. *)
Theorem hexToBytes_accepts s :
  let d := strip_0x s in
  if forallb is_hex_digit d && Nat.even (length d) then
    ∃ b, hexToBytes (Some (JStr s)) = Ret b ∧ is_bytes b ∧
      bytesToHex b = js "0x" ++ (ascii_lower <$> d)
  else throws (hexToBytes (Some (JStr s))).
Proof.
  cbn zeta. cbn [hexToBytes]. unfold hexStringToBytes.
  set (d := strip_0x s). rewrite <- Nat.negb_even.
  case_bool_decide as Hd.
  { rewrite Hd. cbn. by exists []. }
  destruct (Nat.even (length d)) eqn:He; cbn [negb]; [|rewrite andb_false_r; by eexists].
  destruct (forallb is_hex_digit d) eqn:Hh; cbn; [|by eexists].
  apply forallb_Forall in Hh. exists (hex_pairs d). split; [done|].
  split; [by apply hex_pairs_bytes|]. by rewrite bytesToHex_digits, hex_digits_pairs.
Qed.

(** an identifier of at most 32 bytes survives the bytes32 encoding: the
    result is [0x] and 64 hex characters and decodes to the identifier again
    (one that starts with a byte order mark loses it). *)
Theorem bytes32_roundtrip s :
  identifier s → take 3 (utf8_encode s) ≠ [0xEF; 0xBB; 0xBF] →
  ∃ h, stringToBytes32Hex s = Ret h ∧ length h = 66%nat ∧
    bytes32HexToString (Some (JStr h)) = s.
Proof.
  intros Hi Hbom. pose proof (identifier_bytes s Hi) as Hb.
  destruct Hi as ([Hu Hw] & Hl & Hz).
  rewrite stringToBytes32Hex_ok by done. eexists. split; [done|].
  pose proof (pad32_bytes _ Hb). split.
  - by rewrite bytesToHex_length, pad32_length.
  - unfold bytes32HexToString. cbn [hexToBytes]. rewrite hexToBytes_bytesToHex_str by done.
    rewrite trim_zeros_pad32, text_decode_no_bom by done. by apply utf8_roundtrip.
Qed.

Lemma bytes32_roundtrip_witness :
  ∃ h, stringToBytes32Hex (js "STREAM") = Ret h ∧ length h = 66%nat ∧
    bytes32HexToString (Some (JStr h)) = js "STREAM".
Proof.
  apply (bytes32_roundtrip (js "STREAM")).
  - split; [|split].
    + apply wf_text_ascii. vm_compute. repeat constructor; discriminate.
    + vm_compute. lia.
    + vm_compute. discriminate.
  - vm_compute. discriminate.
Defined.

(** a string of more than 32 bytes is refused, never truncated. *)
Theorem stringToBytes32Hex_too_long s :
  (32 < length (utf8_encode s))%nat ↔ throws (stringToBytes32Hex s).
Proof.
  unfold stringToBytes32Hex. destruct (Z.ltb_spec 32 (Z.of_nat (length (utf8_encode s)))).
  - split; [by eexists|lia].
  - split; [lia|]. by intros [? ?].
Qed.
