(* ===== verification/Framework.v ===== *)
(** * The handler registry ([typescript/src/base/types.ts])

    [Framework.handle], [Framework.lookup] and [normalize], over any type of
    handlers.  [dispatch_spec] is the contract (docs/extension-contract.md, section
    5) stated on the plain identifiers: an exact match first, then the entry
    registered with an empty command, in order of registration.
    [lookup_refines_dispatch] shows that the lookup on bytes32 strings
    implements it. *)

From S2P Require Import Prelude JsString JsNumber Utf8 Json JsonFacts Encoding.

Definition EMPTY_BYTES32 : jsstr :=
  match stringToBytes32Hex [] with Ret h => h | Throw _ => [] end.

(** The handlers array: encoded type, encoded command, handler. *)
Definition framework (Hnd : Type) : Type := list (jsstr * jsstr * Hnd).

Section framework.
Context `{JsEngine} {Hnd : Type}.
Implicit Types (fw : framework Hnd) (h : Hnd).

Definition handle fw (opType opCommand : jsstr) h : outcome (framework Hnd) :=
  t ← stringToBytes32Hex opType;
  c ← stringToBytes32Hex opCommand;
  Ret (fw ++ [(t, c, h)]).

(** [normalize(h)] of an untyped value: a truthy value that is no string has no
    [toLowerCase]. *)
Definition normalize (h : option json) : outcome jsstr :=
  if negb (truthy_opt h) then Ret EMPTY_BYTES32
  else match h with
       | Some (JStr s) =>
           let lower := to_lower s in
           Ret (if starts_with lower (js "0x") then lower else js "0x" ++ lower)
       | _ => Throw (TypeError (js "h.toLowerCase is not a function"))
       end.

Fixpoint find_handler fw (t c : jsstr) : option Hnd :=
  match fw with
  | (regType, regCmd, h) :: fw' =>
      if str_eqb regType t && str_eqb regCmd c then Some h else find_handler fw' t c
  | [] => None
  end.

Definition lookup fw (opType opCommand : option json) : outcome (option Hnd) :=
  t ← normalize opType;
  c ← normalize opCommand;
  match find_handler fw t c with
  | Some h => Ret (Some h)
  | None => Ret (find_handler fw t EMPTY_BYTES32)
  end.

(** ** The contract on identifiers *)

Fixpoint find_entry (regs : list (jsstr * jsstr * Hnd)) (t c : jsstr) : option Hnd :=
  match regs with
  | (t', c', h) :: regs' =>
      if decide (t' = t ∧ c' = c) then Some h else find_entry regs' t c
  | [] => None
  end.

Definition dispatch_spec regs (t c : jsstr) : option Hnd :=
  match find_entry regs t c with Some h => Some h | None => find_entry regs t [] end.

(** Register every entry, in order. *)
Fixpoint register_all fw (regs : list (jsstr * jsstr * Hnd)) : outcome (framework Hnd) :=
  match regs with
  | [] => Ret fw
  | (t, c, h) :: regs' => fw' ← handle fw t c h; register_all fw' regs'
  end.

(** ** Lemmas *)

Lemma empty_identifier : identifier [].
Proof. split; [by split|]. split; [cbn; lia|done]. Qed.

Lemma EMPTY_BYTES32_enc : stringToBytes32Hex [] = Ret EMPTY_BYTES32.
Proof. reflexivity. Qed.

(** The encoding of an identifier is its own normal form. *)
Lemma normalize_bytes32 s (h : jsstr) : identifier s → stringToBytes32Hex s = Ret h →
  normalize (Some (JStr h)) = Ret h.
Proof.
  intros Hs. pose proof (identifier_bytes s Hs) as Hb. destruct Hs as (_ & Hl & _).
  rewrite stringToBytes32Hex_ok by done. intros [= <-]. unfold normalize.
  pose proof (pad32_bytes _ Hb). cbn [truthy_opt truthy].
  rewrite bool_decide_eq_true_2 by (rewrite bytesToHex_digits; done).
  cbn [negb]. rewrite bytesToHex_to_lower by done. by rewrite bytesToHex_digits.
Qed.

(** Case and an omitted [0x] do not matter. *)
Lemma normalize_upper s : Forall (λ c, is_hex_digit c = true) s → s ≠ [] →
  normalize (Some (JStr s)) = Ret (js "0x" ++ (ascii_lower <$> s)) ∧
  normalize (Some (JStr (js "0x" ++ s))) = Ret (js "0x" ++ (ascii_lower <$> s)) ∧
  normalize (Some (JStr (js "0X" ++ s))) = Ret (js "0x" ++ (ascii_lower <$> s)).
Proof.
  intros Hs Hne.
  assert (Forall (λ c, is_ascii c = true) s) as Ha.
  { eapply Forall_impl; [exact Hs|]. intros c. unfold is_hex_digit, is_digit, is_ascii.
    rewrite !orb_true_iff, !andb_true_iff, !Z.leb_le, Z.ltb_lt. lia. }
  assert (starts_with (ascii_lower <$> s) (js "0x") = false) as Hx.
  { change (js "0x") with [48; 120].
    destruct s as [|a [|b s]]; [done|cbn; by rewrite andb_false_r|].
    apply Forall_cons in Hs as [_ [Hb _]%Forall_cons].
    cbn [fmap list_fmap starts_with].
    apply hex_digit_lower in Hb as [Hb ?]. rewrite <- Hb.
    pose proof (digit_char_unit (digit_val b) ltac:(lia)).
    rewrite (proj2 (Z.eqb_neq 120 _)) by lia.
    by rewrite andb_false_r. }
  unfold normalize. cbn [truthy_opt truthy].
  rewrite !bool_decide_eq_true_2 by (by destruct s). cbn [negb].
  rewrite !to_lower_ascii, Hx by (repeat constructor; done). done.
Qed.

Lemma register_all_app fw regs fw' :
  register_all fw regs = Ret fw' →
  ∃ es, fw' = fw ++ es ∧
    Forall2 (λ e r, stringToBytes32Hex r.1.1 = Ret e.1.1 ∧
                    stringToBytes32Hex r.1.2 = Ret e.1.2 ∧ e.2 = r.2) es regs.
Proof.
  revert fw. induction regs as [|[[t c] h] regs IH]; intros fw; cbn.
  { intros [= <-]. exists []. by rewrite app_nil_r. }
  unfold handle. intros E. inv_bind. apply IH in E as (es & -> & Hes).
  eexists (_ :: es). rewrite <- app_assoc. split; [done|]. by constructor.
Qed.

Lemma find_handler_entry es regs t c ht hc :
  identifier t → identifier c →
  stringToBytes32Hex t = Ret ht → stringToBytes32Hex c = Ret hc →
  Forall (λ r, identifier r.1.1 ∧ identifier r.1.2) regs →
  Forall2 (λ e r, stringToBytes32Hex r.1.1 = Ret e.1.1 ∧
                  stringToBytes32Hex r.1.2 = Ret e.1.2 ∧ e.2 = r.2) es regs →
  find_handler es ht hc = find_entry regs t c.
Proof.
  intros It Ic Et Ec Hid. induction 1 as [|[[t1 c1] h1] [[t' c'] h'] es regs (E1 & E2 & E3) _ IH];
    [done|].
  cbn in *. apply Forall_cons in Hid as [[I1 I2] Hid]. cbn in *. subst.
  rewrite IH by done. case_decide as Hd.
  - destruct Hd as [-> ->]. rewrite Et in E1. rewrite Ec in E2. simplify_eq.
    by rewrite !str_eqb_refl.
  - destruct (str_eqb t1 ht) eqn:D1, (str_eqb c1 hc) eqn:D2; cbn; try done.
    reflect_Z. subst. destruct Hd. split.
    + by eapply (bytes32_inj t' t ht).
    + by eapply (bytes32_inj c' c hc).
Qed.
End framework.

(** The registry implements the dispatch contract.  After any sequence of
    registrations of identifiers, looking up the bytes32 encodings of a type and
    a command yields the first handler registered for exactly that pair, else
    the first one registered for the type with an empty command, else none. *)
Lemma lookup_refines_dispatch `{JsEngine} {Hnd} (regs : list (jsstr * jsstr * Hnd)) fw t c ht hc :
  Forall (λ r, identifier r.1.1 ∧ identifier r.1.2) regs →
  identifier t → identifier c →
  register_all [] regs = Ret fw →
  stringToBytes32Hex t = Ret ht → stringToBytes32Hex c = Ret hc →
  lookup fw (Some (JStr ht)) (Some (JStr hc)) = Ret (dispatch_spec regs t c).
Proof.
  intros Hregs It Ic Hr Et Ec. apply register_all_app in Hr as (es & -> & Hes).
  unfold lookup. rewrite (normalize_bytes32 t ht It Et), (normalize_bytes32 c hc Ic Ec).
  cbn. unfold dispatch_spec.
  erewrite (find_handler_entry es regs t c) by done.
  rewrite (find_handler_entry es regs t [] ht EMPTY_BYTES32) by
    (done || apply empty_identifier).
  by destruct (find_entry regs t c).
Qed.

(** ** Properties *)

Lemma lookup_refines_dispatch_witness :
  let regs := [(js "STREAM", js "AUTH_WITHDRAW", 1%nat); (js "STREAM", [], 2%nat)] in
  ∃ fw ht hc,
    register_all [] regs = Ret fw ∧ stringToBytes32Hex (js "STREAM") = Ret ht ∧
    stringToBytes32Hex (js "AUTH_SETTLE") = Ret hc ∧
    lookup (H:=plain_engine) fw (Some (JStr ht)) (Some (JStr hc)) = Ret (Some 2%nat).
Proof.
  do 3 eexists. split; [reflexivity|]. split; [reflexivity|]. split; [reflexivity|].
  refine (lookup_refines_dispatch (H:=plain_engine)
    [(js "STREAM", js "AUTH_WITHDRAW", 1%nat); (js "STREAM", [], 2%nat)] _
    (js "STREAM") (js "AUTH_SETTLE") _ _ _ _ _ _ _ _).
  - repeat (apply List.Forall_cons; [split; apply identifier_ascii; reflexivity|]).
    apply List.Forall_nil.
  - apply identifier_ascii; reflexivity.
  - apply identifier_ascii; reflexivity.
  - reflexivity.
  - reflexivity.
  - reflexivity.
Defined.

(** identifiers are compared up to letter case and an omitted [0x] prefix:
    every spelling of a hex identifier selects the same handler. *)
Theorem lookup_case_insensitive `{JsEngine} {Hnd} (fw : framework Hnd) s t c :
  Forall (λ c, is_hex_digit c = true) s → s ≠ [] →
  t ∈ [s; js "0x" ++ s; js "0X" ++ s; js "0x" ++ (ascii_lower <$> s)] →
  lookup fw (Some (JStr t)) c = lookup fw (Some (JStr (js "0x" ++ s))) c.
Proof.
  intros Hs Hne Ht. destruct (normalize_upper s Hs Hne) as (E1 & E2 & E3).
  unfold lookup. rewrite E2.
  assert (normalize (Some (JStr t)) = Ret (js "0x" ++ (ascii_lower <$> s))) as ->; [|done].
  rewrite !list_elem_of_In in Ht. destruct Ht as [<-|[<-|[<-|[<-|[]]]]]; try done.
  assert (Forall (λ c, is_hex_digit c = true) (ascii_lower <$> s)) as Hs'.
  { apply Forall_fmap. eapply Forall_impl; [exact Hs|]. intros x Hx. cbn.
    apply hex_digit_lower in Hx as [<- ?]. by apply digit_char_hex. }
  destruct (normalize_upper (ascii_lower <$> s) Hs') as (_ & -> & _); [by destruct s|].
  rewrite <- list_fmap_compose. f_equal. f_equal. apply list_fmap_ext.
  intros. apply ascii_lower_idem.
Qed.

Lemma lookup_case_insensitive_witness :
  lookup (H:=plain_engine) [(js "0xab", EMPTY_BYTES32, tt)] (Some (JStr (js "0XAB"))) None
  = lookup (H:=plain_engine) [(js "0xab", EMPTY_BYTES32, tt)] (Some (JStr (js "0xAB"))) None.
Proof.
  apply (lookup_case_insensitive (H:=plain_engine) [(js "0xab", EMPTY_BYTES32, tt)] (js "AB")).
  - vm_compute. repeat constructor.
  - discriminate.
  - right. right. left.
Defined.
