(* ===== verification/Wire.v ===== *)
(** * Well-ranged text

    What is decoded from bytes is a string of UTF-16 code units, and what is
    parsed from such a string holds only such strings. *)

From S2P Require Import Prelude JsString JsNumber Utf8 Json JsonFacts Encoding.

(** ** Decoding *)

Lemma cp_units_units cp : 0 ≤ cp < 0x110000 → is_units (cp_units cp).
Proof.
  intros Hc. unfold cp_units. destruct (Z.ltb_spec cp 0x10000).
  - repeat constructor; unfold is_unit; lia.
  - pose proof (Z.mod_pos_bound (cp - 0x10000) 1024).
    assert ((cp - 0x10000) / 1024 < 1024) by (apply Z.div_lt_upper_bound; lia).
    assert (0 ≤ (cp - 0x10000) / 1024) by (apply Z.div_pos; lia).
    repeat constructor; unfold is_unit; lia.
Qed.

Lemma utf8_decode_units_aux n b : (length b ≤ n)%nat → is_bytes b → is_units (utf8_decode b).
Proof.
  assert (is_unit 0xFFFD) as Hr by (unfold is_unit; lia).
  revert b. induction n as [|n IH]; intros b Hn Hb; [by destruct b; [constructor|cbn in Hn; lia]|].
  destruct b as [|b0 r0]; [constructor|].
  apply Forall_cons in Hb as [H0 Hb]. unfold is_byte in H0. cbn in Hn.
  cbn [utf8_decode].
  repeat match goal with
  | H : is_bytes (_ :: _) |- _ => apply Forall_cons in H as [? ?]
  | |- context [if between ?a ?b ?c then _ else _] =>
      destruct (between a b c) eqn:?
  | |- context [if second_ok ?a ?b then _ else _] => destruct (second_ok a b) eqn:?
  | |- context [if is_cont ?a then _ else _] => destruct (is_cont a) eqn:?
  | |- context [if ?a <? ?b then _ else _] => destruct (Z.ltb_spec a b)
  | |- context [match ?l with [] => _ | _ :: _ => _ end] => is_var l; destruct l
  end;
  unfold is_cont, second_ok in *; rewrite ?between_true, ?between_false in *; cbn in Hn;
  try (apply Forall_app; split; [apply cp_units_units|]); repeat constructor;
  try apply IH; try done; try (repeat constructor; done); try lia;
  unfold is_unit, is_byte in *; try (cbn; lia); try (repeat constructor; done || lia);
  repeat case_match; try lia.
Qed.

Lemma utf8_decode_units b : is_bytes b → is_units (utf8_decode b).
Proof. by eapply utf8_decode_units_aux. Qed.

(** ** Parsing *)

(** Every string in [v], keys included, is made of code units. *)
Fixpoint json_units (v : json) : bool :=
  match v with
  | JNull | JBool _ | JNum _ => true
  | JStr s => bool_decide (is_units s)
  | JArr l => forallb json_units l
  | JObj kvs => forallb (λ kv, bool_decide (is_units kv.1) && json_units kv.2) kvs
  end.

Lemma drop_while_units f s : is_units s → is_units (drop_while f s).
Proof. induction 1; cbn; [constructor|]. case_match; [done|]. by constructor. Qed.

Lemma skip_ws_units s : is_units s → is_units (skip_ws s).
Proof. apply drop_while_units. Qed.

Lemma expect_units c s r : expect c s = Some r → is_units s → is_units r.
Proof. intros ->%expect_Some [_ ?]%Forall_cons. done. Qed.

Lemma opt_sign_units c s : is_units s → is_units (opt_sign c s).2.
Proof.
  unfold opt_sign. destruct (expect c s) eqn:E; [|done]. by apply (expect_units c).
Qed.

Lemma cons_fst_units c o t r : is_unit c → cons_fst c o = Some (t, r) →
  (∀ t' r', o = Some (t', r') → is_units t' ∧ is_units r') → is_units t ∧ is_units r.
Proof.
  intros Hc (t' & Ho & ->)%cons_fst_Some H. apply H in Ho as [? ?].
  split; [by constructor|done].
Qed.

Lemma hex4_unit h1 h2 h3 h4 : forallb is_hex_digit [h1; h2; h3; h4] = true →
  is_unit (digits_value 16 [h1; h2; h3; h4]).
Proof.
  rewrite forallb_Forall, !Forall_cons.
  intros (H1 & H2 & H3 & H4 & _). apply hex_digit_lower in H1, H2, H3, H4.
  unfold is_unit, digits_value. cbn [fold_left]. lia.
Qed.

Lemma simple_escape_unit e u : is_unit e → simple_escape e = Some u → is_unit u.
Proof. unfold simple_escape, is_unit. intros ? E. repeat case_match; simplify_eq; lia. Qed.

Lemma parse_chars_units n s t r : (length s ≤ n)%nat → is_units s →
  parse_chars s = Some (t, r) → is_units t ∧ is_units r.
Proof.
  revert s t r. induction n as [|n IH]; intros s t r Hn Hs; [by destruct s; [|cbn in Hn; lia]|].
  destruct s as [|c s]; [done|]. apply Forall_cons in Hs as [Hc Hs]. cbn in Hn.
  cbn [parse_chars]. destruct (c =? 34); [by intros [= <- <-]|].
  destruct (c =? 92).
  - destruct s as [|e s]; [done|]. apply Forall_cons in Hs as [He Hs]. cbn in Hn.
    destruct (e =? 117).
    + destruct s as [|h1 [|h2 [|h3 [|h4 s]]]]; try done.
      destruct (forallb _ _) eqn:Hh; [|done]. apply hex4_unit in Hh.
      do 4 apply Forall_cons in Hs as [_ Hs]. cbn in Hn.
      intros E. eapply (cons_fst_units _ _ _ _ Hh E). intros. eapply IH; [|done|done]. lia.
    + destruct (simple_escape e) eqn:Ee; [|done]. eapply simple_escape_unit in Ee; [|done].
      intros E. eapply (cons_fst_units _ _ _ _ Ee E). intros. eapply IH; [|done|done]. lia.
  - destruct (c <? 32); [done|].
    intros E. eapply (cons_fst_units _ _ _ _ Hc E). intros. eapply IH; [|done|done]. lia.
Qed.

Lemma parse_number_units s n r : parse_number s = Some (n, r) → is_units s → is_units r.
Proof.
  unfold parse_number. intros E Hs. pose proof (opt_sign_units 45 s Hs) as Hr.
  destruct (opt_sign 45 s) as [neg s1]. cbn in Hr.
  destruct (valid_int _); [|done].
  destruct (parse_frac _) as [[fp s2]|] eqn:Ef; [|done].
  destruct (parse_exp s2) as [[ex s3]|] eqn:Ee; [|done]. injection E as _ <-.
  assert (is_units s2) as H2.
  { unfold parse_frac in Ef. pose proof (drop_while_units is_digit _ Hr) as Hd.
    repeat case_match; simplify_eq; [|done]. apply drop_while_units. by eapply expect_units. }
  unfold parse_exp in Ee. destruct s2 as [|c s2]; [by simplify_eq|].
  case_match; [|by simplify_eq]. apply Forall_cons in H2 as [_ H2].
  pose proof (opt_sign_units 45 s2 H2) as H45. destruct (opt_sign 45 s2) as [[] s4]; cbn in *.
  - repeat case_match; simplify_eq. by apply drop_while_units.
  - pose proof (opt_sign_units 43 s4 H45). repeat case_match; simplify_eq.
    by apply drop_while_units.
Qed.

Lemma parse_literal_units s v r : parse_literal s = POk v r → is_units s →
  json_units v = true ∧ is_units r.
Proof.
  unfold parse_literal. intros E Hs.
  repeat case_match; simplify_eq; split; try done; try by apply Forall_drop.
  by eapply parse_number_units.
Qed.

Lemma parse_key_units s k r : parse_key s = Some (k, r) → is_units s → is_units k ∧ is_units r.
Proof.
  unfold parse_key. intros E Hs.
  destruct (expect 34 s) as [r0|] eqn:E0; [|done]. eapply expect_units in E0; [|done].
  destruct (parse_chars r0) as [[k' r1]|] eqn:E1; [|done].
  eapply parse_chars_units in E1 as [? ?]; [|done|done].
  destruct (expect 58 _) as [r2|] eqn:E2; [|done]. injection E as <- <-.
  apply expect_units in E2; [|by apply skip_ws_units]. split; [done|]. by apply skip_ws_units.
Qed.

Lemma obj_put_units kvs k v : is_units k → json_units v = true →
  json_units (JObj kvs) = true → json_units (JObj (obj_put kvs k v)) = true.
Proof.
  cbn [json_units]. rewrite !forallb_Forall. intros Hk Hv Hkvs. unfold obj_put.
  set (P := λ kv : jsstr * json, bool_decide (is_units kv.1) && json_units kv.2 = true) in *.
  assert (P (k, v)) as Hkv by (unfold P; cbn; by rewrite bool_decide_eq_true_2).
  destruct (has_prop k kvs).
  - induction Hkvs as [|[k' v'] kvs Hx Hkvs IH]; cbn; [constructor|].
    destruct (str_eqb k' k) eqn:Ek; constructor; try done.
    apply str_eqb_true in Ek. by subst.
  - destruct (array_index k) as [i|]; [|by apply Forall_app; split; [|constructor]].
    induction Hkvs as [|[k' v'] kvs Hx Hkvs IH]; cbn; [by repeat constructor|].
    repeat case_match; by repeat constructor.
Qed.

Lemma parse_units fuel :
  (∀ s v r, parse_value fuel s = POk v r → is_units s → json_units v = true ∧ is_units r) ∧
  (∀ acc s v r, parse_members fuel acc s = POk v r → is_units s →
    json_units (JObj acc) = true → json_units v = true ∧ is_units r) ∧
  (∀ acc s v r, parse_elements fuel acc s = POk v r → is_units s →
    json_units (JArr acc) = true → json_units v = true ∧ is_units r).
Proof.
  induction fuel as [|f (IHv & IHm & IHe)]; [done|]. split; [|split].
  - intros s v r E Hs. destruct s as [|c s]; [done|]. cbn [parse_value] in E.
    pose proof Hs as Hs'. apply Forall_cons in Hs as [Hc Hs].
    pose proof (skip_ws_units s Hs) as Hw.
    repeat case_match; simplify_eq; eauto using parse_literal_units.
    + split; [done|]. by eapply expect_units.
    + split; [done|]. by eapply expect_units.
    + cbn [json_units]. rewrite bool_decide_eq_true.
      match goal with H : parse_chars _ = _ |- _ => by eapply parse_chars_units in H end.
  - intros acc s v r E Hs Ha. cbn [parse_members] in E.
    destruct (parse_key s) as [[k r1]|] eqn:Ek; [|done].
    apply parse_key_units in Ek as [Hk H1]; [|done].
    destruct (parse_value f r1) as [w r2| |] eqn:Ev; [|done|done].
    apply IHv in Ev as [Hw H2]; [|done]. pose proof (skip_ws_units _ H2) as H3.
    pose proof (obj_put_units _ _ _ Hk Hw Ha) as Ha'.
    destruct (expect 44 _) as [r3|] eqn:E3.
    + eapply IHm; [done| |done]. apply skip_ws_units. by eapply expect_units.
    + destruct (expect 125 _) as [r4|] eqn:E4; [|done]. injection E as <- <-.
      split; [done|]. by eapply expect_units.
  - intros acc s v r E Hs Ha. cbn [parse_elements] in E.
    destruct (parse_value f s) as [w r2| |] eqn:Ev; [|done|done].
    apply IHv in Ev as [Hw H2]; [|done]. pose proof (skip_ws_units _ H2) as H3.
    assert (json_units (JArr (acc ++ [w])) = true) as Ha'.
    { cbn [json_units] in *. rewrite forallb_app. cbn. by rewrite Ha, Hw. }
    destruct (expect 44 _) as [r3|] eqn:E3.
    + eapply IHe; [done| |done]. apply skip_ws_units. by eapply expect_units.
    + destruct (expect 93 _) as [r4|] eqn:E4; [|done]. injection E as <- <-.
      split; [done|]. by eapply expect_units.
Qed.

(** What [JSON.parse] returns for a well-ranged text is well-ranged. *)
Lemma JSON_parse_units `{JsEngine} s v : is_units s → JSON_parse s = Ret v → json_units v = true.
Proof.
  intros Hs E. unfold JSON_parse in E.
  destruct (parse_value _ _) as [w r| |] eqn:Ev; try done.
  destruct (skip_ws r); [|done]. injection E as <-.
  apply (proj1 (parse_units _)) in Ev as [? _]; [done|]. by apply skip_ws_units.
Qed.

Lemma lookup_prop_units kvs k s : json_units (JObj kvs) = true →
  lookup_prop k kvs = Some (JStr s) → is_units s.
Proof.
  cbn [json_units]. rewrite forallb_Forall. induction 1 as [|[k' v'] kvs Hx Hkvs IH]; [done|].
  cbn. destruct (str_eqb k' k); [|done]. intros [= ->].
  cbn in Hx. apply andb_prop in Hx as [_ Hx]. by apply bool_decide_eq_true in Hx.
Qed.
