(* ===== verification/Abi.v ===== *)
(** * Hashing, signatures and ABI encoding

    What the program takes from outside its own sources: the EVM's hash and
    [ecrecover] ([Evm]), the functions of the viem package it calls ([Viem]) and
    those of eciesjs ([Ecies]).  Each is a class of operations; [EvmLaws],
    [ViemLaws] and [EciesLaws] state the documented behaviour the program relies
    on: the Solidity ABI on static types, EIP-191 signatures recovered by
    [ecrecover], decryption as the inverse of encryption.  Instances.v has a
    concrete instance.

    The ABI itself (32-byte big-endian words) is written out: [be_bytes],
    [encode_word], [decode_word], and [abi_encode], which is Solidity's
    [abi.encode] of value types. *)

From S2P Require Import Prelude JsString JsNumber Utf8 Json JsonFacts Encoding.

#[local] Set Warnings "-register-all".


(** ** Big-endian integers *)

Fixpoint be_bytes (n : nat) (z : Z) : bytes :=
  match n with
  | O => []
  | S n' => be_bytes n' (z / 256) ++ [z mod 256]
  end.

Definition be_value (b : bytes) : Z := fold_left (λ acc x, acc * 256 + x) b 0.

Lemma be_bytes_length n z : length (be_bytes n z) = n.
Proof. revert z. induction n; intros; cbn; [done|]. rewrite length_app, IHn. cbn. lia. Qed.

Lemma be_bytes_bytes n z : is_bytes (be_bytes n z).
Proof.
  revert z. induction n; intros; cbn; [constructor|].
  apply Forall_app. split; [done|]. repeat constructor; apply Z.mod_pos_bound; lia.
Qed.

Lemma be_value_snoc b x : be_value (b ++ [x]) = be_value b * 256 + x.
Proof. unfold be_value. by rewrite fold_left_app. Qed.

Lemma pow_256_S n : 256 ^ Z.of_nat (S n) = 256 ^ Z.of_nat n * 256.
Proof. rewrite Nat2Z.inj_succ, Z.pow_succ_r by lia. lia. Qed.

Lemma be_value_be_bytes n z : 0 ≤ z < 256 ^ Z.of_nat n → be_value (be_bytes n z) = z.
Proof.
  revert z. induction n as [|n IH]; intros z Hz; [cbn in *; lia|].
  rewrite pow_256_S in Hz. cbn [be_bytes]. rewrite be_value_snoc, IH.
  - pose proof (Z.div_mod z 256). lia.
  - split; [apply Z.div_pos; lia|]. apply Z.div_lt_upper_bound; lia.
Qed.

Lemma be_value_range b : is_bytes b → 0 ≤ be_value b < 256 ^ Z.of_nat (length b).
Proof.
  induction b as [|x b IH] using rev_ind; intros Hb; [cbn; lia|].
  apply Forall_app in Hb as [Hb [Hx _]%Forall_cons]. unfold is_byte in Hx.
  rewrite be_value_snoc, length_app, Nat.add_1_r, pow_256_S. specialize (IH Hb). nia.
Qed.

Lemma be_bytes_be_value b : is_bytes b → be_bytes (length b) (be_value b) = b.
Proof.
  induction b as [|x b IH] using rev_ind; intros Hb; [done|].
  apply Forall_app in Hb as [Hb [Hx _]%Forall_cons]. unfold is_byte in Hx.
  rewrite be_value_snoc, length_app, Nat.add_1_r. cbn [be_bytes].
  rewrite Z.div_add_l, Z.div_small, Z.add_0_r, IH by (done || lia).
  by rewrite Z.add_comm, Z.mod_add, Z.mod_small by lia.
Qed.

Lemma be_bytes_inj n y z : 0 ≤ y < 256 ^ Z.of_nat n → 0 ≤ z < 256 ^ Z.of_nat n →
  be_bytes n y = be_bytes n z → y = z.
Proof. intros Hy Hz E. by rewrite <- (be_value_be_bytes n y), E, be_value_be_bytes. Qed.

(** A value type of the Solidity ABI, as one word. *)
Definition word (z : Z) : bytes := be_bytes 32 z.

(** Solidity's [abi.encode] of value types (bytes32, uint256, address). *)
Definition abi_encode (zs : list Z) : bytes := mjoin (word <$> zs).

Abbreviation uint_range w z := (0 ≤ z < 2 ^ w).

Lemma word_value z : uint_range 256 z → be_value (word z) = z.
Proof. intros. by apply be_value_be_bytes. Qed.

Lemma word_bytes z : is_bytes (word z).
Proof. apply be_bytes_bytes. Qed.

Lemma word_length z : length (word z) = 32%nat.
Proof. apply be_bytes_length. Qed.

Lemma abi_encode_bytes zs : is_bytes (abi_encode zs).
Proof.
  unfold abi_encode. apply Forall_join, Forall_fmap, Forall_true. intros. apply word_bytes.
Qed.

Lemma abi_encode_length zs : length (abi_encode zs) = (32 * length zs)%nat.
Proof.
  induction zs as [|z zs IH]; [done|].
  change (abi_encode (z :: zs)) with (word z ++ abi_encode zs).
  rewrite length_app, word_length, IH. cbn. lia.
Qed.

Lemma abi_encode_inj xs ys :
  Forall (λ z, uint_range 256 z) xs → Forall (λ z, uint_range 256 z) ys →
  abi_encode xs = abi_encode ys → xs = ys.
Proof.
  intros Hx. revert ys. induction Hx as [|x xs Hx _ IH]; intros [|y ys] Hy E; try done;
    try (apply (f_equal length) in E; rewrite !abi_encode_length in E; cbn in E; lia).
  apply Forall_cons in Hy as [Hy Hys].
  change (word x ++ abi_encode xs = word y ++ abi_encode ys) in E.
  apply app_inj_1 in E as [E1 E2]; [|by rewrite !word_length].
  apply be_bytes_inj in E1; [|by apply Hx|by apply Hy]. subst. f_equal. by apply IH.
Qed.

#[export] Hint Resolve be_bytes_bytes word_bytes abi_encode_bytes : sw.
#[export] Hint Rewrite be_bytes_length word_length abi_encode_length : sw_len.

(** ** ABI types and values, as viem represents them *)

Inductive abi_type : Type :=
| TAddress
| TUint (width : Z)
| TBytes32
| TBytes
| TString
| TTuple (components : list abi_type).

(** Addresses and byte strings are hex strings, integers are BigInts. *)
Inductive abi_value : Type :=
| AAddr (s : jsstr)
| AInt (n : Z)
| AHex (s : jsstr)
| AStr (s : jsstr)
| ATuple (vs : list abi_value).

(** [0x] and [n] hex digits. *)
Definition hex_shape (n : nat) (s : jsstr) : bool :=
  starts_with s (js "0x") && (length s =? n + 2)%nat && forallb is_hex_digit (drop 2 s).

(** The number a hex string denotes. *)
Definition hex_bytes (s : jsstr) : bytes := hex_pairs (drop 2 s).
Definition hex_value (s : jsstr) : Z := be_value (hex_bytes s).

(** An EVM address as its lower-case hex string. *)
Definition address_hex (a : Z) : jsstr := bytesToHex (be_bytes 20 a).

(** ** The interfaces *)

(** The chain's primitives.  [ecrecover h v r s] is the precompiled contract: the
    address that signed [h], zero when there is none. *)
Class Evm := {
  keccak : bytes → bytes;
  ecrecover : bytes → Z → bytes → bytes → Z;
}.

Class EvmLaws `{Evm} := {
  keccak_bytes b : is_bytes (keccak b);
  keccak_length b : length (keccak b) = 32%nat;
  ecrecover_range h v r s : uint_range 160 (ecrecover h v r s);
}.
#[export] Hint Resolve keccak_bytes : sw.

(** The viem package. *)
Class Viem := {
  isAddress : jsstr → bool;
  checksumAddress : jsstr → jsstr;
  toBytes : jsstr → bytes;
  keccak256 : jsstr → outcome jsstr;
  keccak256_bytes : bytes → jsstr;
  encodeAbiParameters : list abi_type → list abi_value → outcome jsstr;
  decodeAbiParameters : list abi_type → jsstr → outcome (list abi_value);
  recoverMessageAddress : jsstr → jsstr → outcome jsstr;
  account : Type;
  privateKeyToAccount : jsstr → outcome account;
  account_address : account → jsstr;
  signMessage : account → jsstr → outcome jsstr;
}.

(** One word of the Solidity ABI.  viem encodes an address in lower case and
    leaves the case of a bytes32 string alone: [None] is a value without an
    encoding, or with one that is not in lower case. *)
Definition encode_word `{Viem} (t : abi_type) (v : abi_value) : option bytes :=
  match t, v with
  | TAddress, AAddr s => if isAddress s then Some (word (hex_value s)) else None
  | TUint w, AInt n => if (0 <=? n) && (n <? 2 ^ w) then Some (word n) else None
  | TBytes32, AHex s =>
      if hex_shape 64 s && str_eqb (ascii_lower <$> s) s then Some (hex_bytes s) else None
  | _, _ => None
  end.

Definition decode_word `{Viem} (t : abi_type) (w : bytes) : option abi_value :=
  match t with
  | TAddress => Some (AAddr (checksumAddress (bytesToHex (drop 12 w))))
  | TUint _ => Some (AInt (be_value w))
  | TBytes32 => Some (AHex (bytesToHex w))
  | _ => None
  end.

Definition static (t : abi_type) : bool :=
  match t with TAddress | TUint _ | TBytes32 => true | _ => false end.

(** [bytes] and [string] data: the length, then the content padded to whole words. *)
Definition dyn_bytes (b : bytes) : bytes :=
  word (Z.of_nat (length b)) ++ b ++ replicate ((32 - length b mod 32) mod 32) 0.

(** Solidity's [abi.encode] of a struct of two strings: the offset of the struct,
    the offsets of the strings inside it, and their data. *)
Definition abi_encode_strings (s t : bytes) : bytes :=
  word 32 ++ word 64 ++ word (64 + Z.of_nat (length (dyn_bytes s))) ++ dyn_bytes s ++ dyn_bytes t.

(** Text that a decoder of strings returns as it is: well-formed, and neither NUL
    nor a byte order mark in front. *)
Definition plain_text (s : jsstr) : Prop :=
  wf_text s ∧ head s ≠ Some 0 ∧ head s ≠ Some 0xFEFF.

(** The values that viem refuses to encode. *)
Definition unencodable `{Viem} (t : abi_type) (v : abi_value) : bool :=
  match t, v with
  | TAddress, AAddr s => negb (isAddress s)
  | TUint w, AInt n => negb ((0 <=? n) && (n <? 2 ^ w))
  | _, _ => false
  end.

Fixpoint zip_mapM {A B C} (f : A → B → option C) (xs : list A) (ys : list B) : option (list C) :=
  match xs, ys with
  | [], [] => Some []
  | x :: xs', y :: ys' =>
      match f x y, zip_mapM f xs' ys' with
      | Some z, Some zs => Some (z :: zs)
      | _, _ => None
      end
  | _, _ => None
  end.

(** The first [n] words of a byte string. *)
Fixpoint words (n : nat) (b : bytes) : list bytes :=
  match n with O => [] | S n' => take 32 b :: words n' (drop 32 b) end.

(** The shape of a decoded value. *)
Inductive has_type : abi_type → abi_value → Prop :=
| ty_address s : hex_shape 40 s = true → has_type TAddress (AAddr s)
| ty_uint w n : uint_range 256 n → has_type (TUint w) (AInt n)
| ty_bytes32 s : hex_shape 64 s = true → has_type TBytes32 (AHex s)
| ty_bytes b : is_bytes b → has_type TBytes (AHex (bytesToHex b))
| ty_string s : is_units s → has_type TString (AStr s)
| ty_tuple ts vs : Forall2 has_type ts vs → has_type (TTuple ts) (ATuple vs).

(** EIP-191: what a personal signature of 32 raw bytes signs. *)
Definition eth_prefix : bytes := 0x19 :: utf8_encode (js "Ethereum Signed Message:") ++ [10] ++ js "32".
Definition eth_signed `{Evm} (digest : bytes) : bytes := keccak (eth_prefix ++ digest).

(** The address [ecrecover] finds for a 65-byte signature [r || s || v]. *)
Definition recover_sig `{Evm} (h : bytes) (sg : bytes) : Z :=
  ecrecover h (be_value (drop 64 sg)) (take 32 sg) (take 32 (drop 32 sg)).

Class ViemLaws `{Evm, Viem} := {
  isAddress_shape s : isAddress s = true → hex_shape 40 s = true;
  isAddress_lower s : hex_shape 40 s = true → ascii_lower <$> s = s → isAddress s = true;
  checksumAddress_ok s : hex_shape 40 s = true →
    isAddress (checksumAddress s) = true ∧
    ascii_lower <$> checksumAddress s = ascii_lower <$> s;
  toBytes_string s : starts_with s (js "0x") = false → toBytes s = utf8_encode s;
  keccak256_hex b : is_bytes b → keccak256 (bytesToHex b) = Ret (bytesToHex (keccak b));
  keccak256_bytes_hex b : keccak256_bytes b = bytesToHex (keccak b);
  encode_static ts vs ws :
    zip_mapM encode_word ts vs = Some ws →
    encodeAbiParameters ts vs = Ret (bytesToHex (mjoin ws));
  encode_refused ts vs t v : length ts = length vs → (t, v) ∈ zip ts vs →
    unencodable t v = true → throws (encodeAbiParameters ts vs);
  decode_static ts b vs : is_bytes b → (0 < length ts)%nat → (32 * length ts ≤ length b)%nat →
    zip_mapM decode_word ts (words (length ts) b) = Some vs →
    decodeAbiParameters ts (bytesToHex b) = Ret vs;
  decode_short ts b : is_bytes b → forallb static ts = true →
    (length b < 32 * length ts)%nat → throws (decodeAbiParameters ts (bytesToHex b));
  decode_strings s t : plain_text s → plain_text t →
    Z.of_nat (length (abi_encode_strings (utf8_encode s) (utf8_encode t))) < 2 ^ 53 →
    decodeAbiParameters [TTuple [TString; TString]]
      (bytesToHex (abi_encode_strings (utf8_encode s) (utf8_encode t))) = Ret [ATuple [AStr s; AStr t]];
  decode_typed ts d vs : decodeAbiParameters ts d = Ret vs → Forall2 has_type ts vs;
  recover_address raw sg a : recoverMessageAddress raw sg = Ret a → isAddress a = true;
  account_shape (a : account) : isAddress (account_address a) = true;
  (** Signing 32 raw bytes: a 65-byte signature, from which the EVM and viem both
      recover the account. *)
  sign_raw a d : is_bytes d → length d = 32%nat →
    ∃ sg, signMessage a (bytesToHex d) = Ret (bytesToHex sg) ∧ is_bytes sg ∧
      length sg = 65%nat ∧ be_value (drop 64 sg) ∈ [27; 28] ∧
      recover_sig (eth_signed d) sg = hex_value (account_address a) ∧
      recoverMessageAddress (bytesToHex d) (bytesToHex sg) = Ret (account_address a);
}.

(** The eciesjs package: [encrypt] takes the randomness it draws. *)
Class Ecies := {
  decrypt : jsstr → bytes → outcome bytes;
  encrypt : jsstr → bytes → bytes → outcome bytes;
  ecies_public : jsstr → jsstr;
}.

Class EciesLaws `{Ecies} := {
  decrypt_bytes k c p : decrypt k c = Ret p → is_bytes p;
  encrypt_bytes pk rnd m c : encrypt pk rnd m = Ret c → is_bytes c;
  decrypt_encrypt sk rnd m c : encrypt (ecies_public sk) rnd m = Ret c → decrypt sk c = Ret m;
}.

(** A transaction that reverts with a reason. *)
Definition revert {A} (m : jsstr) : outcome A := Throw (Error (js "revert") m).
Notation "'require!' b 'else' m 'in' k" := (if b then k else revert m)
  (at level 10, b at level 100, m at level 100, k at level 200).

(** ** Lemmas on dynamic data *)

Lemma take_word z rest : take 32 (word z ++ rest) = word z.
Proof. apply take_app_length'. by rewrite word_length. Qed.

Lemma drop_word z rest : drop 32 (word z ++ rest) = rest.
Proof. apply drop_app_length'. by rewrite word_length. Qed.

Lemma replicate_zero_bytes n : is_bytes (replicate n 0).
Proof. by apply Forall_replicate. Qed.

Lemma dyn_bytes_bytes b : is_bytes b → is_bytes (dyn_bytes b).
Proof. intros. unfold dyn_bytes. rewrite !Forall_app. auto using word_bytes, replicate_zero_bytes. Qed.

Lemma dyn_bytes_length b : (32 + length b ≤ length (dyn_bytes b))%nat.
Proof. unfold dyn_bytes. autorewrite with sw_len. lia. Qed.

Lemma abi_encode_strings_bytes s t : is_bytes s → is_bytes t → is_bytes (abi_encode_strings s t).
Proof.
  intros. unfold abi_encode_strings. rewrite !Forall_app. split_and!; auto using word_bytes, dyn_bytes_bytes.
Qed.

(** ** Lemmas on hex strings *)

Lemma hex_shape_split n s : hex_shape n s = true →
  ∃ d, s = 48 :: 120 :: d ∧ length d = n ∧ Forall (λ c, is_hex_digit c = true) d.
Proof.
  unfold hex_shape. change (js "0x") with [48; 120].
  rewrite !andb_true_iff, Nat.eqb_eq, forallb_Forall. intros [[Hs Hl] Hd].
  destruct s as [|a [|b d]]; [done|cbn in Hs; by rewrite andb_false_r in Hs|].
  cbn [starts_with] in Hs. apply andb_prop in Hs as [Ha%Z.eqb_eq Hs].
  apply andb_prop in Hs as [Hb%Z.eqb_eq _]. subst. exists d.
  split; [done|]. split; [cbn in Hl; lia|done].
Qed.

Lemma hex_pairs_length s : Nat.even (length s) = true → (2 * length (hex_pairs s) = length s)%nat.
Proof.
  induction s as [|c|c d s IH _] using pair_ind; intros He; [done|done|].
  cbn [hex_pairs length]. specialize (IH He). lia.
Qed.

(** The bytes of an even hex string, and back. *)
Lemma hex_shape_bytes n s : hex_shape (2 * n) s = true →
  is_bytes (hex_bytes s) ∧ length (hex_bytes s) = n ∧
  bytesToHex (hex_bytes s) = ascii_lower <$> s.
Proof.
  intros (d & -> & Hl & Hd)%hex_shape_split. unfold hex_bytes. change (drop 2 (48 :: 120 :: d)) with d.
  assert (Nat.even (length d) = true) as He by (rewrite Hl, Nat.even_mul; done).
  split; [by apply hex_pairs_bytes|]. split; [pose proof (hex_pairs_length d He); lia|].
  by rewrite bytesToHex_digits, hex_digits_pairs.
Qed.

Lemma hex_bytes_hex b : is_bytes b → hex_bytes (bytesToHex b) = b.
Proof.
  intros (_ & _ & Hp)%hex_digits_facts. rewrite bytesToHex_digits. by unfold hex_bytes.
Qed.

Lemma hex_value_hex b : is_bytes b → hex_value (bytesToHex b) = be_value b.
Proof. intros. unfold hex_value. by rewrite hex_bytes_hex. Qed.

Lemma hex_shape_hex b : is_bytes b → hex_shape (2 * length b) (bytesToHex b) = true.
Proof.
  intros Hb. pose proof (hex_digits_facts b Hb) as (Hl & Hc & _). rewrite bytesToHex_digits.
  unfold hex_shape. change (js "0x") with [48; 120]. cbn [starts_with length drop].
  rewrite !andb_true_iff, Nat.eqb_eq, forallb_Forall. split_and!; [done|done|done|lia|].
  eapply Forall_impl; [exact Hc|]. by intros ? [? _].
Qed.

Lemma hex_shape_of n b : is_bytes b → (2 * length b)%nat = n → hex_shape n (bytesToHex b) = true.
Proof. intros ? <-. by apply hex_shape_hex. Qed.

Lemma bytesToHex_ascii_lower b : is_bytes b → ascii_lower <$> bytesToHex b = bytesToHex b.
Proof.
  intros Hb. rewrite <- (proj2 (proj2 (hex_shape_bytes (length b) (bytesToHex b) (hex_shape_hex b Hb)))).
  by rewrite hex_bytes_hex.
Qed.

Lemma hex_shape_lower n s : hex_shape (2 * n) s = true →
  hex_shape (2 * n) (ascii_lower <$> s) = true ∧ hex_bytes (ascii_lower <$> s) = hex_bytes s.
Proof.
  intros (Hb & Hl & <-)%hex_shape_bytes. split.
  - rewrite <- Hl. by apply hex_shape_hex.
  - by rewrite hex_bytes_hex.
Qed.

Lemma hex_shape_ascii n s : hex_shape n s = true → Forall (λ c, is_ascii c = true) s.
Proof.
  intros (d & -> & _ & Hd)%hex_shape_split. repeat constructor.
  eapply Forall_impl; [exact Hd|]. intros c. unfold is_hex_digit, is_digit, is_ascii.
  rewrite !orb_true_iff, !andb_true_iff, !Z.leb_le, Z.ltb_lt. lia.
Qed.

Lemma hex_shape_to_lower `{JsEngine} n s : hex_shape n s = true →
  to_lower s = ascii_lower <$> s.
Proof. intros ?%hex_shape_ascii. by apply to_lower_ascii. Qed.

Lemma address_hex_shape a : hex_shape 40 (address_hex a) = true.
Proof.
  unfold address_hex. pose proof (hex_shape_hex (be_bytes 20 a) ltac:(auto with sw)) as H.
  by rewrite be_bytes_length in H.
Qed.

Lemma address_hex_value a : uint_range 160 a → hex_value (address_hex a) = a.
Proof.
  intros. unfold hex_value, address_hex. rewrite hex_bytes_hex by auto with sw.
  by apply be_value_be_bytes.
Qed.

Lemma hex_value_address_hex s : hex_shape 40 s = true →
  uint_range 160 (hex_value s) ∧ address_hex (hex_value s) = ascii_lower <$> s.
Proof.
  intros (Hb & Hl & E)%(hex_shape_bytes 20). unfold hex_value, address_hex. split.
  - pose proof (be_value_range _ Hb) as Hr. by rewrite Hl in Hr.
  - rewrite <- Hl at 1. by rewrite be_bytes_be_value.
Qed.
