(* ===== verification/Instances.v ===== *)
(** * A concrete instance of the interfaces

    Small executable definitions that satisfy the laws of Abi.v: a polynomial
    hash, signatures that carry the signer's address next to the signed hash, the
    Solidity ABI decoder, a cipher that prepends its key.  They show that the
    laws can hold together and give the theorems concrete inputs; no theorem
    about the program depends on them. *)

From S2P Require Import Prelude JsString JsNumber Utf8 Json JsonFacts Encoding Wire Abi.

(** ** The chain *)

Definition toy_keccak (b : bytes) : bytes :=
  word (fold_left (λ acc x, Z.land (acc * 257 + x + 1) (2 ^ 48 - 1)) b 0).

Definition toy_ecrecover (h : bytes) (v : Z) (r s : bytes) : Z :=
  if bool_decide (v ∈ [27; 28]) && bool_decide (s = h) then be_value r mod 2 ^ 160 else 0.

#[export] Instance toy_evm : Evm := {| keccak := toy_keccak; ecrecover := toy_ecrecover |}.

#[export] Instance toy_evm_laws : EvmLaws.
Proof.
  split; intros.
  - apply word_bytes.
  - apply word_length.
  - cbn. unfold toy_ecrecover. destruct (_ && _); [|lia]. apply Z.mod_pos_bound. lia.
Qed.

(** ** The ABI decoder: static words, and offsets to strings, bytes and tuples *)

(** A length or an offset into [b], cut to [b]. *)
Definition offset (w b : bytes) : nat := Z.to_nat (Z.min (be_value w) (Z.of_nat (length b))).

Definition dec_bytes (tail : bytes) : option bytes :=
  let w := take 32 tail in
  let n := offset w tail in
  let content := take n (drop 32 tail) in
  if (length w =? 32)%nat && (be_value w =? str_length content) then Some content else None.

(** Offsets inside a tuple count from its own start. *)
Definition tuple_start : nat := 0.

Fixpoint dec_val `{Viem} (t : abi_type) (base : bytes) (pos : nat) : option abi_value :=
  let w := take 32 (drop pos base) in
  if (length w =? 32)%nat then
    let tail := drop (offset w base) base in
    match t with
    | TAddress | TUint _ | TBytes32 => decode_word t w
    | TBytes => (λ b, AHex (bytesToHex b)) <$> dec_bytes tail
    | TString => (λ b, AStr (utf8_decode b)) <$> dec_bytes tail
    | TTuple cs =>
        ATuple <$>
        (fix go cs pos :=
           match cs with
           | [] => Some []
           | c :: cs' => v ← dec_val c tail pos; vs ← go cs' (pos + 32)%nat; Some (v :: vs)
           end) cs tuple_start
    end
  else None.

Fixpoint dec_vals `{Viem} (ts : list abi_type) (base : bytes) (pos : nat) : option (list abi_value) :=
  match ts with
  | [] => Some []
  | t :: ts' => v ← dec_val t base pos; vs ← dec_vals ts' base (pos + 32)%nat; Some (v :: vs)
  end.

(** ** viem *)

Definition from_option {A} (m : jsstr) (o : option A) : outcome A :=
  match o with Some a => Ret a | None => Throw (PlainError m) end.

Definition toy_checksum (s : jsstr) : jsstr := ascii_lower <$> s.

(** The codec needs [isAddress] and [checksumAddress] only. *)
Definition toy_viem_base : Viem := {|
  isAddress := hex_shape 40;
  checksumAddress := toy_checksum;
  toBytes s := if starts_with s (js "0x") then hex_bytes s else utf8_encode s;
  keccak256 s := bytesToHex ∘ toy_keccak <$> hexStringToBytes s;
  keccak256_bytes b := bytesToHex (toy_keccak b);
  encodeAbiParameters ts vs := Throw (PlainError []);
  decodeAbiParameters ts d := Throw (PlainError []);
  recoverMessageAddress raw sg :=
    if hex_shape 64 raw && hex_shape 130 sg then
      Ret (address_hex (recover_sig (eth_signed (hex_bytes raw)) (hex_bytes sg)))
    else Throw (PlainError (js "invalid signature"));
  account := Z;
  privateKeyToAccount k :=
    if hex_shape 64 k then Ret (hex_value k mod 2 ^ 160)
    else Throw (PlainError (js "invalid private key"));
  account_address a := address_hex (a mod 2 ^ 160);
  signMessage a raw :=
    if hex_shape 64 raw then
      Ret (bytesToHex (word (a mod 2 ^ 160) ++ eth_signed (hex_bytes raw) ++ [27]))
    else Throw (PlainError (js "not a hash"));
|}.

#[export] Instance toy_viem : Viem := {|
  isAddress := @isAddress toy_viem_base;
  checksumAddress := @checksumAddress toy_viem_base;
  toBytes := @toBytes toy_viem_base;
  keccak256 := @keccak256 toy_viem_base;
  keccak256_bytes := @keccak256_bytes toy_viem_base;
  encodeAbiParameters ts vs :=
    from_option (js "cannot encode") (bytesToHex ∘ mjoin <$> zip_mapM (@encode_word toy_viem_base) ts vs);
  decodeAbiParameters ts d :=
    b ← hexStringToBytes d;
    from_option (js "cannot decode") (@dec_vals toy_viem_base ts b 0);
  recoverMessageAddress := @recoverMessageAddress toy_viem_base;
  account := @account toy_viem_base;
  privateKeyToAccount := @privateKeyToAccount toy_viem_base;
  account_address := @account_address toy_viem_base;
  signMessage := @signMessage toy_viem_base;
|}.

Lemma toy_encode_word t v : @encode_word toy_viem t v = @encode_word toy_viem_base t v.
Proof. by destruct t, v. Qed.

Lemma toy_zip_encode ts vs :
  zip_mapM (@encode_word toy_viem) ts vs = zip_mapM (@encode_word toy_viem_base) ts vs.
Proof. revert vs. induction ts; intros [|v vs]; cbn; [done..|]. by rewrite IHts. Qed.

Lemma toy_encode_refused ts vs t v : (t, v) ∈ zip ts vs → unencodable t v = true →
  zip_mapM (@encode_word toy_viem_base) ts vs = None.
Proof.
  revert vs. induction ts as [|t' ts IH]; intros [|v' vs] Hin Hu;
    try by apply not_elem_of_nil in Hin.
  cbn [zip_mapM]. cbn in Hin. apply elem_of_cons in Hin as [[= <- <-]|Hin].
  - assert (@encode_word toy_viem_base t v = None) as ->; [|done].
    destruct t, v; try done; cbn in *.
    + by destruct (hex_shape 40 s).
    + by destruct ((0 <=? n) && (n <? 2 ^ width)).
  - rewrite (IH vs) by done. by destruct (encode_word t' v').
Qed.

Lemma dec_vals_static ts b pos vs : (pos + 32 * length ts ≤ length b)%nat →
  zip_mapM (@decode_word toy_viem) ts (words (length ts) (drop pos b)) = Some vs →
  @dec_vals toy_viem_base ts b pos = Some vs.
Proof.
  revert pos vs. induction ts as [|t ts IH]; intros pos vs Hl E; [done|].
  cbn [length words zip_mapM] in *. rewrite drop_drop in E.
  destruct (decode_word t _) as [v|] eqn:Ev; [|done].
  destruct (zip_mapM _ ts _) as [vs'|] eqn:Evs; [|done]. injection E as <-.
  cbn [dec_vals]. apply IH in Evs; [|lia].
  assert (@dec_val toy_viem_base t b pos = Some v) as ->; [|cbn; by rewrite Evs].
  assert (length (take 32 (drop pos b)) = 32%nat) as Hw by (rewrite length_take, length_drop; lia).
  destruct t; cbn [dec_val]; rewrite Hw; done.
Qed.

Lemma dec_vals_short ts b pos : forallb static ts = true → (pos ≤ length b)%nat →
  (length b < pos + 32 * length ts)%nat → @dec_vals toy_viem_base ts b pos = None.
Proof.
  revert pos. induction ts as [|t ts IH]; intros pos Hs Hp Hl; [cbn in Hl; lia|].
  cbn [forallb] in Hs. apply andb_prop in Hs as [Ht Hs]. cbn [length] in Hl. cbn [dec_vals].
  destruct (decide (length b < pos + 32)%nat).
  - assert (@dec_val toy_viem_base t b pos = None) as ->; [|done].
    assert ((length (take 32 (drop pos b)) =? 32)%nat = false) as E.
    { apply Nat.eqb_neq. rewrite length_take, length_drop. lia. }
    destruct t; cbn [dec_val]; by rewrite E.
  - rewrite (IH (pos + 32)%nat) by (done || lia). by destruct (@dec_val toy_viem_base t b pos).
Qed.

(** Induction on types, through the components of a tuple. *)
Fixpoint abi_type_ind' (P : abi_type → Prop) (Ha : P TAddress) (Hu : ∀ w, P (TUint w))
  (Hb : P TBytes32) (Hy : P TBytes) (Hs : P TString)
  (Ht : ∀ cs, Forall P cs → P (TTuple cs)) (t : abi_type) : P t :=
  match t with
  | TAddress => Ha
  | TUint w => Hu w
  | TBytes32 => Hb
  | TBytes => Hy
  | TString => Hs
  | TTuple cs => Ht cs ((fix go cs : Forall P cs :=
      match cs with
      | [] => Forall_nil_2 _
      | c :: cs' => Forall_cons_2 _ _ _ (abi_type_ind' P Ha Hu Hb Hy Hs Ht c) (go cs')
      end) cs)
  end.

Lemma dec_bytes_bytes b c : is_bytes b → dec_bytes b = Some c → is_bytes c.
Proof.
  intros Hb E. unfold dec_bytes in E. case_match; [|done]. injection E as <-.
  by apply Forall_take, Forall_drop.
Qed.

Lemma dec_val_typed t : ∀ b pos v, is_bytes b →
  @dec_val toy_viem_base t b pos = Some v → has_type t v.
Proof.
  induction t as [|w| | | |cs IH] using abi_type_ind'; intros b pos v Hb E;
    cbn [dec_val] in E; (destruct (Nat.eqb_spec (length (take 32 (drop pos b))) 32) as [Hl|];
      [|done]); pose proof (Forall_take _ 32 _ (Forall_drop _ pos _ Hb)) as Hw.
  - cbn in E. injection E as <-. constructor. unfold toy_checksum.
    rewrite bytesToHex_ascii_lower by by apply Forall_drop.
    assert (length (drop 12 (take 32 (drop pos b))) = 20%nat) as H20 by (rewrite length_drop; lia).
    pose proof (hex_shape_hex _ (Forall_drop _ 12 _ Hw)) as H. by rewrite H20 in H.
  - cbn in E. injection E as <-. constructor.
    pose proof (be_value_range _ Hw) as H. by rewrite Hl in H.
  - cbn in E. injection E as <-. constructor.
    pose proof (hex_shape_hex _ Hw) as H. by rewrite Hl in H.
  - destruct (dec_bytes _) eqn:Ed; [|done]. injection E as <-. constructor.
    eapply dec_bytes_bytes; [|done]. by apply Forall_drop.
  - destruct (dec_bytes _) eqn:Ed; [|done]. injection E as <-. constructor.
    apply utf8_decode_units. eapply dec_bytes_bytes; [|done]. by apply Forall_drop.
  - revert E. generalize (Forall_drop is_byte (offset (take 32 (drop pos b)) b) _ Hb).
    generalize (drop (offset (take 32 (drop pos b)) b) b). clear Hb Hl Hw b.
    intros b Hb E. apply fmap_Some in E as (vs & E & ->). constructor.
    revert vs E. generalize tuple_start.
    induction IH as [|c cs Hc _ IH']; intros p vs E; [injection E as <-; constructor|].
    apply bind_Some in E as (v & Ev & E). apply bind_Some in E as (vs' & Evs & E).
    injection E as <-. constructor; [by eapply Hc|]. by eapply IH'.
Qed.

Lemma dec_vals_typed ts b pos vs : is_bytes b →
  @dec_vals toy_viem_base ts b pos = Some vs → Forall2 has_type ts vs.
Proof.
  intros Hb. revert pos vs. induction ts as [|t ts IH]; intros pos vs E; cbn in E.
  - by injection E as <-.
  - apply bind_Some in E as (v & Ev & E). apply bind_Some in E as (vs' & Evs & E).
    injection E as <-. constructor; [by eapply dec_val_typed|by eapply IH].
Qed.

(** An offset or a length that lies within the data. *)
Lemma offset_word n b : (n ≤ length b)%nat → Z.of_nat n < 2 ^ 53 → offset (word (Z.of_nat n)) b = n.
Proof. intros Hn Hb. unfold offset. rewrite word_value by lia. lia. Qed.

Lemma dec_bytes_dyn b rest : Z.of_nat (length b) < 2 ^ 53 → dec_bytes (dyn_bytes b ++ rest) = Some b.
Proof.
  intros Hb. unfold dec_bytes, dyn_bytes. rewrite <- !app_assoc.
  rewrite take_word, drop_word.
  rewrite offset_word by (autorewrite with sw_len; lia).
  rewrite take_app_length, word_length, word_value by lia. unfold str_length.
  by rewrite Z.eqb_refl.
Qed.

(** A string whose offset is the word at [pos]. *)
Lemma dec_string base pos n s rest : Z.of_nat (length base) < 2 ^ 53 → Z.of_nat (length s) < 2 ^ 53 →
  take 32 (drop pos base) = word (Z.of_nat n) → drop n base = dyn_bytes s ++ rest →
  (n ≤ length base)%nat →
  (if (length (take 32 (drop pos base)) =? 32)%nat then
     (λ b, AStr (utf8_decode b)) <$> dec_bytes (drop (offset (take 32 (drop pos base)) base) base)
   else None) = Some (AStr (utf8_decode s)).
Proof.
  intros Hl Hs Hw Hd Hn. rewrite Hw, word_length. cbn [Nat.eqb].
  rewrite offset_word by lia. by rewrite Hd, dec_bytes_dyn.
Qed.

Lemma toy_decode_strings s t : Z.of_nat (length (abi_encode_strings s t)) < 2 ^ 53 →
  @dec_vals toy_viem_base [TTuple [TString; TString]] (abi_encode_strings s t) 0
    = Some [ATuple [AStr (utf8_decode s); AStr (utf8_decode t)]].
Proof.
  set (inner := word 64 ++ word (64 + Z.of_nat (length (dyn_bytes s))) ++ dyn_bytes s ++ dyn_bytes t).
  assert (abi_encode_strings s t = word 32 ++ inner) as -> by done. intros Hl.
  pose proof (dyn_bytes_length s). pose proof (dyn_bytes_length t).
  assert (length inner = (64 + length (dyn_bytes s) + length (dyn_bytes t))%nat) as Hi.
  { unfold inner. rewrite !length_app, !word_length. lia. }
  rewrite length_app, word_length in Hl. cbn [dec_vals dec_val]. rewrite drop_0.
  rewrite take_word, word_length. cbn [Nat.eqb].
  rewrite (offset_word 32) by (rewrite ?length_app, ?word_length; lia).
  rewrite drop_word. unfold tuple_start.
  rewrite (dec_string inner 0 64 s (dyn_bytes t)); [|lia|lia| | |lia].
  2: { rewrite drop_0. unfold inner. by rewrite take_word. }
  2: { unfold inner. rewrite app_assoc. apply drop_app_length'. by rewrite length_app, !word_length. }
  rewrite (dec_string inner (0 + 32) (64 + length (dyn_bytes s)) t []); [done|lia|lia| | |lia].
  - unfold inner. change (0 + 32)%nat with 32%nat. rewrite drop_word, take_word. f_equal. lia.
  - rewrite app_nil_r. unfold inner. rewrite !app_assoc. apply drop_app_length'.
    rewrite !length_app, !word_length. lia.
Qed.

Lemma toy_address_shape a : hex_shape 40 (address_hex a) = true.
Proof. apply address_hex_shape. Qed.

Lemma toy_sign_raw (a : Z) d : is_bytes d → length d = 32%nat →
  let sg := word (a mod 2 ^ 160) ++ eth_signed d ++ [27] in
  is_bytes sg ∧ length sg = 65%nat ∧ drop 64 sg = [27] ∧
  recover_sig (eth_signed d) sg = a mod 2 ^ 160.
Proof.
  intros Hd Hl sg. pose proof (Z.mod_pos_bound a (2 ^ 160) ltac:(lia)) as Ha.
  pose proof (keccak_length (eth_prefix ++ d)) as Hk.
  pose proof (keccak_bytes (eth_prefix ++ d)) as Hkb. fold (eth_signed d) in Hk, Hkb.
  assert (drop 32 sg = eth_signed d ++ [27]) as H32 by by apply drop_app_length'.
  assert (drop 64 sg = [27]) as H64.
  { change 64%nat with (32 + 32)%nat. rewrite <- drop_drop, H32. by apply drop_app_length'. }
  split_and!; [| |done|].
  - unfold sg. rewrite !Forall_app.
    split_and!; [apply word_bytes|done|by repeat constructor].
  - unfold sg. by rewrite !length_app, word_length, Hk.
  - unfold recover_sig. rewrite H64, H32.
    unfold sg. rewrite !take_app_length' by done.
    change (be_value [27]) with 27. cbn [ecrecover toy_evm]. unfold toy_ecrecover.
    rewrite !bool_decide_eq_true_2 by (done || by left). cbn [andb].
    rewrite word_value by lia. by rewrite Z.mod_mod by lia.
Qed.

#[export] Instance toy_viem_laws : ViemLaws.
Proof.
  split.
  - done.
  - done.
  - intros s Hs. pose proof (proj1 (hex_shape_lower 20 s Hs)). split; [done|].
    cbn. unfold toy_checksum. rewrite <- list_fmap_compose. apply list_fmap_ext.
    intros. apply ascii_lower_idem.
  - intros s Hs. cbn. by rewrite Hs.
  - intros b Hb. cbn. by rewrite hexToBytes_bytesToHex_str.
  - done.
  - intros ts vs ws E. rewrite toy_zip_encode in E. cbn. by rewrite E.
  - intros ts vs t v _ Hin Hu. cbn. rewrite (toy_encode_refused ts vs t v) by (done || by destruct t, v).
    by eexists.
  - intros ts b vs Hb _ Hl E. cbn. rewrite hexToBytes_bytesToHex_str by done. cbn.
    rewrite (dec_vals_static ts b 0 vs); [done|lia|]. by rewrite drop_0.
  - intros ts b Hb Hs Hl. cbn. rewrite hexToBytes_bytesToHex_str by done. cbn.
    rewrite dec_vals_short by (done || lia). by eexists.
  - intros s t [[Us Ws] _] [[Ut Wt] _] Hl. cbn [decodeAbiParameters toy_viem].
    rewrite hexToBytes_bytesToHex_str
      by (apply abi_encode_strings_bytes; by apply utf8_encode_bytes).
    cbn [mbind outcome_bind]. rewrite toy_decode_strings by done.
    by rewrite !utf8_roundtrip.
  - intros ts d vs E. cbn in E. apply bind_Ret_inv in E as (b & Eb & E).
    destruct (dec_vals ts b 0) eqn:Ed; [|done]. injection E as <-.
    eapply dec_vals_typed; [|done]. by eapply hexStringToBytes_bytes.
  - intros raw sg a E. cbn [recoverMessageAddress toy_viem toy_viem_base] in E.
    destruct (_ && _); [|done]. injection E as <-. apply toy_address_shape.
  - intros a. apply toy_address_shape.
  - intros a d Hd Hl. pose proof (toy_sign_raw a d Hd Hl) as (H1 & H2 & H3 & H4).
    pose proof (hex_shape_of 64 _ Hd ltac:(by rewrite Hl)) as Hs.
    pose proof (hex_shape_of 130 _ H1 ltac:(by rewrite H2)) as Hg.
    eexists. split; [|split; [exact H1|]].
    { cbn [signMessage toy_viem toy_viem_base]. rewrite Hs. by rewrite hex_bytes_hex. }
    pose proof (Z.mod_pos_bound a (2 ^ 160) ltac:(lia)).
    split_and!; [done| | |].
    + rewrite H3. by left.
    + rewrite H4. symmetry. by apply (address_hex_value (a mod 2 ^ 160)).
    + cbn [recoverMessageAddress toy_viem toy_viem_base]. rewrite Hs, Hg. cbn [andb].
      by rewrite !hex_bytes_hex, H4.
Qed.

(** ** eciesjs: the ciphertext is the key, its length and the plaintext *)

Definition toy_decrypt (k : jsstr) (c : bytes) : outcome bytes :=
  let tag := hex_bytes k in
  if bool_decide (take (length tag) c = tag) && forallb (λ b, bool_decide (is_byte b)) c
  then Ret (drop (length tag) c)
  else Throw (PlainError (js "Unsupported state or unable to authenticate data")).

#[export] Instance toy_ecies : Ecies := {|
  decrypt := toy_decrypt;
  encrypt pk rnd m :=
    let c := hex_bytes pk ++ m in
    if forallb (λ b, bool_decide (is_byte b)) c then Ret c else Throw (PlainError (js "bytes"));
  ecies_public := id;
|}.

Lemma all_bytes c : forallb (λ b, bool_decide (is_byte b)) c = true ↔ is_bytes c.
Proof.
  rewrite forallb_Forall. apply Forall_iff. intros. by rewrite bool_decide_eq_true.
Qed.

#[export] Instance toy_ecies_laws : EciesLaws.
Proof.
  split.
  - intros k c p E. cbn in E. unfold toy_decrypt in E. case_match eqn:Ec; [|done].
    injection E as <-. apply andb_prop in Ec as [_ Hc%all_bytes]. by apply Forall_drop.
  - intros pk rnd m c E. cbn in E. case_match eqn:Ec; [|done]. injection E as <-.
    by apply all_bytes.
  - intros sk rnd m c E. cbn in *. case_match eqn:Ec; [|done]. injection E as <-.
    unfold toy_decrypt, id in *. rewrite Ec, take_app_length, drop_app_length.
    by rewrite bool_decide_eq_true_2.
Qed.
