(* ===== verification/Protocol.v ===== *)
(** * The shared protocol ([typescript/src/shared/protocol.ts])

    The module the enclave and the frontend share: tags, the stream terms and
    their commitment, fixed-point rates, accrual, and the two digests that are
    signed.  BigInts are [Z]; BigInt division truncates ([Z.quot]).

    Theorems: accrual is the capped floor of rate times time, monotone, and within
    one raw unit of the exact daily rate; decimal rates are parsed exactly; terms
    survive encoding and decoding; the digests are the keccak of the seven
    words that Solidity's [abi.encode] lays out. *)

From S2P Require Import Prelude JsString JsNumber Utf8 Json JsonFacts Encoding Wire Abi Instances.

Definition OP_TYPE_STREAM : jsstr := js "STREAM".
Definition OP_COMMAND_AUTH_WITHDRAW : jsstr := js "AUTH_WITHDRAW".
Definition OP_COMMAND_AUTH_SETTLE : jsstr := js "AUTH_SETTLE".

Definition AUTH_TTL_SECONDS : Z := 600.
Definition CALLER_AUTH_WINDOW_SECONDS : Z := 300.
Definition RATE_SCALE : Z := 10 ^ 12.

Definition WITHDRAW_TAG `{Viem} : jsstr := keccak256_bytes (toBytes (js "SW_WITHDRAW_V1")).
Definition SETTLE_TAG `{Viem} : jsstr := keccak256_bytes (toBytes (js "SW_SETTLE_V1")).
Definition CALLER_AUTH_TAG `{Viem} : jsstr := keccak256_bytes (toBytes (js "SW_CALLER_AUTH_V1")).

(** ** Terms *)

Definition TERMS_ABI : list abi_type :=
  [TAddress; TAddress; TAddress; TUint 256; TUint 256; TUint 64; TBytes32].

Record StreamTerms := {
  employer : jsstr;
  recipient : jsstr;
  token : jsstr;
  ratePerSecond : Z;
  total : Z;
  startTime : Z;
  salt : jsstr;
}.

Definition encodeTerms `{Viem} (t : StreamTerms) : outcome jsstr :=
  encodeAbiParameters TERMS_ABI
    [AAddr (employer t); AAddr (recipient t); AAddr (token t);
     AInt (ratePerSecond t); AInt (total t); AInt (startTime t); AHex (salt t)].

(** The destructuring of the decoded tuple; viem returns one value per type. *)
Definition decodeTerms `{Viem} (termsHex : jsstr) : outcome StreamTerms :=
  vs ← decodeAbiParameters TERMS_ABI termsHex;
  match vs with
  | [AAddr e; AAddr r; AAddr k; AInt rate; AInt tot; AInt start; AHex s] =>
      Ret {| employer := e; recipient := r; token := k; ratePerSecond := rate;
             total := tot; startTime := start; salt := s |}
  | _ => Throw (TypeError (js "not the decoded terms"))
  end.

Definition commitTo `{Viem} (terms : StreamTerms) : outcome jsstr :=
  h ← encodeTerms terms; keccak256 h.

(** ** Fixed-point rates *)

(** [x || y] on strings. *)
Definition str_or (x y : jsstr) : jsstr := if bool_decide (x = []) then y else x.

Definition toScaledRate (rawUnitsPerSecond : jsstr) : outcome Z :=
  let parts := split_on 46 rawUnitsPerSecond in
  let whole := default [] (parts !! 0%nat) in
  let frac := default [] (parts !! 1%nat) in
  let fracPadded := slice (frac ++ str_repeat (js "0") 12) 0 12 in
  w ← BigInt whole;
  f ← BigInt (str_or fracPadded (js "0"));
  Ret (w * RATE_SCALE + f).

Definition ratePerDayToScaled (rawUnitsPerDay : Z) : Z :=
  Z.quot (rawUnitsPerDay * RATE_SCALE) 86400.

Definition accruedAt (terms : StreamTerms) (nowSeconds : Z) : Z :=
  let elapsed := if nowSeconds >? startTime terms then nowSeconds - startTime terms else 0 in
  let accrued := Z.quot (ratePerSecond terms * elapsed) RATE_SCALE in
  if accrued <? total terms then accrued else total terms.

(** ** Digests *)

Record AuthParams := {
  ap_tag : jsstr; ap_chainId : Z; ap_vault : jsstr; ap_streamId : Z;
  ap_commitment : jsstr; ap_cumulativeAccrued : Z; ap_deadline : Z;
}.

Definition buildAuthDigest `{JsEngine, Viem} (p : AuthParams) : outcome jsstr :=
  h ← encodeAbiParameters
        [TBytes32; TUint 256; TAddress; TUint 256; TBytes32; TUint 256; TUint 256]
        [AHex (ap_tag p); AInt (ap_chainId p); AAddr (ap_vault p); AInt (ap_streamId p);
         AHex (to_lower (ap_commitment p)); AInt (ap_cumulativeAccrued p); AInt (ap_deadline p)];
  keccak256 h.

Record ChallengeParams := {
  cp_chainId : Z; cp_vault : jsstr; cp_streamId : Z;
  cp_commitment : jsstr; cp_purpose : jsstr; cp_issuedAt : Z;
}.

Definition buildCallerChallenge `{JsEngine, Viem} (p : ChallengeParams) : outcome jsstr :=
  h ← encodeAbiParameters
        [TBytes32; TUint 256; TAddress; TUint 256; TBytes32; TBytes32; TUint 256]
        [AHex CALLER_AUTH_TAG; AInt (cp_chainId p); AAddr (cp_vault p); AInt (cp_streamId p);
         AHex (to_lower (cp_commitment p)); AHex (cp_purpose p); AInt (cp_issuedAt p)];
  keccak256 h.

(** ** Static encodings as words *)

(** The word a value is encoded as. *)
Definition abi_word `{Viem} (t : abi_type) (v : abi_value) : option Z :=
  match t, v with
  | TAddress, AAddr s => if isAddress s then Some (hex_value s) else None
  | TUint w, AInt n => if (0 <=? n) && (n <? 2 ^ w) then Some n else None
  | TBytes32, AHex s =>
      if hex_shape 64 s && str_eqb (ascii_lower <$> s) s then Some (hex_value s) else None
  | _, _ => None
  end.

Lemma hex32_word s : hex_shape 64 s = true → hex_bytes s = word (hex_value s).
Proof.
  intros (Hb & Hl & _)%(hex_shape_bytes 32). unfold word, hex_value. rewrite <- Hl.
  by rewrite be_bytes_be_value.
Qed.

Lemma hex32_range s : hex_shape 64 s = true → uint_range 256 (hex_value s).
Proof.
  intros (Hb & Hl & _)%(hex_shape_bytes 32). unfold hex_value.
  pose proof (be_value_range _ Hb) as H. by rewrite Hl in H.
Qed.

Lemma encode_word_abi `{Viem} t v z : abi_word t v = Some z → encode_word t v = Some (word z).
Proof.
  destruct t, v; cbn; try done.
  - case_match; [|done]. by intros [= <-].
  - case_match; [|done]. by intros [= <-].
  - case_match eqn:E; [|done]. intros [= <-]. apply andb_prop in E as [E _].
    by rewrite hex32_word.
Qed.

Lemma zip_encode_abi `{Viem} ts vs zs : zip_mapM abi_word ts vs = Some zs →
  zip_mapM encode_word ts vs = Some (word <$> zs).
Proof.
  revert vs zs. induction ts as [|t ts IH]; intros [|v vs] zs E; try done.
  { by injection E as <-. }
  cbn [zip_mapM] in *. destruct (abi_word t v) as [z|] eqn:Ez; [|done].
  destruct (zip_mapM abi_word ts vs) as [zs'|] eqn:Ezs; [|done]. injection E as <-.
  by rewrite (encode_word_abi _ _ _ Ez), (IH _ _ Ezs).
Qed.

Section laws.
Context `{JsEngine, EvmLaws, Viem, !ViemLaws}.

Lemma encode_words ts vs zs : zip_mapM abi_word ts vs = Some zs →
  encodeAbiParameters ts vs = Ret (bytesToHex (abi_encode zs)).
Proof. intros Hz%zip_encode_abi. by apply encode_static. Qed.

Lemma digest_words ts vs zs : zip_mapM abi_word ts vs = Some zs →
  (h ← encodeAbiParameters ts vs; keccak256 h) = Ret (bytesToHex (keccak (abi_encode zs))).
Proof.
  intros Hz. rewrite (encode_words _ _ _ Hz). cbn. apply keccak256_hex. auto with sw.
Qed.

Lemma abi_word_address s : isAddress s = true → abi_word TAddress (AAddr s) = Some (hex_value s).
Proof. intros E. cbn. by rewrite E. Qed.
Lemma abi_word_uint w n : uint_range w n → abi_word (TUint w) (AInt n) = Some n.
Proof. intros E. cbn. by rewrite (proj2 (Z.leb_le _ _)), (proj2 (Z.ltb_lt _ _)) by lia. Qed.
Lemma abi_word_hash b : is_bytes b → length b = 32%nat →
  abi_word TBytes32 (AHex (bytesToHex b)) = Some (be_value b).
Proof.
  intros Hb Hl. cbn. rewrite (hex_shape_of 64) by (done || by rewrite Hl).
  rewrite bytesToHex_ascii_lower, str_eqb_refl by done. cbn.
  unfold hex_value. by rewrite hex_bytes_hex.
Qed.

(** A 32-byte string in any letter case, lowered. *)
Lemma abi_word_lowered s : hex_shape 64 s = true →
  abi_word TBytes32 (AHex (to_lower s)) = Some (hex_value s).
Proof.
  intros Hs. rewrite (hex_shape_to_lower 64) by done.
  pose proof (hex_shape_bytes 32 s Hs) as (Hb & Hl & <-). by apply abi_word_hash.
Qed.

Definition tag_word (s : jsstr) : Z := be_value (keccak (utf8_encode s)).

Lemma tag_hash s : starts_with s (js "0x") = false →
  keccak256_bytes (toBytes s) = bytesToHex (keccak (utf8_encode s)).
Proof. intros. by rewrite keccak256_bytes_hex, toBytes_string. Qed.

Lemma abi_word_tag s : starts_with s (js "0x") = false →
  abi_word TBytes32 (AHex (keccak256_bytes (toBytes s))) = Some (tag_word s).
Proof.
  intros. rewrite tag_hash by done. apply abi_word_hash; auto with sw. apply keccak_length.
Qed.

Lemma tag_word_range s : uint_range 256 (tag_word s).
Proof.
  unfold tag_word. pose proof (be_value_range _ (keccak_bytes (utf8_encode s))) as H5.
  by rewrite keccak_length in H5.
Qed.
End laws.

(** ** Accrual *)

Lemma quot_div a b : 0 ≤ a → 0 < b → Z.quot a b = a / b.
Proof. intros. by apply Z.quot_div_nonneg. Qed.

Lemma accruedAt_min t now : 0 ≤ ratePerSecond t →
  accruedAt t now =
    Z.min (total t) (ratePerSecond t * Z.max 0 (now - startTime t) / RATE_SCALE).
Proof.
  intros Hr. unfold accruedAt, RATE_SCALE. rewrite Z.gtb_ltb.
  destruct (Z.ltb_spec (startTime t) now).
  - rewrite Z.max_r by lia. rewrite quot_div by nia.
    destruct (Z.ltb_spec (ratePerSecond t * (now - startTime t) / 10 ^ 12) (total t)); lia.
  - rewrite Z.max_l, Z.mul_0_r by lia. change (Z.quot 0 (10 ^ 12)) with 0.
    change (0 / 10 ^ 12) with 0. destruct (Z.ltb_spec 0 (total t)); lia.
Qed.

Lemma accruedAt_bounds t now : 0 ≤ ratePerSecond t → 0 ≤ total t →
  0 ≤ accruedAt t now ≤ total t.
Proof.
  intros Hr Ht. rewrite accruedAt_min by done. split; [|lia].
  apply Z.min_glb; [done|]. apply Z.div_pos; [nia|done].
Qed.

Lemma accruedAt_mono t n m : 0 ≤ ratePerSecond t → n ≤ m → accruedAt t n ≤ accruedAt t m.
Proof.
  intros Hr Hn. rewrite !accruedAt_min by done. apply Z.min_le_compat_l.
  apply Z.div_le_mono; [done|]. nia.
Qed.

(** ** Decimal rates *)

(** The first twelve digits of a fraction, padded with zeros. *)
Lemma frac_digits f : Forall (λ c, is_digit c = true) f →
  let g := slice (f ++ str_repeat (js "0") 12) 0 12 in
  g ≠ [] ∧ Forall (λ c, is_digit c = true) g ∧
  digits_value 10 g = digits_value 10 f * 10 ^ 12 / 10 ^ Z.of_nat (length f).
Proof.
  intros Hf g. change (str_repeat (js "0") 12) with (replicate 12 48) in g.
  set (p := f ++ replicate 12 48) in *.
  assert (g = take 12 p) as -> by (unfold g; by rewrite slice_take_drop, drop_0 by lia).
  assert (Forall (λ c, is_digit c = true) p) as Hp
    by (apply Forall_app; split; [done|by apply Forall_replicate]).
  assert (length p = length f + 12)%nat as Hl by (unfold p; rewrite length_app; done).
  split_and!.
  - intros E. apply (f_equal length) in E. rewrite length_take, Hl, Nat.min_l in E by lia. done.
  - by apply Forall_take.
  - pose proof (digits_value_app 10 (take 12 p) (drop 12 p)) as E. rewrite take_drop in E.
    pose proof (digits_value_bound (drop 12 p) (Forall_drop _ _ _ Hp)) as Hb.
    rewrite length_drop, Hl, Nat.add_sub in *.
    unfold p at 1 in E.
    rewrite digits_value_app, digits_value_zeros, Z.add_0_r, length_replicate in E.
    change (Z.of_nat 12) with 12 in E. rewrite E.
    rewrite Z.div_add_l by lia. rewrite Z.div_small by done. lia.
Qed.

(** ** Terms *)

(** The terms that viem encodes, with the salt as the frontend and the scripts
    make it, in lower case. *)
Definition terms_ok `{Viem} (t : StreamTerms) : Prop :=
  isAddress (employer t) = true ∧ isAddress (recipient t) = true ∧ isAddress (token t) = true ∧
  uint_range 256 (ratePerSecond t) ∧ uint_range 256 (total t) ∧ uint_range 64 (startTime t) ∧
  hex_shape 64 (salt t) = true ∧ ascii_lower <$> salt t = salt t.

Definition terms_words (t : StreamTerms) : list Z :=
  [hex_value (employer t); hex_value (recipient t); hex_value (token t);
   ratePerSecond t; total t; startTime t; hex_value (salt t)].

(** What decoding makes of the terms: addresses in their checksummed form. *)
Definition canonical_address `{Viem} (s : jsstr) : jsstr := checksumAddress (ascii_lower <$> s).
Definition canonical `{Viem} (t : StreamTerms) : StreamTerms :=
  {| employer := canonical_address (employer t); recipient := canonical_address (recipient t);
     token := canonical_address (token t); ratePerSecond := ratePerSecond t;
     total := total t; startTime := startTime t; salt := salt t |}.

Lemma be_bytes_app m n z : be_bytes (m + n) z = be_bytes m (z / 256 ^ Z.of_nat n) ++ be_bytes n z.
Proof.
  revert z. induction n as [|n IH]; intros z.
  - rewrite Nat.add_0_r, Z.div_1_r. cbn. by rewrite app_nil_r.
  - rewrite Nat.add_succ_r. cbn [be_bytes]. rewrite IH, app_assoc.
    pose proof (Z.pow_pos_nonneg 256 (Z.of_nat n) ltac:(lia) ltac:(lia)).
    by rewrite pow_256_S, Z.div_div, (Z.mul_comm 256) by lia.
Qed.

Lemma word_address a : drop 12 (word a) = be_bytes 20 a.
Proof.
  unfold word. change 32%nat with (12 + 20)%nat. rewrite be_bytes_app.
  by apply drop_app_length'.
Qed.

Lemma words_encode zs : words (length zs) (abi_encode zs) = word <$> zs.
Proof.
  induction zs as [|z zs IH]; [done|]. cbn [length words].
  change (abi_encode (z :: zs)) with (word z ++ abi_encode zs).
  rewrite take_app_length', drop_app_length' by by rewrite word_length.
  cbn. by rewrite IH.
Qed.

Section terms.
Context `{JsEngine, EvmLaws, Viem, !ViemLaws}.

Lemma canonical_address_ok s : isAddress s = true →
  isAddress (canonical_address s) = true ∧ hex_value (canonical_address s) = hex_value s ∧
  ascii_lower <$> canonical_address s = ascii_lower <$> s.
Proof.
  intros Hs%isAddress_shape. pose proof (hex_shape_lower 20 s Hs) as [Hl Hb].
  pose proof (checksumAddress_ok _ Hl) as [Ha Hc]. unfold canonical_address.
  pose proof (hex_shape_lower 20 _ (isAddress_shape _ Ha)) as [_ Hv].
  rewrite Hc in Hv. split; [done|].
  pose proof (hex_shape_lower 20 _ Hl) as [_ Hll].
  split; [unfold hex_value; by rewrite <- Hv, Hll, Hb|].
  rewrite Hc. rewrite <- list_fmap_compose. apply list_fmap_ext. intros. apply ascii_lower_idem.
Qed.

Lemma terms_abi_words t : terms_ok t →
  encodeTerms t = Ret (bytesToHex (abi_encode (terms_words t))).
Proof.
  intros (He & Hr & Hk & Hrate & Htot & Hst & Hsalt & Hlow). apply encode_words. unfold TERMS_ABI.
  cbn [zip_mapM]. rewrite !abi_word_address, !abi_word_uint by done.
  cbn [abi_word]. by rewrite Hsalt, Hlow, str_eqb_refl.
Qed.

(** The commitment of well-formed terms, as the chain stores it. *)
Lemma commitTo_hash t : terms_ok t →
  commitTo t = Ret (bytesToHex (keccak (abi_encode (terms_words t)))).
Proof.
  intros Ht. unfold commitTo. rewrite terms_abi_words by done. cbn [mbind outcome_bind].
  apply keccak256_hex, abi_encode_bytes.
Qed.

Lemma address_word_range s : isAddress s = true → uint_range 256 (hex_value s).
Proof. intros Hs%isAddress_shape. pose proof (hex_value_address_hex s Hs). lia. Qed.

Lemma terms_words_range t : terms_ok t → Forall (λ z, uint_range 256 z) (terms_words t).
Proof.
  intros (He & Hr & Hk & Hrate & Htot & Hst & Hsalt & Hlow).
  repeat constructor; try lia; first [by apply address_word_range | by apply hex32_range].
Qed.

Lemma decode_address s : isAddress s = true →
  decode_word TAddress (word (hex_value s)) = Some (AAddr (canonical_address s)).
Proof.
  intros Hs%isAddress_shape. cbn [decode_word]. rewrite word_address.
  fold (address_hex (hex_value s)). by rewrite (proj2 (hex_value_address_hex s Hs)).
Qed.

Lemma decode_terms_words t : terms_ok t →
  decodeTerms (bytesToHex (abi_encode (terms_words t))) = Ret (canonical t).
Proof.
  intros Ht. pose proof (terms_words_range t Ht) as Hr.
  destruct Ht as (He & Hrc & Hk & Hrate & Htot & Hst & Hsalt & Hlow). unfold decodeTerms.
  rewrite (decode_static _ _
    [AAddr (canonical_address (employer t)); AAddr (canonical_address (recipient t));
     AAddr (canonical_address (token t)); AInt (ratePerSecond t); AInt (total t);
     AInt (startTime t); AHex (salt t)]);
    [done|auto with sw|cbn; lia|by rewrite abi_encode_length|].
  change (length TERMS_ABI) with (length (terms_words t)). rewrite words_encode.
  unfold TERMS_ABI, terms_words. cbn [fmap list_fmap zip_mapM].
  rewrite !decode_address by done. cbn [decode_word].
  rewrite !word_value by lia. rewrite <- hex32_word by done.
  by rewrite (proj2 (proj2 (hex_shape_bytes 32 _ Hsalt))), Hlow.
Qed.

Lemma canonical_ok t : terms_ok t → terms_ok (canonical t) ∧
  terms_words (canonical t) = terms_words t.
Proof.
  intros (He & Hr & Hk & Hrate & Htot & Hst & Hsalt & Hlow).
  pose proof (canonical_address_ok _ He) as (E1 & E2 & _).
  pose proof (canonical_address_ok _ Hr) as (R1 & R2 & _).
  pose proof (canonical_address_ok _ Hk) as (K1 & K2 & _).
  split; [by repeat (split; [assumption|])|]. unfold terms_words, canonical.
  cbn [employer recipient token ratePerSecond total startTime salt]. by rewrite E2, R2, K2.
Qed.
End terms.

(** ** Digests *)

Definition auth_words (p : AuthParams) : list Z :=
  [hex_value (ap_tag p); ap_chainId p; hex_value (ap_vault p); ap_streamId p;
   hex_value (ap_commitment p); ap_cumulativeAccrued p; ap_deadline p].

Definition challenge_words `{Evm} (p : ChallengeParams) : list Z :=
  [tag_word (js "SW_CALLER_AUTH_V1"); cp_chainId p; hex_value (cp_vault p); cp_streamId p;
   hex_value (cp_commitment p); hex_value (cp_purpose p); cp_issuedAt p].

(** Parameters that can be encoded: a lower-case tag, a commitment in any case. *)
Definition auth_ok `{Viem} (p : AuthParams) : Prop :=
  hex_shape 64 (ap_tag p) = true ∧ ascii_lower <$> ap_tag p = ap_tag p ∧
  uint_range 256 (ap_chainId p) ∧ isAddress (ap_vault p) = true ∧
  uint_range 256 (ap_streamId p) ∧ hex_shape 64 (ap_commitment p) = true ∧
  uint_range 256 (ap_cumulativeAccrued p) ∧ uint_range 256 (ap_deadline p).

Definition challenge_ok `{Viem} (p : ChallengeParams) : Prop :=
  uint_range 256 (cp_chainId p) ∧ isAddress (cp_vault p) = true ∧
  uint_range 256 (cp_streamId p) ∧ hex_shape 64 (cp_commitment p) = true ∧
  hex_shape 64 (cp_purpose p) = true ∧ ascii_lower <$> cp_purpose p = cp_purpose p ∧
  uint_range 256 (cp_issuedAt p).

(** Two inputs do not clash: they hash differently unless they are equal. *)
Definition no_clash `{Evm} (a b : bytes) : Prop := keccak a = keccak b → a = b.

(** The same parameters, addresses and hashes in any letter case. *)
Definition same_auth (p q : AuthParams) : Prop :=
  ap_tag p = ap_tag q ∧ ap_chainId p = ap_chainId q ∧
  ascii_lower <$> ap_vault p = ascii_lower <$> ap_vault q ∧ ap_streamId p = ap_streamId q ∧
  ascii_lower <$> ap_commitment p = ascii_lower <$> ap_commitment q ∧
  ap_cumulativeAccrued p = ap_cumulativeAccrued q ∧ ap_deadline p = ap_deadline q.

Definition same_challenge (p q : ChallengeParams) : Prop :=
  cp_chainId p = cp_chainId q ∧ ascii_lower <$> cp_vault p = ascii_lower <$> cp_vault q ∧
  cp_streamId p = cp_streamId q ∧ ascii_lower <$> cp_commitment p = ascii_lower <$> cp_commitment q ∧
  cp_purpose p = cp_purpose q ∧ cp_issuedAt p = cp_issuedAt q.

Section digests.
Context `{JsEngine, EvmLaws, Viem, !ViemLaws}.

Lemma hex_value_same n s t : hex_shape (2 * n) s = true → hex_shape (2 * n) t = true →
  hex_value s = hex_value t ↔ ascii_lower <$> s = ascii_lower <$> t.
Proof.
  intros (Bs & Ls & <-)%hex_shape_bytes (Bt & Lt & <-)%hex_shape_bytes. unfold hex_value. split; intros E.
  - f_equal. rewrite <- (be_bytes_be_value _ Bs), <- (be_bytes_be_value _ Bt), E. congruence.
  - apply bytesToHex_inj in E; congruence.
Qed.

(** The words are the parameters. *)
Lemma auth_words_same p q : auth_ok p → auth_ok q → auth_words p = auth_words q ↔ same_auth p q.
Proof.
  intros (Tp & Lp & _ & Vp%isAddress_shape & _ & Mp & _) (Tq & Lq & _ & Vq%isAddress_shape & _ & Mq & _).
  unfold same_auth. rewrite <- (hex_value_same 20 _ _ Vp Vq), <- (hex_value_same 32 _ _ Mp Mq).
  rewrite <- Lp, <- Lq, <- (hex_value_same 32 _ _ Tp Tq). unfold auth_words.
  split; [intros [=]; tauto|]. intros (E1 & E2 & E3 & E4 & E5 & E6 & E7). congruence.
Qed.

Lemma challenge_words_same p q : challenge_ok p → challenge_ok q →
  challenge_words p = challenge_words q ↔ same_challenge p q.
Proof.
  intros (_ & Vp%isAddress_shape & _ & Mp & Tp & Lp & _) (_ & Vq%isAddress_shape & _ & Mq & Tq & Lq & _).
  unfold same_challenge. rewrite <- (hex_value_same 20 _ _ Vp Vq), <- (hex_value_same 32 _ _ Mp Mq).
  rewrite <- Lp, <- Lq, <- (hex_value_same 32 _ _ Tp Tq). unfold challenge_words.
  split; [intros [=]; tauto|]. intros (E1 & E2 & E3 & E4 & E5 & E6). congruence.
Qed.

Lemma hex_keccak_inj a b : bytesToHex (keccak a) = bytesToHex (keccak b) → keccak a = keccak b.
Proof. apply bytesToHex_inj; apply keccak_bytes. Qed.

(** Digests of encodings that do not clash are equal for equal words only. *)
Lemma digest_eq ws vs : Forall (λ z, uint_range 256 z) ws → Forall (λ z, uint_range 256 z) vs →
  no_clash (abi_encode ws) (abi_encode vs) →
  Ret (A:=jsstr) (bytesToHex (keccak (abi_encode ws))) = Ret (bytesToHex (keccak (abi_encode vs))) ↔ ws = vs.
Proof.
  intros Hw Hv Hn. split; [|by intros ->]. intros [= E%hex_keccak_inj%Hn].
  by apply abi_encode_inj in E.
Qed.

Lemma auth_digest_words p : auth_ok p →
  buildAuthDigest p = Ret (bytesToHex (keccak (abi_encode (auth_words p)))).
Proof.
  intros (Ht & Htl & Hc & Hv & Hs & Hm & Ha & Hd). unfold buildAuthDigest.
  apply digest_words. cbn [zip_mapM].
  rewrite abi_word_lowered, abi_word_address, !abi_word_uint by done.
  cbn [abi_word]. by rewrite Ht, Htl, str_eqb_refl.
Qed.

Lemma challenge_digest_words p : challenge_ok p →
  buildCallerChallenge p = Ret (bytesToHex (keccak (abi_encode (challenge_words p)))).
Proof.
  intros (Hc & Hv & Hs & Hm & Ht & Htl & Hi). unfold buildCallerChallenge.
  apply digest_words. cbn [zip_mapM]. unfold CALLER_AUTH_TAG.
  rewrite abi_word_tag, abi_word_lowered, abi_word_address, !abi_word_uint by done.
  cbn [abi_word]. by rewrite Ht, Htl, str_eqb_refl.
Qed.

Lemma auth_words_range p : auth_ok p → Forall (λ z, uint_range 256 z) (auth_words p).
Proof.
  intros (Ht & Htl & Hc & Hv & Hs & Hm & Ha & Hd).
  repeat constructor; try lia; first [by apply address_word_range | by apply hex32_range].
Qed.

Lemma challenge_words_range p : challenge_ok p →
  Forall (λ z, uint_range 256 z) (challenge_words p).
Proof.
  intros (Hc & Hv & Hs & Hm & Ht & Htl & Hi).
  repeat constructor; try lia;
    first [apply tag_word_range | by apply address_word_range | by apply hex32_range].
Qed.

End digests.

(** ** Properties *)

(** C27: accrual is the rate times the seconds since the start, in whole raw
    units rounded down, and never more than the total: nothing before the start,
    between zero and the total at any time, and never less later. *)
Theorem accruedAt_correct t now :
  0 ≤ ratePerSecond t → 0 ≤ total t →
  accruedAt t now =
    Z.min (total t) (ratePerSecond t * Z.max 0 (now - startTime t) / RATE_SCALE) ∧
  0 ≤ accruedAt t now ≤ total t ∧
  (now ≤ startTime t → accruedAt t now = 0) ∧
  (∀ later, now ≤ later → accruedAt t now ≤ accruedAt t later).
Proof.
  intros Hr Ht. split_and!; auto using accruedAt_min, accruedAt_mono;
    try by apply accruedAt_bounds.
  intros Hn. rewrite accruedAt_min, Z.max_l, Z.mul_0_r by lia.
  change (0 / RATE_SCALE) with 0. lia.
Qed.

Lemma accruedAt_correct_witness :
  let t := {| employer := []; recipient := []; token := []; ratePerSecond := 115740740740740;
              total := 10000000; startTime := 1000; salt := [] |} in
  accruedAt t 87400 = 9999999 ∧ accruedAt t 1000 = 0.
Proof.
  set (t := Build_StreamTerms _ _ _ _ _ _ _).
  destruct (accruedAt_correct t 87400) as (-> & _); [cbn; lia..|].
  destruct (accruedAt_correct t 1000) as (_ & _ & H & _); [cbn; lia..|].
  split; [reflexivity|]. apply H. reflexivity.
Defined.

(** the fixed-point rate loses at most one raw unit: over any stream of up to
    10^12 seconds a rate given per day accrues the exact [perDay * T / 86400],
    rounded down, or one unit less. *)
Theorem fixed_point_error t perDay T :
  0 ≤ perDay → 0 ≤ T ≤ 10 ^ 12 → ratePerSecond t = ratePerDayToScaled perDay →
  Z.min (total t) (perDay * T / 86400 - 1) ≤ accruedAt t (startTime t + T)
    ≤ Z.min (total t) (perDay * T / 86400).
Proof.
  intros Hp HT Hr. unfold ratePerDayToScaled in Hr. rewrite quot_div in Hr by (unfold RATE_SCALE; lia).
  assert (0 ≤ ratePerSecond t) as Hr0 by (rewrite Hr; apply Z.div_pos; unfold RATE_SCALE; lia).
  rewrite accruedAt_min by done. rewrite Z.max_r by lia.
  replace (startTime t + T - startTime t) with T by lia.
  unfold RATE_SCALE in *. set (r := ratePerSecond t) in *.
  pose proof (Z.div_mod (perDay * 10 ^ 12) 86400 ltac:(lia)) as D1.
  pose proof (Z.mod_pos_bound (perDay * 10 ^ 12) 86400 ltac:(lia)) as B1. rewrite <- Hr in D1.
  pose proof (Z.div_mod (perDay * T) 86400 ltac:(lia)) as D2.
  pose proof (Z.mod_pos_bound (perDay * T) 86400 ltac:(lia)) as B2.
  pose proof (Z.div_mod (r * T) (10 ^ 12) ltac:(lia)) as D3.
  pose proof (Z.mod_pos_bound (r * T) (10 ^ 12) ltac:(lia)) as B3.
  assert (perDay * T / 86400 - 1 ≤ r * T / 10 ^ 12 ≤ perDay * T / 86400) as H; [|lia].
  set (E := perDay * T / 86400) in *. set (A := r * T / 10 ^ 12) in *.
  set (m1 := (perDay * 10 ^ 12) mod 86400) in *.
  assert (perDay * T * 10 ^ 12 = 86400 * (r * T) + m1 * T) as Hx by nia.
  split; nia.
Qed.

Lemma fixed_point_error_witness :
  let t := {| employer := []; recipient := []; token := [];
              ratePerSecond := ratePerDayToScaled 10000000;
              total := 10 ^ 9; startTime := 1000; salt := [] |} in
  9999999 ≤ accruedAt t (1000 + 86400) ≤ 10000000.
Proof.
  set (t := Build_StreamTerms _ _ _ _ _ _ _).
  refine (fixed_point_error t 10000000 86400 _ _ _); cbn; [lia..|reflexivity].
Defined.

(** a decimal number of raw units per second is scaled exactly: [w.f] becomes
    its value times 10^12, digits beyond the twelfth cut off. *)
Theorem toScaledRate_decimal w f :
  w ≠ [] → Forall (λ c, is_digit c = true) w → Forall (λ c, is_digit c = true) f →
  toScaledRate (w ++ 46 :: f) =
    Ret (digits_value 10 (w ++ f) * RATE_SCALE / 10 ^ Z.of_nat (length f)) ∧
  toScaledRate w = Ret (digits_value 10 w * RATE_SCALE).
Proof.
  intros Hne Hw Hf. unfold toScaledRate.
  assert (∀ s, Forall (λ c, is_digit c = true) s → 46 ∉ s) as Hdot
    by (intros; by apply digits_no_unit).
  rewrite split_on_app, !split_on_none by auto. cbn [default lookup list_lookup from_option id].
  pose proof (frac_digits f Hf) as (Hg & Hgd & Hgv).
  unfold str_or. rewrite bool_decide_eq_false_2 by done.
  rewrite !BigInt_digits by done. cbn [mbind outcome_bind]. split.
  - f_equal. rewrite Hgv, digits_value_app.
    assert (0 < 10 ^ Z.of_nat (length f)) by (apply Z.pow_pos_nonneg; lia).
    rewrite Z.mul_add_distr_r, <- Z.mul_assoc, (Z.mul_comm (10 ^ Z.of_nat (length f))), Z.mul_assoc.
    by rewrite Z.div_add_l by lia.
  - change (BigInt _) with (Ret 0). cbn [mbind outcome_bind]. by rewrite Z.add_0_r.
Qed.

Lemma toScaledRate_decimal_witness :
  toScaledRate (js "115.7407407407407") = Ret 115740740740740 ∧
  toScaledRate (js "115") = Ret 115000000000000.
Proof.
  assert (∀ s, forallb is_digit s = true → Forall (λ c, is_digit c = true) s) as Hd
    by (intros; by apply forallb_Forall).
  destruct (toScaledRate_decimal (js "115") (js "7407407407407")) as [H1 H2];
    [discriminate|apply Hd; reflexivity..|].
  split; [exact H1|exact H2].
Defined.

(** C29: terms survive encoding and decoding: every encodable terms record is
    decoded to itself with its addresses checksummed, and the decoded record has
    the same commitment. *)
Theorem terms_roundtrip `{JsEngine, EvmLaws, Viem, !ViemLaws} t : terms_ok t →
  ∃ h, encodeTerms t = Ret h ∧ decodeTerms h = Ret (canonical t) ∧
    commitTo t = keccak256 h ∧ commitTo (canonical t) = commitTo t.
Proof.
  intros Ht. exists (bytesToHex (abi_encode (terms_words t))).
  pose proof (canonical_ok t Ht) as [Hc Hw]. unfold commitTo.
  rewrite !terms_abi_words, decode_terms_words, Hw by done. done.
Qed.

(** Concrete terms. *)
Definition demo_terms : StreamTerms := {|
  employer := js "0x00000000000000000000000000000000000000e1";
  recipient := js "0x00000000000000000000000000000000000000e2";
  token := js "0x00000000000000000000000000000000000000f0";
  ratePerSecond := 115740740740740; total := 10000000; startTime := 1000;
  salt := js "0x1111111111111111111111111111111111111111111111111111111111111111";
|}.

Lemma demo_terms_ok : terms_ok demo_terms.
Proof. repeat (split; [try reflexivity; cbn; lia|]). reflexivity. Qed.

Lemma terms_roundtrip_witness :
  ∃ h, encodeTerms demo_terms = Ret h ∧ decodeTerms h = Ret (canonical demo_terms).
Proof.
  destruct (@terms_roundtrip plain_engine _ _ _ _ demo_terms demo_terms_ok) as (h & H1 & H2 & _).
  exists h. split; assumption.
Defined.

(** terms outside the ABI's ranges are refused: an address that is not one, a
    rate or total beyond 256 bits, a start time beyond 64 bits or a negative
    number makes [encodeTerms] throw; no value is truncated. *)
Theorem encodeTerms_refuses `{EvmLaws, Viem, !ViemLaws} t :
  isAddress (employer t) = false ∨ isAddress (recipient t) = false ∨
  isAddress (token t) = false ∨ ¬ uint_range 256 (ratePerSecond t) ∨
  ¬ uint_range 256 (total t) ∨ ¬ uint_range 64 (startTime t) →
  throws (encodeTerms t).
Proof.
  intros Ht. unfold encodeTerms.
  assert (∀ w n, ¬ uint_range w n → unencodable (TUint w) (AInt n) = true) as Hu.
  { intros w n Hn. cbn. apply negb_true_iff, not_true_is_false.
    rewrite andb_true_iff, Z.leb_le, Z.ltb_lt. done. }
  assert (∀ s, isAddress s = false → unencodable TAddress (AAddr s) = true) as Ha
    by (intros s E; cbn; by rewrite E).
  destruct Ht as [E|[E|[E|[E|[E|E]]]]];
    first [apply Ha in E | apply Hu in E];
    (eapply encode_refused; [done| |exact E]); cbn; rewrite !elem_of_cons; tauto.
Qed.

Lemma encodeTerms_refuses_witness :
  throws (encodeTerms {| employer := js "0xe1"; recipient := []; token := [];
    ratePerSecond := 0; total := 0; startTime := 0; salt := [] |}).
Proof. apply encodeTerms_refuses. left. reflexivity. Defined.

(** C28: the two digests sign exactly the seven words of Solidity's [abi.encode],
    and bind all their parameters: for parameters that can be encoded (tag and
    purpose in lower case), each digest is the keccak hash of the encoding of its
    seven words; two authorization digests are equal exactly when tag, chain, vault,
    stream, commitment, accrual and deadline are, and two challenges exactly when
    chain, vault, stream, commitment, purpose and issue time are, letter case of
    addresses and commitments apart, provided that their two encodings do not clash
    under keccak. *)
Theorem auth_digest_binds `{JsEngine, EvmLaws, Viem, !ViemLaws} p q r r' :
  auth_ok p → auth_ok q → challenge_ok r → challenge_ok r' →
  buildAuthDigest p = Ret (bytesToHex (keccak (abi_encode
    [hex_value (ap_tag p); ap_chainId p; hex_value (ap_vault p); ap_streamId p;
     hex_value (ap_commitment p); ap_cumulativeAccrued p; ap_deadline p]))) ∧
  buildCallerChallenge r = Ret (bytesToHex (keccak (abi_encode
    [tag_word (js "SW_CALLER_AUTH_V1"); cp_chainId r; hex_value (cp_vault r); cp_streamId r;
     hex_value (cp_commitment r); hex_value (cp_purpose r); cp_issuedAt r]))) ∧
  (no_clash (abi_encode (auth_words p)) (abi_encode (auth_words q)) →
   buildAuthDigest p = buildAuthDigest q ↔ same_auth p q) ∧
  (no_clash (abi_encode (challenge_words r)) (abi_encode (challenge_words r')) →
   buildCallerChallenge r = buildCallerChallenge r' ↔ same_challenge r r').
Proof.
  intros Hp Hq Hr Hr'. split; [by apply auth_digest_words|]. split; [by apply challenge_digest_words|].
  rewrite !auth_digest_words, !challenge_digest_words by done. split; intros Hn.
  - rewrite digest_eq by (done || by apply auth_words_range). by apply auth_words_same.
  - rewrite digest_eq by (done || by apply challenge_words_range). by apply challenge_words_same.
Qed.

(** Parameters of a concrete authorization. *)
Definition demo_auth (accrued : Z) : AuthParams := {|
  ap_tag := WITHDRAW_TAG; ap_chainId := 114;
  ap_vault := js "0x00000000000000000000000000000000000000aa"; ap_streamId := 1;
  ap_commitment := js "0xABababababababababababababababababababababababababababababababab";
  ap_cumulativeAccrued := accrued; ap_deadline := 1600;
|}.

Lemma demo_auth_ok n : uint_range 256 n → auth_ok (demo_auth n).
Proof.
  intros. repeat (split; [first [reflexivity | cbn; lia | assumption]|]). cbn. lia.
Qed.

Definition demo_challenge (purpose : jsstr) : ChallengeParams := {|
  cp_chainId := 114; cp_vault := js "0x00000000000000000000000000000000000000aa";
  cp_streamId := 1;
  cp_commitment := js "0xABababababababababababababababababababababababababababababababab";
  cp_purpose := purpose; cp_issuedAt := 1000;
|}.

(** Two authorizations that differ in the accrual, and two challenges that differ in
    the purpose. *)
Lemma auth_digest_binds_witness :
  buildAuthDigest (H:=plain_engine) (demo_auth 5) ≠ buildAuthDigest (H:=plain_engine) (demo_auth 6) ∧
  buildCallerChallenge (H:=plain_engine) (demo_challenge WITHDRAW_TAG)
    ≠ buildCallerChallenge (H:=plain_engine) (demo_challenge SETTLE_TAG).
Proof.
  assert (∀ b, challenge_ok (demo_challenge (if b : bool then WITHDRAW_TAG else SETTLE_TAG))) as Hc
    by (intros []; repeat (split; [first [reflexivity | cbn; lia]|]); cbn; lia).
  destruct (auth_digest_binds (H:=plain_engine) (demo_auth 5) (demo_auth 6) (demo_challenge WITHDRAW_TAG)
    (demo_challenge SETTLE_TAG) (demo_auth_ok 5 ltac:(lia)) (demo_auth_ok 6 ltac:(lia)) (Hc true) (Hc false))
    as (_ & _ & Ha & Hb).
  split; intros E.
  - apply Ha in E as (_ & _ & _ & _ & _ & E6 & _); [discriminate E6|].
    intros Hk. exfalso. revert Hk. apply (bool_decide_eq_false_1 _). vm_compute. reflexivity.
  - apply Hb in E as (_ & _ & _ & _ & E5 & _).
    + revert E5. apply (bool_decide_eq_false_1 _). vm_compute. reflexivity.
    + intros Hk. exfalso. revert Hk. apply (bool_decide_eq_false_1 _). vm_compute. reflexivity.
Defined.

(** the three signatures of the protocol are not interchangeable.  When the
    three tags have different hashes, the encodings that are signed for a
    withdrawal, a settlement and a caller's challenge differ for all parameters. *)
Theorem digests_domain_separated `{EvmLaws, Viem, !ViemLaws} p q r :
  NoDup [tag_word (js "SW_WITHDRAW_V1"); tag_word (js "SW_SETTLE_V1");
         tag_word (js "SW_CALLER_AUTH_V1")] →
  auth_ok p → auth_ok q → challenge_ok r →
  ap_tag p = WITHDRAW_TAG → ap_tag q = SETTLE_TAG →
  NoDup [abi_encode (auth_words p); abi_encode (auth_words q); abi_encode (challenge_words r)].
Proof.
  intros Hnd Hp Hq Hr Tp Tq.
  assert (∀ s, starts_with s (js "0x") = false →
    hex_value (keccak256_bytes (toBytes s)) = tag_word s) as Htag.
  { intros s Hs. rewrite tag_hash by done. unfold hex_value.
    by rewrite hex_bytes_hex by apply keccak_bytes. }
  assert (∀ xs ys x y xs' ys', xs = x :: xs' → ys = y :: ys' →
    Forall (λ z, uint_range 256 z) xs → Forall (λ z, uint_range 256 z) ys →
    abi_encode xs = abi_encode ys → x = y) as Hinj.
  { intros xs ys x y xs' ys' -> -> Hx Hy E. apply abi_encode_inj in E; congruence. }
  pose proof (Htag (js "SW_WITHDRAW_V1") eq_refl) as Hw.
  pose proof (Htag (js "SW_SETTLE_V1") eq_refl) as Hs.
  pose proof (auth_words_range p Hp). pose proof (auth_words_range q Hq).
  pose proof (challenge_words_range r Hr).
  assert (hex_value (ap_tag p) = tag_word (js "SW_WITHDRAW_V1")) as Ep by (rewrite Tp; exact Hw).
  assert (hex_value (ap_tag q) = tag_word (js "SW_SETTLE_V1")) as Eq by (rewrite Tq; exact Hs).
  apply NoDup_3 in Hnd as (N1 & N2 & N3). apply NoDup_3.
  split_and!; intros E; (eapply Hinj in E; [|reflexivity|reflexivity|assumption|assumption]).
  - apply N1. by rewrite <- Ep, <- Eq.
  - apply N2. by rewrite <- Ep.
  - apply N3. by rewrite <- Eq.
Qed.

Definition demo_settle : AuthParams := {|
  ap_tag := SETTLE_TAG; ap_chainId := 114;
  ap_vault := js "0x00000000000000000000000000000000000000aa"; ap_streamId := 1;
  ap_commitment := js "0xABababababababababababababababababababababababababababababababab";
  ap_cumulativeAccrued := 5; ap_deadline := 1600;
|}.


Lemma digests_domain_separated_witness :
  NoDup [abi_encode (auth_words (demo_auth 5)); abi_encode (auth_words demo_settle);
         abi_encode (challenge_words (demo_challenge WITHDRAW_TAG))].
Proof.
  apply digests_domain_separated.
  - apply (bool_decide_eq_true_1 _). vm_compute. reflexivity.
  - apply demo_auth_ok. lia.
  - repeat (split; [first [reflexivity | cbn; lia]|]). cbn; lia.
  - repeat (split; [first [reflexivity | cbn; lia]|]). cbn; lia.
  - reflexivity.
  - reflexivity.
Defined.
