(* ===== verification/StreamHandlers.v ===== *)
(** * The stream handlers ([typescript/src/app/streamHandlers.ts])

    [authorize]: decode the request, decrypt the terms and check them against the
    commitment, authenticate the caller, compute the accrual and sign the digest.
    A step either returns a handler result early, or goes on with a value, or
    throws ([step]); [authorize] runs the steps and counts the authorizations.

    The clock, the environment variables and the counter are inputs; the counter is
    the only state. *)

From S2P Require Import Prelude JsString JsNumber Utf8 Json JsonFacts Encoding Wire Framework Abi Instances Protocol.

(** ** Handlers *)

(** [[dataHexOrNull, status, errorOrNull]]. *)
Definition HandlerResult : Type := option jsstr * Z * option jsstr.

Definition refuse (m : jsstr) : HandlerResult := (None, 0, Some m).

(** What a handler reads besides its argument: [process.env] and [Date.now()]. *)
Record Env := {
  TEE_ECIES_PRIVKEY : option jsstr;
  TEE_SIGNER_PRIVKEY : option jsstr;
  now_ms : Z;
}.

(** [Math.floor(Date.now() / 1000)]. *)
Definition now_sec (env : Env) : Z := now_ms env / 1000.

(** An environment variable that is set and not empty. *)
Definition env_truthy (v : option jsstr) : option jsstr :=
  match v with Some [] | None => None | Some s => Some s end.

(** ** Early returns *)

Definition step (A : Type) : Type := outcome (HandlerResult + A).

Definition step_bind {A B} (m : step A) (k : A → step B) : step B :=
  match m with
  | Ret (inr a) => k a
  | Ret (inl r) => Ret (inl r)
  | Throw e => Throw e
  end.

Declare Scope step_scope.
Delimit Scope step_scope with step.
Notation "'let!' x := m 'in' k" := (step_bind m (λ x, k))
  (at level 10, x name, m at level 100, k at level 200) : step_scope.
Notation "'guard!' b 'else' r 'in' k" := (if b then k else Ret (inl r))
  (at level 10, b at level 100, r at level 100, k at level 200) : step_scope.
#[local] Open Scope step_scope.

(** [try { m } catch { return r }], and a call outside any [try]. *)
Definition attempt {A} (m : outcome A) (r : HandlerResult) : step A :=
  match m with Ret a => Ret (inr a) | Throw _ => Ret (inl r) end.
Definition call {A} (m : outcome A) : step A := a ← m; Ret (inr a).

(** ** Requests *)

Record AuthRequest := {
  streamId : jsstr;
  vault : jsstr;
  chainId : jsstr;
  commitment : jsstr;
  encryptedTerms : jsstr;
  issuedAt : jsstr;
  callerSignature : jsstr;
}.

Definition REQUIRED_FIELDS : list jsstr :=
  [js "streamId"; js "vault"; js "chainId"; js "commitment"; js "encryptedTerms";
   js "issuedAt"; js "callerSignature"].

(** [keys.sort()]: code-unit order. *)
Definition str_le (s t : jsstr) : Prop := str_leb s t = true.
#[export] Instance str_le_dec : RelDecision str_le.
Proof. intros s t. unfold str_le. apply _. Defined.
Definition sort_keys (l : list jsstr) : list jsstr := merge_sort str_le l.

Definition unknown_fields (known : list jsstr) (kvs : list (jsstr * json)) : list jsstr :=
  sort_keys (filter (λ k, k ∉ known) (object_keys kvs)).

Definition string_field (kvs : list (jsstr * json)) (f : jsstr) : option jsstr :=
  match lookup_prop f kvs with Some (JStr s) => Some s | _ => None end.

Fixpoint missing_field (kvs : list (jsstr * json)) (fs : list jsstr) : option jsstr :=
  match fs with
  | f :: fs' =>
      match string_field kvs f with Some _ => missing_field kvs fs' | None => Some f end
  | [] => None
  end.

Definition field (kvs : list (jsstr * json)) (f : jsstr) : jsstr := default [] (string_field kvs f).

Definition request_of (kvs : list (jsstr * json)) : AuthRequest := {|
  streamId := field kvs (js "streamId"); vault := field kvs (js "vault");
  chainId := field kvs (js "chainId"); commitment := field kvs (js "commitment");
  encryptedTerms := field kvs (js "encryptedTerms"); issuedAt := field kvs (js "issuedAt");
  callerSignature := field kvs (js "callerSignature");
|}.

(** Step 1, the body of the [try]. *)
Definition decode_body `{JsEngine} (msg : json) : step AuthRequest :=
  let! raw := call (hexToBytes (Some msg)) in
  let! parsed := call (JSON_parse (utf8_decode raw)) in
  match parsed with
  | JObj kvs =>
      match unknown_fields REQUIRED_FIELDS kvs with
      | k :: _ => Ret (inl (refuse (js "decoding request: unknown field " ++ [34] ++ k ++ [34])))
      | [] =>
          match missing_field kvs REQUIRED_FIELDS with
          | Some f => Ret (inl (refuse
              (js "decoding request: missing or non-string field " ++ [34] ++ f ++ [34])))
          | None => Ret (inr (request_of kvs))
          end
      end
  | _ => Ret (inl (refuse (js "decoding request: expected a JSON object")))
  end.

Definition decode_request `{JsEngine} (msg : json) : step AuthRequest :=
  match decode_body msg with
  | Throw e => Ret (inl (refuse (js "decoding request: " ++ err_message e)))
  | r => r
  end.

(** ** Decryption and commitment *)

Section authorize.
Context `{JsEngine, Viem, Ecies}.

Definition keys_missing : HandlerResult :=
  refuse (js "TEE keys not configured (TEE_ECIES_PRIVKEY / TEE_SIGNER_PRIVKEY)").

(** Step 2: the decrypted terms, once they match the commitment. *)
Definition unseal (eciesKey : jsstr) (req : AuthRequest) : step (jsstr * StreamTerms) :=
  let! termsHex := attempt
    (c ← hexToBytes (Some (JStr (encryptedTerms req)));
     p ← decrypt eciesKey c;
     Ret (bytesToHex p)) (refuse (js "failed to decrypt terms")) in
  let! h := call (keccak256 termsHex) in
  guard! str_eqb h (to_lower (commitment req))
    else refuse (js "terms do not match commitment") in
  let! terms := attempt (decodeTerms termsHex) (refuse (js "terms blob is malformed")) in
  Ret (inr (termsHex, terms)).

(** The parties that may ask for a signature under [tag]. *)
Definition permitted (tag : jsstr) (terms : StreamTerms) : list jsstr :=
  if str_eqb tag SETTLE_TAG then [to_lower (employer terms)]
  else [to_lower (recipient terms); to_lower (employer terms)].

(** Step 2b: the caller, recovered from the signed challenge. *)
Definition authenticate (nowSec : Z) (tag : jsstr) (req : AuthRequest) (terms : StreamTerms) :
    step jsstr :=
  let! issued := attempt (BigInt (issuedAt req))
    (refuse (js "issuedAt must be a unix-seconds integer")) in
  let skew := if issued >? nowSec then issued - nowSec else nowSec - issued in
  guard! negb (skew >? CALLER_AUTH_WINDOW_SECONDS)
    else refuse (js "caller authorization expired") in
  let! caller := attempt
    (chain ← BigInt (chainId req);
     stream ← BigInt (streamId req);
     raw ← buildCallerChallenge {|
       cp_chainId := chain; cp_vault := vault req; cp_streamId := stream;
       cp_commitment := commitment req; cp_purpose := tag; cp_issuedAt := issued |};
     recoverMessageAddress raw (callerSignature req))
    (refuse (js "malformed caller signature")) in
  let c := to_lower caller in
  guard! bool_decide (c ∈ permitted tag terms)
    else refuse (js "caller is not a party to this stream") in
  Ret (inr c).

(** Steps 3 and 4: accrual, digest, signature. *)
Definition sign_authorization (nowSec : Z) (signerKey tag termsHex : jsstr)
    (req : AuthRequest) (terms : StreamTerms) : step json :=
  let cumulativeAccrued := accruedAt terms nowSec in
  let deadline := nowSec + AUTH_TTL_SECONDS in
  let! chain := call (BigInt (chainId req)) in
  let! stream := call (BigInt (streamId req)) in
  let! digest := call (buildAuthDigest {|
    ap_tag := tag; ap_chainId := chain; ap_vault := vault req; ap_streamId := stream;
    ap_commitment := commitment req; ap_cumulativeAccrued := cumulativeAccrued;
    ap_deadline := deadline |}) in
  let! acct := call (privateKeyToAccount signerKey) in
  let! signature := call (signMessage acct digest) in
  Ret (inr (JObj [
    (js "streamId", JStr (streamId req));
    (js "cumulativeAccrued", JStr (bigint_to_string cumulativeAccrued));
    (js "deadline", JStr (bigint_to_string deadline));
    (js "signature", JStr signature);
    (js "terms", JStr termsHex)])).

Definition authorize_steps (env : Env) (msg : json) (tag : jsstr) : step json :=
  let! req := decode_request msg in
  match env_truthy (TEE_ECIES_PRIVKEY env), env_truthy (TEE_SIGNER_PRIVKEY env) with
  | Some eciesKey, Some signerKey =>
      let! opened := unseal eciesKey req in
      let nowSec := now_sec env in
      let! caller := authenticate nowSec tag req opened.2 in
      sign_authorization nowSec signerKey tag opened.1 req opened.2
  | _, _ => Ret (inl keys_missing)
  end.

(** [authorize(msg, tag)] and [authCount++]. *)
Definition authorize (env : Env) (tag : jsstr) (msg : json) (authCount : Z) :
    outcome HandlerResult * Z :=
  match authorize_steps env msg tag with
  | Throw e => (Throw e, authCount)
  | Ret (inl r) => (Ret r, authCount)
  | Ret (inr resp) =>
      (Ret (Some (bytesToHex (utf8_encode (JSON_stringify resp))), 1, None), num_incr authCount)
  end.

Definition registerStreamHandlers {Hnd} (wrap : (Env → json → Z → outcome HandlerResult * Z) → Hnd)
    (fw : framework Hnd) : outcome (framework Hnd) :=
  fw ← handle fw OP_TYPE_STREAM OP_COMMAND_AUTH_WITHDRAW
         (wrap (λ env msg, authorize env WITHDRAW_TAG msg));
  handle fw OP_TYPE_STREAM OP_COMMAND_AUTH_SETTLE
    (wrap (λ env msg, authorize env SETTLE_TAG msg)).

Definition reportStreamState (authCount : Z) : list (jsstr * json) :=
  [(js "authCount", JNum (num_of_Z authCount))].
Definition resetStreamState : Z := 0.
End authorize.

(** ** Lemmas on steps *)

Lemma step_bind_inr {A B} (m : step A) (k : A → step B) b :
  step_bind m k = Ret (inr b) ↔ ∃ a, m = Ret (inr a) ∧ k a = Ret (inr b).
Proof. destruct m as [[r|a]|e]; cbn; naive_solver. Qed.

Lemma step_bind_throw {A B} (m : step A) (k : A → step B) e :
  step_bind m k = Throw e ↔ m = Throw e ∨ ∃ a, m = Ret (inr a) ∧ k a = Throw e.
Proof. destruct m as [[r|a]|e']; cbn; naive_solver. Qed.

Lemma attempt_inr {A} (m : outcome A) r a : attempt m r = Ret (inr a) ↔ m = Ret a.
Proof. destruct m; cbn; naive_solver. Qed.

Lemma attempt_no_throw {A} (m : outcome A) r e : attempt m r ≠ Throw e.
Proof. by destruct m. Qed.

Lemma call_inr {A} (m : outcome A) a : call m = Ret (inr a) ↔ m = Ret a.
Proof. destruct m; cbn; naive_solver. Qed.

Lemma call_throw {A} (m : outcome A) e : call m = Throw e ↔ m = Throw e.
Proof. destruct m; cbn; naive_solver. Qed.

Lemma guard_inr {A} (b : bool) r (k : step A) a :
  (guard! b else r in k) = Ret (inr a) ↔ b = true ∧ k = Ret (inr a).
Proof. destruct b; naive_solver. Qed.

(** A step that returned early did so with a refusal. *)
Definition refusing {A} (m : step A) : Prop :=
  ∀ r, m = Ret (inl r) → ∃ t, r = refuse t.

Lemma refusing_bind {A B} (m : step A) (k : A → step B) :
  refusing m → (∀ a, refusing (k a)) → refusing (step_bind m k).
Proof. unfold refusing. destruct m as [[r|a]|e]; cbn; naive_solver. Qed.

Lemma refusing_attempt {A} (m : outcome A) t : refusing (attempt m (refuse t)).
Proof. unfold refusing. destruct m; cbn; naive_solver. Qed.

Lemma refusing_call {A} (m : outcome A) : refusing (call m).
Proof. unfold refusing. destruct m; cbn; naive_solver. Qed.

Lemma refusing_guard {A} (b : bool) t (k : step A) :
  refusing k → refusing (guard! b else refuse t in k).
Proof. unfold refusing. destruct b; naive_solver. Qed.

Lemma refusing_done {A} (a : A) : refusing (Ret (inr a)).
Proof. unfold refusing. naive_solver. Qed.

Lemma refusing_refuse {A} t : refusing (Ret (inl (refuse t)) : step A).
Proof. unfold refusing. naive_solver. Qed.

Create HintDb refusing.
#[export] Hint Resolve refusing_bind refusing_attempt refusing_call refusing_guard
  refusing_done refusing_refuse : refusing.

(** ** Decoding requests *)

Lemma merge_sort_nil l : sort_keys l = [] ↔ l = [].
Proof.
  unfold sort_keys. split; [|by intros ->]. intros E.
  pose proof (merge_sort_Permutation str_le l) as P. rewrite E in P.
  by apply Permutation_nil_l in P.
Qed.

Lemma unknown_fields_nil known kvs :
  unknown_fields known kvs = [] ↔ ∀ k, k ∈ object_keys kvs → k ∈ known.
Proof.
  unfold unknown_fields. rewrite merge_sort_nil. split.
  - intros E k Hk. destruct (decide (k ∈ known)) as [|Hn]; [done|].
    assert (k ∈ filter (λ k, k ∉ known) (object_keys kvs)) as Hin
      by (by apply list_elem_of_filter).
    rewrite E in Hin. by apply not_elem_of_nil in Hin.
  - intros Hk. destruct (filter _ _) as [|k l] eqn:E; [done|].
    assert (k ∈ k :: l) as Hin by left. rewrite <- E in Hin.
    apply list_elem_of_filter in Hin as [? ?]. naive_solver.
Qed.

Lemma missing_field_None kvs fs :
  missing_field kvs fs = None ↔ ∀ f, f ∈ fs → ∃ s, lookup_prop f kvs = Some (JStr s).
Proof.
  induction fs as [|f fs IH]; cbn.
  - split; [|done]. intros _ f Hf. by apply not_elem_of_nil in Hf.
  - unfold string_field. setoid_rewrite elem_of_cons.
    destruct (lookup_prop f kvs) as [[]|] eqn:E;
      try (split; [done|]; intros Hf; destruct (Hf f) as (s' & Hs); [by left|congruence]).
    rewrite IH. split; [|naive_solver]. intros Hf g [->|Hg]; eauto.
Qed.

(** The code-unit order is total and transitive, so sorting puts the least first. *)
Lemma str_le_total s t : str_le s t ∨ str_le t s.
Proof.
  unfold str_le. revert t. induction s as [|c s IH]; intros [|d t]; cbn; auto.
  destruct (Z.lt_trichotomy c d) as [Hc|[->|Hc]].
  - left. by rewrite (proj2 (Z.ltb_lt _ _) Hc).
  - rewrite Z.ltb_irrefl, Z.eqb_refl. cbn. apply IH.
  - right. by rewrite (proj2 (Z.ltb_lt _ _) Hc).
Qed.

#[export] Instance str_le_Total : Total str_le.
Proof. exact str_le_total. Qed.

#[export] Instance str_le_trans : Transitive str_le.
Proof.
  unfold str_le. intros s t u. revert t u.
  induction s as [|c s IH]; intros [|d t] [|e u]; cbn; try done.
  rewrite !orb_true_iff, !andb_true_iff, !Z.ltb_lt, !Z.eqb_eq.
  intros [?|[-> ?]] [?|[-> ?]]; [left; lia|by left|by left|right; eauto].
Qed.

Lemma unknown_fields_least known kvs k l : unknown_fields known kvs = k :: l →
  k ∈ object_keys kvs ∧ k ∉ known ∧
  ∀ k', k' ∈ object_keys kvs → k' ∉ known → str_le k k' ∨ k' = k.
Proof.
  unfold unknown_fields, sort_keys. set (ks := filter _ _). intros E.
  pose proof (merge_sort_Permutation str_le ks) as P.
  pose proof (StronglySorted_merge_sort str_le ks) as S. rewrite E in P, S.
  assert (k ∈ ks) as Hk by (rewrite <- P; left).
  apply list_elem_of_filter in Hk as [? ?]. split_and!; try done.
  intros k' Hin Hn. assert (k' ∈ ks) as Hk' by (by apply list_elem_of_filter).
  rewrite <- P in Hk'. apply elem_of_cons in Hk' as [->|Hk']; [by right|].
  left. apply StronglySorted_inv in S as [_ S]. rewrite Forall_forall in S. by apply S.
Qed.

Lemma decode_request_inr `{JsEngine} msg req :
  decode_request msg = Ret (inr req) ↔
  ∃ raw kvs, hexToBytes (Some msg) = Ret raw ∧ JSON_parse (utf8_decode raw) = Ret (JObj kvs) ∧
    (∀ k, k ∈ object_keys kvs → k ∈ REQUIRED_FIELDS) ∧
    (∀ f, f ∈ REQUIRED_FIELDS → ∃ s, lookup_prop f kvs = Some (JStr s)) ∧
    req = request_of kvs.
Proof.
  unfold decode_request. transitivity (decode_body msg = Ret (inr req)).
  { destruct (decode_body msg) as [[]|]; naive_solver. }
  unfold decode_body. rewrite step_bind_inr. setoid_rewrite call_inr.
  setoid_rewrite step_bind_inr. setoid_rewrite call_inr.
  setoid_rewrite <- unknown_fields_nil. setoid_rewrite <- missing_field_None.
  split.
  - intros (raw & Hraw & v & Hv & E). destruct v as [| | | | |kvs]; try done.
    destruct (unknown_fields _ _) eqn:Eu; [|done].
    destruct (missing_field _ _) eqn:Em; [done|]. injection E as <-. naive_solver.
  - intros (raw & kvs & Hraw & Hv & Hu & Hm & ->).
    exists raw. split; [done|]. exists (JObj kvs). split; [done|]. by rewrite Hu, Hm.
Qed.

Lemma decode_request_no_throw `{JsEngine} msg e : decode_request msg ≠ Throw e.
Proof. unfold decode_request. by destruct (decode_body msg) as [[]|]. Qed.

Lemma decode_body_refusing `{JsEngine} msg : refusing (decode_body msg).
Proof.
  unfold decode_body. apply refusing_bind; [apply refusing_call|]. intros raw.
  apply refusing_bind; [apply refusing_call|]. intros v.
  destruct v; repeat case_match; auto with refusing.
Qed.

Lemma decode_request_refusing `{JsEngine} msg : refusing (decode_request msg).
Proof.
  unfold decode_request. pose proof (decode_body_refusing msg) as H'.
  destruct (decode_body msg) as [[]|]; auto with refusing.
Qed.
#[export] Hint Resolve decode_request_refusing : refusing.

(** ** The authorization as a decision *)

Section facts.
Context `{JsEngine, EvmLaws, Viem, !ViemLaws, Ecies, !EciesLaws}.

(** The conditions under which a signature is issued, in one place: what was
    opened, who asked, what was signed. *)
Record granted (env : Env) (tag : jsstr) (req : AuthRequest)
    (p : bytes) (terms : StreamTerms) (resp : json) : Prop := {
  g_opened : ∃ k c, env_truthy (TEE_ECIES_PRIVKEY env) = Some k ∧
    hexToBytes (Some (JStr (encryptedTerms req))) = Ret c ∧ decrypt k c = Ret p;
  g_commitment : keccak256 (bytesToHex p) = Ret (to_lower (commitment req));
  g_terms : decodeTerms (bytesToHex p) = Ret terms;
  g_signed : ∃ k acct chain stream issued raw caller digest signature,
    env_truthy (TEE_SIGNER_PRIVKEY env) = Some k ∧ privateKeyToAccount k = Ret acct ∧
    BigInt (chainId req) = Ret chain ∧ BigInt (streamId req) = Ret stream ∧
    BigInt (issuedAt req) = Ret issued ∧
    Z.abs (issued - now_sec env) ≤ CALLER_AUTH_WINDOW_SECONDS ∧
    buildCallerChallenge {| cp_chainId := chain; cp_vault := vault req; cp_streamId := stream;
      cp_commitment := commitment req; cp_purpose := tag; cp_issuedAt := issued |} = Ret raw ∧
    recoverMessageAddress raw (callerSignature req) = Ret caller ∧
    to_lower caller ∈ permitted tag terms ∧
    buildAuthDigest {| ap_tag := tag; ap_chainId := chain; ap_vault := vault req;
      ap_streamId := stream; ap_commitment := commitment req;
      ap_cumulativeAccrued := accruedAt terms (now_sec env);
      ap_deadline := now_sec env + AUTH_TTL_SECONDS |} = Ret digest ∧
    signMessage acct digest = Ret signature ∧
    resp = JObj [
      (js "streamId", JStr (streamId req));
      (js "cumulativeAccrued", JStr (bigint_to_string (accruedAt terms (now_sec env))));
      (js "deadline", JStr (bigint_to_string (now_sec env + AUTH_TTL_SECONDS)));
      (js "signature", JStr signature);
      (js "terms", JStr (bytesToHex p))];
}.

Lemma unseal_inr k req th terms :
  unseal k req = Ret (inr (th, terms)) ↔
  ∃ c p, hexToBytes (Some (JStr (encryptedTerms req))) = Ret c ∧ decrypt k c = Ret p ∧
    th = bytesToHex p ∧ keccak256 th = Ret (to_lower (commitment req)) ∧
    decodeTerms th = Ret terms.
Proof.
  unfold unseal. rewrite step_bind_inr. setoid_rewrite attempt_inr.
  setoid_rewrite step_bind_inr. setoid_rewrite call_inr. setoid_rewrite guard_inr.
  setoid_rewrite step_bind_inr. setoid_rewrite attempt_inr. split.
  - intros (t & Ht & h & Hh & Heq%str_eqb_true & tm & Htm & [= <- <-]).
    apply bind_Ret_inv in Ht as (c & Hc & Ht). apply bind_Ret_inv in Ht as (p & Hp & [= <-]).
    subst h. by exists c, p.
  - intros (c & p & Hc & Hp & -> & Hh & Hd). exists (bytesToHex p).
    rewrite Hc. cbn. rewrite Hp. split; [done|]. eexists. split; [done|].
    split; [apply str_eqb_refl|]. by exists terms.
Qed.

Lemma skew_abs a b : (if a >? b then a - b else b - a) = Z.abs (a - b).
Proof. rewrite Z.gtb_ltb. destruct (Z.ltb_spec b a); lia. Qed.

Lemma authenticate_inr now tag req terms c :
  authenticate now tag req terms = Ret (inr c) ↔
  ∃ chain stream issued raw caller,
    BigInt (chainId req) = Ret chain ∧ BigInt (streamId req) = Ret stream ∧
    BigInt (issuedAt req) = Ret issued ∧
    Z.abs (issued - now) ≤ CALLER_AUTH_WINDOW_SECONDS ∧
    buildCallerChallenge {| cp_chainId := chain; cp_vault := vault req; cp_streamId := stream;
      cp_commitment := commitment req; cp_purpose := tag; cp_issuedAt := issued |} = Ret raw ∧
    recoverMessageAddress raw (callerSignature req) = Ret caller ∧
    c = to_lower caller ∧ c ∈ permitted tag terms.
Proof.
  unfold authenticate. rewrite step_bind_inr. setoid_rewrite attempt_inr.
  setoid_rewrite guard_inr. setoid_rewrite step_bind_inr. setoid_rewrite attempt_inr.
  setoid_rewrite guard_inr. setoid_rewrite bool_decide_eq_true.
  setoid_rewrite skew_abs. setoid_rewrite negb_true_iff.
  setoid_rewrite Z.gtb_ltb. setoid_rewrite Z.ltb_ge.
  split.
  - intros (issued & Hi & Hs & caller & Hc & Hin & [= <-]).
    apply bind_Ret_inv in Hc as (ch & Hch & Hc). apply bind_Ret_inv in Hc as (st & Hst & Hc).
    apply bind_Ret_inv in Hc as (raw & Hraw & Hc). by exists ch, st, issued, raw, caller.
  - intros (ch & st & issued & raw & caller & Hch & Hst & Hi & Hs & Hraw & Hc & -> & Hin).
    exists issued. split; [done|]. split; [done|]. exists caller.
    split; [|done]. by rewrite Hch, Hst; cbn [mbind outcome_bind]; rewrite Hraw.
Qed.

Lemma sign_authorization_inr now k tag th req terms resp :
  sign_authorization now k tag th req terms = Ret (inr resp) ↔
  ∃ acct chain stream digest signature,
    BigInt (chainId req) = Ret chain ∧ BigInt (streamId req) = Ret stream ∧
    buildAuthDigest {| ap_tag := tag; ap_chainId := chain; ap_vault := vault req;
      ap_streamId := stream; ap_commitment := commitment req;
      ap_cumulativeAccrued := accruedAt terms now;
      ap_deadline := now + AUTH_TTL_SECONDS |} = Ret digest ∧
    privateKeyToAccount k = Ret acct ∧ signMessage acct digest = Ret signature ∧
    resp = JObj [
      (js "streamId", JStr (streamId req));
      (js "cumulativeAccrued", JStr (bigint_to_string (accruedAt terms now)));
      (js "deadline", JStr (bigint_to_string (now + AUTH_TTL_SECONDS)));
      (js "signature", JStr signature);
      (js "terms", JStr th)].
Proof.
  unfold sign_authorization. do 5 (setoid_rewrite step_bind_inr; setoid_rewrite call_inr).
  split.
  - intros (ch & Hch & st & Hst & d & Hd & a & Ha & s & Hs & [= <-]).
    by exists a, ch, st, d, s.
  - intros (a & ch & st & d & s & Hch & Hst & Hd & Ha & Hs & ->). eauto 15.
Qed.

Lemma authorize_steps_inr env tag msg resp :
  authorize_steps env msg tag = Ret (inr resp) ↔
  ∃ req p terms, decode_request msg = Ret (inr req) ∧ granted env tag req p terms resp.
Proof.
  unfold authorize_steps. rewrite step_bind_inr. split.
  - intros (req & Hreq & E).
    destruct (env_truthy (TEE_ECIES_PRIVKEY env)) as [ke|] eqn:Eke; [|done].
    destruct (env_truthy (TEE_SIGNER_PRIVKEY env)) as [ks|] eqn:Eks; [|done].
    apply step_bind_inr in E as ([th terms] & Hu & E).
    apply unseal_inr in Hu as (c & p & Hc & Hp & -> & Hh & Hd).
    apply step_bind_inr in E as (cl & Ha & E).
    apply authenticate_inr in Ha as (ch & st & iss & raw & caller & I1 & I2 & I3 & I4 & I5 & I6 & -> & I7).
    apply sign_authorization_inr in E as (a & ch' & st' & d & s & C1 & C2 & C3 & C4 & C5 & ->).
    cbn in *. rewrite I1 in C1. rewrite I2 in C2. simplify_eq.
    exists req, p, terms. split; [done|]. split; try done; [by exists ke, c|].
    exists ks, a, ch', st', iss, raw, caller, d, s. repeat (split; [done|]). done.
  - intros (req & p & terms & Hreq & [(ke & c & Eke & Hc & Hp) Hh Hd
      (ks & a & ch & st & iss & raw & caller & d & s & Eks & Ha & Hch & Hst & Hi & Hs & Hraw & Hcl & Hin & Hdg & Hsg & ->)]).
    exists req. split; [done|]. rewrite Eke, Eks.
    apply step_bind_inr. exists (bytesToHex p, terms). split.
    { apply unseal_inr. by exists c, p. }
    apply step_bind_inr. exists (to_lower caller). split.
    { apply authenticate_inr. by exists ch, st, iss, raw, caller. }
    apply sign_authorization_inr. by exists a, ch, st, d, s.
Qed.

(** ** Ranges of what is decoded *)

Lemma encodable ts vs h : length ts = length vs → encodeAbiParameters ts vs = Ret h →
  Forall (λ tv, unencodable tv.1 tv.2 = false) (zip ts vs).
Proof.
  intros Hl E. apply Forall_forall. intros [t v] Hin.
  destruct (unencodable t v) eqn:Eu; cbn; [|done].
  destruct (encode_refused ts vs t v Hl Hin Eu) as [e He]. congruence.
Qed.

Lemma uint_encodable w n : unencodable (TUint w) (AInt n) = false → uint_range w n.
Proof. cbn. rewrite negb_false_iff, andb_true_iff, Z.leb_le, Z.ltb_lt. done. Qed.

Lemma challenge_returned p raw : buildCallerChallenge p = Ret raw →
  uint_range 256 (cp_chainId p) ∧ isAddress (cp_vault p) = true ∧
  uint_range 256 (cp_streamId p) ∧ uint_range 256 (cp_issuedAt p).
Proof.
  unfold buildCallerChallenge. intros (h & E & _)%bind_Ret_inv.
  apply encodable in E; [|done]. cbn [zip zip_with fst snd] in E. rewrite !Forall_cons in E.
  destruct E as (_ & Hc & Hv & Hs & _ & _ & Hi & _).
  split; [by apply uint_encodable|]. split; [by apply negb_false_iff in Hv|].
  split; by apply uint_encodable.
Qed.

(** What viem decodes for the terms' types is terms. *)
Lemma decoded_terms h vs : decodeAbiParameters TERMS_ABI h = Ret vs →
  ∃ t, decodeTerms h = Ret t ∧
  hex_shape 40 (employer t) = true ∧ hex_shape 40 (recipient t) = true ∧
  uint_range 256 (ratePerSecond t) ∧ uint_range 256 (total t) ∧ uint_range 256 (startTime t).
Proof.
  intros E. unfold decodeTerms. rewrite E. apply decode_typed in E. unfold TERMS_ABI in E.
  repeat match goal with
  | H : Forall2 _ (_ :: _) _ |- _ => apply Forall2_cons_inv_l in H as (? & ? & ? & H & ->)
  | H : Forall2 _ [] _ |- _ => apply Forall2_nil_inv_l in H as ->
  | H : has_type _ _ |- _ => inversion H; subst; clear H
  end.
  cbn. eexists. split; [reflexivity|]. done.
Qed.

Lemma decodeTerms_typed h t : decodeTerms h = Ret t →
  hex_shape 40 (employer t) = true ∧ hex_shape 40 (recipient t) = true ∧
  uint_range 256 (ratePerSecond t) ∧ uint_range 256 (total t) ∧ uint_range 256 (startTime t).
Proof.
  intros E. assert (∃ vs, decodeAbiParameters TERMS_ABI h = Ret vs) as [vs Hvs]
    by (unfold decodeTerms in E; apply bind_Ret_inv in E as (vs & E & _); by exists vs).
  apply decoded_terms in Hvs as (t' & Et' & Ht). rewrite E in Et'. by injection Et' as <-.
Qed.

Lemma accruedAt_range t now : uint_range 256 (ratePerSecond t) → uint_range 256 (total t) →
  uint_range 256 (accruedAt t now).
Proof. intros. pose proof (accruedAt_bounds t now). lia. Qed.

(** The tags as words of the digest. *)
Definition op_tag (tag : jsstr) : Prop := tag = WITHDRAW_TAG ∨ tag = SETTLE_TAG.

Lemma op_tag_hash tag : op_tag tag → ∃ b, tag = bytesToHex b ∧ is_bytes b ∧ length b = 32%nat.
Proof.
  intros [->| ->]; unfold WITHDRAW_TAG, SETTLE_TAG; rewrite tag_hash by done;
    eexists; (split; [done|]); split; auto using keccak_bytes, keccak_length.
Qed.

(** The digest can be built when the commitment, lowered, is a hash. *)
Lemma auth_digest_returns p b : op_tag (ap_tag p) → is_bytes b → length b = 32%nat →
  to_lower (ap_commitment p) = bytesToHex b →
  uint_range 256 (ap_chainId p) → isAddress (ap_vault p) = true →
  uint_range 256 (ap_streamId p) → uint_range 256 (ap_cumulativeAccrued p) →
  uint_range 256 (ap_deadline p) →
  buildAuthDigest p = Ret (bytesToHex (keccak (abi_encode
    [hex_value (ap_tag p); ap_chainId p; hex_value (ap_vault p); ap_streamId p;
     be_value b; ap_cumulativeAccrued p; ap_deadline p]))).
Proof.
  intros (t & Ht & Hbt & Hlt)%op_tag_hash Hb Hl Hc H1' H2' H3' H4' H5'.
  unfold buildAuthDigest. apply digest_words. rewrite Hc, Ht. cbn [zip_mapM].
  rewrite !abi_word_hash, abi_word_address, !abi_word_uint by done.
  by rewrite (hex_value_hex t).
Qed.

(** ** Totality *)

(** The range of [Date.now()], and a signer key that viem accepts if there is one. *)
Definition env_ok (env : Env) : Prop :=
  0 ≤ now_ms env ≤ 8640000000000000 ∧
  ∀ k, env_truthy (TEE_SIGNER_PRIVKEY env) = Some k → returns (privateKeyToAccount k).

Lemma env_deadline env : env_ok env → uint_range 256 (now_sec env + AUTH_TTL_SECONDS).
Proof.
  intros [Hn _]. unfold now_sec, AUTH_TTL_SECONDS.
  pose proof (Z.div_le_mono 0 (now_ms env) 1000 ltac:(lia) ltac:(lia)) as H1'.
  pose proof (Z.div_le_mono (now_ms env) 8640000000000000 1000 ltac:(lia) ltac:(lia)) as H2'.
  change (0 / 1000) with 0 in H1'. change (8640000000000000 / 1000) with 8640000000000 in H2'. lia.
Qed.

Lemma commitment_hash p s : is_bytes p → keccak256 (bytesToHex p) = Ret s →
  s = bytesToHex (keccak p).
Proof. intros Hp. rewrite keccak256_hex by done. by intros [= <-]. Qed.

Lemma unseal_no_throw k req e : unseal k req ≠ Throw e.
Proof.
  unfold unseal. rewrite step_bind_throw. intros [E|(th & Eth & E)]; [by eapply attempt_no_throw|].
  apply attempt_inr in Eth. apply bind_Ret_inv in Eth as (c & _ & Eth).
  apply bind_Ret_inv in Eth as (p & Hp & [= <-]). apply decrypt_bytes in Hp.
  rewrite keccak256_hex in E by done. cbn in E. destruct (str_eqb _ _); [|done].
  apply step_bind_throw in E as [E|(t & _ & E)]; [by eapply attempt_no_throw|done].
Qed.

Lemma authenticate_no_throw now tag req terms e : authenticate now tag req terms ≠ Throw e.
Proof.
  unfold authenticate. rewrite step_bind_throw. intros [E|(i & _ & E)]; [by eapply attempt_no_throw|].
  destruct (negb _); [|done].
  apply step_bind_throw in E as [E|(c & _ & E)]; [by eapply attempt_no_throw|].
  by destruct (bool_decide _).
Qed.

Lemma authorize_steps_no_throw env tag msg e : op_tag tag → env_ok env →
  authorize_steps env msg tag ≠ Throw e.
Proof.
  intros Htag Henv. unfold authorize_steps. rewrite step_bind_throw.
  intros [E|(req & _ & E)]; [by eapply decode_request_no_throw|].
  destruct (env_truthy (TEE_ECIES_PRIVKEY env)) as [ke|]; [|done].
  destruct (env_truthy (TEE_SIGNER_PRIVKEY env)) as [ks|] eqn:Eks; [|done].
  apply step_bind_throw in E as [E|([th terms] & Hu & E)]; [by eapply unseal_no_throw|].
  apply unseal_inr in Hu as (c & p & _ & Hp%decrypt_bytes & -> & Hh & Hd).
  apply commitment_hash in Hh; [|done].
  apply step_bind_throw in E as [E|(cl & Ha & E)]; [by eapply authenticate_no_throw|].
  apply authenticate_inr in Ha as (ch & st & iss & raw & caller & I1 & I2 & I3 & I4 & I5 & _).
  apply challenge_returned in I5 as (R1 & R2 & R3 & R4). cbn in R1, R2, R3, R4.
  apply decodeTerms_typed in Hd as (_ & _ & T1 & T2 & T3).
  pose proof (env_deadline env Henv). destruct Henv as [_ Hk].
  destruct (Hk _ Eks) as [a Ha]. unfold sign_authorization in E. cbn [fst snd] in E.
  rewrite I1, I2 in E. cbn [call mbind outcome_bind step_bind] in E.
  rewrite (auth_digest_returns _ (keccak p)) in E;
    [|done|apply keccak_bytes|apply keccak_length|done|done|done|done|by apply accruedAt_range|done].
  rewrite Ha in E. cbn [call mbind outcome_bind step_bind] in E.
  destruct (sign_raw a (keccak (abi_encode [hex_value tag; ch; hex_value (vault req); st;
    be_value (keccak p); accruedAt terms (now_sec env); now_sec env + AUTH_TTL_SECONDS])))
    as (sg & Hsg & _); [apply keccak_bytes|apply keccak_length|].
  cbn [ap_tag ap_chainId ap_vault ap_streamId ap_cumulativeAccrued ap_deadline] in E.
  by rewrite Hsg in E.
Qed.

(** ** The shape of results *)

Lemma authorize_steps_refusing env msg tag : refusing (authorize_steps env msg tag).
Proof.
  unfold authorize_steps. apply refusing_bind; [auto with refusing|]. intros req.
  destruct (env_truthy (TEE_ECIES_PRIVKEY env)), (env_truthy (TEE_SIGNER_PRIVKEY env));
    try apply refusing_refuse.
  apply refusing_bind; [|intros; apply refusing_bind].
  - unfold unseal. repeat first [apply refusing_bind; intros | apply refusing_guard]; auto with refusing.
  - unfold authenticate.
    repeat first [apply refusing_bind; intros | apply refusing_guard]; auto with refusing.
  - intros. unfold sign_authorization.
    repeat (apply refusing_bind; intros); auto with refusing.
Qed.

Lemma authorize_status_1 env tag msg n data err n' :
  authorize env tag msg n = (Ret (data, 1, err), n') ↔
  ∃ resp, authorize_steps env msg tag = Ret (inr resp) ∧
    data = Some (json_to_hex resp) ∧ err = None ∧ n' = num_incr n.
Proof.
  unfold authorize, json_to_hex.
  pose proof (authorize_steps_refusing env msg tag) as Hr.
  destruct (authorize_steps env msg tag) as [[r|resp]|e]; split.
  - intros [= -> <-]. by destruct (Hr _ eq_refl).
  - naive_solver.
  - intros [= <- <- <-]. eauto.
  - intros (? & [= ->] & -> & -> & ->). done.
  - done.
  - naive_solver.
Qed.

Lemma field_units kvs f : json_units (JObj kvs) = true → is_units (field kvs f).
Proof.
  intros Hk. unfold field, string_field.
  destruct (lookup_prop f kvs) as [[]|] eqn:E; cbn; try constructor. by eapply lookup_prop_units.
Qed.

Lemma decode_request_units msg req : decode_request msg = Ret (inr req) → is_units (streamId req).
Proof.
  rewrite decode_request_inr. intros (raw & kvs & Hraw & Hp & _ & _ & ->).
  assert (is_bytes raw) as Hb.
  { destruct msg; try discriminate Hraw; [injection Hraw as <-; constructor|].
    by eapply hexStringToBytes_bytes. }
  apply JSON_parse_units in Hp; [|by apply utf8_decode_units]. by apply field_units.
Qed.

Lemma signature_units a b s : is_bytes b → length b = 32%nat →
  signMessage a (bytesToHex b) = Ret s → is_units s.
Proof.
  intros Hb Hl E. destruct (sign_raw a b Hb Hl) as (sg & Hs & Hsg & _).
  rewrite Hs in E. injection E as <-. by apply bytesToHex_units.
Qed.

Lemma bigint_units z : is_units (bigint_to_string z).
Proof. apply bigint_to_string_wf. Qed.

Lemma strings_ok (l : list (jsstr * jsstr)) :
  forallb (λ k, bool_decide (array_index k = None) && forallb is_ascii k) l.*1 = true →
  NoDup l.*1 → Forall (λ kv, is_units kv.2) l →
  json_ok (JObj ((λ kv, (kv.1, JStr kv.2)) <$> l)) = true.
Proof.
  intros Hk Hnd Hu. cbn [json_ok]. rewrite <- list_fmap_compose.
  rewrite bool_decide_eq_true_2 by (by rewrite (list_fmap_ext _ fst l) by done). cbn [andb].
  apply forallb_Forall in Hk. apply forallb_Forall. apply Forall_fmap. rewrite Forall_fmap in Hk.
  eapply Forall_impl; [apply Forall_and; split; [exact Hk|exact Hu]|].
  intros [k v] [Hkk Hv]. cbn in *. apply andb_prop in Hkk as [-> Ha].
  rewrite !bool_decide_eq_true_2; [done|done|].
  rewrite forallb_Forall in Ha. eapply Forall_impl; [exact Ha|].
  intros c. unfold is_ascii, is_unit. rewrite andb_true_iff, Z.leb_le, Z.ltb_lt. lia.
Qed.

Lemma granted_response_ok env tag msg req p terms resp : op_tag tag → env_ok env →
  decode_request msg = Ret (inr req) → granted env tag req p terms resp → json_ok resp = true.
Proof.
  intros Htag Henv Hreq [(k & c & _ & _ & Hp%decrypt_bytes) Hh Hd
    (ks & a & ch & st & iss & raw & caller & d & s & _ & _ & _ & _ & _ & _ & Hraw & _ & _ & Hdg & Hsg & ->)].
  apply commitment_hash in Hh; [|done].
  apply challenge_returned in Hraw as (R1 & R2 & R3 & _). cbn in R1, R2, R3.
  apply decodeTerms_typed in Hd as (_ & _ & T1 & T2 & _).
  rewrite (auth_digest_returns _ (keccak p)) in Hdg;
    [|done|apply keccak_bytes|apply keccak_length|done|done|done|done|by apply accruedAt_range
     |by apply env_deadline].
  injection Hdg as <-. apply signature_units in Hsg; [|apply keccak_bytes|apply keccak_length].
  apply (strings_ok [(js "streamId", _); (js "cumulativeAccrued", _); (js "deadline", _);
    (js "signature", _); (js "terms", _)]).
  - reflexivity.
  - apply (bool_decide_eq_true_1 _). vm_compute. reflexivity.
  - repeat constructor; cbn [snd]; try apply bigint_units; try done.
    + by eapply decode_request_units.
    + by apply bytesToHex_units.
Qed.
End facts.
