(* ===== verification/StreamProps.v ===== *)
(** * What the enclave promises

    The theorems about [authorize] of StreamHandlers.v: when it signs and what it
    signs (an equivalence), who may obtain a signature, which refusal is reported
    in which order, that it always answers, and that every well-formed request of a
    party is granted. *)

From S2P Require Import Prelude JsString JsNumber Utf8 Json JsonFacts Encoding Wire Framework Abi Instances Protocol StreamHandlers.
#[local] Open Scope step_scope.

(** A JSON payload as the handlers receive it: hex of UTF-8. *)
Definition payload (v : json) : json := JStr (json_to_hex v).

Lemma decode_payload `{JsEngine} kvs : json_ok (JObj kvs) = true →
  (∀ k, k ∈ object_keys kvs → k ∈ REQUIRED_FIELDS) →
  (∀ f, f ∈ REQUIRED_FIELDS → ∃ s, lookup_prop f kvs = Some (JStr s)) →
  decode_request (payload (JObj kvs)) = Ret (inr (request_of kvs)).
Proof.
  intros Hok Hk Hf. apply decode_request_inr.
  exists (utf8_encode (JSON_stringify (JObj kvs))), kvs. split_and!; try done.
  - by apply json_to_hex_bytes.
  - by apply JSON_utf8_roundtrip.
Qed.

(** The fields of a request, in the order the frontend sends them. *)
Definition request_fields (r : AuthRequest) : list (jsstr * json) := [
  (js "streamId", JStr (streamId r)); (js "vault", JStr (vault r));
  (js "chainId", JStr (chainId r)); (js "commitment", JStr (commitment r));
  (js "encryptedTerms", JStr (encryptedTerms r)); (js "issuedAt", JStr (issuedAt r));
  (js "callerSignature", JStr (callerSignature r))].

Definition request_units (r : AuthRequest) : Prop :=
  is_units (streamId r) ∧ is_units (vault r) ∧ is_units (chainId r) ∧ is_units (commitment r) ∧
  is_units (encryptedTerms r) ∧ is_units (issuedAt r) ∧ is_units (callerSignature r).

Lemma request_fields_ok r : request_units r → json_ok (JObj (request_fields r)) = true.
Proof.
  intros (U1 & U2 & U3 & U4 & U5 & U6 & U7).
  apply (strings_ok [(js "streamId", _); (js "vault", _); (js "chainId", _);
    (js "commitment", _); (js "encryptedTerms", _); (js "issuedAt", _); (js "callerSignature", _)]).
  - reflexivity.
  - apply (bool_decide_eq_true_1 _). vm_compute. reflexivity.
  - by repeat constructor.
Qed.

(** The fields decode to the request. *)
Lemma decode_request_fields `{JsEngine} r : request_units r →
  decode_request (payload (JObj (request_fields r))) = Ret (inr r).
Proof.
  intros Hr. rewrite decode_payload; [by destruct r|by apply request_fields_ok| |].
  - intros k Hk. exact Hk.
  - intros f Hf. unfold REQUIRED_FIELDS in Hf. rewrite !elem_of_cons in Hf.
    destruct r. destruct Hf as [->|[->|[->|[->|[->|[->|[->|Hf]]]]]]];
      [by eexists..|by apply not_elem_of_nil in Hf].
Qed.

Section facts.
Context `{JsEngine, EvmLaws, Viem, !ViemLaws, Ecies, !EciesLaws}.

(** Permitted callers, as addresses. *)
Lemma permitted_address tag terms caller :
  hex_shape 40 caller = true → hex_shape 40 (employer terms) = true →
  hex_shape 40 (recipient terms) = true → to_lower caller ∈ permitted tag terms →
  hex_value caller = hex_value (employer terms) ∨
  (tag ≠ SETTLE_TAG ∧ hex_value caller = hex_value (recipient terms)).
Proof.
  intros Hc He Hr. unfold permitted. rewrite !(hex_shape_to_lower 40) by done.
  assert (∀ s, hex_shape 40 s = true → ascii_lower <$> caller = ascii_lower <$> s →
    hex_value caller = hex_value s) as Hv.
  { intros s Hs E. pose proof (hex_shape_lower 20 _ Hc) as [_ E1].
    pose proof (hex_shape_lower 20 _ Hs) as [_ E2]. unfold hex_value. by rewrite <- E1, <- E2, E. }
  destruct (str_eqb tag SETTLE_TAG) eqn:Et; reflect_Z; rewrite !elem_of_cons.
  - intros [E|E%not_elem_of_nil]; [left; by apply Hv|done].
  - intros [E|[E|E%not_elem_of_nil]]; [right|left|done]; auto.
Qed.

Lemma address_permitted tag terms caller :
  hex_shape 40 caller = true → hex_shape 40 (employer terms) = true →
  hex_shape 40 (recipient terms) = true →
  hex_value caller = hex_value (employer terms) ∨
  (tag ≠ SETTLE_TAG ∧ hex_value caller = hex_value (recipient terms)) →
  to_lower caller ∈ permitted tag terms.
Proof.
  intros Hc He Hr. unfold permitted. rewrite !(hex_shape_to_lower 40) by done.
  assert (∀ s, hex_shape 40 s = true → hex_value caller = hex_value s →
    ascii_lower <$> caller = ascii_lower <$> s) as Hv.
  { intros s Hs E. rewrite <- (proj2 (hex_value_address_hex _ Hc)),
      <- (proj2 (hex_value_address_hex _ Hs)). by rewrite E. }
  destruct (str_eqb tag SETTLE_TAG) eqn:Et; reflect_Z; rewrite !elem_of_cons.
  - intros [E|[Hn _]]; [left; by apply Hv|done].
  - intros [E|[_ E]]; [right; left|left]; by apply Hv.
Qed.

Lemma challenge_returns p b : op_tag (cp_purpose p) → is_bytes b → length b = 32%nat →
  to_lower (cp_commitment p) = bytesToHex b →
  uint_range 256 (cp_chainId p) → isAddress (cp_vault p) = true →
  uint_range 256 (cp_streamId p) → uint_range 256 (cp_issuedAt p) →
  buildCallerChallenge p = Ret (bytesToHex (keccak (abi_encode
    [tag_word (js "SW_CALLER_AUTH_V1"); cp_chainId p; hex_value (cp_vault p); cp_streamId p;
     be_value b; hex_value (cp_purpose p); cp_issuedAt p]))).
Proof.
  intros (t & Ht & Hbt & Hlt)%op_tag_hash Hb Hl Hc R1 R2 R3 R4.
  unfold buildCallerChallenge. apply digest_words. rewrite Hc, Ht. cbn [zip_mapM].
  unfold CALLER_AUTH_TAG.
  rewrite abi_word_tag, !abi_word_hash, abi_word_address, !abi_word_uint by done.
  by rewrite (hex_value_hex t).
Qed.

Lemma accruedAt_canonical t now : accruedAt (canonical t) now = accruedAt t now.
Proof. done. Qed.
(** A request as an honest party makes it: terms sealed to the enclave's key and
    committed to, and a fresh challenge for the stream signed by a party that the
    operation permits. *)
Record honest (env : Env) (tag : jsstr) (msg : json) (req : AuthRequest) (t : StreamTerms)
    (tee : account) (ch st : Z) : Prop := {
  h_tag : op_tag tag;
  h_env : env_ok env;
  h_terms : terms_ok t;
  h_keys : ∃ ke ks rnd c, env_truthy (TEE_ECIES_PRIVKEY env) = Some ke ∧
    env_truthy (TEE_SIGNER_PRIVKEY env) = Some ks ∧ privateKeyToAccount ks = Ret tee ∧
    encrypt (ecies_public ke) rnd (abi_encode (terms_words t)) = Ret c ∧
    encryptedTerms req = bytesToHex c;
  h_req : decode_request msg = Ret (inr req);
  h_commitment : commitTo t = Ret (to_lower (commitment req));
  h_chain : BigInt (chainId req) = Ret ch ∧ uint_range 256 ch;
  h_stream : BigInt (streamId req) = Ret st ∧ uint_range 256 st;
  h_vault : isAddress (vault req) = true;
  h_caller : ∃ a iss raw, BigInt (issuedAt req) = Ret iss ∧ uint_range 256 iss ∧
    Z.abs (iss - now_sec env) ≤ 300 ∧
    buildCallerChallenge {| cp_chainId := ch; cp_vault := vault req; cp_streamId := st;
      cp_commitment := commitment req; cp_purpose := tag; cp_issuedAt := iss |} = Ret raw ∧
    signMessage a raw = Ret (callerSignature req) ∧
    (hex_value (account_address a) = hex_value (employer t) ∨
     (tag ≠ SETTLE_TAG ∧ hex_value (account_address a) = hex_value (recipient t)));
}.

(** The answer to it. *)
Definition authorization (req : AuthRequest) (t : StreamTerms) (now : Z) (sg : bytes) : json := JObj [
  (js "streamId", JStr (streamId req));
  (js "cumulativeAccrued", JStr (bigint_to_string (accruedAt t now)));
  (js "deadline", JStr (bigint_to_string (now + AUTH_TTL_SECONDS)));
  (js "signature", JStr (bytesToHex sg));
  (js "terms", JStr (bytesToHex (abi_encode (terms_words t))))].

(** A signature from which [ecrecover] finds the account, over these words. *)
Definition signed_by (tee : account) (ws : list Z) (sg : bytes) : Prop :=
  is_bytes sg ∧ length sg = 65%nat ∧ be_value (drop 64 sg) ∈ [27; 28] ∧
  recover_sig (eth_signed (keccak (abi_encode ws))) sg = hex_value (account_address tee).

Lemma honest_granted env tag msg req t tee ch st : honest env tag msg req t tee ch st →
  ∃ sg, authorize_steps env msg tag = Ret (inr (authorization req t (now_sec env) sg)) ∧
    signed_by tee [hex_value tag; ch; hex_value (vault req); st;
      be_value (keccak (abi_encode (terms_words t))); accruedAt t (now_sec env); now_sec env + 600] sg.
Proof.
  intros [Htag Henv Ht (ke & ks & rnd & c & Eke & Eks & Htee & Henc & Hcipher) Hreq Hcom
    [Hch Rch] [Hst Rst] Hv (a & iss & raw & Hiss & Riss & Hskew & Hraw & Hsig & Hparty)].
  set (p := abi_encode (terms_words t)) in *.
  pose proof (abi_encode_bytes (terms_words t)) as Hp. fold p in Hp.
  pose proof (encrypt_bytes _ _ _ _ Henc) as Hcb. apply decrypt_encrypt in Henc.
  unfold commitTo in Hcom. rewrite terms_abi_words in Hcom by done. cbn [mbind outcome_bind] in Hcom.
  fold p in Hcom. pose proof (commitment_hash p _ Hp Hcom) as Hlow.
  rewrite (challenge_returns _ (keccak p)) in Hraw; cbn [cp_purpose cp_commitment cp_chainId
    cp_vault cp_streamId cp_issuedAt] in *; auto using keccak_bytes, keccak_length.
  injection Hraw as <-. set (d := keccak _) in Hsig.
  destruct (sign_raw a d) as (cs & Hcs & _ & _ & _ & _ & Hrec);
    [apply keccak_bytes|apply keccak_length|].
  rewrite Hcs in Hsig. injection Hsig as Hsig.
  destruct (canonical_ok t Ht) as [Hct _].
  destruct Hct as (He%isAddress_shape & Hr%isAddress_shape & _ & T1 & T2 & _).
  pose proof (accruedAt_range (canonical t) (now_sec env) T1 T2) as Hacc.
  pose proof (env_deadline env Henv) as Hdl.
  set (dg := keccak (abi_encode [hex_value tag; ch; hex_value (vault req); st; be_value (keccak p);
       accruedAt t (now_sec env); now_sec env + 600])).
  destruct (sign_raw tee dg) as (sg & Hsg & Hsgb & Hsgl & Hsgv & Hsgr & _);
    [apply keccak_bytes|apply keccak_length|].
  exists sg. split; [|done].
  apply authorize_steps_inr. exists req, p, (canonical t). split; [done|]. split.
    - exists ke, c. rewrite Hcipher. cbn [hexToBytes]. by rewrite hexToBytes_bytesToHex_str.
    - done.
    - by apply decode_terms_words.
    - exists ks, tee, ch, st, iss, (bytesToHex d), (account_address a), (bytesToHex dg), (bytesToHex sg).
      do 6 (split; [done|]). rewrite (challenge_returns _ (keccak p)) by
        auto using keccak_bytes, keccak_length. split; [done|].
      rewrite <- Hsig. split; [done|]. split.
      + destruct (canonical_address_ok (employer t) (proj1 Ht)) as (_ & V1 & _).
        destruct (canonical_address_ok (recipient t) (proj1 (proj2 Ht))) as (_ & V2 & _).
        apply address_permitted; try done; [apply isAddress_shape, account_shape|].
        cbn [employer recipient canonical]. by rewrite V1, V2.
      + by rewrite (auth_digest_returns _ (keccak p)) by auto using keccak_bytes, keccak_length.
Qed.
End facts.

(** ** Properties *)

(** C11: the enclave signs exactly when every check of the code passes, and then
    signs exactly the authorization digest: status 1 is returned if and only if
    the request decodes, the configured key opens the ciphertext, the plaintext
    hashes to the commitment and decodes to terms, the challenge is fresh and its
    signature recovers to a permitted party; the response holds the accrual of
    those terms now, a deadline 600 seconds ahead and the signature of the digest
    over them, and the counter goes up by one. *)
Theorem authorize_success_iff `{JsEngine, Viem, Ecies}
    env tag msg n data err n' :
  authorize env tag msg n = (Ret (data, 1, err), n') ↔
  ∃ req p terms resp, decode_request msg = Ret (inr req) ∧ granted env tag req p terms resp ∧
    data = Some (json_to_hex resp) ∧ err = None ∧ n' = num_incr n.
Proof.
  rewrite authorize_status_1. setoid_rewrite authorize_steps_inr.
  split; [intros (resp & (req & p & t & Hq & Hg) & ?); by exists req, p, t, resp|].
  intros (req & p & t & resp & Hq & Hg & ?). eauto 10.
Qed.

(** C12: only a party obtains a signature, and only the employer one that settles:
    whenever status 1 is returned there are terms that hash to the request's
    commitment, and the caller, recovered from a signature on the challenge for
    this very purpose issued within 300 seconds of now, is their employer or, for
    a withdrawal, their recipient. *)
Theorem authorize_only_parties `{JsEngine, EvmLaws, Viem, !ViemLaws, Ecies, !EciesLaws}
    env tag msg n data err n' :
  authorize env tag msg n = (Ret (data, 1, err), n') →
  ∃ req p terms params raw caller, decode_request msg = Ret (inr req) ∧
    to_lower (commitment req) = bytesToHex (keccak p) ∧ decodeTerms (bytesToHex p) = Ret terms ∧
    cp_purpose params = tag ∧ cp_commitment params = commitment req ∧
    Z.abs (cp_issuedAt params - now_sec env) ≤ 300 ∧
    buildCallerChallenge params = Ret raw ∧
    recoverMessageAddress raw (callerSignature req) = Ret caller ∧
    (hex_value caller = hex_value (employer terms) ∨
     (tag ≠ SETTLE_TAG ∧ hex_value caller = hex_value (recipient terms))).
Proof.
  rewrite authorize_status_1. intros (resp & Hs & _).
  apply authorize_steps_inr in Hs as (req & p & terms & Hreq & [(k & c & _ & _ & Hp%decrypt_bytes) Hh Hd
    (ks & a & ch & st & iss & raw & caller & d & s & _ & _ & _ & _ & _ & Hskew & Hraw & Hrec & Hin & _)]).
  apply commitment_hash in Hh; [|done]. pose proof (decodeTerms_typed _ _ Hd) as (He & Hr & _).
  exists req, p, terms, {| cp_chainId := ch; cp_vault := vault req; cp_streamId := st;
    cp_commitment := commitment req; cp_purpose := tag; cp_issuedAt := iss |}, raw, caller.
  do 8 (split; [done|]).
  apply permitted_address; try done. eapply isAddress_shape, recover_address, Hrec.
Qed.

(** [authorize] always answers: with a valid signer key and a clock in the
    range of JavaScript dates it never throws, whatever the request; the answer is
    a refusal with a message and no data, which leaves the counter alone, or a
    success with data and no error, which counts. *)
Theorem authorize_total `{JsEngine, EvmLaws, Viem, !ViemLaws, Ecies, !EciesLaws} env tag msg n :
  op_tag tag → env_ok env →
  (∃ m, authorize env tag msg n = (Ret (None, 0, Some m), n)) ∨
  (∃ d, authorize env tag msg n = (Ret (Some d, 1, None), num_incr n)).
Proof.
  intros Htag Henv. pose proof (authorize_steps_no_throw env tag msg) as Ht.
  pose proof (authorize_steps_refusing env msg tag) as Hr. unfold authorize.
  destruct (authorize_steps env msg tag) as [[r|resp]|e].
  - left. destruct (Hr r eq_refl) as [m ->]. by exists m.
  - right. by eexists.
  - by destruct (Ht e Htag Henv).
Qed.

(** C22: the order and the text of the refusals.  For a decoded request that the
    key opens: a plaintext that does not hash to the commitment, then undecodable
    terms, then an [issuedAt] that is no integer, then one outside the window, then a
    caller who is no permitted party, is refused with its own message, and the
    counter stays. *)
Theorem authorize_refusals `{JsEngine, EvmLaws, Viem, !ViemLaws, Ecies, !EciesLaws}
    env tag msg n req ke ks c p :
  decode_request msg = Ret (inr req) →
  env_truthy (TEE_ECIES_PRIVKEY env) = Some ke → env_truthy (TEE_SIGNER_PRIVKEY env) = Some ks →
  hexToBytes (Some (JStr (encryptedTerms req))) = Ret c → decrypt ke c = Ret p →
  let refused m := authorize env tag msg n = (Ret (refuse (js m)), n) in
  (to_lower (commitment req) ≠ bytesToHex (keccak p) → refused "terms do not match commitment") ∧
  (to_lower (commitment req) = bytesToHex (keccak p) →
    (throws (decodeTerms (bytesToHex p)) → refused "terms blob is malformed") ∧
    ∀ terms, decodeTerms (bytesToHex p) = Ret terms →
      (throws (BigInt (issuedAt req)) → refused "issuedAt must be a unix-seconds integer") ∧
      ∀ iss, BigInt (issuedAt req) = Ret iss →
        (Z.abs (iss - now_sec env) > 300 → refused "caller authorization expired") ∧
        ∀ ch st raw, Z.abs (iss - now_sec env) ≤ 300 →
          BigInt (chainId req) = Ret ch → BigInt (streamId req) = Ret st →
          buildCallerChallenge {| cp_chainId := ch; cp_vault := vault req; cp_streamId := st;
            cp_commitment := commitment req; cp_purpose := tag; cp_issuedAt := iss |} = Ret raw →
          (throws (recoverMessageAddress raw (callerSignature req)) →
            refused "malformed caller signature") ∧
          ∀ caller, recoverMessageAddress raw (callerSignature req) = Ret caller →
            to_lower caller ∉ permitted tag terms →
            refused "caller is not a party to this stream").
Proof.
  intros Hreq Eke Eks Hc Hp refused.
  pose proof (decrypt_bytes _ _ _ Hp) as Hb.
  unfold refused, authorize, authorize_steps. rewrite Hreq. cbn [step_bind]. rewrite Eke, Eks.
  unfold unseal. rewrite Hc. cbn [mbind outcome_bind]. rewrite Hp. cbn [mbind outcome_bind attempt step_bind].
  rewrite keccak256_hex by done. cbn [call mbind outcome_bind step_bind].
  split.
  { intros Hne. by rewrite (proj2 (str_eqb_false _ _)) by done. }
  intros ->. rewrite str_eqb_refl. split.
  { by intros [e ->]. }
  intros terms ->. cbn [attempt step_bind fst snd]. unfold authenticate. split.
  { by intros [e ->]. }
  intros iss ->. cbn [attempt step_bind]. rewrite skew_abs, Z.gtb_ltb.
  unfold CALLER_AUTH_WINDOW_SECONDS. split.
  { intros Hgt. by rewrite (proj2 (Z.ltb_lt _ _)) by lia. }
  intros ch st raw Hle -> ->. rewrite (proj2 (Z.ltb_ge _ _)) by lia.
  cbn [negb mbind outcome_bind]. intros ->. cbn [mbind outcome_bind]. split.
  { by intros [e ->]. }
  intros caller -> Hn. cbn [attempt step_bind]. by rewrite bool_decide_eq_false_2.
Qed.

(** an honest request is granted, and what it gets is spendable: when terms
    are sealed to the enclave's key, committed to, and a permitted party signs a
    fresh challenge for the stream, [authorize] answers with status 1; the answer
    parses to the accrual of the terms now and a deadline 600 seconds ahead, and
    [ecrecover] finds the enclave's account in its signature of exactly the words
    the vault hashes. *)
Theorem authorize_grants_party `{JsEngine, EvmLaws, Viem, !ViemLaws, Ecies, !EciesLaws}
    env tag msg n req t tee ch st : honest env tag msg req t tee ch st →
  ∃ data bs sg, authorize env tag msg n = (Ret (Some data, 1, None), num_incr n) ∧
    hexStringToBytes data = Ret bs ∧
    JSON_parse (utf8_decode bs) = Ret (authorization req t (now_sec env) sg) ∧
    signed_by tee [hex_value tag; ch; hex_value (vault req); st;
      be_value (keccak (abi_encode (terms_words t))); accruedAt t (now_sec env); now_sec env + 600] sg.
Proof.
  intros Hh. destruct (honest_granted _ _ _ _ _ _ _ _ Hh) as (sg & Hsteps & Hsg).
  pose proof Hsteps as Hg. apply authorize_steps_inr in Hg as (req' & p' & tm & Hreq' & Hg).
  pose proof (granted_response_ok _ _ _ _ _ _ _ (h_tag _ _ _ _ _ _ _ _ Hh) (h_env _ _ _ _ _ _ _ _ Hh) Hreq' Hg) as Hok.
  eexists _, _, sg. split; [unfold authorize; by rewrite Hsteps|].
  split; [by apply json_to_hex_bytes|]. split; [by apply JSON_utf8_roundtrip|]. done.
Qed.

(** C26: a request is an object with exactly the seven fields, all of them strings:
    a payload that parses to an object is accepted if and only if that holds, and
    when it has other fields, the error names the least of them in code-unit order. *)
Theorem decode_request_strict `{JsEngine} msg raw kvs :
  hexToBytes (Some msg) = Ret raw → JSON_parse (utf8_decode raw) = Ret (JObj kvs) →
  (decode_request msg = Ret (inr (request_of kvs)) ↔
     (∀ k, k ∈ object_keys kvs → k ∈ REQUIRED_FIELDS) ∧
     (∀ f, f ∈ REQUIRED_FIELDS → ∃ s, lookup_prop f kvs = Some (JStr s))) ∧
  (∀ k, k ∈ object_keys kvs → k ∉ REQUIRED_FIELDS →
     ∃ u, u ∈ object_keys kvs ∧ u ∉ REQUIRED_FIELDS ∧
       (∀ k', k' ∈ object_keys kvs → k' ∉ REQUIRED_FIELDS → str_le u k' ∨ k' = u) ∧
       decode_request msg =
         Ret (inl (refuse (js "decoding request: unknown field " ++ [34] ++ u ++ [34])))).
Proof.
  intros Hraw Hp. split.
  - rewrite decode_request_inr. split; [|intros [? ?]; by exists raw, kvs].
    intros (raw' & kvs' & Hr' & Hp' & Hk & Hf & _). rewrite Hraw in Hr'. injection Hr' as <-.
    rewrite Hp in Hp'. injection Hp' as <-. done.
  - intros k Hk Hn. destruct (unknown_fields REQUIRED_FIELDS kvs) as [|u l] eqn:Eu.
    { rewrite unknown_fields_nil in Eu. by destruct Hn; apply Eu. }
    destruct (unknown_fields_least _ _ _ _ Eu) as (Hu & Hun & Hleast).
    exists u. split_and!; try done. unfold decode_request, decode_body. rewrite Hraw.
    cbn [call mbind outcome_bind step_bind]. rewrite Hp.
    cbn [call mbind outcome_bind step_bind]. by rewrite Eu.
Qed.

(** ** A concrete session

    The demo terms, sealed to a key of the concrete instance; the recipient's and
    an outsider's requests. *)

#[local] Existing Instance plain_engine.

Definition ret_or {A} (d : A) (o : outcome A) : A := match o with Ret a => a | Throw _ => d end.

(** The account with address [a]. *)
Definition demo_account (a : Z) : @account toy_viem := a.

Definition demo_key : jsstr := js "0xaa".
Definition demo_signer : jsstr :=
  js "0x00000000000000000000000000000000000000000000000000000000000000ee".
Definition demo_env : Env :=
  {| TEE_ECIES_PRIVKEY := Some demo_key; TEE_SIGNER_PRIVKEY := Some demo_signer; now_ms := 1500000 |}.
Definition demo_vault : jsstr := js "0x00000000000000000000000000000000000000aa".
Definition demo_plain : bytes := abi_encode (terms_words demo_terms).
Definition demo_opened : StreamTerms := canonical demo_terms.
Definition demo_cipher : bytes := ret_or [] (encrypt (ecies_public demo_key) [] demo_plain).
Definition demo_commitment : jsstr := ret_or [] (commitTo demo_terms).
Definition demo_params (tag : jsstr) : ChallengeParams :=
  {| cp_chainId := 114; cp_vault := demo_vault; cp_streamId := 1; cp_commitment := demo_commitment;
     cp_purpose := tag; cp_issuedAt := 1400 |}.
Definition demo_raw (tag : jsstr) : jsstr := ret_or [] (buildCallerChallenge (demo_params tag)).

(** The request of the account [a] of the concrete instance. *)
Definition demo_request (a : Z) (tag : jsstr) : AuthRequest := {|
  streamId := js "1"; vault := demo_vault; chainId := js "114"; commitment := demo_commitment;
  encryptedTerms := bytesToHex demo_cipher; issuedAt := js "1400";
  callerSignature := ret_or [] (signMessage (demo_account a) (demo_raw tag)) |}.
Definition demo_msg (a : Z) (tag : jsstr) : json := payload (JObj (request_fields (demo_request a tag))).

Lemma demo_env_ok : env_ok demo_env.
Proof. split; [cbn; lia|]. intros k [= <-]. by eexists. Qed.

Lemma authorize_only_parties_witness :
  ∃ data err n', authorize demo_env WITHDRAW_TAG (demo_msg 226 WITHDRAW_TAG) 0 = (Ret (data, 1, err), n') ∧
    ∃ req p terms params raw caller,
      decode_request (demo_msg 226 WITHDRAW_TAG) = Ret (inr req) ∧
      to_lower (commitment req) = bytesToHex (keccak p) ∧ decodeTerms (bytesToHex p) = Ret terms ∧
      cp_purpose params = WITHDRAW_TAG ∧ cp_commitment params = commitment req ∧
      Z.abs (cp_issuedAt params - now_sec demo_env) ≤ 300 ∧
      buildCallerChallenge params = Ret raw ∧
      recoverMessageAddress raw (callerSignature req) = Ret caller ∧
      (hex_value caller = hex_value (employer terms) ∨
       (WITHDRAW_TAG ≠ SETTLE_TAG ∧ hex_value caller = hex_value (recipient terms))).
Proof.
  assert (∃ data err n',
    authorize demo_env WITHDRAW_TAG (demo_msg 226 WITHDRAW_TAG) 0 = (Ret (data, 1, err), n'))
    as (data & err & n' & E).
  { do 3 eexists. vm_compute. reflexivity. }
  exists data, err, n'. split; [exact E|]. exact (authorize_only_parties _ _ _ _ _ _ _ E).
Defined.

Lemma authorize_total_witness :
  (∃ m, authorize demo_env WITHDRAW_TAG (demo_msg 7 WITHDRAW_TAG) 0 = (Ret (None, 0, Some m), 0)) ∨
  (∃ d, authorize demo_env WITHDRAW_TAG (demo_msg 7 WITHDRAW_TAG) 0 = (Ret (Some d, 1, None), num_incr 0)).
Proof. apply authorize_total; [by left|exact demo_env_ok]. Defined.

Lemma demo_request_units a tag : request_units (demo_request a tag) →
  decode_request (demo_msg a tag) = Ret (inr (demo_request a tag)).
Proof. apply decode_request_fields. Qed.

(** Evaluate a bounded check on a concrete string. *)
Lemma units_check s : forallb (λ c, bool_decide (is_unit c)) s = true → is_units s.
Proof.
  rewrite forallb_Forall. intros Hs. eapply Forall_impl; [exact Hs|].
  intros c. by rewrite bool_decide_eq_true.
Qed.

Lemma demo_units a tag :
  forallb (λ c, bool_decide (is_unit c)) (callerSignature (demo_request a tag)) = true →
  request_units (demo_request a tag).
Proof.
  intros Hs. repeat (split; [apply units_check; vm_compute; reflexivity|]). by apply units_check.
Qed.

(** An outsider, account 7, is refused. *)
Lemma authorize_refusals_witness :
  authorize demo_env WITHDRAW_TAG (demo_msg 7 WITHDRAW_TAG) 3 =
    (Ret (refuse (js "caller is not a party to this stream")), 3).
Proof.
  destruct (authorize_refusals demo_env WITHDRAW_TAG (demo_msg 7 WITHDRAW_TAG) 3
    (demo_request 7 WITHDRAW_TAG) demo_key demo_signer demo_cipher demo_plain) as [_ H].
  - apply demo_request_units, demo_units. vm_compute. reflexivity.
  - reflexivity.
  - reflexivity.
  - vm_compute. reflexivity.
  - vm_compute. reflexivity.
  - destruct (H ltac:(vm_compute; reflexivity)) as [_ H1].
    destruct (H1 demo_opened ltac:(vm_compute; reflexivity)) as [_ H2].
    destruct (H2 1400 ltac:(vm_compute; reflexivity)) as [_ H3].
    destruct (H3 114 1 (demo_raw WITHDRAW_TAG) ltac:(vm_compute; discriminate)
      ltac:(vm_compute; reflexivity) ltac:(vm_compute; reflexivity)
      ltac:(vm_compute; reflexivity)) as [_ H4].
    apply (H4 (address_hex 7)).
    + vm_compute. reflexivity.
    + apply (bool_decide_eq_false_1 _). vm_compute. reflexivity.
Defined.

(** The request of the recipient, account 226. *)
Lemma demo_honest : honest demo_env WITHDRAW_TAG (demo_msg 226 WITHDRAW_TAG)
  (demo_request 226 WITHDRAW_TAG) demo_terms (demo_account 238) 114 1.
Proof.
  split.
  - left. reflexivity.
  - exact demo_env_ok.
  - exact demo_terms_ok.
  - exists demo_key, demo_signer, [], demo_cipher. split; [reflexivity|]. split; [reflexivity|].
    split; [vm_compute; reflexivity|]. split; [vm_compute; reflexivity|reflexivity].
  - apply demo_request_units, demo_units. vm_compute. reflexivity.
  - vm_compute. reflexivity.
  - split; [vm_compute; reflexivity|lia].
  - split; [vm_compute; reflexivity|lia].
  - reflexivity.
  - exists (demo_account 226), 1400, (demo_raw WITHDRAW_TAG). split; [vm_compute; reflexivity|].
    split; [lia|]. split; [vm_compute; discriminate|]. split; [vm_compute; reflexivity|].
    split; [vm_compute; reflexivity|]. right. split; [|vm_compute; reflexivity].
    apply (bool_decide_eq_false_1 _). vm_compute. reflexivity.
Qed.

(** It is granted a withdrawal of what accrued in 500 seconds. *)
Lemma authorize_grants_party_witness :
  ∃ data bs sg, authorize demo_env WITHDRAW_TAG (demo_msg 226 WITHDRAW_TAG) 3 =
      (Ret (Some data, 1, None), 4) ∧
    hexStringToBytes data = Ret bs ∧
    get (ret_or JNull (JSON_parse (utf8_decode bs))) (js "cumulativeAccrued") = Some (JStr (js "57870")) ∧
    signed_by (demo_account 238)
      [hex_value WITHDRAW_TAG; 114; 170; 1; be_value (keccak demo_plain); 57870; 2100] sg.
Proof.
  destruct (authorize_grants_party demo_env WITHDRAW_TAG (demo_msg 226 WITHDRAW_TAG) 3
    (demo_request 226 WITHDRAW_TAG) demo_terms (demo_account 238) 114 1 demo_honest)
    as (data & bs & sg & H1 & H2 & H3 & H4).
  exists data, bs, sg. split; [exact H1|]. split; [exact H2|].
  rewrite H3. split; [vm_compute; reflexivity|exact H4].
Defined.

Lemma decode_request_strict_witness :
  let kvs := [(js "zeta", JNull); (js "alpha", JNull)] in
  decode_request (payload (JObj kvs)) =
    Ret (inl (refuse (js "decoding request: unknown field " ++ [34] ++ js "alpha" ++ [34]))).
Proof.
  intros kvs.
  destruct (decode_request_strict (payload (JObj kvs)) (utf8_encode (JSON_stringify (JObj kvs))) kvs)
    as [_ H].
  - vm_compute. reflexivity.
  - vm_compute. reflexivity.
  - destruct (H (js "alpha")) as (u & Hu & _ & Hleast & E).
    + right. left.
    + apply (bool_decide_eq_false_1 _). vm_compute. reflexivity.
    + assert (u = js "alpha") as ->; [|exact E].
      cbn in Hu. rewrite !elem_of_cons in Hu. destruct Hu as [->|[->|Hu]]; [|done|by apply not_elem_of_nil in Hu].
      exfalso. destruct (Hleast (js "alpha")) as [Hl|Hl].
      * right. left.
      * apply (bool_decide_eq_false_1 _). vm_compute. reflexivity.
      * vm_compute in Hl. discriminate.
      * discriminate.
Defined.
