(* ===== verification/Handlers.v ===== *)
(** * The application's handlers ([typescript/src/app/handlers.ts], [abi.ts], [config.ts])

    The module-level state ([AppState], with the counter of the stream handlers),
    the greeting handlers, the registration of every operation and the state
    report.  A handler takes what it reads from its environment, the
    [originalMessage] of the request and the state. *)

From S2P Require Import Prelude JsString JsNumber Utf8 Json JsonFacts Encoding Wire Framework Abi Instances Protocol StreamHandlers StreamProps.
#[local] Open Scope step_scope.

Definition VERSION : jsstr := js "0.1.0".
Definition OP_TYPE_GREETING : jsstr := js "GREETING".
Definition OP_COMMAND_SAY_HELLO : jsstr := js "SAY_HELLO".
Definition OP_COMMAND_SAY_GOODBYE : jsstr := js "SAY_GOODBYE".

Record AppState := {
  greetingCount : Z;
  lastGreeting : jsstr;
  farewellCount : Z;
  lastFarewell : jsstr;
  authCount : Z;
}.

Definition init_state : AppState :=
  {| greetingCount := 0; lastGreeting := []; farewellCount := 0; lastFarewell := []; authCount := 0 |}.

Definition HandlerFunc : Type := Env → json → AppState → outcome HandlerResult * AppState.

(** [resetState()]; it leaves the counter of the stream handlers alone. *)
Definition resetState (s : AppState) : AppState :=
  {| greetingCount := 0; lastGreeting := []; farewellCount := 0; lastFarewell := [];
     authCount := authCount s |}.

Definition reportState (s : AppState) : json :=
  JObj ([(js "greetingCount", JNum (num_of_Z (greetingCount s)));
         (js "lastGreeting", JStr (lastGreeting s));
         (js "farewellCount", JNum (num_of_Z (farewellCount s)));
         (js "lastFarewell", JStr (lastFarewell s))]
        ++ reportStreamState (authCount s)).

(** [[bytesToHex(Buffer.from(JSON.stringify(resp), "utf-8")), 1, null]]. *)
Definition succeed (resp : json) : HandlerResult := (Some (json_to_hex resp), 1, None).

(** [try { m } catch (e) { return [null, 0, message(e)] }]. *)
Definition catching {A} (m : outcome A) (message : js_error → jsstr) : step A :=
  match m with Ret a => Ret (inr a) | Throw e => Ret (inl (refuse (message e))) end.

(** ** SAY_HELLO *)

(** Steps 1 and 2: the name to greet. *)
Definition decode_hello `{JsEngine} (msg : json) : step jsstr :=
  let! raw := catching (hexToBytes (Some msg))
    (λ e, js "decoding request: invalid hex: " ++ err_to_string e) in
  let! req := catching (JSON_parse (utf8_decode raw))
    (λ e, js "decoding request: " ++ err_to_string e) in
  match req with
  | JObj kvs =>
      match unknown_fields [js "name"] kvs with
      | k :: _ => Ret (inl (refuse (js "decoding request: unknown field " ++ [34] ++ k ++ [34])))
      | [] =>
          match string_field kvs (js "name") with
          | None | Some [] => Ret (inl (refuse (js "name must not be empty")))
          | Some name => Ret (inr name)
          end
      end
  | _ => Ret (inl (refuse (js "decoding request: expected a JSON object")))
  end.

Definition greet (name : jsstr) : jsstr :=
  js "Hello, " ++ name ++ js "! Welcome to Flare Confidential Compute.".

Definition handleSayHello `{JsEngine} (env : Env) (msg : json) (s : AppState) :
    outcome HandlerResult * AppState :=
  match decode_hello msg with
  | Throw e => (Throw e, s)
  | Ret (inl r) => (Ret r, s)
  | Ret (inr name) =>
      let n := num_incr (greetingCount s) in
      let greeting := greet name in
      (Ret (succeed (JObj [(js "greeting", JStr greeting); (js "greetingNumber", JNum (num_of_Z n))])),
       {| greetingCount := n; lastGreeting := greeting; farewellCount := farewellCount s;
          lastFarewell := lastFarewell s; authCount := authCount s |})
  end.

(** ** SAY_GOODBYE *)

Definition SAY_GOODBYE_PARAMS : list abi_type := [TTuple [TString; TString]].

Definition decodeSayGoodbye `{Viem} (data : jsstr) : outcome (jsstr * jsstr) :=
  match (vs ← decodeAbiParameters SAY_GOODBYE_PARAMS data;
         match vs with
         | [ATuple [AStr name; AStr reason]] => Ret (name, reason)
         | _ => Throw (TypeError (js "not the decoded message"))
         end) with
  | Ret d => Ret d
  | Throw e => Throw (PlainError (js "ABI decode failed: " ++ err_message e))
  end.

Definition decode_goodbye `{Viem} (msg : json) : step (jsstr * jsstr) :=
  let! hex := catching (bytesToHex <$> hexToBytes (Some msg))
    (λ e, js "decoding request: invalid hex: " ++ err_to_string e) in
  let! decoded := catching (decodeSayGoodbye hex)
    (λ e, js "decoding request: " ++ err_message e) in
  guard! negb (bool_decide (decoded.1 = [])) else refuse (js "name must not be empty") in
  Ret (inr decoded).

Definition bid_farewell (name reason : jsstr) : jsstr :=
  js "Goodbye, " ++ name ++ js "! Reason: " ++ reason.

Definition handleSayGoodbye `{Viem} (env : Env) (msg : json) (s : AppState) :
    outcome HandlerResult * AppState :=
  match decode_goodbye msg with
  | Throw e => (Throw e, s)
  | Ret (inl r) => (Ret r, s)
  | Ret (inr (name, reason)) =>
      let n := num_incr (farewellCount s) in
      let farewell := bid_farewell name reason in
      (Ret (succeed (JObj [(js "farewell", JStr farewell); (js "farewellNumber", JNum (num_of_Z n))])),
       {| greetingCount := greetingCount s; lastGreeting := lastGreeting s; farewellCount := n;
          lastFarewell := farewell; authCount := authCount s |})
  end.

(** ** Registration *)

(** A stream handler works on the counter alone. *)
Definition on_authCount (h : Env → json → Z → outcome HandlerResult * Z) : HandlerFunc :=
  λ env msg s,
    let '(r, n) := h env msg (authCount s) in
    (r, {| greetingCount := greetingCount s; lastGreeting := lastGreeting s;
           farewellCount := farewellCount s; lastFarewell := lastFarewell s; authCount := n |}).

Definition register `{JsEngine, Viem, Ecies} (fw : framework HandlerFunc) :
    outcome (framework HandlerFunc) :=
  fw ← handle fw OP_TYPE_GREETING OP_COMMAND_SAY_HELLO handleSayHello;
  fw ← handle fw OP_TYPE_GREETING OP_COMMAND_SAY_GOODBYE handleSayGoodbye;
  registerStreamHandlers on_authCount fw.

(** ** Lemmas *)

Section handlers.
Context `{JsEngine, Viem, Ecies}.

(** The operations in the order of registration. *)
Definition operations : list (jsstr * jsstr * HandlerFunc) := [
  (OP_TYPE_GREETING, OP_COMMAND_SAY_HELLO, handleSayHello);
  (OP_TYPE_GREETING, OP_COMMAND_SAY_GOODBYE, handleSayGoodbye);
  (OP_TYPE_STREAM, OP_COMMAND_AUTH_WITHDRAW, on_authCount (λ env msg, authorize env WITHDRAW_TAG msg));
  (OP_TYPE_STREAM, OP_COMMAND_AUTH_SETTLE, on_authCount (λ env msg, authorize env SETTLE_TAG msg))].

Lemma register_operations : register [] = register_all [] operations.
Proof. reflexivity. Qed.

Lemma operations_identifiers : Forall (λ r, identifier r.1.1 ∧ identifier r.1.2) operations.
Proof.
  repeat (apply List.Forall_cons; [split; apply identifier_ascii; reflexivity|]).
  apply List.Forall_nil.
Qed.

Lemma find_operation t c : (t, c) ∉ operations.*1 → find_entry operations t c = None.
Proof.
  generalize operations. intros ops. induction ops as [|[[t' c'] h] ops IH]; [done|].
  cbn. rewrite not_elem_of_cons. intros [Hne Hin]. rewrite decide_False; [by apply IH|].
  intros [-> ->]. by destruct Hne.
Qed.

Lemma dispatch_operation t c : (t, c) ∉ operations.*1 → dispatch_spec operations t c = None.
Proof.
  intros Hn. unfold dispatch_spec. rewrite find_operation by done. apply find_operation.
  apply (bool_decide_eq_false_1 _). cbn [operations fmap list_fmap fst].
  apply bool_decide_eq_false. unfold OP_TYPE_GREETING, OP_TYPE_STREAM.
  rewrite !not_elem_of_cons. split_and!; try (intros [= _ ?]; discriminate). apply not_elem_of_nil.
Qed.
End handlers.

(** ** Greetings *)

(** The payload [{"name": name}] with a non-empty name and nothing else. *)
Definition hello_request `{JsEngine} (msg : json) (name : jsstr) : Prop :=
  ∃ raw kvs, hexToBytes (Some msg) = Ret raw ∧ JSON_parse (utf8_decode raw) = Ret (JObj kvs) ∧
    (∀ k, k ∈ object_keys kvs → k = js "name") ∧
    lookup_prop (js "name") kvs = Some (JStr name) ∧ name ≠ [].

Lemma catching_inr {A} (m : outcome A) g a : catching m g = Ret (inr a) ↔ m = Ret a.
Proof. destruct m; cbn; naive_solver. Qed.

Lemma catching_no_throw {A} (m : outcome A) g e : catching m g ≠ Throw e.
Proof. by destruct m. Qed.

Lemma refusing_catching {A} (m : outcome A) g : refusing (catching m g).
Proof. unfold refusing. destruct m; cbn; naive_solver. Qed.
#[export] Hint Resolve refusing_catching : refusing.

Lemma decode_hello_inr `{JsEngine} msg name :
  decode_hello msg = Ret (inr name) ↔ hello_request msg name.
Proof.
  unfold decode_hello, hello_request. rewrite step_bind_inr. setoid_rewrite catching_inr.
  setoid_rewrite step_bind_inr. setoid_rewrite catching_inr. split.
  - intros (raw & Hraw & v & Hv & E). destruct v as [| | | | |kvs]; try done.
    destruct (unknown_fields _ _) eqn:Eu; [|done]. rewrite unknown_fields_nil in Eu.
    unfold string_field in E.
    destruct (lookup_prop _ kvs) as [[| | |[|c n]| |]|] eqn:El; try done. injection E as <-.
    exists raw, kvs. split_and!; try done. intros k Hk. apply Eu in Hk.
    by apply list_elem_of_singleton in Hk.
  - intros (raw & kvs & Hraw & Hv & Hk & Hl & Hne).
    exists raw. split; [done|]. exists (JObj kvs). split; [done|].
    rewrite (proj2 (unknown_fields_nil _ _)) by (intros; apply list_elem_of_singleton; auto).
    unfold string_field. rewrite Hl. by destruct name.
Qed.

Lemma decode_hello_answers `{JsEngine} msg :
  (∃ name, decode_hello msg = Ret (inr name)) ∨ (∃ m, decode_hello msg = Ret (inl (refuse m))).
Proof.
  assert (refusing (decode_hello msg)) as Hr.
  { unfold decode_hello. apply refusing_bind; [apply refusing_catching|]. intros raw.
    apply refusing_bind; [apply refusing_catching|]. intros v.
    destruct v; repeat case_match; auto with refusing. }
  destruct (decode_hello msg) as [[r|n]|e] eqn:E.
  - right. destruct (Hr r eq_refl) as [m ->]. by exists m.
  - left. by exists n.
  - exfalso. revert E. unfold decode_hello. rewrite step_bind_throw.
    intros [E|(raw & _ & E)]; [by eapply catching_no_throw|].
    apply step_bind_throw in E as [E|(v & _ & E)]; [by eapply catching_no_throw|].
    destruct v; try done. by repeat case_match.
Qed.

Lemma hello_units `{JsEngine} msg name : hello_request msg name → is_units name.
Proof.
  intros (raw & kvs & Hraw & Hp & _ & Hl & _).
  apply JSON_parse_units in Hp; [by eapply lookup_prop_units|].
  apply utf8_decode_units. by eapply hexToBytes_bytes.
Qed.

(** ** The state invariant *)

Abbreviation counter n := (0 ≤ n ≤ 2 ^ 53).

(** Counters are exact integers, texts are strings of code units. *)
Definition state_ok (s : AppState) : Prop :=
  counter (greetingCount s) ∧ counter (farewellCount s) ∧ counter (authCount s) ∧
  is_units (lastGreeting s) ∧ is_units (lastFarewell s).

Lemma counter_ok n : counter n → safe_num (num_of_Z n) = true.
Proof. intros. apply safe_num_of_Z. lia. Qed.

Lemma reportState_json_ok s : state_ok s → json_ok (reportState s) = true.
Proof.
  intros (H1 & H2 & H3 & H4 & H5). unfold reportState, reportStreamState.
  cbn [json_ok app forallb fst snd]. rewrite !counter_ok by done.
  rewrite (bool_decide_eq_true_2 (is_units (lastGreeting s))) by done.
  by rewrite (bool_decide_eq_true_2 (is_units (lastFarewell s))) by done.
Qed.

(** An object of a text and a counter. *)
Lemma text_count_ok k1 s k2 n :
  is_units s → counter n → json_ok (JObj [(k1, JStr []); (k2, JNull)]) = true →
  json_ok (JObj [(k1, JStr s); (k2, JNum (num_of_Z n))]) = true.
Proof.
  intros Hs Hn. cbn [json_ok forallb fst snd fmap list_fmap]. rewrite counter_ok by done.
  by rewrite !(bool_decide_eq_true_2 (is_units s)) by done.
Qed.

Lemma greet_units name : is_units name → is_units (greet name).
Proof. intros. unfold greet. rewrite !Forall_app. auto with sw. Qed.

Lemma farewell_units name reason : is_units name → is_units reason →
  is_units (bid_farewell name reason).
Proof. intros. unfold bid_farewell. rewrite !Forall_app. auto with sw. Qed.

Lemma incr_counter n : counter n → counter (num_incr n).
Proof. intros Hn. pose proof (num_incr_bounds n Hn). lia. Qed.

(** The wire form of a response, decoded by a client. *)
Definition response_is `{JsEngine} (data : jsstr) (v : json) : Prop :=
  ∃ bs, hexStringToBytes data = Ret bs ∧ JSON_parse (utf8_decode bs) = Ret v.

Lemma json_response `{JsEngine} v : json_ok v = true → response_is (json_to_hex v) v.
Proof.
  intros Hok. eexists. split; [by apply json_to_hex_bytes|]. by apply JSON_utf8_roundtrip.
Qed.

(** The message [abi.encode((name, reason))] with a non-empty name. *)
Definition goodbye_request `{Viem} (msg : json) (name reason : jsstr) : Prop :=
  ∃ raw, hexToBytes (Some msg) = Ret raw ∧
    decodeAbiParameters SAY_GOODBYE_PARAMS (bytesToHex raw) = Ret [ATuple [AStr name; AStr reason]] ∧
    name ≠ [].

Section goodbye.
Context `{JsEngine, EvmLaws, Viem, !ViemLaws}.

Lemma decodeSayGoodbye_Ret d name reason : decodeSayGoodbye d = Ret (name, reason) ↔
  decodeAbiParameters SAY_GOODBYE_PARAMS d = Ret [ATuple [AStr name; AStr reason]].
Proof.
  unfold decodeSayGoodbye. destruct (decodeAbiParameters _ d) as [vs|e] eqn:E; [|done].
  cbn. split; [|by intros [= ->]].
  destruct vs as [|[| | | |[|[| | |n|] [|[| | |r|] []]]] []]; try done. by intros [= -> ->].
Qed.

Lemma decode_goodbye_inr msg name reason :
  decode_goodbye msg = Ret (inr (name, reason)) ↔ goodbye_request msg name reason.
Proof.
  unfold decode_goodbye, goodbye_request. rewrite step_bind_inr. setoid_rewrite catching_inr.
  setoid_rewrite step_bind_inr. setoid_rewrite catching_inr. setoid_rewrite guard_inr. split.
  - intros (h & Hh & [n r] & Hd & Hg & [= <- <-]).
    destruct (hexToBytes (Some msg)) as [raw|]; [|done]. injection Hh as <-.
    apply decodeSayGoodbye_Ret in Hd. exists raw. split; [done|]. split; [done|].
    by apply negb_true_iff, bool_decide_eq_false in Hg.
  - intros (raw & Hraw & Hd & Hne). exists (bytesToHex raw). rewrite Hraw. split; [done|].
    exists (name, reason). split; [by apply decodeSayGoodbye_Ret|].
    cbn. by rewrite bool_decide_eq_false_2.
Qed.

Lemma goodbye_units msg name reason : goodbye_request msg name reason →
  is_units name ∧ is_units reason.
Proof.
  intros (raw & _ & Hd & _). apply decode_typed in Hd.
  apply Forall2_cons_1 in Hd as [Hd _]. inversion Hd as [| | | | |ts vs Hvs]; subst.
  apply Forall2_cons_1 in Hvs as [Hn Hvs]. apply Forall2_cons_1 in Hvs as [Hr _].
  by inversion Hn; inversion Hr.
Qed.

Lemma decode_goodbye_answers msg :
  (∃ name reason, decode_goodbye msg = Ret (inr (name, reason))) ∨
  (∃ m, decode_goodbye msg = Ret (inl (refuse m))).
Proof.
  assert (refusing (decode_goodbye msg)) as Hr.
  { unfold decode_goodbye. repeat first [apply refusing_bind; intros | apply refusing_guard];
      auto with refusing. }
  destruct (decode_goodbye msg) as [[r|[n r]]|e] eqn:E.
  - right. destruct (Hr r eq_refl) as [m ->]. by exists m.
  - left. by exists n, r.
  - exfalso. revert E. unfold decode_goodbye. rewrite step_bind_throw.
    intros [E|(raw & _ & E)]; [by eapply catching_no_throw|].
    apply step_bind_throw in E as [E|(v & _ & E)]; [by eapply catching_no_throw|].
    by destruct (negb _).
Qed.
End goodbye.

(** ** Properties *)

(** SAY_HELLO greets exactly the payloads [{"name": n}] with a non-empty string
    and no other field: the count goes up by one, the last greeting is the one
    returned, and the answer parses to both; any other payload is answered with an
    error and leaves the state alone.  The handler never throws. *)
Theorem handleSayHello_correct `{JsEngine} env msg s : state_ok s →
  (∀ name, hello_request msg name →
    ∃ data, handleSayHello env msg s =
        (Ret (Some data, 1, None),
         {| greetingCount := num_incr (greetingCount s); lastGreeting := greet name;
            farewellCount := farewellCount s; lastFarewell := lastFarewell s;
            authCount := authCount s |}) ∧
      response_is data (JObj [(js "greeting", JStr (greet name));
        (js "greetingNumber", JNum (num_of_Z (num_incr (greetingCount s))))])) ∧
  ((∀ name, ¬ hello_request msg name) →
    ∃ m, handleSayHello env msg s = (Ret (refuse m), s)).
Proof.
  intros (Hc & _). split.
  - intros name Hn. pose proof (hello_units _ _ Hn) as Hu.
    unfold handleSayHello. rewrite (proj2 (decode_hello_inr msg name) Hn).
    eexists. split; [reflexivity|]. apply json_response.
    apply text_count_ok; [by apply greet_units|by apply incr_counter|reflexivity].
  - intros Hn. unfold handleSayHello.
    destruct (decode_hello_answers msg) as [[name E]|[m ->]]; [|by exists m].
    by destruct (Hn name); apply decode_hello_inr.
Qed.

Lemma handleSayHello_correct_witness :
  let msg := payload (JObj [(js "name", JStr (js "Ada"))]) in
  ∃ data, (handleSayHello (H:=plain_engine) demo_env msg init_state).1 = Ret (Some data, 1, None).
Proof.
  intros msg.
  destruct (handleSayHello_correct (H:=plain_engine) demo_env msg init_state) as [H _].
  - repeat split; try (cbn; lia); constructor.
  - destruct (H (js "Ada")) as (data & E & _).
    + exists (utf8_encode (JSON_stringify (JObj [(js "name", JStr (js "Ada"))]))),
        [(js "name", JStr (js "Ada"))].
      split; [vm_compute; reflexivity|]. split; [vm_compute; reflexivity|].
      split; [|split; [reflexivity|discriminate]].
      intros k Hk. cbn in Hk. by apply list_elem_of_singleton in Hk.
    + exists data. by rewrite E.
Defined.

(** SAY_GOODBYE answers exactly the ABI encodings of a tuple of two strings with
    a non-empty first one; the farewell count and text follow, the answer parses
    to both, and any other payload is an error that leaves the state alone. *)
Theorem handleSayGoodbye_correct `{JsEngine, EvmLaws, Viem, !ViemLaws} env msg s : state_ok s →
  (∀ name reason, goodbye_request msg name reason →
    ∃ data, handleSayGoodbye env msg s =
        (Ret (Some data, 1, None),
         {| greetingCount := greetingCount s; lastGreeting := lastGreeting s;
            farewellCount := num_incr (farewellCount s); lastFarewell := bid_farewell name reason;
            authCount := authCount s |}) ∧
      response_is data (JObj [(js "farewell", JStr (bid_farewell name reason));
        (js "farewellNumber", JNum (num_of_Z (num_incr (farewellCount s))))])) ∧
  ((∀ name reason, ¬ goodbye_request msg name reason) →
    ∃ m, handleSayGoodbye env msg s = (Ret (refuse m), s)).
Proof.
  intros (_ & Hc & _). split.
  - intros name reason Hn. pose proof (goodbye_units _ _ _ Hn) as [Hu1 Hu2].
    unfold handleSayGoodbye. rewrite (proj2 (decode_goodbye_inr msg name reason) Hn).
    eexists. split; [reflexivity|]. apply json_response.
    apply text_count_ok; [by apply farewell_units|by apply incr_counter|reflexivity].
  - intros Hn. unfold handleSayGoodbye.
    destruct (decode_goodbye_answers msg) as [(name & reason & E)|[m ->]]; [|by exists m].
    by destruct (Hn name reason); apply decode_goodbye_inr.
Qed.

(** The words of [abi.encode((name, reason))] with one-word strings. *)
Definition demo_goodbye : bytes :=
  abi_encode [32; 64; 128; 3] ++ pad32 (js "Ada") ++ word 4 ++ pad32 (js "done").

Lemma handleSayGoodbye_correct_witness :
  ∃ data, (handleSayGoodbye demo_env (JStr (bytesToHex demo_goodbye)) init_state).1
    = Ret (Some data, 1, None).
Proof.
  destruct (handleSayGoodbye_correct (H:=plain_engine) demo_env (JStr (bytesToHex demo_goodbye)) init_state)
    as [H _].
  - repeat split; try (cbn; lia); constructor.
  - destruct (H (js "Ada") (js "done")) as (data & E & _).
    + exists demo_goodbye. split; [vm_compute; reflexivity|]. split; [vm_compute; reflexivity|discriminate].
    + exists data. by rewrite E.
Defined.

(** the registry maps exactly the four operations to their handlers: each
    pair of identifiers to its own one, the stream commands to the authorization
    under their own tag, and every other pair to none. *)
Theorem operations_registered `{JsEngine, Viem, Ecies} :
  ∃ fw, register [] = Ret fw ∧
  ∀ t c ht hc, identifier t → identifier c →
    stringToBytes32Hex t = Ret ht → stringToBytes32Hex c = Ret hc →
    let found := lookup fw (Some (JStr ht)) (Some (JStr hc)) in
    (t = js "GREETING" → c = js "SAY_HELLO" → found = Ret (Some handleSayHello)) ∧
    (t = js "GREETING" → c = js "SAY_GOODBYE" → found = Ret (Some handleSayGoodbye)) ∧
    (t = js "STREAM" → c = js "AUTH_WITHDRAW" →
      found = Ret (Some (on_authCount (λ env msg, authorize env WITHDRAW_TAG msg)))) ∧
    (t = js "STREAM" → c = js "AUTH_SETTLE" →
      found = Ret (Some (on_authCount (λ env msg, authorize env SETTLE_TAG msg)))) ∧
    ((t, c) ∉ operations.*1 → found = Ret None).
Proof.
  destruct (register []) as [fw|e] eqn:E; [|by cbn in E].
  exists fw. split; [done|]. intros t c ht hc It Ic Et Ec found.
  rewrite register_operations in E. unfold found.
  rewrite (lookup_refines_dispatch operations fw t c) by (done || apply operations_identifiers).
  split_and!; try (by intros -> ->). intros. by rewrite dispatch_operation.
Qed.

(** C34: every operation preserves the state invariant (counters are exact
    integers, texts are well-ranged), so the state report always parses back to
    itself after its trip through JSON and UTF-8. *)
Theorem operations_preserve_state `{JsEngine, EvmLaws, Viem, !ViemLaws, Ecies} op env msg s :
  op ∈ operations → state_ok s →
  state_ok (op.2 env msg s).2 ∧
  JSON_parse (utf8_decode (utf8_encode (JSON_stringify (reportState s)))) = Ret (reportState s).
Proof.
  intros Hop Hs. split; [|by apply JSON_utf8_roundtrip, reportState_json_ok].
  pose proof Hs as (H1' & H2' & H3' & H4' & H5').
  assert (∀ tag, state_ok ((on_authCount (λ env msg, authorize env tag msg)) env msg s).2) as Hauth.
  { intros tag. unfold on_authCount, authorize.
    destruct (authorize_steps env msg tag) as [[|]|]; try done.
    repeat (split; [done || by apply incr_counter|]). done. }
  unfold operations in Hop. rewrite !elem_of_cons in Hop.
  destruct Hop as [->|[->|[->|[->|Hop]]]]; [..|by apply not_elem_of_nil in Hop]; try apply Hauth.
  - cbn [snd]. unfold handleSayHello. destruct (decode_hello msg) as [[|name]|] eqn:E; try done.
    apply decode_hello_inr, hello_units in E. repeat (split; [done || by apply incr_counter|]).
    split; [by apply greet_units|done].
  - cbn [snd]. unfold handleSayGoodbye. destruct (decode_goodbye msg) as [[|[name reason]]|] eqn:E; try done.
    apply decode_goodbye_inr, goodbye_units in E as [E1 E2].
    repeat (split; [done || by apply incr_counter|]). by apply farewell_units.
Qed.

Lemma operations_preserve_state_witness :
  JSON_parse (H:=plain_engine) (utf8_decode (utf8_encode (JSON_stringify (reportState init_state))))
    = Ret (reportState init_state).
Proof.
  refine (proj2 (operations_preserve_state (H:=plain_engine)
    (OP_TYPE_GREETING, OP_COMMAND_SAY_HELLO, @handleSayHello plain_engine) demo_env JNull init_state _ _)).
  - left.
  - repeat split; try (cbn; lia); constructor.
Defined.
