(* ===== verification/Server.v ===== *)
(** * The extension server ([typescript/src/base/server.ts])

    Routing, the action and state endpoints and the transport, as functions of
    the request and of the application state.  [processAction] is split at the
    queue: [prepare_action] up to the handler's job, [finish_action] after it;
    Queue.v models the queue itself.

    [Throw] is a rejected promise: [serve] is called with [void], so nothing
    answers the client then. *)

From S2P Require Import Prelude JsString JsNumber Utf8 Json JsonFacts Encoding Wire Framework Abi Instances Protocol StreamHandlers StreamProps Handlers.
#[local] Open Scope step_scope.

(** ** The server object *)

Record Server := {
  version : jsstr;
  stateVersionHex : jsstr;
  server_framework : framework HandlerFunc;
  server_reportState : AppState → json;
}.

Definition new_Server (version : jsstr)
    (register : framework HandlerFunc → outcome (framework HandlerFunc))
    (reportState : AppState → json) : outcome Server :=
  hex ← stringToBytes32Hex version;
  fw ← register [];
  Ret {| version := version; stateVersionHex := hex; server_framework := fw;
         server_reportState := reportState |}.

(** [[status, payload]]: a text or a JSON value. *)
Inductive Payload : Type :=
| PText (s : jsstr)
| PJson (v : json).

Definition Response : Type := Z * Payload.

Definition bad_request (m : jsstr) : Response := (400, PJson (JObj [(js "error", JStr m)])).

(** ** POST /action *)

(** What is queued: the handler and its argument, and what the answer repeats. *)
Record Prepared := {
  p_data : json;
  p_df : json;
  p_handler : HandlerFunc;
  p_msg : json;
}.

(** [x ?? y]. *)
Definition nullish (x : option json) (y : json) : json :=
  match x with None | Some JNull => y | Some v => v end.

Definition is_object (v : json) : bool :=
  match v with JArr _ | JObj _ => true | _ => false end.

(** [v.k] when it is truthy and [v] is an object. *)
Definition object_get (v : json) (k : jsstr) : option json :=
  if truthy v && is_object v && truthy_opt (get v k) then get v k else None.

Definition prepare_action `{JsEngine} (srv : Server) (body : jsstr) : outcome (Response + Prepared) :=
  match JSON_parse body with
  | Throw e => Ret (inl (bad_request (js "invalid action JSON: " ++ err_to_string e)))
  | Ret action =>
      match object_get action (js "data") with
      | None => Ret (inl (bad_request (js "invalid action structure: missing data")))
      | Some data =>
          match hexToBytes (get data (js "message")) with
          | Throw e => Ret (inl (bad_request (js "invalid hex in message: " ++ err_to_string e)))
          | Ret msgBytes =>
              match JSON_parse (utf8_decode msgBytes) with
              | Throw e =>
                  Ret (inl (bad_request (js "invalid DataFixed JSON in message: " ++ err_to_string e)))
              | Ret df =>
                  match object_get df (js "opType") with
                  | None => Ret (inl (bad_request (js "invalid DataFixed: missing opType")))
                  | Some opType =>
                      h ← lookup (server_framework srv) (Some opType)
                            (Some (nullish (get df (js "opCommand")) (JStr [])));
                      match h with
                      | None => Ret (inl (501, PText (js "unsupported op type")))
                      | Some handler =>
                          Ret (inr {| p_data := data; p_df := df; p_handler := handler;
                            p_msg := nullish (get df (js "originalMessage")) (JStr (js "0x")) |})
                      end
                  end
              end
          end
      end
  end.

Definition action_log (status : Z) (err : option jsstr) : jsstr :=
  if status =? 0 then
    match err with
    | Some (c :: e) => js "error: " ++ c :: e
    | _ => js "error: unknown"
    end
  else if status =? 1 then js "ok"
  else js "pending".

(** The [ActionResult]; fields that are [undefined] do not reach the wire. *)
Definition action_result (srv : Server) (p : Prepared) (r : HandlerResult) : json :=
  let '(data, status, err) := r in
  obj_defined [
    (js "id", get (p_data p) (js "id"));
    (js "submissionTag", get (p_data p) (js "submissionTag"));
    (js "status", Some (JNum (num_of_Z status)));
    (js "log", Some (JStr (action_log status err)));
    (js "opType", get (p_df p) (js "opType"));
    (js "opCommand", get (p_df p) (js "opCommand"));
    (js "additionalResultStatus", Some (JStr (js "0x")));
    (js "version", Some (JStr (version srv)));
    (js "data", Some (JStr (default (js "0x") data)))].

(** The line that [console.log] prints. *)
Definition action_line (p : Prepared) (r : HandlerResult) : outcome jsstr :=
  id ← template (get (p_data p) (js "id"));
  Ret (js "action " ++ id ++ js ": opType=" ++ bytes32HexToString (get (p_df p) (js "opType"))
       ++ js " opCommand=" ++ bytes32HexToString (get (p_df p) (js "opCommand"))
       ++ js " status=" ++ num_to_string (num_of_Z r.1.2)).

Definition finish_action (srv : Server) (p : Prepared) (r : HandlerResult) : outcome Response :=
  line ← action_line p r;
  Ret (200, PJson (action_result srv p r)).

Definition processAction `{JsEngine} (srv : Server) (env : Env) (body : jsstr) (s : AppState) :
    outcome Response * AppState :=
  match prepare_action srv body with
  | Throw e => (Throw e, s)
  | Ret (inl resp) => (Ret resp, s)
  | Ret (inr p) =>
      let '(r, s') := p_handler p env (p_msg p) s in
      (r ≫= finish_action srv p, s')
  end.

(** ** GET /state *)

Definition processState (srv : Server) (s : AppState) : Response :=
  (200, PJson (JObj [(js "stateVersion", JStr (stateVersionHex srv));
                     (js "state", server_reportState srv s)])).

(** ** Routing *)

Definition clean_path (path : jsstr) : jsstr := default [] (head (split_on 63 path)).

Definition not_allowed : Response := (405, PText (js "method not allowed")).
Definition not_found : Response := (404, PText (js "not found")).

Definition handleRequest `{JsEngine} (srv : Server) (env : Env) (method path body : jsstr)
    (s : AppState) : outcome Response * AppState :=
  let clean := clean_path path in
  if str_eqb clean (js "/action") then
    if str_eqb method (js "POST") then processAction srv env body s
    else (Ret not_allowed, s)
  else if str_eqb clean (js "/state") then
    if str_eqb method (js "GET") then (Ret (processState srv s), s)
    else (Ret not_allowed, s)
  else (Ret not_found, s).

(** ** Transport *)

Record HttpResponse := {
  http_status : Z;
  http_headers : list (jsstr * jsstr);
  http_body : jsstr;
}.

(** An HTTP request: [body] is the chunks that arrive, [None] when reading fails. *)
Record HttpRequest := {
  http_method : option jsstr;
  http_url : option jsstr;
  http_chunks : option (list bytes);
}.

(** [EXTENSION_ALLOW_ORIGIN] is [origin]. *)
Definition corsHeaders (origin : option jsstr) : list (jsstr * jsstr) :=
  match env_truthy origin with
  | None => []
  | Some o => [
      (js "Access-Control-Allow-Origin", o);
      (js "Access-Control-Allow-Methods", js "GET, POST, OPTIONS");
      (js "Access-Control-Allow-Headers", js "Content-Type");
      (js "Access-Control-Max-Age", js "86400")]
  end.

Definition send (origin : option jsstr) (r : Response) : HttpResponse :=
  let '(body, mime) :=
    match r.2 with
    | PText t => (t, js "text/plain")
    | PJson v => (JSON_stringify v, js "application/json")
    end in
  {| http_status := r.1;
     http_headers := [(js "Content-Type", mime);
       (js "Content-Length", bigint_to_string (Z.of_nat (length (utf8_encode body))))]
       ++ corsHeaders origin;
     http_body := body |}.

Definition readBody (chunks : option (list bytes)) : option jsstr :=
  (λ cs, utf8_decode (mjoin cs)) <$> chunks.

Definition serve `{JsEngine} (srv : Server) (env : Env) (origin : option jsstr)
    (req : HttpRequest) (s : AppState) : outcome HttpResponse * AppState :=
  if bool_decide (http_method req = Some (js "OPTIONS")) then
    (Ret {| http_status := 204; http_headers := corsHeaders origin; http_body := [] |}, s)
  else
    match readBody (http_chunks req) with
    | None => (Ret (send origin (bad_request (js "failed to read body"))), s)
    | Some body =>
        let '(r, s') := handleRequest srv env (default [] (http_method req))
                          (default [] (http_url req)) body s in
        (send origin <$> r, s')
    end.

(** The program of [main.ts]: the server with the application's handlers. *)
Definition main_server `{JsEngine, Viem, Ecies} : outcome Server :=
  new_Server VERSION register reportState.

(** ** Lemmas *)

Lemma object_get_Some v k w : object_get v k = Some w ↔
  (∃ kvs, v = JObj kvs) ∧ get v k = Some w ∧ truthy w = true.
Proof.
  unfold object_get. split.
  - destruct v; cbn; try done; try by rewrite andb_false_r.
    destruct (lookup_prop k kvs) as [x|] eqn:E; cbn; [|done].
    destruct (truthy x) eqn:Et; [|done]. intros [= <-]. eauto.
  - intros ((kvs & ->) & Hg & Ht). cbn [truthy is_object andb]. rewrite Hg. cbn [truthy_opt].
    by rewrite Ht.
Qed.

Lemma clean_path_query p q : 63 ∉ p → clean_path (p ++ 63 :: q) = p ∧ clean_path p = p.
Proof.
  intros Hp. unfold clean_path. split; [by rewrite split_on_app|by rewrite split_on_none].
Qed.


(** Looking up a field of an object literal with defined and undefined fields. *)
Fixpoint field_of (k : jsstr) (kvs : list (jsstr * option json)) : option json :=
  match kvs with
  | (k', v) :: kvs' => if str_eqb k' k then v else field_of k kvs'
  | [] => None
  end.

Lemma lookup_absent k kvs : k ∉ kvs.*1 →
  lookup_prop k (omap (λ kv : jsstr * option json, (λ v, (kv.1, v)) <$> kv.2) kvs) = None.
Proof.
  induction kvs as [|[k' [v|]] kvs IH]; [done| |]; cbn; rewrite not_elem_of_cons; intros [Hk Hin].
  - rewrite (proj2 (str_eqb_false _ _)) by done. by apply IH.
  - by apply IH.
Qed.

Lemma get_obj_defined k kvs : NoDup kvs.*1 → get (obj_defined kvs) k = field_of k kvs.
Proof.
  unfold obj_defined, get. induction kvs as [|[k' v] kvs IH]; [done|].
  cbn. intros [Hk Hnd]%NoDup_cons. destruct (str_eqb k' k) eqn:E.
  - apply str_eqb_true in E. subst k'. destruct v; cbn; [by rewrite str_eqb_refl|].
    by apply lookup_absent.
  - destruct v; cbn; [rewrite E|]; by apply IH.
Qed.

Lemma normalize_Ret `{JsEngine} v : match v with Some (JStr _) => True | _ => truthy_opt v = false end →
  returns (normalize v).
Proof.
  unfold normalize. destruct (truthy_opt v) eqn:E; cbn; [|by eexists].
  destruct v as [[]|]; try discriminate; by eexists.
Qed.

Lemma find_handler_In {Hnd} (fw : framework Hnd) t c h :
  find_handler fw t c = Some h → ∃ e, e ∈ fw ∧ h = e.2.
Proof.
  induction fw as [|[[t' c'] h'] fw IH]; cbn; [done|].
  destruct (_ && _); [intros [= <-]; eexists; split; [left|done]|].
  intros (e & He & ->)%IH. exists e. split; [by right|done].
Qed.

Lemma lookup_In `{JsEngine} {Hnd} (fw : framework Hnd) t c h :
  lookup fw t c = Ret (Some h) → ∃ e, e ∈ fw ∧ h = e.2.
Proof.
  unfold lookup. intros E. inv_bind. destruct (find_handler fw _ _) eqn:Ef.
  - injection E as <-. by eapply find_handler_In.
  - injection E as E. by eapply find_handler_In.
Qed.

(** The server of [main.ts] and the handlers in its registry. *)
Lemma main_server_ok `{JsEngine, Viem, Ecies} srv : main_server = Ret srv →
  version srv = js "0.1.0" ∧ stringToBytes32Hex (js "0.1.0") = Ret (stateVersionHex srv) ∧
  register_all [] operations = Ret (server_framework srv) ∧
  server_reportState srv = reportState.
Proof.
  unfold main_server, new_Server. intros E. inv_bind. cbn.
  rewrite register_operations in *. done.
Qed.

Lemma main_handler `{JsEngine, Viem, Ecies} srv t c h : main_server = Ret srv →
  lookup (server_framework srv) t c = Ret (Some h) → ∃ op, op ∈ operations ∧ h = op.2.
Proof.
  intros (_ & _ & Hr & _)%main_server_ok (e & He & ->)%lookup_In.
  apply register_all_app in Hr as (es & Efw & Hes). rewrite Efw, app_nil_l in He.
  apply list_elem_of_lookup in He as (i & Hi).
  destruct (Forall2_lookup_l _ _ _ _ _ Hes Hi) as (r & Hr & _ & _ & E).
  exists r. split; [by eapply list_elem_of_lookup_2|done].
Qed.

Section answers.
Context `{JsEngine, EvmLaws, Viem, !ViemLaws, Ecies, !EciesLaws}.

Lemma operations_return op env msg s : op ∈ operations → env_ok env →
  returns (op.2 env msg s).1.
Proof.
  intros Hop Henv. unfold operations in Hop. rewrite !elem_of_cons in Hop.
  assert (∀ tag, op_tag tag →
    returns ((on_authCount (λ env msg, authorize env tag msg)) env msg s).1) as Hauth.
  { intros tag Ht. unfold on_authCount, authorize.
    pose proof (authorize_steps_no_throw env tag msg) as Hn.
    destruct (authorize_steps env msg tag) as [[|]|e]; [by eexists..|]. by destruct (Hn e). }
  destruct Hop as [->|[->|[->|[->|Hop]]]]; [..|by apply not_elem_of_nil in Hop].
  - cbn [snd]. unfold handleSayHello.
    destruct (decode_hello_answers msg) as [[n ->]|[m ->]]; by eexists.
  - cbn [snd]. unfold handleSayGoodbye.
    destruct (decode_goodbye_answers msg) as [(n & r & ->)|[m ->]]; by eexists.
  - apply Hauth. by left.
  - apply Hauth. by right.
Qed.

(** A body whose operation identifiers, if it gets that far, are strings or
    absent, and whose id has a string form. *)
Definition benign (body : jsstr) : Prop :=
  ∀ action data b df opType,
    JSON_parse body = Ret action → object_get action (js "data") = Some data →
    hexToBytes (get data (js "message")) = Ret b → JSON_parse (utf8_decode b) = Ret df →
    object_get df (js "opType") = Some opType →
    (∃ t, opType = JStr t) ∧ (∃ c, nullish (get df (js "opCommand")) (JStr []) = JStr c) ∧
    returns (template (get data (js "id"))).

Lemma prepare_action_benign srv body : benign body →
  (∃ status payload, prepare_action srv body = Ret (inl (status, payload)) ∧ status ∈ [400; 501]) ∨
  (∃ p t, prepare_action srv body = Ret (inr p) ∧ returns (template (get (p_data p) (js "id"))) ∧
    lookup (server_framework srv) (Some (JStr t))
      (Some (nullish (get (p_df p) (js "opCommand")) (JStr []))) = Ret (Some (p_handler p))).
Proof.
  intros Hb. unfold prepare_action.
  assert (∀ m, ∃ status payload, Ret (inl (bad_request m)) = Ret (inl (status, payload) : Response + Prepared)
    ∧ status ∈ [400; 501]) as Hbad by (intros; do 2 eexists; split; [done|left]).
  destruct (JSON_parse body) as [action|e] eqn:E1; [|by left].
  destruct (object_get action (js "data")) as [data|] eqn:E2; [|by left].
  destruct (hexToBytes (get data (js "message"))) as [b|e] eqn:E3; [|by left].
  destruct (JSON_parse (utf8_decode b)) as [df|e] eqn:E4; [|by left].
  destruct (object_get df (js "opType")) as [opType|] eqn:E5; [|by left].
  destruct (Hb _ _ _ _ _ E1 E2 E3 E4 E5) as ((t & ->) & (c & Hc) & Hid).
  destruct (lookup (server_framework srv) (Some (JStr t))
    (Some (nullish (get df (js "opCommand")) (JStr [])))) as [[h|]|e] eqn:El.
  - right. eexists _, t. split; [done|]. done.
  - left. do 2 eexists. split; [done|]. right. left.
  - exfalso. revert El. rewrite Hc. unfold lookup.
    destruct (normalize_Ret (Some (JStr t)) I) as [? ->].
    destruct (normalize_Ret (Some (JStr c)) I) as [? ->]. cbn. by destruct (find_handler _ _ _).
Qed.

Lemma processAction_benign srv env body s : main_server = Ret srv → env_ok env → benign body →
  ∃ status payload, (processAction srv env body s).1 = Ret (status, payload) ∧
    status ∈ [200; 400; 501].
Proof.
  intros Hm Henv Hb. unfold processAction.
  destruct (prepare_action_benign srv body Hb) as
    [(st & pl & -> & Hst)|(p & t & -> & [id Hid] & Hl)].
  { exists st, pl. split; [done|]. by right. }
  destruct (main_handler _ _ _ _ Hm Hl) as (op & Hop & ->).
  pose proof (operations_return op env (p_msg p) s Hop Henv) as [r Hr].
  destruct (op.2 env (p_msg p) s) as [r' s'] eqn:Er.
  assert (r' = Ret r) as -> by (rewrite <- Hr; symmetry; exact (f_equal fst Er)).
  cbn [mbind outcome_bind fst]. unfold finish_action, action_line. rewrite Hid.
  do 2 eexists. split; [reflexivity|]. left.
Qed.

Lemma handleRequest_benign srv env method path body s :
  main_server = Ret srv → env_ok env → benign body →
  ∃ status payload, (handleRequest srv env method path body s).1 = Ret (status, payload) ∧
    status ∈ [200; 400; 404; 405; 501].
Proof.
  intros Hm Henv Hb. unfold handleRequest.
  repeat case_match; cbn [fst]; try (do 2 eexists; split; [done|]; set_solver).
  destruct (processAction_benign srv env body s Hm Henv Hb) as (st & pl & E & Hst).
  exists st, pl. split; [done|]. set_solver.
Qed.
End answers.

(** ** Properties *)

(** routing: only the path before a question mark counts; POST /action runs
    the action, GET /state reports, the other methods of these paths get 405 and
    every other path 404, and none of these answers touches the state. *)
Theorem routing `{JsEngine} srv env method path query body s : 63 ∉ path →
  let h p := handleRequest srv env method p body s in
  h (path ++ 63 :: query) = h path ∧
  (path = js "/action" → method = js "POST" → h path = processAction srv env body s) ∧
  (path = js "/state" → method = js "GET" → h path = (Ret (processState srv s), s)) ∧
  (path = js "/action" → method ≠ js "POST" → h path = (Ret (405, PText (js "method not allowed")), s)) ∧
  (path = js "/state" → method ≠ js "GET" → h path = (Ret (405, PText (js "method not allowed")), s)) ∧
  (path ∉ [js "/action"; js "/state"] → h path = (Ret (404, PText (js "not found")), s)).
Proof.
  intros Hp h. unfold h, handleRequest. destruct (clean_path_query path query Hp) as [-> ->].
  split; [done|]. split_and!.
  - by intros -> ->.
  - by intros -> ->.
  - intros -> Hm. rewrite str_eqb_refl. by rewrite (proj2 (str_eqb_false _ _) Hm).
  - intros -> Hm. by rewrite str_eqb_refl, (proj2 (str_eqb_false _ _) Hm).
  - rewrite !not_elem_of_cons. intros (H1 & H2 & _).
    by rewrite (proj2 (str_eqb_false _ _) H1), (proj2 (str_eqb_false _ _) H2).
Qed.

(** every malformed action is refused before a handler runs, each kind with
    its own status and text, in this order, and the state stays as it was. *)
Theorem action_rejections `{JsEngine} srv env body s :
  let rejected m := processAction srv env body s = (Ret (bad_request m), s) in
  (∀ e, JSON_parse body = Throw e → rejected (js "invalid action JSON: " ++ err_to_string e)) ∧
  ∀ action, JSON_parse body = Ret action →
    (object_get action (js "data") = None → rejected (js "invalid action structure: missing data")) ∧
    ∀ data, object_get action (js "data") = Some data →
      (∀ e, hexToBytes (get data (js "message")) = Throw e →
        rejected (js "invalid hex in message: " ++ err_to_string e)) ∧
      ∀ b, hexToBytes (get data (js "message")) = Ret b →
        (∀ e, JSON_parse (utf8_decode b) = Throw e →
          rejected (js "invalid DataFixed JSON in message: " ++ err_to_string e)) ∧
        ∀ df, JSON_parse (utf8_decode b) = Ret df →
          (object_get df (js "opType") = None → rejected (js "invalid DataFixed: missing opType")) ∧
          ∀ opType, object_get df (js "opType") = Some opType →
            lookup (server_framework srv) (Some opType)
              (Some (nullish (get df (js "opCommand")) (JStr []))) = Ret None →
            processAction srv env body s = (Ret (501, PText (js "unsupported op type")), s).
Proof.
  intros rejected. unfold rejected, processAction, prepare_action.
  split; [by intros e ->|]. intros action ->.
  split; [by intros ->|]. intros data ->.
  split; [by intros e ->|]. intros b ->.
  split; [by intros e ->|]. intros df ->.
  split; [by intros ->|]. by intros t -> ->.
Qed.

(** the answer to an action repeats the request's identifiers and reports the
    handler's result: status, "ok" or "error: ..." as the log, the plain version,
    and the data, "0x" when there is none. *)
Theorem action_result_fields srv p data status err :
  let v := action_result srv p (data, status, err) in
  get v (js "id") = get (p_data p) (js "id") ∧
  get v (js "submissionTag") = get (p_data p) (js "submissionTag") ∧
  get v (js "opType") = get (p_df p) (js "opType") ∧
  get v (js "opCommand") = get (p_df p) (js "opCommand") ∧
  get v (js "status") = Some (JNum (num_of_Z status)) ∧
  get v (js "version") = Some (JStr (version srv)) ∧
  get v (js "data") = Some (JStr (match data with Some d => d | None => js "0x" end)) ∧
  get v (js "log") = Some (JStr (
    if decide (status = 1) then js "ok"
    else if decide (status = 0) then
      js "error: " ++ (match err with Some m => if decide (m = []) then js "unknown" else m
                       | None => js "unknown" end)
    else js "pending")).
Proof.
  intros v. unfold v, action_result. rewrite !get_obj_defined by
    (apply (bool_decide_eq_true_1 _); vm_compute; reflexivity).
  split_and!; try reflexivity. cbn [field_of]. do 3 f_equal. unfold action_log.
  destruct (Z.eqb_spec status 0) as [->|Hn]; cbn [decide].
  - destruct err as [[|c m]|]; reflexivity.
  - destruct (Z.eqb_spec status 1) as [->|Hn1]; [reflexivity|].
    by rewrite decide_False, decide_False by done.
Qed.

(** C32: the server answers every request, of any method, path and body, provided
    that in an action that gets that far the operation identifiers are strings or
    absent and [data.id] has a string form (an object whose [toString] is overridden
    by JSON has none), that the clock is in the range of [Date] and that the signing
    key, if one is configured, is a valid key.  No handler of the application then
    makes it throw, the status is one of 200, 204, 400, 404, 405 and 501, and the
    CORS headers are exactly those of the configured origin. *)
Theorem serve_answers `{JsEngine, EvmLaws, Viem, !ViemLaws, Ecies, !EciesLaws}
    srv env origin req s :
  main_server = Ret srv → env_ok env →
  (∀ body, readBody (http_chunks req) = Some body → benign body) →
  ∃ resp hs, (serve srv env origin req s).1 = Ret resp ∧
    http_status resp ∈ [200; 204; 400; 404; 405; 501] ∧
    http_headers resp = hs ++ corsHeaders origin ∧
    Forall (λ h, h.1 ∈ [js "Content-Type"; js "Content-Length"]) hs.
Proof.
  intros Hm Henv Hb. unfold serve. case_bool_decide as Ho.
  { eexists _, []. split; [done|]. cbn. set_solver. }
  destruct (readBody (http_chunks req)) as [body|].
  - destruct (handleRequest_benign srv env (default [] (http_method req))
      (default [] (http_url req)) body s Hm Henv (Hb _ eq_refl)) as (st & pl & E & Hst).
    destruct (handleRequest _ _ _ _ _ _) as [r s']. cbn in E. subst r.
    destruct pl; eexists _, [_; _]; (split; [reflexivity|]); cbn [http_status send fst];
      (split; [set_solver|]); (split; [reflexivity|]);
      repeat constructor; cbn; set_solver.
  - eexists _, [_; _]. split; [reflexivity|]. split; [set_solver|]. split; [reflexivity|].
    repeat constructor; cbn; set_solver.
Qed.

(** GET /state answers 200 with a JSON body that parses to the bytes32 encoding
    of the version and to the report of the current state, with the length of its
    UTF-8 encoding declared, and changes nothing. *)
Theorem state_endpoint `{JsEngine, Viem, Ecies} srv env origin chunks s :
  main_server = Ret srv → state_ok s →
  ∃ resp hex, serve srv env origin {| http_method := Some (js "GET");
      http_url := Some (js "/state"); http_chunks := Some chunks |} s = (Ret resp, s) ∧
    http_status resp = 200 ∧ stringToBytes32Hex (js "0.1.0") = Ret hex ∧
    JSON_parse (utf8_decode (utf8_encode (http_body resp))) =
      Ret (JObj [(js "stateVersion", JStr hex); (js "state", reportState s)]) ∧
    (js "Content-Length", bigint_to_string (Z.of_nat (length (utf8_encode (http_body resp)))))
      ∈ http_headers resp.
Proof.
  intros (_ & Hv & _ & Hr)%main_server_ok Hs.
  eexists _, (stateVersionHex srv). split; [reflexivity|]. split; [done|]. split; [done|].
  split; [|right; left]. cbn [send http_body snd processState]. rewrite Hr.
  apply JSON_utf8_roundtrip. cbn [json_ok forallb fst snd fmap list_fmap].
  rewrite reportState_json_ok by done.
  assert (is_units (stateVersionHex srv)) as Hu.
  { rewrite stringToBytes32Hex_ok in Hv by (vm_compute; lia).
    assert (stateVersionHex srv = bytesToHex (pad32 (utf8_encode (js "0.1.0")))) as -> by congruence.
    apply bytesToHex_units, pad32_bytes, utf8_encode_bytes, js_is_units. }
  by rewrite (bool_decide_eq_true_2 (is_units (stateVersionHex srv))) by done.
Qed.

(** C33: a truthy [opType] that is no string is not answered at all: the lookup
    throws a [TypeError] outside every [try], the request's promise is rejected and
    no response is sent. *)
Theorem nonstring_opType_unanswered `{JsEngine} srv env origin body s action data b df opType :
  JSON_parse body = Ret action → object_get action (js "data") = Some data →
  hexToBytes (get data (js "message")) = Ret b → JSON_parse (utf8_decode b) = Ret df →
  object_get df (js "opType") = Some opType → (∀ t, opType ≠ JStr t) →
  ∀ chunks, readBody chunks = Some body →
  serve srv env origin {| http_method := Some (js "POST"); http_url := Some (js "/action");
    http_chunks := chunks |} s = (Throw (TypeError (js "h.toLowerCase is not a function")), s).
Proof.
  intros E1 E2 E3 E4 E5 Hns chunks Hc. unfold serve.
  rewrite bool_decide_eq_false_2 by discriminate. cbn [http_chunks http_method http_url].
  rewrite Hc.
  assert (handleRequest srv env (default [] (Some (js "POST"))) (default [] (Some (js "/action"))) body s
    = processAction srv env body s) as -> by reflexivity.
  unfold processAction, prepare_action. rewrite E1, E2, E3, E4, E5.
  assert (normalize (Some opType) = Throw (TypeError (js "h.toLowerCase is not a function"))) as Hn.
  { apply object_get_Some in E5 as (_ & _ & Ht). unfold normalize. cbn [truthy_opt]. rewrite Ht.
    destruct opType; try done. by destruct (Hns s0). }
  unfold lookup. by rewrite Hn.
Qed.

(** ** Concrete requests *)

(** The body of an action with the given DataFixed. *)
Definition demo_body (id : json) (df : list (jsstr * json)) : jsstr :=
  JSON_stringify (JObj [(js "data", JObj [(js "id", id); (js "message", payload (JObj df))])]).

Definition demo_server : outcome Server := @main_server plain_engine _ _.

(** A server without operations. *)
Definition bare_server : Server :=
  {| version := []; stateVersionHex := []; server_framework := [];
     server_reportState := reportState |}.

Lemma routing_witness :
  handleRequest (H:=plain_engine) bare_server demo_env (js "GET") (js "/nope" ++ 63 :: js "a=1") [] init_state
    = (Ret (404, PText (js "not found")), init_state).
Proof.
  destruct (routing (H:=plain_engine) bare_server demo_env (js "GET") (js "/nope") (js "a=1") [] init_state)
    as (-> & _ & _ & _ & _ & H).
  - apply (bool_decide_eq_false_1 _). reflexivity.
  - apply H. apply (bool_decide_eq_false_1 _). reflexivity.
Defined.

(** An action for the greeting, and its benign body. *)
Definition demo_df : list (jsstr * json) := [
  (js "opType", JStr (js "0x4752454554494e47000000000000000000000000000000000000000000000000"));
  (js "opCommand", JStr (js "0x5341595f48454c4c4f0000000000000000000000000000000000000000000000"));
  (js "originalMessage", payload (JObj [(js "name", JStr (js "Ada"))]))].
Definition demo_action : jsstr := demo_body (JStr (js "0x07")) demo_df.

Lemma demo_benign : benign (H:=plain_engine) (utf8_decode (utf8_encode demo_action)).
Proof.
  intros action data b df opType E1 E2 E3 E4 E5.
  assert (JSON_parse (H:=plain_engine) (utf8_decode (utf8_encode demo_action)) =
    Ret (JObj [(js "data", JObj [(js "id", JStr (js "0x07")); (js "message", payload (JObj demo_df))])])) as P1
    by (vm_compute; reflexivity).
  rewrite P1 in E1.
  assert (action = JObj [(js "data", JObj [(js "id", JStr (js "0x07")); (js "message", payload (JObj demo_df))])])
    as -> by congruence.
  change (Some (JObj [(js "id", JStr (js "0x07")); (js "message", payload (JObj demo_df))]) = Some data) in E2.
  assert (data = JObj [(js "id", JStr (js "0x07")); (js "message", payload (JObj demo_df))]) as -> by congruence.
  change (get _ (js "message")) with (Some (payload (JObj demo_df))) in E3.
  assert (hexToBytes (Some (payload (JObj demo_df))) = Ret (utf8_encode (JSON_stringify (JObj demo_df)))) as P3
    by (vm_compute; reflexivity).
  assert (b = utf8_encode (JSON_stringify (JObj demo_df))) as -> by congruence.
  assert (JSON_parse (H:=plain_engine) (utf8_decode (utf8_encode (JSON_stringify (JObj demo_df)))) = Ret (JObj demo_df))
    as P4 by (vm_compute; reflexivity).
  assert (df = JObj demo_df) as -> by congruence.
  apply object_get_Some in E5 as (_ & E5 & _).
  change (get (JObj demo_df) (js "opType")) with
    (Some (JStr (js "0x4752454554494e47000000000000000000000000000000000000000000000000"))) in E5.
  split; [eexists; symmetry; exact (f_equal (default JNull) E5)|].
  split; eexists; reflexivity.
Qed.

(** It is answered, on the server of [main.ts] with every origin allowed. *)
Lemma serve_answers_witness :
  ∃ srv, demo_server = Ret srv ∧
  ∃ resp hs, (serve (H:=plain_engine) srv demo_env (Some (js "*"))
      {| http_method := Some (js "POST"); http_url := Some (js "/action");
         http_chunks := Some [utf8_encode demo_action] |} init_state).1 = Ret resp ∧
    http_status resp ∈ [200; 204; 400; 404; 405; 501] ∧
    http_headers resp = hs ++ corsHeaders (Some (js "*")).
Proof.
  eexists. split; [reflexivity|].
  edestruct (serve_answers (H:=plain_engine)) as (resp & hs & H1 & H2 & H3 & _);
    [reflexivity|exact demo_env_ok| |exists resp, hs; split; [exact H1|split; [exact H2|exact H3]]].
  intros body Hb. assert (body = utf8_decode (utf8_encode demo_action)) as -> by
    (cbn [http_chunks readBody fmap option_fmap option_map mjoin list_join] in Hb; rewrite app_nil_r in Hb; congruence).
  exact demo_benign.
Defined.

Lemma state_endpoint_witness :
  ∃ srv, demo_server = Ret srv ∧
  ∃ resp, serve (H:=plain_engine) srv demo_env None {| http_method := Some (js "GET");
      http_url := Some (js "/state"); http_chunks := Some [] |} init_state = (Ret resp, init_state) ∧
    http_status resp = 200.
Proof.
  eexists. split; [reflexivity|].
  edestruct (state_endpoint (H:=plain_engine)) as (resp & hex & H1 & H2 & _);
    [reflexivity| |exists resp; split; [exact H1|exact H2]].
  repeat split; try (cbn; lia); constructor.
Defined.

Lemma nonstring_opType_unanswered_witness :
  let body := demo_body JNull [(js "opType", JNum (num_of_Z 5))] in
  serve (H:=plain_engine) bare_server demo_env None {| http_method := Some (js "POST");
    http_url := Some (js "/action"); http_chunks := Some [utf8_encode body] |} init_state
    = (Throw (TypeError (js "h.toLowerCase is not a function")), init_state).
Proof.
  intros body.
  eapply (nonstring_opType_unanswered (H:=plain_engine) bare_server demo_env None body init_state).
  - vm_compute. reflexivity.
  - vm_compute. reflexivity.
  - vm_compute. reflexivity.
  - vm_compute. reflexivity.
  - vm_compute. reflexivity.
  - discriminate.
  - vm_compute. reflexivity.
Defined.
