(* ===== verification/Conformance.v ===== *)
(** * The extension contract (docs/extension-contract.md)

    The scaffold is written in three languages; what they have in common is a
    contract on what is observable over HTTP: the routes, the wire types, the
    dispatch on bytes32 identifiers and the status of each answer.  This file has
    the wire types of [typescript/src/base/types.ts] as records, with readers that
    say when a JSON value inhabits one, and the contract (sections 2, 4 and 5 of the
    document) as an inductive relation between a request, a state, what must be
    answered and the state after.  [server_conforms] shows that the TypeScript
    server answers as the contract says, except in two situations that it names:
    [OPTIONS] requests, and messages that have an operation type and are no valid
    DataFixed. *)

From S2P Require Import Prelude JsString JsNumber Utf8 Json JsonFacts Encoding Wire Framework Abi Instances Protocol StreamHandlers StreamProps Handlers Server.

(** ** The wire types *)

Record ActionData := {
  ad_id : jsstr;
  ad_type : jsstr;
  ad_submissionTag : jsstr;
  ad_message : jsstr;
}.

Record Action := {
  a_data : ActionData;
  a_additionalVariableMessages : option (list jsstr);
  a_timestamps : option (list jsnum);
  a_additionalActionData : option jsstr;
  a_signatures : option (list jsstr);
}.

Record DataFixed := {
  d_instructionId : jsstr;
  d_teeId : option jsstr;
  d_timestamp : option jsnum;
  d_rewardEpochId : option jsnum;
  d_opType : jsstr;
  d_opCommand : jsstr;
  d_cosigners : option (list jsstr);
  d_cosignersThreshold : option jsnum;
  d_originalMessage : option jsstr;
  d_additionalFixedMessage : option jsstr;
}.

Record ActionResult := {
  r_id : jsstr;
  r_submissionTag : jsstr;
  r_status : Z;
  r_log : jsstr;
  r_opType : jsstr;
  r_opCommand : jsstr;
  r_additionalResultStatus : jsstr;
  r_version : jsstr;
  r_data : jsstr;
}.

Record StateResponse := {
  stateVersion : jsstr;
  state : json;
}.

(** The values on the wire, in the order of declaration. *)
Definition ActionResult_json (r : ActionResult) : json := JObj [
  (js "id", JStr (r_id r)); (js "submissionTag", JStr (r_submissionTag r));
  (js "status", JNum (num_of_Z (r_status r))); (js "log", JStr (r_log r));
  (js "opType", JStr (r_opType r)); (js "opCommand", JStr (r_opCommand r));
  (js "additionalResultStatus", JStr (r_additionalResultStatus r));
  (js "version", JStr (r_version r)); (js "data", JStr (r_data r))].

Definition StateResponse_json (r : StateResponse) : json :=
  JObj [(js "stateVersion", JStr (stateVersion r)); (js "state", state r)].

(** ** Reading a JSON value at a type *)

Definition as_text (v : json) : option jsstr := match v with JStr s => Some s | _ => None end.
Definition as_number (v : json) : option jsnum := match v with JNum n => Some n | _ => None end.
Definition as_list {A} (f : json → option A) (v : json) : option (list A) :=
  match v with JArr l => mapM f l | _ => None end.

(** A field that must be there, and one that may be absent; [null] counts as
    absent, as it does for the code's [??] and for Go's empty slices. *)
Definition required {A} (f : json → option A) (v : json) (k : string) : option A := get v (js k) ≫= f.
Definition optional {A} (f : json → option A) (v : json) (k : string) : option (option A) :=
  match get v (js k) with None | Some JNull => Some None | Some w => Some <$> f w end.

Definition ActionData_of (v : json) : option ActionData :=
  i ← required as_text v "id"; ty ← required as_text v "type";
  tag ← required as_text v "submissionTag"; m ← required as_text v "message";
  Some {| ad_id := i; ad_type := ty; ad_submissionTag := tag; ad_message := m |}.

Definition Action_of (v : json) : option Action :=
  d ← required ActionData_of v "data";
  ms ← optional (as_list as_text) v "additionalVariableMessages";
  ts ← optional (as_list as_number) v "timestamps";
  a ← optional as_text v "additionalActionData";
  sg ← optional (as_list as_text) v "signatures";
  Some {| a_data := d; a_additionalVariableMessages := ms; a_timestamps := ts;
          a_additionalActionData := a; a_signatures := sg |}.

Definition DataFixed_of (v : json) : option DataFixed :=
  i ← required as_text v "instructionId"; tee ← optional as_text v "teeId";
  ts ← optional as_number v "timestamp"; ep ← optional as_number v "rewardEpochId";
  t ← required as_text v "opType"; c ← required as_text v "opCommand";
  co ← optional (as_list as_text) v "cosigners"; th ← optional as_number v "cosignersThreshold";
  m ← optional as_text v "originalMessage"; f ← optional as_text v "additionalFixedMessage";
  Some {| d_instructionId := i; d_teeId := tee; d_timestamp := ts; d_rewardEpochId := ep;
          d_opType := t; d_opCommand := c; d_cosigners := co; d_cosignersThreshold := th;
          d_originalMessage := m; d_additionalFixedMessage := f |}.

(** ** The contract *)

(** Section 4: a bytes32 on the wire, and an identifier as bytes32. *)
Definition bytes32_of (s : jsstr) : option bytes := if hex_shape 64 s then Some (hex_bytes s) else None.
Definition identifier32 (s : jsstr) : bytes := pad32 (utf8_encode s).

(** Section 5: the first entry with these bytes32 identifiers, else the first of
    the type whose command is empty. *)
Fixpoint find32 {Hnd} (regs : list (jsstr * jsstr * Hnd)) (t c : bytes) : option Hnd :=
  match regs with
  | (t', c', h) :: regs' =>
      if decide (identifier32 t' = t ∧ identifier32 c' = c) then Some h else find32 regs' t c
  | [] => None
  end.

Definition dispatch32 {Hnd} (regs : list (jsstr * jsstr * Hnd)) (t c : bytes) : option Hnd :=
  match find32 regs t c with Some h => Some h | None => find32 regs t (replicate 32 0) end.

(** Section 4.6: the log. *)
Definition contract_log (status : Z) (err : option jsstr) : jsstr :=
  if decide (status = 1) then js "ok"
  else if decide (status = 0) then
    js "error: " ++ match err with Some m => if decide (m = []) then js "unknown" else m | None => js "unknown" end
  else js "pending".

Definition result_of (a : Action) (df : DataFixed) (r : HandlerResult) : ActionResult :=
  let '(data, status, err) := r in
  {| r_id := ad_id (a_data a); r_submissionTag := ad_submissionTag (a_data a); r_status := status;
     r_log := contract_log status err; r_opType := d_opType df; r_opCommand := d_opCommand df;
     r_additionalResultStatus := js "0x"; r_version := js "0.1.0"; r_data := default (js "0x") data |}.

(** What must be answered: exactly this JSON, a text that contains this, or any
    text. *)
Inductive Expected : Type :=
| ExactJson (status : Z) (v : json)
| TextWith (status : Z) (part : jsstr)
| AnyText (status : Z).

Definition meets (resp : HttpResponse) (e : Expected) : Prop :=
  match e with
  | ExactJson st v => http_status resp = st ∧ http_body resp = JSON_stringify v ∧
      (js "Content-Type", js "application/json") ∈ http_headers resp
  | TextWith st part => http_status resp = st ∧ ∃ before after, http_body resp = before ++ part ++ after
  | AnyText st => http_status resp = st
  end.

(** A body that is an action whose [message] the code decodes to these bytes. *)
Definition carries_message `{JsEngine} (body : jsstr) (a : Action) (b : bytes) : Prop :=
  ∃ v, JSON_parse body = Ret v ∧ Action_of v = Some a ∧ hexStringToBytes (ad_message (a_data a)) = Ret b.

(** ... whose bytes are a DataFixed with bytes32 identifiers. *)
Definition carries `{JsEngine} (body : jsstr) (a : Action) (df : DataFixed) (t c : bytes) : Prop :=
  ∃ b w, carries_message body a b ∧ JSON_parse (utf8_decode b) = Ret w ∧ DataFixed_of w = Some df ∧
    bytes32_of (d_opType df) = Some t ∧ bytes32_of (d_opCommand df) = Some c.

(** Section 4: [hexutil.Bytes] on the wire. *)
Definition hex_text (s : jsstr) : bool :=
  starts_with s (js "0x") && Nat.even (length s) && forallb is_hex_digit (drop 2 s).

(** Section 4.3: the formats of the fields, where they are there. *)
Definition DataFixed_formats (df : DataFixed) : bool :=
  hex_shape 64 (d_instructionId df) && default true (hex_shape 40 <$> d_teeId df) &&
  forallb (hex_shape 40) (default [] (d_cosigners df)) &&
  default true (hex_text <$> d_originalMessage df) && default true (hex_text <$> d_additionalFixedMessage df).

(** Section 4.3: a valid DataFixed, with its identifiers. *)
Definition valid_DataFixed (w : json) (df : DataFixed) (t c : bytes) : Prop :=
  DataFixed_of w = Some df ∧ DataFixed_formats df = true ∧
  bytes32_of (d_opType df) = Some t ∧ bytes32_of (d_opCommand df) = Some c.

(** The text under [data.message] of the body. *)
Definition message_text `{JsEngine} (body m : jsstr) : Prop :=
  ∃ v d, JSON_parse body = Ret v ∧ get v (js "data") = Some d ∧ get d (js "message") = Some (JStr m).

(** A message that is valid hex and decodes to a valid DataFixed. *)
Definition decodes_to `{JsEngine} (m : jsstr) (df : DataFixed) (t c : bytes) : Prop :=
  hex_text m = true ∧ ∃ w, JSON_parse (utf8_decode (hex_bytes m)) = Ret w ∧ valid_DataFixed w df t c.

(** The answer and the next state for a request, by method, path and body: the rows
    of the tables of section 2. *)
Inductive contract `{JsEngine, Viem, Ecies} (env : Env) :
    jsstr → jsstr → jsstr → AppState → Expected → AppState → Prop :=
| routed body v a df t c h r s s' :
    JSON_parse body = Ret v → Action_of v = Some a → decodes_to (ad_message (a_data a)) df t c →
    dispatch32 operations t c = Some h →
    h env (JStr (default (js "0x") (d_originalMessage df))) s = (Ret r, s') →
    contract env (js "POST") (js "/action") body s (ExactJson 200 (ActionResult_json (result_of a df r))) s'
| unsupported body m df t c s :
    message_text body m → decodes_to m df t c → dispatch32 operations t c = None →
    contract env (js "POST") (js "/action") body s (TextWith 501 (js "unsupported op type")) s
| invalid_json body s :
    throws (JSON_parse body) → contract env (js "POST") (js "/action") body s (AnyText 400) s
| invalid_hex body v s :
    JSON_parse body = Ret v → (∀ m, message_text body m → hex_text m = false) →
    contract env (js "POST") (js "/action") body s (AnyText 400) s
| invalid_DataFixed body m s :
    message_text body m → hex_text m = true → (∀ df t c, ¬ decodes_to m df t c) →
    contract env (js "POST") (js "/action") body s (AnyText 400) s
| report body s h :
    stringToBytes32Hex (js "0.1.0") = Ret h →
    contract env (js "GET") (js "/state") body s
      (ExactJson 200 (StateResponse_json {| stateVersion := h; state := reportState s |})) s
| wrong_method method path body s :
    (method, path) ∈ [(js "GET", js "/action"); (js "POST", js "/state")] →
    contract env method path body s (AnyText 405) s
| other_path method path body s :
    path ∉ [js "/action"; js "/state"] →
    contract env method path body s (AnyText 404) s.

(** ** Where the server departs from it *)

(** All that the server asks of a message: text that decodes, with or without its
    [0x], to the JSON of an object with an [opType]. *)
Definition accepted `{JsEngine} (m : jsstr) : Prop :=
  ∃ b w, hexStringToBytes m = Ret b ∧ JSON_parse (utf8_decode b) = Ret w ∧ is_Some (object_get w (js "opType")).

(** An action whose message the server accepts, though it is no valid hex of a valid
    DataFixed. *)
Definition unvalidated `{JsEngine} (body : jsstr) : Prop :=
  ∃ m, message_text body m ∧ accepted m ∧ ∀ df t c, ¬ decodes_to m df t c.

Definition divergent `{JsEngine} (method path body : jsstr) : Prop :=
  method = js "OPTIONS" ∨ (method = js "POST" ∧ path = js "/action" ∧ unvalidated body).

(** The requests that the document speaks of; the body of an action that is to be
    routed has the type [Action]. *)
Definition covered `{JsEngine} (method path body : jsstr) : Prop :=
  path ∉ [js "/action"; js "/state"] ∨ method = js "GET" ∨ (method = js "POST" ∧ path = js "/state") ∨
  (method = js "POST" ∧ path = js "/action" ∧
   ∀ v m df t c, JSON_parse body = Ret v → message_text body m → decodes_to m df t c → is_Some (Action_of v)).

(** ** Lemmas on the readers *)

Lemma required_text v k s : required as_text v k = Some s ↔ get v (js k) = Some (JStr s).
Proof.
  unfold required. rewrite bind_Some. split.
  - intros ([| | |t| |] & E & Et); try discriminate Et. rewrite E. by f_equal; f_equal; apply (inj Some).
  - intros ->. by eexists.
Qed.

Lemma optional_text v k o : optional as_text v k = Some o →
  nullish (get v (js k)) (JStr (js "0x")) = JStr (default (js "0x") o).
Proof.
  unfold optional, nullish. destruct (get v (js k)) as [[]|]; cbn; try done; by intros [= <-].
Qed.

Lemma ActionData_of_fields v d : ActionData_of v = Some d →
  get v (js "id") = Some (JStr (ad_id d)) ∧
  get v (js "submissionTag") = Some (JStr (ad_submissionTag d)) ∧
  get v (js "message") = Some (JStr (ad_message d)).
Proof.
  unfold ActionData_of. intros (i & Hi & E)%bind_Some.
  apply bind_Some in E as (ty & _ & E). apply bind_Some in E as (tag & Ht & E).
  apply bind_Some in E as (m & Hm & [= <-]). cbn [ad_id ad_submissionTag ad_message].
  by rewrite <- !required_text.
Qed.

(** The object that the server finds under [data]. *)
Lemma Action_of_data v a : Action_of v = Some a →
  ∃ d, object_get v (js "data") = Some d ∧ ActionData_of d = Some (a_data a).
Proof.
  unfold Action_of. intros (d & Hd & E)%bind_Some. repeat apply bind_Some in E as (? & _ & E).
  injection E as <-. cbn [a_data]. unfold required in Hd. apply bind_Some in Hd as (w & Hw & Hd).
  exists w. split; [|done]. apply object_get_Some. apply ActionData_of_fields in Hd as (Hi & _).
  destruct v; try discriminate Hw; destruct w; try discriminate Hi; eauto.
Qed.

Lemma DataFixed_of_fields w df : DataFixed_of w = Some df →
  get w (js "opType") = Some (JStr (d_opType df)) ∧ get w (js "opCommand") = Some (JStr (d_opCommand df)) ∧
  nullish (get w (js "originalMessage")) (JStr (js "0x")) = JStr (default (js "0x") (d_originalMessage df)).
Proof.
  unfold DataFixed_of. intros E. do 4 apply bind_Some in E as (? & _ & E).
  apply bind_Some in E as (t & Ht & E). apply bind_Some in E as (c & Hc & E).
  do 2 apply bind_Some in E as (? & _ & E). apply bind_Some in E as (m & Hm & E).
  apply bind_Some in E as (? & _ & E). injection E as <-.
  cbn [d_opType d_opCommand d_originalMessage].
  split; [by apply required_text|]. split; [by apply required_text|]. by apply optional_text.
Qed.

(** ** Dispatch on bytes32 *)

Section dispatch.
Context `{JsEngine} {Hnd : Type}.
Implicit Types (regs : list (jsstr * jsstr * Hnd)).

Lemma bytes32_of_Some s t : bytes32_of s = Some t → is_bytes t ∧ normalize (Some (JStr s)) = Ret (bytesToHex t).
Proof.
  unfold bytes32_of. destruct (hex_shape 64 s) eqn:Hs; [|done]. intros [= <-].
  destruct (hex_shape_bytes 32 s Hs) as (Hb & _ & E). split; [done|].
  unfold normalize. cbn [truthy_opt truthy].
  rewrite bool_decide_eq_true_2 by (intros ->; discriminate Hs). cbn [negb].
  by rewrite (hex_shape_to_lower 64 s Hs), <- E, bytesToHex_digits.
Qed.

Lemma find32_handler es regs t c : is_bytes t → is_bytes c →
  Forall (λ r, identifier r.1.1 ∧ identifier r.1.2) regs →
  Forall2 (λ e r, stringToBytes32Hex r.1.1 = Ret e.1.1 ∧
                  stringToBytes32Hex r.1.2 = Ret e.1.2 ∧ e.2 = r.2) es regs →
  find_handler es (bytesToHex t) (bytesToHex c) = find32 regs t c.
Proof.
  intros Ht Hc Hid. induction 1 as [|[[t1 c1] h1] [[t' c'] h'] es regs (E1 & E2 & E3) _ IH]; [done|].
  cbn in E1, E2, E3. subst h'. apply Forall_cons in Hid as [[I1 I2] Hid]. cbn in I1, I2.
  pose proof (identifier_bytes _ I1) as B1. pose proof (identifier_bytes _ I2) as B2.
  destruct I1 as (_ & L1 & _), I2 as (_ & L2 & _).
  rewrite stringToBytes32Hex_ok in E1, E2 by done. injection E1 as <-. injection E2 as <-.
  cbn [find_handler find32]. rewrite IH by done. unfold identifier32.
  destruct (decide _) as [[<- <-]|Hn]; [by rewrite !str_eqb_refl|].
  destruct (_ && _) eqn:E; [|done]. destruct Hn. reflect_Z.
  split; by apply bytesToHex_inj; [apply pad32_bytes| |].
Qed.

Lemma lookup_dispatch32 regs fw ht hc t c :
  Forall (λ r, identifier r.1.1 ∧ identifier r.1.2) regs → register_all [] regs = Ret fw →
  bytes32_of ht = Some t → bytes32_of hc = Some c →
  lookup fw (Some (JStr ht)) (Some (JStr hc)) = Ret (dispatch32 regs t c).
Proof.
  intros Hregs Hr [Bt Et]%bytes32_of_Some [Bc Ec]%bytes32_of_Some.
  apply register_all_app in Hr as (es & -> & Hes). unfold lookup. rewrite Et, Ec.
  cbn [mbind outcome_bind app]. rewrite (find32_handler es regs) by done. unfold dispatch32.
  destruct (find32 regs t c); [done|]. f_equal.
  assert (EMPTY_BYTES32 = bytesToHex (replicate 32 0)) as -> by reflexivity.
  apply find32_handler; try done. apply replicate_zero_bytes.
Qed.

Lemma find32_In regs t c h : find32 regs t c = Some h → ∃ r, r ∈ regs ∧ h = r.2.
Proof.
  induction regs as [|[[t' c'] h'] regs IH]; cbn [find32]; [done|].
  destruct (decide _) as [_|_]; [intros [= <-]; eexists; split; [left|done]|].
  intros (r & ? & ->)%IH. exists r. split; [by right|done].
Qed.

Lemma dispatch32_In regs t c h : dispatch32 regs t c = Some h → ∃ r, r ∈ regs ∧ h = r.2.
Proof.
  unfold dispatch32. destruct (find32 regs t c) eqn:E; [intros [= <-]|]; by eapply find32_In.
Qed.
End dispatch.

(** ** The server on well-typed requests *)

Lemma log_contract status err : action_log status err = contract_log status err.
Proof.
  unfold action_log, contract_log. destruct (Z.eqb_spec status 0) as [->|H0].
  - rewrite decide_False, decide_True by done. by destruct err as [[|]|].
  - destruct (Z.eqb_spec status 1) as [->|H1]; [by rewrite decide_True|].
    by rewrite !decide_False.
Qed.

Section server.
Context `{JsEngine, EvmLaws, Viem, !ViemLaws, Ecies, !EciesLaws}.
Context (srv : Server) (env : Env) (origin : option jsstr).
Context (Hmain : main_server = Ret srv) (Henv : env_ok env).

Lemma prepare_message body a b : carries_message body a b →
  ∃ d, ActionData_of d = Some (a_data a) ∧
    prepare_action srv body = match JSON_parse (utf8_decode b) with
      | Throw e => Ret (inl (bad_request (js "invalid DataFixed JSON in message: " ++ err_to_string e)))
      | Ret df =>
          match object_get df (js "opType") with
          | None => Ret (inl (bad_request (js "invalid DataFixed: missing opType")))
          | Some opType =>
              h ← lookup (server_framework srv) (Some opType)
                    (Some (nullish (get df (js "opCommand")) (JStr [])));
              Ret match h with
              | None => inl (501, PText (js "unsupported op type"))
              | Some handler => inr {| p_data := d; p_df := df; p_handler := handler;
                  p_msg := nullish (get df (js "originalMessage")) (JStr (js "0x")) |}
              end
          end
      end.
Proof using All.
  intros (v & Hp & (d & Hd & Hda)%Action_of_data & Hb). exists d. split; [done|].
  unfold prepare_action. rewrite Hp, Hd. apply ActionData_of_fields in Hda as (_ & _ & ->).
  cbn [hexToBytes]. rewrite Hb. destruct (JSON_parse (utf8_decode b)) as [df|]; [|done].
  destruct (object_get df (js "opType")) as [o|]; [|done].
  by destruct (lookup (server_framework srv) (Some o) (Some (nullish (get df (js "opCommand")) (JStr [])))) as [[]|].
Qed.

Lemma prepare_carries body a df t c : carries body a df t c →
  ∃ d w, ActionData_of d = Some (a_data a) ∧ DataFixed_of w = Some df ∧
    prepare_action srv body = Ret match dispatch32 operations t c with
      | None => inl (501, PText (js "unsupported op type"))
      | Some h => inr {| p_data := d; p_df := w; p_handler := h;
          p_msg := JStr (default (js "0x") (d_originalMessage df)) |}
      end.
Proof using All.
  intros (b & w & (d & Hd & Hp)%prepare_message & Hw & Hdf & Ht & Hc). exists d, w.
  split; [done|]. split; [done|]. rewrite Hp, Hw.
  destruct (DataFixed_of_fields w df Hdf) as (Eo & Ec & Em). rewrite Ec, Em. cbn [nullish].
  assert (object_get w (js "opType") = Some (JStr (d_opType df))) as ->.
  { apply object_get_Some. split; [destruct w; try discriminate Eo; eauto|]. split; [done|].
    cbn [truthy]. apply bool_decide_eq_true_2. intros E. by rewrite E in Ht. }
  rewrite (lookup_dispatch32 operations _ _ _ t c); try done; [apply operations_identifiers|].
  by destruct (main_server_ok srv Hmain) as (_ & _ & ? & _).
Qed.

Lemma finish_result d w a df h m r :
  ActionData_of d = Some (a_data a) → DataFixed_of w = Some df →
  finish_action srv {| p_data := d; p_df := w; p_handler := h; p_msg := m |} r
    = Ret (200, PJson (ActionResult_json (result_of a df r))).
Proof using All.
  intros (Hi & Ht & _)%ActionData_of_fields (Ho & Hc & _)%DataFixed_of_fields.
  unfold finish_action, action_line, action_result. cbn [p_data p_df]. rewrite Hi, Ht, Ho, Hc.
  destruct r as [[data status] err]. destruct (main_server_ok srv Hmain) as (-> & _).
  rewrite log_contract. reflexivity.
Qed.

(** A request over the network is a request of its path. *)
Lemma serve_route method path url chunks s : 63 ∉ path → method ≠ js "OPTIONS" →
  url = path ∨ (∃ query, url = path ++ 63 :: query) →
  serve srv env origin {| http_method := Some method; http_url := Some url; http_chunks := Some chunks |} s
    = let '(r, s') := handleRequest srv env method path (utf8_decode (mjoin chunks)) s in
      (send origin <$> r, s').
Proof using All.
  intros Hp Hm Hu. unfold serve. rewrite bool_decide_eq_false_2 by (by intros [= ->]).
  cbn [http_chunks readBody fmap option_fmap option_map http_method http_url].
  change (default [] (Some method)) with method. change (default [] (Some url)) with url.
  destruct Hu as [->|[q ->]]; [done|].
  by destruct (routing srv env method path q (utf8_decode (mjoin chunks)) s Hp) as [-> _].
Qed.

Lemma processAction_carries body a df t c s : carries body a df t c →
  processAction srv env body s = match dispatch32 operations t c with
    | None => (Ret (501, PText (js "unsupported op type")), s)
    | Some h =>
        let '(r, s') := h env (JStr (default (js "0x") (d_originalMessage df))) s in
        ((λ r, (200, PJson (ActionResult_json (result_of a df r)))) <$> r, s')
    end.
Proof using All.
  intros (d & w & Hd & Hw & Hp)%prepare_carries. unfold processAction. rewrite Hp.
  destruct (dispatch32 operations t c) as [h|]; [|done]. cbn [p_handler p_msg].
  destruct (h env _ s) as [[r|e] s']; [|done]. cbn [mbind outcome_bind fmap outcome_fmap].
  by rewrite (finish_result d w a df).
Qed.
Lemma meets_json st v : meets (send origin (st, PJson v)) (ExactJson st v).
Proof using All. split; [done|]. split; [done|]. left. Qed.

Lemma meets_part st m : meets (send origin (st, PText m)) (TextWith st m).
Proof using All. split; [done|]. exists [], []. by rewrite app_nil_r. Qed.

Lemma meets_status r st : meets (send origin r) (AnyText st) ↔ r.1 = st.
Proof using Type. by destruct r as [? []]. Qed.

(** A routed action is answered with 200 and its result. *)
Lemma carried_served body a df t c h r s s' :
  carries body a df t c → dispatch32 operations t c = Some h →
  h env (JStr (default (js "0x") (d_originalMessage df))) s = (Ret r, s') →
  ∃ resp, processAction srv env body s = (Ret resp, s') ∧
    meets (send origin resp) (ExactJson 200 (ActionResult_json (result_of a df r))).
Proof using All.
  intros Hc Hd Hh. eexists. rewrite (processAction_carries body a df t c), Hd, Hh by done.
  split; [reflexivity|apply meets_json].
Qed.

(** *** The message of a body *)

Lemma message_text_unique body m m' : message_text body m → message_text body m' → m = m'.
Proof using Type.
  intros (v & d & Hv & Hd & Hm) (v' & d' & Hv' & Hd' & Hm').
  assert (v' = v) as -> by congruence. assert (d' = d) as -> by congruence. congruence.
Qed.

Lemma Action_of_message body v a : JSON_parse body = Ret v → Action_of v = Some a →
  message_text body (ad_message (a_data a)).
Proof using Type.
  intros Hv (d & (_ & Hd & _)%object_get_Some & Ha)%Action_of_data.
  apply ActionData_of_fields in Ha as (_ & _ & Hm). by exists v, d.
Qed.

Lemma hex_text_bytes m : hex_text m = true → hexStringToBytes m = Ret (hex_bytes m).
Proof using Type.
  unfold hex_text, hex_bytes. rewrite !andb_true_iff. intros [[Hx He] Hd].
  assert (∃ s, m = 48 :: 120 :: s) as [s ->].
  { destruct m as [|x [|y s]]; [discriminate Hx|discriminate He|].
    change (starts_with (x :: y :: s) (js "0x")) with ((48 =? x) && ((120 =? y) && true)) in Hx.
    rewrite !andb_true_iff, !Z.eqb_eq in Hx. destruct Hx as [<- [<- _]]. by exists s. }
  change (drop 2 (48 :: 120 :: s)) with s in *. apply hexStringToBytes_valid.
  { by apply forallb_Forall. }
  change (Nat.even (length s) = true) in He. by rewrite <- Nat.negb_even, He.
Qed.

Lemma decodes_to_carries body v a df t c : JSON_parse body = Ret v → Action_of v = Some a →
  decodes_to (ad_message (a_data a)) df t c → carries body a df t c.
Proof using Type.
  intros Hv Ha (Hx & w & Hw & Hdf & _ & Ht & Hc). exists (hex_bytes (ad_message (a_data a))), w.
  split; [|done]. exists v. split; [done|]. split; [done|]. by apply hex_text_bytes.
Qed.

(** What the server does with a message. *)
Lemma prepare_text body m b w : message_text body m → hexStringToBytes m = Ret b →
  JSON_parse (utf8_decode b) = Ret w →
  ∃ d, prepare_action srv body = match object_get w (js "opType") with
    | None => Ret (inl (bad_request (js "invalid DataFixed: missing opType")))
    | Some opType =>
        h ← lookup (server_framework srv) (Some opType) (Some (nullish (get w (js "opCommand")) (JStr [])));
        Ret match h with
        | None => inl (501, PText (js "unsupported op type"))
        | Some handler => inr {| p_data := d; p_df := w; p_handler := handler;
            p_msg := nullish (get w (js "originalMessage")) (JStr (js "0x")) |}
        end
    end.
Proof using Type.
  intros (v & d & Hv & Hd & Hm) Hb Hw. exists d. unfold prepare_action. rewrite Hv.
  assert (object_get v (js "data") = Some d) as ->.
  { apply object_get_Some. split; [destruct v; try discriminate Hd; eauto|]. split; [done|].
    by destruct d; try discriminate Hm. }
  rewrite Hm. cbn [hexToBytes]. rewrite Hb, Hw. destruct (object_get w (js "opType")) as [o|]; [|done].
  by destruct (lookup (server_framework srv) (Some o) (Some (nullish (get w (js "opCommand")) (JStr [])))) as [[]|].
Qed.

(** A body of JSON is refused with 400, or its message is accepted. *)
Lemma prepared body v s : JSON_parse body = Ret v →
  (∃ r, processAction srv env body s = (Ret (400, r), s)) ∨ ∃ m, message_text body m ∧ accepted m.
Proof using Type.
  intros Hv. unfold processAction, prepare_action. rewrite Hv.
  destruct (object_get v (js "data")) as [d|] eqn:Ed; [|left; by eexists].
  apply object_get_Some in Ed as (_ & Hd & _).
  destruct (get d (js "message")) as [x|] eqn:Em; [|left; by eexists].
  destruct x as [| | |m| |]; try (left; by eexists). cbn [hexToBytes].
  destruct (hexStringToBytes m) as [b|e] eqn:Hb; [|left; by eexists].
  destruct (JSON_parse (utf8_decode b)) as [w|e] eqn:Hw; [|left; by eexists].
  destruct (object_get w (js "opType")) as [o|] eqn:Ho; [|left; by eexists].
  right. exists m. split; [by exists v, d|]. exists b, w. split; [done|]. split; [done|by eexists].
Qed.

(** An accepted message is not answered with 400. *)
Lemma accepted_answer body m s r s' : message_text body m → accepted m →
  processAction srv env body s = (Ret r, s') → r.1 ≠ 400.
Proof using Type.
  intros Hm (b & w & Hb & Hw & o & Ho) E. destruct (prepare_text body m b w Hm Hb Hw) as (d & Hp).
  unfold processAction in E. rewrite Hp, Ho in E. clear Hp.
  destruct (lookup _ _ _) as [[h|]|e]; cbn [mbind outcome_bind] in E; [| |discriminate E].
  - cbn [p_handler p_msg] in E. destruct (h env _ s) as [[x|e] s2]; [|discriminate E].
    cbn [mbind outcome_bind] in E. unfold finish_action in E. destruct (action_line _ x) as [l|e]; [|discriminate E].
    apply pair_eq in E as [E _]. cbn [mbind outcome_bind] in E.
    assert (r.1 = 200) as ->; [|done].
    exact (f_equal (λ o, match o with Ret r => r.1 | Throw _ => 200 end) (eq_sym E)).
  - apply pair_eq in E as [E _]. assert (r.1 = 501) as ->; [|done].
    exact (f_equal (λ o, match o with Ret r => r.1 | Throw _ => 501 end) (eq_sym E)).
Qed.

(** A valid message is accepted. *)
Lemma decodes_accepted m df t c : decodes_to m df t c → accepted m.
Proof using Type.
  intros (Hx & w & Hw & Hdf & _ & Ht & _). exists (hex_bytes m), w. split; [by apply hex_text_bytes|]. split; [done|].
  destruct (DataFixed_of_fields w df Hdf) as (Eo & _). exists (JStr (d_opType df)).
  apply object_get_Some. split; [destruct w; try discriminate Eo; eauto|]. split; [done|].
  cbn [truthy]. apply bool_decide_eq_true_2. intros E. by rewrite E in Ht.
Qed.

(** An unsupported pair of identifiers. *)
Lemma unsupported_answer body m df t c s : message_text body m → decodes_to m df t c →
  dispatch32 operations t c = None →
  processAction srv env body s = (Ret (501, PText (js "unsupported op type")), s).
Proof using All.
  intros Hm Hdec Hd. destruct (decodes_accepted m df t c Hdec) as (b & w & Hb & Hw & o & Ho).
  destruct (prepare_text body m b w Hm Hb Hw) as (d & Hp). unfold processAction. rewrite Hp, Ho. clear Hp.
  destruct Hdec as (Hx & w' & Hw' & Hdf & _ & Ht & Hc). rewrite (hex_text_bytes m Hx) in Hb. injection Hb as <-.
  assert (w' = w) as -> by congruence.
  destruct (DataFixed_of_fields w df Hdf) as (Eo & Ec & _). apply object_get_Some in Ho as (_ & Ho & _).
  assert (o = JStr (d_opType df)) as -> by congruence. rewrite Ec. cbn [nullish].
  rewrite (lookup_dispatch32 operations _ _ _ t c), Hd; try done; [apply operations_identifiers|].
  by destruct (main_server_ok srv Hmain) as (_ & _ & ? & _).
Qed.
(** *** The contract and the server, request by request *)

Lemma message_dec body : (∃ m, message_text body m) ∨ ∀ m, ¬ message_text body m.
Proof using Type.
  destruct (JSON_parse body) as [v|e] eqn:Hv; [|right; intros m (v & d & Hv' & _); congruence].
  destruct (get v (js "data")) as [d|] eqn:Hd; [|right; intros m (v' & d & Hv' & Hd' & _); congruence].
  destruct (get d (js "message")) as [[| | |m| |]|] eqn:Hm;
    try (right; intros m' (v' & d' & Hv' & Hd' & Hm'); assert (v' = v) as -> by congruence;
      assert (d' = d) as -> by congruence; congruence).
  left. exists m, v, d. done.
Qed.

Lemma decodes_dec m : (∃ df t c, decodes_to m df t c) ∨ ∀ df t c, ¬ decodes_to m df t c.
Proof using Type.
  destruct (hex_text m) eqn:Hx; [|right; intros df t c [Hx' _]; congruence].
  destruct (JSON_parse (utf8_decode (hex_bytes m))) as [w|e] eqn:Hw; [|right; intros df t c (_ & w & Hw' & _); congruence].
  destruct (DataFixed_of w) as [df|] eqn:Hdf.
  2:{ right. intros df t c (_ & w' & Hw' & Hdf' & _). assert (w' = w) as -> by congruence. congruence. }
  assert (∀ df' t c, decodes_to m df' t c →
    DataFixed_formats df = true ∧ bytes32_of (d_opType df) = Some t ∧ bytes32_of (d_opCommand df) = Some c) as Hall.
  { intros df' t c (_ & w' & Hw' & Hdf' & Hf & Ht & Hc). assert (w' = w) as -> by congruence.
    assert (df' = df) as -> by congruence. done. }
  destruct (DataFixed_formats df) eqn:Hf, (bytes32_of (d_opType df)) as [t|] eqn:Ht,
    (bytes32_of (d_opCommand df)) as [c|] eqn:Hc;
    [|right; intros df' t' c' (E1 & E2 & E3)%Hall; congruence..].
  left. exists df, t, c. split; [done|]. by exists w.
Qed.

(** A valid message is not one of the exceptions. *)
Lemma decodes_validated body m df t c : message_text body m → decodes_to m df t c → ¬ unvalidated body.
Proof using Type.
  intros Hm Hd (m' & Hm' & _ & Hn). rewrite (message_text_unique _ _ _ Hm' Hm) in Hn. by apply (Hn df t c).
Qed.

(** What the contract says about an action is what [processAction] does, unless the
    action is [unvalidated]; then the contract says 400 and the server does not. *)
Lemma action_contract body s e s' : contract env (js "POST") (js "/action") body s e s' →
  (¬ unvalidated body ∧ ∃ r, processAction srv env body s = (Ret r, s') ∧ meets (send origin r) e) ∨
  (unvalidated body ∧ ∀ r s2, processAction srv env body s = (Ret r, s2) → ¬ meets (send origin r) e).
Proof using All.
  assert (∀ v, JSON_parse body = Ret v → (∀ m, message_text body m → ∀ df t c, ¬ decodes_to m df t c) →
    e = AnyText 400 → s' = s →
    (¬ unvalidated body ∧ ∃ r, processAction srv env body s = (Ret r, s') ∧ meets (send origin r) e) ∨
    (unvalidated body ∧ ∀ r s2, processAction srv env body s = (Ret r, s2) → ¬ meets (send origin r) e)) as Hbad.
  { intros v Hv Hn -> ->. destruct (prepared body v s Hv) as [[r Hr]|(m & Hm & Ha)].
    - left. split; [|exists (400, r); split; [exact Hr|by apply meets_status]]. intros (m & Hm & Ha & _). exact (accepted_answer body m s _ _ Hm Ha Hr eq_refl).
    - right. split; [exists m; split; [done|]; split; [done|by apply Hn]|]. intros [st pl] s2 Hr Hmeet.
      apply (accepted_answer body m s _ _ Hm Ha Hr). by apply meets_status in Hmeet. }
  remember (js "POST") as method eqn:Em. remember (js "/action") as path eqn:Ep. intros Hc.
  destruct Hc as [body v a df t c h r s s' Hv Ha Hdec Hd Hh|body m df t c s Hm Hdec Hd|body s [e He]|body v s Hv Hx
    |body m s Hm Hx Hn|body s h Hh|method path body s Hm|method path body s Hp]; subst.
  - left. split; [by eapply decodes_validated; [eapply Action_of_message|]|].
    apply carried_served with t c h; [by apply decodes_to_carries with v|done|done].
  - left. split; [by eapply decodes_validated|]. eexists. split; [by apply (unsupported_answer body m df t c)|apply meets_part].
  - left. split; [intros (m & (v & d & Hv & _) & _); congruence|].
    eexists. rewrite (proj1 (action_rejections srv env body s) e) by done. by split.
  - apply (Hbad v Hv); [|done|done]. intros m Hm df t c [Hx' _]. rewrite (Hx m Hm) in Hx'. discriminate Hx'.
  - pose proof Hm as (v & _ & Hv & _). apply (Hbad v Hv); [|done|done].
    intros m' Hm'. by rewrite (message_text_unique _ _ _ Hm' Hm).
  - discriminate Em.
  - exfalso. revert Hm. apply (bool_decide_eq_false_1 _). reflexivity.
  - exfalso. apply Hp. left.
Qed.

Lemma options_served url chunks s : ∃ resp, serve srv env origin {| http_method := Some (js "OPTIONS"); http_url := Some url;
  http_chunks := Some chunks |} s = (Ret resp, s) ∧ http_status resp = 204.
Proof using Type. eexists. split; reflexivity. Qed.

(** The other routes. *)
Lemma route_contract method path body s e s' : 63 ∉ path → contract env method path body s e s' →
  ¬ (path = js "/action" ∧ method = js "POST") → method ≠ js "OPTIONS" →
  ∃ r, handleRequest srv env method path body s = (Ret r, s') ∧ meets (send origin r) e.
Proof using All.
  intros Hq Hc Hpost Hopt. pose proof (λ q, routing srv env method path q body s Hq) as Hr.
  destruct (Hr []) as (_ & _ & Hs & Hna & Hns & Hn). clear Hr.
  destruct Hc as [| | | | |body s h Hh|method path body s Hm|method path body s Hp]; try by destruct Hpost.
  - eexists. rewrite Hs by done. split; [reflexivity|].
    destruct (main_server_ok srv Hmain) as (_ & Ev & _ & Er). unfold processState. rewrite Er.
    assert (stateVersionHex srv = h) as -> by congruence. apply meets_json.
  - rewrite !elem_of_cons in Hm. destruct Hm as [Hm|[Hm|Hm]]; [..|by apply not_elem_of_nil in Hm];
      apply pair_eq in Hm as [-> ->]; eexists.
    + rewrite Hna by (done || discriminate). by split.
    + rewrite Hns by (done || discriminate). by split.
  - eexists. rewrite Hn by done. by split.
Qed.

(** An [OPTIONS] request is on no route of the contract but "any other path". *)
Lemma options_contract path body s e s' : contract env (js "OPTIONS") path body s e s' → e = AnyText 404.
Proof using Type.
  remember (js "OPTIONS") as method eqn:Em. intros Hc.
  destruct Hc as [| | | | | |method path body s Hm|]; try discriminate Em; [|done].
  subst. exfalso. rewrite !elem_of_cons in Hm.
  destruct Hm as [Hm|[Hm|Hm]]; [..|by apply not_elem_of_nil in Hm]; apply pair_eq in Hm as [E _]; discriminate E.
Qed.

Lemma contract_served method path url chunks s e s' : 63 ∉ path →
  url = path ∨ (∃ query, url = path ++ 63 :: query) →
  contract env method path (utf8_decode (mjoin chunks)) s e s' →
  (∃ resp, serve srv env origin {| http_method := Some method; http_url := Some url;
      http_chunks := Some chunks |} s = (Ret resp, s') ∧ meets resp e) ↔
  ¬ divergent method path (utf8_decode (mjoin chunks)).
Proof using All.
  intros Hpath Hurl Hc. set (body := utf8_decode _) in *.
  destruct (decide (method = js "OPTIONS")) as [->|Hopt].
  { rewrite (options_contract _ _ _ _ _ Hc). split; [|intros []; by left].
    intros (resp & Hr & Hm) _. destruct (options_served url chunks s) as (resp' & Hr' & Hst).
    rewrite Hr' in Hr. apply pair_eq in Hr as [Hr _]. cbn [meets] in Hm.
    assert (http_status resp = 204) as E; [|by rewrite E in Hm].
    rewrite <- Hst. exact (f_equal (λ o, match o with Ret r => http_status r | Throw _ => 0 end) (eq_sym Hr)). }
  rewrite (serve_route method path) by done. fold body.
  destruct (decide (path = js "/action" ∧ method = js "POST")) as [[-> ->]|Hpost].
  - destruct (routing srv env (js "POST") (js "/action") [] body s Hpath) as (_ & -> & _); [|done|done].
    destruct (action_contract body s e s' Hc) as [[Hn (r & -> & Hm)]|[Hu Hn]].
    + split; [|intros _; by eexists]. intros _ [Hd|(_ & _ & Hd)]; [discriminate Hd|done].
    + split; [|intros []; by right]. intros (resp & Hr & Hm) _.
      destruct (processAction srv env body s) as [[r|x] s2]; apply pair_eq in Hr as [Hr _]; [|discriminate Hr].
      apply (Hn r s2 eq_refl). cbn [fmap outcome_fmap] in Hr.
      assert (send origin r = resp) as -> by exact (f_equal (λ o, match o with Ret r => r | Throw _ => resp end) Hr). done.
  - destruct (route_contract method path body s e s' Hpath Hc Hpost Hopt) as (r & -> & Hm).
    split; [intros _|intros _; by eexists]. intros [?|(-> & -> & _)]; [done|by apply Hpost].
Qed.

Lemma action_covered body s :
  (∀ v m df t c, JSON_parse body = Ret v → message_text body m → decodes_to m df t c → is_Some (Action_of v)) →
  ∃ e s', contract env (js "POST") (js "/action") body s e s'.
Proof using All.
  intros Hw. destruct (JSON_parse body) as [v|e] eqn:Hp; [|do 2 eexists; apply invalid_json; by eexists].
  destruct (message_dec body) as [[m Hm]|Hm];
    [|do 2 eexists; eapply invalid_hex; [done|intros m Hm'; by destruct (Hm m)]].
  destruct (hex_text m) eqn:Hx.
  2:{ do 2 eexists. eapply invalid_hex; [done|]. intros m' Hm'. by rewrite (message_text_unique _ _ _ Hm' Hm). }
  destruct (decodes_dec m) as [(df & t & c & Hd)|Hd]; [|do 2 eexists; by eapply invalid_DataFixed].
  destruct (dispatch32 operations t c) as [h|] eqn:Hdis; [|do 2 eexists; by eapply unsupported].
  destruct (Hw v m df t c eq_refl Hm Hd) as [a Ha].
  destruct (dispatch32_In _ t c h Hdis) as (op & Hop & ->).
  destruct (operations_return op env (JStr (default (js "0x") (d_originalMessage df))) s Hop Henv) as [r Hr].
  do 2 eexists. eapply routed; [done|done| |done|rewrite <- Hr; apply surjective_pairing].
  by rewrite (message_text_unique _ _ _ (Action_of_message body v a Hp Ha) Hm).
Qed.

Lemma contract_covers method path body s : covered method path body → ∃ e s', contract env method path body s e s'.
Proof using All.
  intros Hc. destruct (decide (path ∈ [js "/action"; js "/state"])) as [Hp|Hp];
    [|do 2 eexists; by apply other_path].
  destruct Hc as [?|[->|[[-> ->]|(-> & -> & Hw)]]]; [done| | |by apply action_covered].
  - rewrite !elem_of_cons in Hp. destruct Hp as [->|[->|Hp]]; [..|by apply not_elem_of_nil in Hp].
    + do 2 eexists. apply wrong_method. left.
    + do 2 eexists. eapply report. by destruct (main_server_ok srv Hmain) as (_ & ? & _).
  - do 2 eexists. apply wrong_method. right. left.
Qed.
End server.
(** ** Properties *)

(** C10: the server against the extension contract (docs/extension-contract.md,
    sections 2, 4 and 5).  For every request that the contract speaks of, in any
    state and with any query string, the server answers as the contract says, and
    leaves the state that it says, exactly when the request is not one of two kinds:
    an [OPTIONS] request, which gets 204 on every path, while the contract makes no
    exception of it and says 404 on other paths; and an action whose message is not
    the hex of a valid DataFixed but decodes to an object with an [opType], which
    does not get the 400 that the contract says.  So a valid action is routed by its
    bytes32 identifiers, exact pair first and then the type's default, and answered
    with 200, the ActionResult of section 4.4 and the log of 4.6 whether or not the
    handler succeeds; the state report has the bytes32 version; unknown operations
    get 501, every other malformed action 400, GET of /action and POST of /state 405
    and the other paths 404, and none of these changes the state.  And the contract
    has an answer for every request to another path, every GET, every POST of
    /state, and every POST of /action that, if its message is a valid DataFixed, has
    the type Action. *)
Theorem server_conforms `{JsEngine, EvmLaws, Viem, !ViemLaws, Ecies, !EciesLaws}
    srv env origin method path url chunks s :
  main_server = Ret srv → env_ok env → 63 ∉ path →
  url = path ∨ (∃ query, url = path ++ 63 :: query) →
  let body := utf8_decode (mjoin chunks) in
  let answer := serve srv env origin {| http_method := Some method; http_url := Some url;
    http_chunks := Some chunks |} s in
  (∀ e s', contract env method path body s e s' →
     (∃ resp, answer = (Ret resp, s') ∧ meets resp e) ↔ ¬ divergent method path body) ∧
  (method = js "OPTIONS" → ∃ resp, answer = (Ret resp, s) ∧ http_status resp = 204) ∧
  (covered method path body → ∃ e s', contract env method path body s e s').
Proof.
  intros Hmain Henv Hpath Hurl body answer. split; [|split].
  - intros e s' Hc. by eapply (contract_served srv env origin Hmain Henv).
  - intros ->. apply options_served.
  - apply (contract_covers srv env origin Hmain Henv).
Qed.

(** An action for SAY_HELLO, as a Go client writes it: other fields, an upper-case
    digit in the command, [null] for empty slices. *)
Definition hello_action : jsstr := JSON_stringify (JObj [
  (js "data", JObj [(js "id", JStr (js "0x07")); (js "type", JStr (js "direct"));
     (js "submissionTag", JStr (js "submit"));
     (js "message", payload (JObj [
        (js "instructionId", JStr (bytesToHex (replicate 32 7))); (js "teeId", JNull); (js "timestamp", JNum (num_of_Z 5));
        (js "opType", JStr (bytesToHex (identifier32 (js "GREETING"))));
        (js "opCommand", JStr (js "0x5341595F48454C4C4F0000000000000000000000000000000000000000000000"));
        (js "originalMessage", payload (JObj [(js "name", JStr (js "Ada"))]))]))]);
  (js "signatures", JNull)]).

(** The same without the instruction's id. *)
Definition nameless_action : jsstr := demo_body (JStr (js "0x07"))
  [(js "opType", JStr (bytesToHex (identifier32 (js "GREETING"))))].
Definition nameless_message : jsstr :=
  json_to_hex (JObj [(js "opType", JStr (bytesToHex (identifier32 (js "GREETING"))))]).

Lemma hello_valid : ∃ m df t c, message_text (H:=plain_engine) (utf8_decode (mjoin [hello_action])) m ∧
  decodes_to (H:=plain_engine) m df t c.
Proof.
  do 4 eexists. split.
  - do 2 eexists. split; [vm_compute; reflexivity|]. split; vm_compute; reflexivity.
  - split; [vm_compute; reflexivity|]. eexists. split; [vm_compute; reflexivity|].
    split; [vm_compute; reflexivity|]. split; [vm_compute; reflexivity|]. split; vm_compute; reflexivity.
Qed.

Lemma nameless_text : message_text (H:=plain_engine) (utf8_decode (mjoin [nameless_action])) nameless_message.
Proof. do 2 eexists. split; [vm_compute; reflexivity|]. split; vm_compute; reflexivity. Qed.

Lemma nameless_invalid df t c : ¬ decodes_to (H:=plain_engine) nameless_message df t c.
Proof.
  intros (_ & w & Hw & Hdf & _).
  assert (JSON_parse (H:=plain_engine) (utf8_decode (hex_bytes nameless_message)) =
    Ret (JObj [(js "opType", JStr (bytesToHex (identifier32 (js "GREETING"))))])) as E by (vm_compute; reflexivity).
  rewrite E in Hw. assert (w = JObj [(js "opType", JStr (bytesToHex (identifier32 (js "GREETING"))))]) as -> by congruence.
  discriminate Hdf.
Qed.

Lemma nameless_accepted : accepted (H:=plain_engine) nameless_message.
Proof. do 2 eexists. split; [vm_compute; reflexivity|]. split; [vm_compute; reflexivity|]. eexists. vm_compute. reflexivity. Qed.

Lemma server_conforms_witness :
  ∃ srv a df r s', demo_server = Ret srv ∧ r.1.2 = 1 ∧
    (∃ resp, serve (H:=plain_engine) srv demo_env None {| http_method := Some (js "POST");
        http_url := Some (js "/action?x"); http_chunks := Some [hello_action] |} init_state = (Ret resp, s') ∧
      meets resp (ExactJson 200 (ActionResult_json (result_of a df r)))) ∧
    ¬ ∃ resp, serve (H:=plain_engine) srv demo_env None {| http_method := Some (js "POST");
        http_url := Some (js "/action"); http_chunks := Some [nameless_action] |} init_state = (Ret resp, init_state) ∧
      meets resp (AnyText 400).
Proof.
  assert (63 ∉ js "/action") as Hq by (apply (bool_decide_eq_true_1 _); vm_compute; reflexivity).
  assert (∃ srv, demo_server = Ret srv) as [srv Hsrv] by (eexists; reflexivity).
  exists srv. do 4 eexists. split; [exact Hsrv|]. split; [|split].
  2:{ apply (server_conforms (H:=plain_engine) srv demo_env None (js "POST") (js "/action") (js "/action?x")
        [hello_action] init_state Hsrv demo_env_ok Hq (or_intror (ex_intro _ (js "x") eq_refl))).
      - eapply (routed (H:=plain_engine)); [vm_compute; reflexivity|vm_compute; reflexivity| | |].
        + split; [vm_compute; reflexivity|]. eexists. split; [vm_compute; reflexivity|].
          split; [vm_compute; reflexivity|]. split; [vm_compute; reflexivity|]. split; vm_compute; reflexivity.
        + unfold dispatch32, operations. cbn [find32].
          rewrite decide_True by (split; vm_compute; reflexivity). reflexivity.
        + vm_compute. reflexivity.
      - destruct hello_valid as (m & df & t & c & Hm & Hd). intros [Hx|(_ & _ & Hu)]; [discriminate Hx|].
        exact (decodes_validated (H:=plain_engine) _ m df t c Hm Hd Hu). }
  - reflexivity.
  - intros Hr. apply (server_conforms (H:=plain_engine) srv demo_env None (js "POST") (js "/action") (js "/action")
      [nameless_action] init_state Hsrv demo_env_ok Hq (or_introl eq_refl)) in Hr.
    + apply Hr. right. split; [reflexivity|]. split; [reflexivity|].
      exists nameless_message. split; [exact nameless_text|]. split; [exact nameless_accepted|exact nameless_invalid].
    + eapply (invalid_DataFixed (H:=plain_engine)); [exact nameless_text|vm_compute; reflexivity|exact nameless_invalid].
Defined.
