(* ===== verification/InstructionSender.v ===== *)
(** * The instruction sender ([contracts/InstructionSender.sol])

    The contract through which anyone asks the enclave's application for a
    greeting: it finds its extension id in the registry, once, and sends
    instructions to a machine of its extension.  The two registries are contracts
    of Flare, behind the interface [TeeRegistries]: their state is a parameter, a
    view function may revert, and [sendInstructions] may change their state.

    A call back from [sendInstructions] needs no model: the sender writes its storage in
    [setExtensionId] only, which reverts once the id is set, and it sends nothing
    before that.

    [extension_id_final] is about the id in all reachable states,
    [greetings_delivered] follows an instruction from the transaction to the
    server's answer. *)

From S2P Require Import Prelude JsString JsNumber Utf8 Json JsonFacts Encoding Wire Framework Abi Instances Protocol StreamHandlers StreamProps Handlers Server Conformance.

(** ** The registries ([contracts/interfaces/]) *)

Record TeeInstructionParams := {
  opType : Z;
  opCommand : Z;
  message : bytes;
  cosigners : list Z;
  cosignersThreshold : Z;
  claimBackAddress : Z;
}.

(** The first argument is the address that is called. *)
Class TeeRegistries := {
  registry : Type;
  code_length : Z → registry → Z;
  nextPublicExtensionId : Z → registry → outcome Z;
  getTeeExtensionInstructionsSender : Z → registry → Z → outcome Z;
  getRandomTeeIds : Z → registry → Z → Z → outcome (list Z);
  sendInstructions : Z → registry → Z → Z → list Z → TeeInstructionParams → outcome (bytes * registry);
}.

(** ** The contract *)

(** [bytes32("...")]: the text, then zeros. *)
Definition bytes32_literal (s : string) : Z := be_value (pad32 (utf8_encode (js s))).

Definition OP_TYPE_GREETING : Z := bytes32_literal "GREETING".
Definition OP_COMMAND_SAY_HELLO : Z := bytes32_literal "SAY_HELLO".
Definition OP_COMMAND_SAY_GOODBYE : Z := bytes32_literal "SAY_GOODBYE".
Definition FIRST_PUBLIC_EXTENSION_ID : Z := 0x10000.

Record Storage := {
  TEE_EXTENSION_REGISTRY : Z;
  TEE_MACHINE_REGISTRY : Z;
  extensionId : Z;
}.

(** [msg.sender] and [msg.value]. *)
Record Msg := { sender : Z; value : Z }.

Section sender.
Context `{TeeRegistries}.

Record World := { self : Storage; registries : registry }.

Definition constructor (extensions machines : Z) (r : registry) : outcome Storage :=
  require! negb (extensions =? 0) else js "TeeExtensionRegistry cannot be zero address" in
  require! negb (machines =? 0) else js "TeeMachineRegistry cannot be zero address" in
  require! code_length extensions r >? 0 else js "TeeExtensionRegistry has no code" in
  require! code_length machines r >? 0 else js "TeeMachineRegistry has no code" in
  Ret {| TEE_EXTENSION_REGISTRY := extensions; TEE_MACHINE_REGISTRY := machines; extensionId := 0 |}.

Context (this : Z).

(** The loop of [setExtensionId] from [i] on, with [n] ids left. *)
Fixpoint find_extension (w : World) (n : nat) (i : Z) : outcome Z :=
  match n with
  | O => revert (js "Extension ID not found.")
  | S n' =>
      a ← getTeeExtensionInstructionsSender (TEE_EXTENSION_REGISTRY (self w)) (registries w) i;
      if a =? this then Ret i else find_extension w n' (i + 1)
  end.

Definition setExtensionId (w : World) : outcome World :=
  let st := self w in
  require! extensionId st =? 0 else js "Extension ID already set." in
  c ← nextPublicExtensionId (TEE_EXTENSION_REGISTRY st) (registries w);
  i ← find_extension w (Z.to_nat (c - FIRST_PUBLIC_EXTENSION_ID)) FIRST_PUBLIC_EXTENSION_ID;
  Ret {| self := {| TEE_EXTENSION_REGISTRY := TEE_EXTENSION_REGISTRY st;
                    TEE_MACHINE_REGISTRY := TEE_MACHINE_REGISTRY st; extensionId := i |};
         registries := registries w |}.

Definition getExtensionId (st : Storage) : outcome Z :=
  require! negb (extensionId st =? 0) else js "Extension ID is not set." in
  Ret (extensionId st).

Definition sendSayHello (m : Msg) (message : bytes) (w : World) : outcome World :=
  let st := self w in
  id ← getExtensionId st;
  teeIds ← getRandomTeeIds (TEE_MACHINE_REGISTRY st) (registries w) id 1;
  sent ← sendInstructions (TEE_EXTENSION_REGISTRY st) (registries w) this (value m) teeIds
    {| opType := OP_TYPE_GREETING; opCommand := OP_COMMAND_SAY_HELLO; message := message;
       cosigners := []; cosignersThreshold := 0; claimBackAddress := sender m |};
  Ret {| self := st; registries := sent.2 |}.

(** Strings of a transaction are bytes; [abi.encode] writes them as they are. *)
Definition sendSayGoodbye (m : Msg) (name reason : bytes) (w : World) : outcome World :=
  let st := self w in
  id ← getExtensionId st;
  teeIds ← getRandomTeeIds (TEE_MACHINE_REGISTRY st) (registries w) id 1;
  sent ← sendInstructions (TEE_EXTENSION_REGISTRY st) (registries w) this (value m) teeIds
    {| opType := OP_TYPE_GREETING; opCommand := OP_COMMAND_SAY_GOODBYE;
       message := abi_encode_strings name reason;
       cosigners := []; cosignersThreshold := 0; claimBackAddress := sender m |};
  Ret {| self := st; registries := sent.2 |}.

(** A step of the world: a transaction on the contract, or anything that happens to
    the registries. *)
Inductive step : World → World → Prop :=
| step_set w w' : setExtensionId w = Ret w' → step w w'
| step_hello m msg w w' : sendSayHello m msg w = Ret w' → step w w'
| step_goodbye m name reason w w' : sendSayGoodbye m name reason w = Ret w' → step w w'
| step_registries w r : step w {| self := self w; registries := r |}.

(** ** The extension id *)

(** [i] is the least public id that the registry gives to this contract. *)
Definition least_id (w : World) (i : Z) : Prop :=
  ∃ c, nextPublicExtensionId (TEE_EXTENSION_REGISTRY (self w)) (registries w) = Ret c ∧
    FIRST_PUBLIC_EXTENSION_ID ≤ i < c ∧
    getTeeExtensionInstructionsSender (TEE_EXTENSION_REGISTRY (self w)) (registries w) i = Ret this ∧
    ∀ j, FIRST_PUBLIC_EXTENSION_ID ≤ j < i →
      ∃ a, getTeeExtensionInstructionsSender (TEE_EXTENSION_REGISTRY (self w)) (registries w) j = Ret a ∧ a ≠ this.

Lemma find_extension_Ret w n i k : find_extension w n i = Ret k ↔
  i ≤ k < i + Z.of_nat n ∧
  getTeeExtensionInstructionsSender (TEE_EXTENSION_REGISTRY (self w)) (registries w) k = Ret this ∧
  ∀ j, i ≤ j < k →
    ∃ a, getTeeExtensionInstructionsSender (TEE_EXTENSION_REGISTRY (self w)) (registries w) j = Ret a ∧ a ≠ this.
Proof.
  revert i. induction n as [|n IH]; intros i; cbn [find_extension].
  { split; [done|lia]. }
  rewrite bind_Ret_iff. setoid_rewrite Nat2Z.inj_succ. split.
  - intros (a & Ha & E). destruct (Z.eqb_spec a this) as [->|Hne].
    + injection E as <-. split; [lia|]. split; [done|lia].
    + apply IH in E as (Hk & Hg & Hj). split; [lia|]. split; [done|]. intros j Hij.
      destruct (decide (j = i)) as [->|]; [by exists a|apply Hj; lia].
  - intros (Hk & Hg & Hj). destruct (decide (i = k)) as [->|Hik].
    + exists this. by rewrite Z.eqb_refl.
    + destruct (Hj i ltac:(lia)) as (a & Ha & Hne). exists a. split; [done|].
      rewrite (proj2 (Z.eqb_neq _ _) Hne). apply IH. split; [lia|]. split; [done|]. intros. apply Hj. lia.
Qed.

Lemma setExtensionId_Ret w w' : setExtensionId w = Ret w' ↔
  extensionId (self w) = 0 ∧ ∃ i, least_id w i ∧
    w' = {| self := {| TEE_EXTENSION_REGISTRY := TEE_EXTENSION_REGISTRY (self w);
                       TEE_MACHINE_REGISTRY := TEE_MACHINE_REGISTRY (self w); extensionId := i |};
            registries := registries w |}.
Proof.
  unfold setExtensionId, least_id. destruct (Z.eqb_spec (extensionId (self w)) 0) as [E0|]; [|naive_solver].
  rewrite bind_Ret_iff. setoid_rewrite bind_Ret_iff. setoid_rewrite find_extension_Ret. split.
  - intros (c & Hc & i & (Hi & Hg & Hj) & [= <-]). split; [done|]. exists i. split; [|done].
    exists c. split; [done|]. split; [lia|done].
  - intros (_ & i & (c & Hc & Hi & Hg & Hj) & ->). exists c. split; [done|]. exists i.
    split; [|done]. split; [lia|done].
Qed.

(** The instruction that is sent for a command with a message, by [m]. *)
Definition instruction (command : Z) (msg : bytes) (m : Msg) : TeeInstructionParams :=
  {| opType := OP_TYPE_GREETING; opCommand := command; message := msg; cosigners := [];
     cosignersThreshold := 0; claimBackAddress := sender m |}.

(** Exactly this instruction goes, with the whole value, to a random machine of
    the extension, and nothing else happens. *)
Definition sends (p : TeeInstructionParams) (m : Msg) (w w' : World) : Prop :=
  extensionId (self w) ≠ 0 ∧ self w' = self w ∧
  ∃ teeIds iid,
    getRandomTeeIds (TEE_MACHINE_REGISTRY (self w)) (registries w) (extensionId (self w)) 1 = Ret teeIds ∧
    sendInstructions (TEE_EXTENSION_REGISTRY (self w)) (registries w) this (value m) teeIds p
      = Ret (iid, registries w').

Lemma send_sends p m w w' :
  (id ← getExtensionId (self w);
   teeIds ← getRandomTeeIds (TEE_MACHINE_REGISTRY (self w)) (registries w) id 1;
   sent ← sendInstructions (TEE_EXTENSION_REGISTRY (self w)) (registries w) this (value m) teeIds p;
   Ret {| self := self w; registries := sent.2 |}) = Ret w' ↔ sends p m w w'.
Proof.
  unfold getExtensionId, sends. destruct (Z.eqb_spec (extensionId (self w)) 0) as [E|E];
    [split; [discriminate|naive_solver]|].
  cbn [negb mbind outcome_bind]. rewrite bind_Ret_iff. setoid_rewrite bind_Ret_iff. split.
  - intros (ids & Hids & [iid r] & Hs & [= <-]). split; [done|]. split; [done|]. by exists ids, iid.
  - intros (_ & Es & ids & iid & Hids & Hs). exists ids. split; [done|]. eexists. split; [done|].
    destruct w' as [s' r']. cbn in *. by subst.
Qed.

Lemma sendSayHello_Ret m msg w w' :
  sendSayHello m msg w = Ret w' ↔ sends (instruction OP_COMMAND_SAY_HELLO msg m) m w w'.
Proof. apply send_sends. Qed.

Lemma sendSayGoodbye_Ret m name reason w w' : sendSayGoodbye m name reason w = Ret w' ↔
  sends (instruction OP_COMMAND_SAY_GOODBYE (abi_encode_strings name reason) m) m w w'.
Proof. apply send_sends. Qed.

(** The storage changes once: the registries' addresses never do, the id not once
    it is set. *)
Lemma step_storage w w' : step w w' →
  TEE_EXTENSION_REGISTRY (self w') = TEE_EXTENSION_REGISTRY (self w) ∧
  TEE_MACHINE_REGISTRY (self w') = TEE_MACHINE_REGISTRY (self w) ∧
  (extensionId (self w') = extensionId (self w) ∨
   extensionId (self w) = 0 ∧ least_id w (extensionId (self w'))).
Proof.
  intros [w1 w2 E|m msg w1 w2 E|m name reason w1 w2 E|w1 r].
  - apply setExtensionId_Ret in E as (E0 & i & Hi & ->). split; [done|]. split; [done|]. right. done.
  - apply sendSayHello_Ret in E as (_ & -> & _). auto.
  - apply sendSayGoodbye_Ret in E as (_ & -> & _). auto.
  - auto.
Qed.

Lemma steps_storage w w' : rtc step w w' →
  TEE_EXTENSION_REGISTRY (self w') = TEE_EXTENSION_REGISTRY (self w) ∧
  TEE_MACHINE_REGISTRY (self w') = TEE_MACHINE_REGISTRY (self w) ∧
  (extensionId (self w') = extensionId (self w) ∨
   extensionId (self w) = 0 ∧ ∃ w1, rtc step w w1 ∧ least_id w1 (extensionId (self w'))).
Proof.
  induction 1 as [w|w w1 w' Hs Hr (I1 & I2 & I3)]; [auto|].
  pose proof (step_storage w w1 Hs) as (S1 & S2 & S3). split; [congruence|]. split; [congruence|].
  destruct S3 as [S3|(S0 & Hl)], I3 as [I3|(I0 & w2 & Hr2 & Hl2)].
  - left. congruence.
  - right. split; [congruence|]. exists w2. split; [by eapply rtc_l|done].
  - right. split; [done|]. exists w. split; [done|]. by rewrite I3.
  - right. split; [done|]. exists w2. split; [by eapply rtc_l|done].
Qed.
End sender.

(** ** From the transaction to the answer *)

(** The body is an action that carries the instruction: its DataFixed has the
    instruction's identifiers and its message. *)
Definition carries_instruction `{JsEngine} (body : jsstr) (a : Action) (df : DataFixed)
    (p : TeeInstructionParams) : Prop :=
  carries body a df (word (opType p)) (word (opCommand p)) ∧
  ∃ h, d_originalMessage df = Some h ∧ hexStringToBytes h = Ret (message p).

(** Every such action that is posted to the server is answered with success and
    data that decode to [v], and leaves the state [s']. *)
Definition answered `{JsEngine} (srv : Server) (env : Env) (origin : option jsstr)
    (p : TeeInstructionParams) (s : AppState) (v : json) (s' : AppState) : Prop :=
  ∀ chunks a df, carries_instruction (utf8_decode (mjoin chunks)) a df p →
  ∃ resp data, serve srv env origin {| http_method := Some (js "POST"); http_url := Some (js "/action");
      http_chunks := Some chunks |} s = (Ret resp, s') ∧
    meets resp (ExactJson 200 (ActionResult_json (result_of a df (Some data, 1, None)))) ∧
    response_is data v.

Lemma word_literal s : is_units (js s) → (length (utf8_encode (js s)) ≤ 32)%nat →
  word (bytes32_literal s) = identifier32 (js s).
Proof.
  intros Hu Hl. unfold word, bytes32_literal, identifier32. rewrite <- (pad32_length (utf8_encode (js s))) by done.
  apply be_bytes_be_value, pad32_bytes. by apply utf8_encode_bytes.
Qed.

Section delivery.
Context `{JsEngine, EvmLaws, Viem, !ViemLaws, Ecies, !EciesLaws}.
Context (srv : Server) (env : Env) (origin : option jsstr).
Context (Hmain : main_server = Ret srv) (Henv : env_ok env).

(** An instruction is answered by the handler of its command. *)
Lemma instruction_answered command msg m s v s' h :
  dispatch32 operations (word OP_TYPE_GREETING) (word command) = Some h →
  (∀ hex, hexStringToBytes hex = Ret msg →
     ∃ data, h env (JStr hex) s = (Ret (Some data, 1, None), s') ∧ response_is data v) →
  answered srv env origin (instruction command msg m) s v s'.
Proof using All.
  intros Hd Hh chunks a df (Hc & hex & Ehex & Hhex). destruct (Hh hex Hhex) as (data & E & Hdata).
  assert (63 ∉ js "/action") as Hq by (apply (bool_decide_eq_true_1 _); vm_compute; reflexivity).
  set (body := utf8_decode (mjoin chunks)) in *.
  destruct (carried_served srv env origin Hmain Henv body a df _ _ h (Some data, 1, None) s s' Hc Hd) as (r & Hr & Hm);
    [by rewrite Ehex|].
  exists (send origin r), data. split; [|split; [exact Hm|exact Hdata]].
  rewrite (serve_route srv env origin Hmain Henv (js "POST") (js "/action") (js "/action") chunks s Hq
    ltac:(discriminate) (or_introl eq_refl)). fold body.
  destruct (routing srv env (js "POST") (js "/action") [] body s Hq) as (_ & -> & _); [|reflexivity|reflexivity].
  rewrite Hr. reflexivity.
Qed.

Lemma dispatch_hello :
  dispatch32 operations (word OP_TYPE_GREETING) (word OP_COMMAND_SAY_HELLO) = Some handleSayHello.
Proof using Type.
  unfold OP_TYPE_GREETING, OP_COMMAND_SAY_HELLO. rewrite !word_literal by (apply js_is_units || (vm_compute; lia)).
  unfold dispatch32, operations. cbn [find32]. by rewrite decide_True.
Qed.

Lemma dispatch_goodbye :
  dispatch32 operations (word OP_TYPE_GREETING) (word OP_COMMAND_SAY_GOODBYE) = Some handleSayGoodbye.
Proof using Type.
  unfold OP_TYPE_GREETING, OP_COMMAND_SAY_GOODBYE. rewrite !word_literal by (apply js_is_units || (vm_compute; lia)).
  unfold dispatch32, operations. cbn [find32].
  rewrite decide_False; [by rewrite decide_True|].
  intros [_ E]. revert E. apply (bool_decide_eq_false_1 _). vm_compute. reflexivity.
Qed.

Lemma hello_request_json name hex : is_units name → name ≠ [] →
  hexStringToBytes hex = Ret (utf8_encode (JSON_stringify (JObj [(js "name", JStr name)]))) →
  hello_request (JStr hex) name.
Proof using Type.
  intros Hu Hne Hhex. eexists _, [(js "name", JStr name)]. split; [exact Hhex|].
  split; [|split; [|by split]].
  - apply JSON_utf8_roundtrip. cbn [json_ok forallb fst snd fmap list_fmap].
    by rewrite (bool_decide_eq_true_2 (is_units name)).
  - intros k Hk. by apply list_elem_of_singleton in Hk.
Qed.
End delivery.

(** ** Properties *)

(** C25: the extension id is found once and for good.  In every state that can
    follow a deployment, whatever the registries do in between, the registries'
    addresses are those of the deployment, both of contracts, and the id is unset,
    or at least 0x10000 and the least public id that the registry gave to this
    contract in some earlier state; once set it never changes, and nothing is sent
    before.  [setExtensionId] succeeds exactly when the id is unset and the registry
    has one for this contract, below which it answers for every id; then it stores
    the least. *)
Theorem extension_id_final `{TeeRegistries} this extensions machines r0 st w :
  constructor extensions machines r0 = Ret st →
  rtc (step this) {| self := st; registries := r0 |} w →
  TEE_EXTENSION_REGISTRY (self w) = extensions ∧ extensions ≠ 0 ∧ 0 < code_length extensions r0 ∧
  TEE_MACHINE_REGISTRY (self w) = machines ∧ machines ≠ 0 ∧ 0 < code_length machines r0 ∧
  (extensionId (self w) = 0 ∨ 0x10000 ≤ extensionId (self w) ∧ ∃ w1,
     rtc (step this) {| self := st; registries := r0 |} w1 ∧ least_id this w1 (extensionId (self w))) ∧
  (∀ w', rtc (step this) w w' → extensionId (self w) ≠ 0 → extensionId (self w') = extensionId (self w)) ∧
  (extensionId (self w) = 0 → ∀ m name reason msg,
     throws (sendSayHello this m msg w) ∧ throws (sendSayGoodbye this m name reason w)) ∧
  (returns (setExtensionId this w) ↔ extensionId (self w) = 0 ∧ ∃ i, least_id this w i) ∧
  (∀ w', setExtensionId this w = Ret w' → least_id this w (extensionId (self w')) ∧ registries w' = registries w).
Proof.
  unfold constructor. intros Hc Hr.
  destruct (Z.eqb_spec extensions 0) as [|He]; [done|]. destruct (Z.eqb_spec machines 0) as [|Hm]; [done|].
  destruct (Z.gtb_spec (code_length extensions r0) 0) as [Hce|]; [|done].
  destruct (Z.gtb_spec (code_length machines r0) 0) as [Hcm|]; [|done]. cbn [negb] in Hc. injection Hc as <-.
  destruct (steps_storage this _ _ Hr) as (E1 & E2 & E3). cbn [self TEE_EXTENSION_REGISTRY TEE_MACHINE_REGISTRY extensionId] in *.
  do 6 (split; [done|]). split; [|split; [|split; [|split]]].
  - destruct E3 as [E3|(_ & w1 & Hr1 & Hl)]; [by left|right].
    split; [destruct Hl as (c & _ & Hi & _); unfold FIRST_PUBLIC_EXTENSION_ID in Hi; lia|by exists w1].
  - intros w' Hr' Hne. destruct (steps_storage this _ _ Hr') as (_ & _ & [E|(E & _)]); done.
  - intros E0 m name reason msg. unfold sendSayHello, sendSayGoodbye, getExtensionId. rewrite E0.
    split; by eexists.
  - split.
    + intros [w' (E0 & i & Hi & _)%setExtensionId_Ret]. eauto.
    + intros (E0 & i & Hi). eexists. apply setExtensionId_Ret. eauto.
  - intros w' (E0 & i & Hi & ->)%setExtensionId_Ret. done.
Qed.

(** C24: a greeting travels from the chain to the enclave's answer.  A transaction
    of [sendSayHello] with the JSON of a name, or of [sendSayGoodbye] with a name and
    a reason, all well-formed text without a leading byte-order mark and the name not
    empty, that succeeds has sent exactly one instruction, with the whole value,
    to one random machine of the extension, and for the caller to claim back.
    Whatever action then carries this instruction to the TypeScript server, with
    whatever other fields, is answered with success: the data greet this name, or
    bid farewell with this reason, letter for letter, with the next number, and the
    state keeps both.  Two encodings written separately, Solidity's [abi.encode] and
    the handler's [decodeAbiParameters], and two pairs of bytes32 identifiers, agree. *)
Theorem greetings_delivered `{JsEngine, EvmLaws, Viem, !ViemLaws, Ecies, !EciesLaws, TeeRegistries}
    srv env origin this m w w' s name :
  main_server = Ret srv → env_ok env → state_ok s → plain_text name → name ≠ [] →
  let hello := utf8_encode (JSON_stringify (JObj [(js "name", JStr name)])) in
  (sendSayHello this m hello w = Ret w' →
     let p := instruction OP_COMMAND_SAY_HELLO hello m in
     let n := num_incr (greetingCount s) in
     sends this p m w w' ∧
     answered srv env origin p s
       (JObj [(js "greeting", JStr (js "Hello, " ++ name ++ js "! Welcome to Flare Confidential Compute."));
              (js "greetingNumber", JNum (num_of_Z n))])
       {| greetingCount := n; lastGreeting := greet name; farewellCount := farewellCount s;
          lastFarewell := lastFarewell s; authCount := authCount s |}) ∧
  (∀ reason, plain_text reason →
     Z.of_nat (length (abi_encode_strings (utf8_encode name) (utf8_encode reason))) < 2 ^ 53 →
     sendSayGoodbye this m (utf8_encode name) (utf8_encode reason) w = Ret w' →
     let p := instruction OP_COMMAND_SAY_GOODBYE
       (abi_encode_strings (utf8_encode name) (utf8_encode reason)) m in
     let n := num_incr (farewellCount s) in
     sends this p m w w' ∧
     answered srv env origin p s
       (JObj [(js "farewell", JStr (js "Goodbye, " ++ name ++ js "! Reason: " ++ reason));
              (js "farewellNumber", JNum (num_of_Z n))])
       {| greetingCount := greetingCount s; lastGreeting := lastGreeting s; farewellCount := n;
          lastFarewell := bid_farewell name reason; authCount := authCount s |}).
Proof.
  intros Hmain Henv Hs Hname Hne hello. split.
  - intros Hw%sendSayHello_Ret p n. split; [done|].
    eapply (instruction_answered srv env origin Hmain Henv); [apply dispatch_hello|]. intros hex Hhex.
    apply (proj1 (handleSayHello_correct env (JStr hex) s Hs)).
    apply hello_request_json; [apply Hname|done|exact Hhex].
  - intros reason Hreason Hsize Hw%sendSayGoodbye_Ret p n. split; [done|].
    eapply (instruction_answered srv env origin Hmain Henv); [apply dispatch_goodbye|]. intros hex Hhex.
    apply (proj1 (handleSayGoodbye_correct env (JStr hex) s Hs)).
    exists (abi_encode_strings (utf8_encode name) (utf8_encode reason)). split; [done|].
    split; [by apply decode_strings|done].
Qed.

(** ** Concrete registries *)

(** The owners of the ids, by id, and the instructions that were sent. *)
Record demo_registry := { ids : list (Z * Z); instructions : list TeeInstructionParams }.

#[local] Instance demo_registries : TeeRegistries := {|
  registry := demo_registry;
  code_length _ _ := 100;
  nextPublicExtensionId _ r := Ret (0x10000 + Z.of_nat (length (ids r)));
  getTeeExtensionInstructionsSender _ r i :=
    Ret (match list_find (λ e : Z * Z, e.1 = i) (ids r) with Some (_, (_, a)) => a | None => 0 end);
  getRandomTeeIds _ _ _ n := Ret (replicate (Z.to_nat n) 77);
  sendInstructions _ r _ _ _ p := Ret ([], {| ids := ids r; instructions := instructions r ++ [p] |});
|}.

Definition demo_deployed : Storage :=
  {| TEE_EXTENSION_REGISTRY := 1; TEE_MACHINE_REGISTRY := 2; extensionId := 0 |}.
Definition demo_ids : demo_registry := {| ids := [(0x10000, 5); (0x10001, 7)]; instructions := [] |}.
Definition demo_world (id : Z) : World :=
  {| self := {| TEE_EXTENSION_REGISTRY := 1; TEE_MACHINE_REGISTRY := 2; extensionId := id |};
     registries := demo_ids |}.

Lemma extension_id_final_witness :
  constructor 1 2 demo_ids = Ret demo_deployed ∧ setExtensionId 7 (demo_world 0) = Ret (demo_world 0x10001) ∧
  ∀ w', rtc (step 7) (demo_world 0x10001) w' → extensionId (self w') = 0x10001.
Proof.
  split; [reflexivity|]. split; [reflexivity|].
  refine (λ w' Hr, proj1 (proj2 (proj2 (proj2 (proj2 (proj2 (proj2 (proj2
    (extension_id_final 7 1 2 demo_ids demo_deployed (demo_world 0x10001) _ _)))))))) w' Hr _).
  - reflexivity.
  - apply rtc_once. apply (step_set 7 (demo_world 0)). reflexivity.
  - discriminate.
Defined.

Lemma plain_ascii s : forallb (λ c, (0 <? c) && (c <? 128)) s = true → plain_text s.
Proof.
  rewrite forallb_Forall. intros Hs. split.
  - apply wf_text_ascii. eapply Forall_impl; [exact Hs|]. intros c. cbn. lia.
  - destruct Hs as [|c s Hc _]; [done|]. cbn in *. split; intros [= ->]; lia.
Qed.

Lemma greetings_delivered_witness :
  ∃ srv w', demo_server = Ret srv ∧
    sendSayGoodbye 7 {| sender := 9; value := 3 |} (js "Ada") (js "done") (demo_world 0x10001) = Ret w' ∧
    ∃ p s', answered (H:=plain_engine) srv demo_env None p init_state
      (JObj [(js "farewell", JStr (js "Goodbye, Ada! Reason: done")); (js "farewellNumber", JNum (num_of_Z 1))]) s'.
Proof.
  assert (∃ srv, demo_server = Ret srv) as [srv Hsrv] by (eexists; reflexivity).
  set (r := {| ids := ids demo_ids; instructions := [instruction OP_COMMAND_SAY_GOODBYE
    (abi_encode_strings (js "Ada") (js "done")) {| sender := 9; value := 3 |}] |}).
  set (w' := {| self := self (demo_world 0x10001); registries := r : @registry demo_registries |}).
  exists srv, w'. split; [exact Hsrv|]. split; [reflexivity|]. do 2 eexists.
  destruct (greetings_delivered (H:=plain_engine) srv demo_env None 7 {| sender := 9; value := 3 |}
    (demo_world 0x10001) w' init_state (js "Ada")) as [_ Hbye]; [..|apply (Hbye (js "done"))].
  - exact Hsrv.
  - exact demo_env_ok.
  - repeat split; try (cbn; lia); constructor.
  - apply plain_ascii. reflexivity.
  - discriminate.
  - apply plain_ascii. reflexivity.
  - vm_compute. reflexivity.
  - reflexivity.
Defined.
