(* ===== verification/Queue.v ===== *)
(** * The job queue of the server ([Server.serialize] in [typescript/src/base/server.ts])

    [serialize(fn)] chains [fn] on the promise of the previous job, whether that
    one resolved or rejected.  A job is a resumption: it computes on the shared
    state, may suspend at every [await], and settles with a result or a rejection.
    [qstep] interleaves submissions, starts and the steps of the jobs; the theorems
    show that jobs never overlap, that they take effect in the order of their
    submission as if run one after another, and that a rejected job does not keep
    the next ones from running. *)

From S2P Require Import Prelude.

Section queue.
Context {S A : Type}.

(** An asynchronous computation on the state [S]. *)
Inductive job : Type :=
| Settle (r : outcome A)
| Await (f : S → S * job).

(** The result and the final state of a job that runs undisturbed. *)
Inductive runs : job → S → outcome A → S → Prop :=
| runs_settle r s : runs (Settle r) s r s
| runs_await f s r s' : runs (f s).2 (f s).1 r s' → runs (Await f) s r s'.

Inductive status : Type :=
| Waiting (fn : job)
| Running (j : job)
| Settled (r : outcome A).

(** The shared state and the promises made so far, oldest first. *)
Record queue := Queue { q_state : S; q_jobs : list status }.

(** The promise the next job is chained on has settled: [this.queue.then(fn, fn)]
    runs [fn] in either case. *)
Definition previous_settled (jobs : list status) (i : nat) : Prop :=
  i = 0%nat ∨ ∃ r, jobs !! (i - 1)%nat = Some (Settled r).

Inductive qstep : queue → queue → Prop :=
| q_start s jobs i fn :
    jobs !! i = Some (Waiting fn) → previous_settled jobs i →
    qstep (Queue s jobs) (Queue s (<[i := Running fn]> jobs))
| q_await s jobs i f :
    jobs !! i = Some (Running (Await f)) →
    qstep (Queue s jobs) (Queue (f s).1 (<[i := Running (f s).2]> jobs))
| q_settle s jobs i r :
    jobs !! i = Some (Running (Settle r)) →
    qstep (Queue s jobs) (Queue s (<[i := Settled r]> jobs)).

(** [serialize(fn)]: a new promise at the end of the chain. *)
Definition serialize (fn : job) (q : queue) : queue :=
  Queue (q_state q) (q_jobs q ++ [Waiting fn]).

(** Reachable from the state [s0] with the given submissions, oldest first. *)
Inductive reached (s0 : S) : list job → queue → Prop :=
| reached_init : reached s0 [] (Queue s0 [])
| reached_submit fns q fn : reached s0 fns q → reached s0 (fns ++ [fn]) (serialize fn q)
| reached_step fns q q' : reached s0 fns q → qstep q q' → reached s0 fns q'.

(** Running jobs one after another. *)
Inductive runs_all : list job → S → list (outcome A) → S → Prop :=
| runs_nil s : runs_all [] s [] s
| runs_cons j js s r s' rs s'' :
    runs j s r s' → runs_all js s' rs s'' → runs_all (j :: js) s (r :: rs) s''.

(** ** Lemmas *)

Lemma runs_all_snoc fns s0 rs s fn r s' :
  runs_all fns s0 rs s → runs fn s r s' → runs_all (fns ++ [fn]) s0 (rs ++ [r]) s'.
Proof. induction 1; intros; cbn; econstructor; eauto using runs_all. Qed.

(** What a running job still has to do, from the state it started in. *)
Inductive resumes (fn : job) (s1 : S) : job → S → Prop :=
| resumes_refl : resumes fn s1 fn s1
| resumes_await f s : resumes fn s1 (Await f) s → resumes fn s1 (f s).2 (f s).1.

Lemma resumes_runs fn s1 j s r s' : resumes fn s1 j s → runs j s r s' → runs fn s1 r s'.
Proof. induction 1; intros; [done|]. eauto using runs. Qed.

(** A prefix of settled jobs with the results of the sequential run, at most one
    running job, and jobs that have not begun. *)
Inductive qinv (s0 : S) (fns : list job) : queue → Prop :=
| inv_idle done rest rs s :
    fns = done ++ rest → runs_all done s0 rs s →
    qinv s0 fns (Queue s ((Settled <$> rs) ++ (Waiting <$> rest)))
| inv_busy done fn rest rs s1 s j :
    fns = done ++ fn :: rest → runs_all done s0 rs s1 → resumes fn s1 j s →
    qinv s0 fns (Queue s ((Settled <$> rs) ++ Running j :: (Waiting <$> rest))).

Lemma runs_all_length fns s rs s' : runs_all fns s rs s' → length rs = length fns.
Proof. induction 1; cbn; congruence. Qed.

(** Where a job of each status can be. *)
Lemma idle_lookup rs (rest : list job) i x :
  ((Settled <$> rs) ++ (Waiting <$> rest)) !! i = Some x →
  (∃ r, x = Settled r) ∨
  (∃ k fn, i = (length rs + k)%nat ∧ rest !! k = Some fn ∧ x = Waiting fn).
Proof.
  intros [Hi|[Hl Hi]]%lookup_app_Some; rewrite list_lookup_fmap in Hi.
  - apply fmap_Some in Hi as (r & _ & ->). left. by exists r.
  - apply fmap_Some in Hi as (fn & Hk & ->). rewrite length_fmap in *. right.
    exists (i - length rs)%nat, fn. split_and!; try done. lia.
Qed.

Lemma busy_lookup rs j (rest : list job) i x :
  ((Settled <$> rs) ++ Running j :: (Waiting <$> rest)) !! i = Some x →
  (∃ r, x = Settled r) ∨ (i = length rs ∧ x = Running j) ∨
  (∃ k fn, i = (length rs + (1 + k))%nat ∧ rest !! k = Some fn ∧ x = Waiting fn).
Proof.
  intros [Hi|[Hl Hi]]%lookup_app_Some; rewrite ?length_fmap in *.
  - rewrite list_lookup_fmap in Hi. apply fmap_Some in Hi as (r & _ & ->). left. by exists r.
  - right. apply lookup_cons_Some in Hi as [[Hi ->]|[Hp Hi]]; [left; split; [lia|done]|].
    rewrite list_lookup_fmap in Hi. apply fmap_Some in Hi as (fn & Hk & ->). right.
    exists (i - length rs - 1)%nat, fn. split_and!; try done. lia.
Qed.

Lemma insert_middle (l k : list status) x y : <[length l := y]> (l ++ x :: k) = l ++ y :: k.
Proof. by rewrite insert_app_r_alt, Nat.sub_diag by done. Qed.

Lemma qinv_step s0 fns q q' : qinv s0 fns q → qstep q q' → qinv s0 fns q'.
Proof.
  intros [done rest rs s Hf Hr|done fn rest rs s1 s j Hf Hr Hj] Hs;
    inversion Hs as [s' jobs i g Hi Hp|s' jobs i f Hi|s' jobs i r Hi]; subst.
  - apply idle_lookup in Hi as [[r Hx]|(k & fn & -> & Hk & Hx)]; [done|].
    injection Hx as ->.
    assert (k = 0%nat) as ->.
    { destruct Hp as [Hp|[r Hp]]; [lia|].
      destruct k as [|k]; [done|]. exfalso.
      rewrite lookup_app_r, length_fmap, list_lookup_fmap in Hp by (rewrite length_fmap; lia).
      by apply fmap_Some in Hp as (? & _ & ?). }
    destruct rest as [|fn' rest]; [done|]. injection Hk as ->.
    rewrite Nat.add_0_r. cbn [fmap list_fmap].
    replace (length rs) with (length (Settled <$> rs)) by apply length_fmap.
    rewrite insert_middle. eapply inv_busy; [done|done|constructor].
  - apply idle_lookup in Hi as [[r Hx]|(k & fn & -> & Hk & Hx)]; done.
  - apply idle_lookup in Hi as [[r' Hx]|(k & fn & -> & Hk & Hx)]; done.
  - exfalso. apply busy_lookup in Hi as [[r Hx]|[[-> Hx]|(k & fn' & -> & Hk & Hx)]]; try done.
    destruct Hp as [Hp|[r Hp]]; [lia|].
    rewrite lookup_app_r in Hp by (rewrite length_fmap; lia). rewrite length_fmap in Hp.
    destruct k as [|k].
    + by replace (length rs + (1 + 0) - 1 - length rs)%nat with 0%nat in Hp by lia.
    + replace (length rs + (1 + Datatypes.S k) - 1 - length rs)%nat with (Datatypes.S k) in Hp by lia.
      change ((Waiting <$> rest) !! k = Some (Settled r)) in Hp.
      rewrite list_lookup_fmap in Hp. by apply fmap_Some in Hp as (? & _ & ?).
  - apply busy_lookup in Hi as [[r Hx]|[[-> Hx]|(k & fn' & -> & Hk & Hx)]]; try done.
    injection Hx as <-. replace (length rs) with (length (Settled <$> rs)) by apply length_fmap.
    rewrite insert_middle. eapply inv_busy; [done|done|by constructor].
  - apply busy_lookup in Hi as [[r' Hx]|[[-> Hx]|(k & fn' & -> & Hk & Hx)]]; try done.
    injection Hx as <-. replace (length rs) with (length (Settled <$> rs)) by apply length_fmap.
    rewrite insert_middle.
    change ((Settled <$> rs) ++ Settled r :: (Waiting <$> rest))
      with ((Settled <$> rs) ++ (Settled <$> [r]) ++ (Waiting <$> rest)).
    rewrite app_assoc, <- fmap_app. apply (inv_idle s0 _ (done ++ [fn])).
    + by rewrite <- app_assoc.
    + eapply runs_all_snoc; [done|]. eapply resumes_runs; [done|constructor].
Qed.

Lemma reached_inv s0 fns q : reached s0 fns q → qinv s0 fns q.
Proof.
  induction 1 as [|fns q fn _ IH|fns q q' _ IH Hs].
  - apply (inv_idle s0 [] [] [] [] s0); [done|constructor].
  - destruct IH as [done rest rs s -> Hr|done fn' rest rs s1 s j -> Hr Hj];
      unfold serialize; cbn [q_state q_jobs]; change [Waiting fn] with (Waiting <$> [fn]).
    + rewrite <- !app_assoc, <- fmap_app. by eapply inv_idle.
    + rewrite <- !app_assoc. cbn [app]. rewrite <- fmap_app. by eapply inv_busy.
  - by eapply qinv_step.
Qed.
#[export] Instance Settled_inj : Inj (=) (=) Settled.
Proof. by intros ? ? [=]. Qed.
End queue.
Arguments job : clear implicits.
Arguments status : clear implicits.
Arguments queue : clear implicits.

(** When every job has settled, the sequential run has happened. *)
Lemma qinv_settled {S A} (s0 : S) fns (q : queue S A) rs : qinv s0 fns q →
  q_jobs q = Settled <$> rs → runs_all fns s0 rs (q_state q).
Proof.
  intros [done rest rs1 s -> Hr|done fn rest rs1 s1 s j -> Hr Hj]; cbn; intros E.
  - assert (rest = []) as ->.
    { destruct rest as [|fn rest]; [done|]. exfalso.
      assert (Waiting fn ∈ (Settled <$> rs : list (status S A))) as Hin.
      { rewrite <- E. apply elem_of_app. right. left. }
      by apply list_elem_of_fmap in Hin as (? & ? & _). }
    rewrite !app_nil_r in *. apply (inj (fmap Settled)) in E. by subst.
  - exfalso. assert (Running j ∈ (Settled <$> rs : list (status S A))) as Hin.
    { rewrite <- E. apply elem_of_app. right. left. }
    by apply list_elem_of_fmap in Hin as (? & ? & _).
Qed.

(** ** Properties *)

(** jobs never overlap and take effect in order: in every interleaving of
    submissions and job steps at most one job is running, the settled ones are a
    prefix of the submissions, and when all have settled the results and the
    final state are those of running them one after another. *)
Theorem queue_serializes {S A} (s0 : S) fns (q : queue S A) : reached s0 fns q →
  (∀ i j x y, q_jobs q !! i = Some (Running x) → q_jobs q !! j = Some (Running y) → i = j) ∧
  (∀ i j r, q_jobs q !! j = Some (Settled r) → (i < j)%nat → ∃ r', q_jobs q !! i = Some (Settled r')) ∧
  (∀ rs, q_jobs q = Settled <$> rs → runs_all fns s0 rs (q_state q)).
Proof.
  intros H%reached_inv. destruct H as [done rest rs s -> Hr|done fn rest rs s1 s j -> Hr Hj]; cbn.
  - split_and!.
    + intros i k x y Hi. by apply idle_lookup in Hi as [[r Hx]|(? & ? & _ & _ & Hx)].
    + intros i k r Hk Hlt. apply lookup_app_Some in Hk as [Hk|[_ Hk]].
      * rewrite lookup_app_l by (apply lookup_lt_Some in Hk; lia).
        apply lookup_lt_Some in Hk. rewrite length_fmap in Hk.
        rewrite list_lookup_fmap. destruct (lookup_lt_is_Some_2 rs i) as [r' ->]; [lia|by exists r'].
      * rewrite list_lookup_fmap in Hk. by apply fmap_Some in Hk as (? & _ & ?).
    + intros rs'. apply (qinv_settled s0 _ (Queue s _)). by eapply inv_idle.
  - split_and!.
    + intros i k x y Hi Hk.
      apply busy_lookup in Hi as [[r Hx]|[[-> Hx]|(? & ? & _ & _ & Hx)]]; try done.
      by apply busy_lookup in Hk as [[r Hy]|[[-> Hy]|(? & ? & _ & _ & Hy)]].
    + intros i k r Hk Hlt. apply lookup_app_Some in Hk as [Hk|[_ Hk]].
      * rewrite lookup_app_l by (apply lookup_lt_Some in Hk; lia).
        apply lookup_lt_Some in Hk. rewrite length_fmap in Hk.
        rewrite list_lookup_fmap. destruct (lookup_lt_is_Some_2 rs i) as [r' ->]; [lia|by exists r'].
      * apply lookup_cons_Some in Hk as [[_ Hk]|[_ Hk]]; [done|].
        rewrite list_lookup_fmap in Hk. by apply fmap_Some in Hk as (? & _ & ?).
    + intros rs'. apply (qinv_settled s0 _ (Queue s _)). by eapply inv_busy.
Qed.

(** C31: no job wedges the queue: as long as one has not settled, some step is
    possible, whatever the earlier jobs settled with, rejections included. *)
Theorem queue_progress {S A} (s0 : S) fns (q : queue S A) : reached s0 fns q →
  (∃ q', qstep q q') ∨ (∃ rs, q_jobs q = Settled <$> rs ∧ length rs = length fns).
Proof.
  intros H%reached_inv. destruct H as [done rest rs s -> Hr|done fn rest rs s1 s j -> Hr Hj].
  - destruct rest as [|fn rest].
    { right. exists rs. rewrite !app_nil_r. split; [done|]. by eapply runs_all_length. }
    left. eexists. apply (q_start _ _ (length rs) fn).
    + rewrite lookup_app_r by by rewrite length_fmap. by rewrite length_fmap, Nat.sub_diag.
    + destruct rs as [|r rs] using rev_ind; [by left|]. right. exists r.
      rewrite length_app, Nat.add_sub, fmap_app, <- app_assoc.
      rewrite lookup_app_r by by rewrite length_fmap. by rewrite length_fmap, Nat.sub_diag.
  - left.
    assert (((Settled <$> rs) ++ Running j :: (Waiting <$> rest)) !! length rs = Some (Running j)) as Hl.
    { rewrite lookup_app_r by by rewrite length_fmap. by rewrite length_fmap, Nat.sub_diag. }
    destruct j as [r|f]; eexists; [by eapply q_settle|by eapply q_await].
Qed.

(** ** Two jobs, the first of which is rejected *)

Definition demo_fns : list (job Z Z) :=
  [Settle (Throw (PlainError (js "boom"))); Await (λ s, (s + 1, Settle (Ret s)))].

Definition demo_done : queue Z Z :=
  Queue 8 (Settled <$> [Throw (PlainError (js "boom")); Ret 7]).

Lemma demo_reached : reached 7 demo_fns demo_done.
Proof.
  pose proof (reached_init (A:=Z) 7) as R.
  apply (reached_submit _ _ _ (Settle (Throw (PlainError (js "boom"))))) in R.
  apply (reached_submit _ _ _ (Await (λ s, (s + 1, Settle (Ret s))))) in R. unfold serialize in R. cbn in R.
  eapply reached_step in R; [|eapply (q_start _ _ 0%nat); [reflexivity|by left]]. cbn in R.
  eapply reached_step in R; [|eapply (q_settle _ _ 0%nat); reflexivity]. cbn in R.
  eapply reached_step in R; [|eapply (q_start _ _ 1%nat); [reflexivity|right; by eexists]]. cbn in R.
  eapply reached_step in R; [|eapply (q_await _ _ 1%nat); reflexivity]. cbn in R.
  eapply reached_step in R; [|eapply (q_settle _ _ 1%nat); reflexivity]. exact R.
Qed.

Lemma queue_serializes_witness :
  runs_all demo_fns 7 [Throw (PlainError (js "boom")); Ret 7] 8.
Proof. exact (proj2 (proj2 (queue_serializes 7 demo_fns demo_done demo_reached)) _ eq_refl). Defined.

Lemma queue_progress_witness :
  (∃ q', qstep demo_done q') ∨
  (∃ rs, q_jobs demo_done = Settled <$> rs ∧ length rs = length demo_fns).
Proof. exact (queue_progress 7 demo_fns demo_done demo_reached). Defined.
