(* ===== verification/Serving.v ===== *)
(** * Concurrent requests

    The server of Server.v on the queue of Queue.v: actions and state reads are
    queued, requests are prepared before and finished after their job.  However
    requests interleave, their answers are those of handling them one at a time in
    the order in which they were queued. *)

From S2P Require Import Prelude JsString JsNumber Utf8 Json JsonFacts Encoding Wire Framework Abi Instances Protocol StreamHandlers StreamProps Handlers Server Queue.

(** What a job of the server yields: a handler's result, or the reported state. *)
Inductive Outcome : Type :=
| OHandler (r : HandlerResult)
| OState (v : json).

(** A request after preparation: what is queued for it. *)
Inductive Work : Type :=
| WAction (env : Env) (p : Prepared)
| WState.

(** [() => handler(df.originalMessage ?? "0x")] and [() => this.reportState()]. *)
Definition work_job (srv : Server) (w : Work) : job AppState Outcome :=
  match w with
  | WAction env p =>
      Await (λ s, let '(r, s') := p_handler p env (p_msg p) s in (s', Settle (OHandler <$> r)))
  | WState => Await (λ s, (s, Settle (Ret (OState (server_reportState srv s)))))
  end.

(** The answer to a request, from what its job yielded. *)
Definition answer (srv : Server) (w : Work) (o : outcome Outcome) : outcome Response :=
  o ← o;
  match w, o with
  | WAction _ p, OHandler r => finish_action srv p r
  | WState, OState v =>
      Ret (200, PJson (JObj [(js "stateVersion", JStr (stateVersionHex srv)); (js "state", v)]))
  | _, _ => Throw (TypeError (js "not the result of this job"))
  end.

(** Handling one request alone. *)
Definition handle_work (srv : Server) (w : Work) (s : AppState) : outcome Response * AppState :=
  match w with
  | WAction env p =>
      let '(r, s') := p_handler p env (p_msg p) s in (r ≫= finish_action srv p, s')
  | WState => (Ret (processState srv s), s)
  end.

(** Handling requests one after another. *)
Fixpoint handle_all (srv : Server) (ws : list Work) (s : AppState) :
    list (outcome Response) * AppState :=
  match ws with
  | [] => ([], s)
  | w :: ws' =>
      let '(r, s1) := handle_work srv w s in
      let '(rs, s2) := handle_all srv ws' s1 in
      (r :: rs, s2)
  end.

Lemma runs_work srv w s o s' : runs (work_job srv w) s o s' →
  handle_work srv w s = (answer srv w o, s').
Proof.
  destruct w as [env p|]; cbn; inversion 1 as [|f s1 r s2 Hr]; subst; clear H.
  - cbn in Hr. destruct (p_handler p env (p_msg p) s) as [[r'|e] s''];
      inversion Hr; subst; done.
  - by inversion Hr; subst.
Qed.

Lemma runs_all_work srv ws s os s' : runs_all (work_job srv <$> ws) s os s' →
  handle_all srv ws s = (zip_with (answer srv) ws os, s').
Proof.
  revert s os. induction ws as [|w ws IH]; intros s os H; inversion H as [|? ? ? o s1 os' ? Hw Hr]; subst.
  - done.
  - cbn. rewrite (runs_work _ _ _ _ _ Hw). by rewrite (IH _ _ Hr).
Qed.

(** ** Properties *)

(** C30: concurrent requests are answered as if they were handled one at a time in
    the order they were queued: in every reachable state of the queue in which all
    jobs have settled, the answers and the final state are those of
    [handle_all]. *)
Theorem requests_linearize srv ws s0 q os :
  reached s0 (work_job srv <$> ws) q → q_jobs q = Settled <$> os →
  handle_all srv ws s0 = (zip_with (answer srv) ws os, q_state q).
Proof.
  intros Hq Hos. apply runs_all_work.
  apply reached_inv in Hq. by apply (qinv_settled s0 _ q).
Qed.

(** A greeting and a state read, settled in turn. *)
Definition demo_ws : list Work := [
  WAction demo_env {| p_data := JObj []; p_df := JObj [];
    p_handler := λ _ _ s, (Ret (refuse (js "no")), s); p_msg := JNull |};
  WState].
Definition demo_outcomes : list (outcome Outcome) :=
  [Ret (OHandler (refuse (js "no"))); Ret (OState (reportState init_state))].

Lemma demo_ws_reached :
  reached init_state (work_job bare_server <$> demo_ws)
    (Queue init_state (Settled <$> demo_outcomes)).
Proof.
  pose proof (reached_init (A:=Outcome) init_state) as R.
  apply (reached_submit _ _ _ (work_job bare_server (WAction demo_env {| p_data := JObj [];
    p_df := JObj []; p_handler := λ _ _ s, (Ret (refuse (js "no")), s); p_msg := JNull |}))) in R.
  apply (reached_submit _ _ _ (work_job bare_server WState)) in R.
  unfold serialize in R. cbn [q_state q_jobs app] in R.
  eapply reached_step in R; [|eapply (q_start _ _ 0%nat); [reflexivity|by left]].
  eapply reached_step in R; [|eapply (q_await _ _ 0%nat); reflexivity].
  eapply reached_step in R; [|eapply (q_settle _ _ 0%nat); reflexivity].
  eapply reached_step in R; [|eapply (q_start _ _ 1%nat); [reflexivity|right; by eexists]].
  eapply reached_step in R; [|eapply (q_await _ _ 1%nat); reflexivity].
  eapply reached_step in R; [|eapply (q_settle _ _ 1%nat); reflexivity].
  exact R.
Qed.

Lemma requests_linearize_witness :
  handle_all bare_server demo_ws init_state =
    (zip_with (answer bare_server) demo_ws demo_outcomes, init_state).
Proof.
  exact (requests_linearize bare_server demo_ws init_state _ demo_outcomes demo_ws_reached eq_refl).
Defined.
