(* ===== verification/EnclaveClient.v ===== *)
(** * The frontend's client of the enclave ([frontend/lib/enclave.ts])

    The envelope of an action, the request and the reading of the answer.  [fetch]
    is a parameter: what the network does with a body posted to a URL.  The server
    of Server.v behind a working network is one such function; the theorems here
    compose the client with it. *)

From S2P Require Import Prelude JsString JsNumber Utf8 Json JsonFacts Encoding Wire Framework Abi Instances Protocol StreamHandlers StreamProps Handlers Server.
#[local] Open Scope step_scope.

(** ** Encoding *)

Definition HEX : jsstr := js "0123456789abcdef".

(** [HEX[i]]; out of range it is [undefined], which the concatenation prints. *)
Definition hex_at (i : Z) : jsstr :=
  match HEX !! Z.to_nat i with Some c => [c] | None => js "undefined" end.

Definition toHex (b : bytes) : jsstr :=
  fold_left (λ out x, out ++ hex_at (Z.shiftr x 4) ++ hex_at (Z.land x 15)) b (js "0x").

(** [bytes.set(src)] of a zeroed array of 32. *)
Definition toBytes32Hex (s : jsstr) : jsstr :=
  let src := take 32 (utf8_encode s) in
  toHex (src ++ replicate (32 - length src) 0).

Definition actionId : jsstr := js "0x" ++ str_repeat (js "11") 32.
Definition dataFixed (opType opCommand : jsstr) (payload : json) (now : Z) : json := JObj [
  (js "instructionId", JStr actionId);
  (js "teeId", JStr (js "0x" ++ str_repeat (js "22") 20));
  (js "timestamp", JNum (num_of_Z (now / 1000)));
  (js "rewardEpochId", JNum (num_of_Z 0));
  (js "opType", JStr (toBytes32Hex opType));
  (js "opCommand", JStr (toBytes32Hex opCommand));
  (js "cosigners", JArr []);
  (js "cosignersThreshold", JNum (num_of_Z 0));
  (js "originalMessage", JStr (toHex (utf8_encode (JSON_stringify payload))));
  (js "additionalFixedMessage", JStr (js "0x"))].

Definition action_envelope (message : jsstr) : json := JObj [
  (js "data", JObj [
    (js "id", JStr actionId);
    (js "type", JStr (js "instruction"));
    (js "submissionTag", JStr (js "submit"));
    (js "message", JStr message)]);
  (js "additionalVariableMessages", JArr []);
  (js "timestamps", JArr []);
  (js "additionalActionData", JStr (js "0x"));
  (js "signatures", JArr [])].

(** [now] is [Date.now()]. *)
Definition buildActionBody (opType opCommand : jsstr) (payload : json) (now : Z) : jsstr :=
  JSON_stringify (action_envelope
    (toHex (utf8_encode (JSON_stringify (dataFixed opType opCommand payload now))))).

(** ** The request *)

Inductive EnclaveFailure : Type :=
| Unreachable (detail : jsstr)
| Rejected (detail : jsstr).

(** The body is [None] when reading it fails. *)
Record FetchResponse := { res_status : Z; res_body : option bytes }.

Definition res_ok (r : FetchResponse) : bool := (200 <=? res_status r) && (res_status r <=? 299).

Definition res_json `{JsEngine} (r : FetchResponse) : outcome json :=
  match res_body r with
  | Some b => JSON_parse (text_decode b)
  | None => Throw (TypeError (js "terminated"))
  end.

(** [v.k]: every value but [null] and [undefined] has properties. *)
Definition prop (v : json) (k : jsstr) : outcome (option json) :=
  match v with
  | JNull => Throw (TypeError (js "Cannot read properties of null (reading '" ++ k ++ js "')"))
  | _ => Ret (get v k)
  end.

(** A method of strings on a value that may be no string. *)
Definition as_string (method : jsstr) (v : option json) : outcome jsstr :=
  match v with
  | Some (JStr s) => Ret s
  | _ => Throw (TypeError (js "no method " ++ method))
  end.

(** [s.replace(/^error:\s*/, "")]. *)
Definition strip_error (s : jsstr) : jsstr :=
  if starts_with s (js "error:") then drop_while is_js_space (drop 6 s) else s.

(** What [.] of a regular expression does not match. *)
Definition is_line_end (c : Z) : bool := (c =? 10) || (c =? 13) || (c =? 0x2028) || (c =? 0x2029).

(** [s.match(/.{2}/g)]: the disjoint pairs, leftmost first. *)
Fixpoint match_pairs (s : jsstr) : list jsstr :=
  match s with
  | c :: ((d :: s'') as s') =>
      if is_line_end c || is_line_end d then match_pairs s' else [c; d] :: match_pairs s''
  | _ => []
  end.

(** [Uint8Array.from]: modulo 256, [NaN] is 0. *)
Definition to_uint8 (n : option Z) : Z := default 0 n mod 256.

(** [Uint8Array.from(s.slice(2).match(/.{2}/g)!.map((h) => parseInt(h, 16)))]. *)
Definition from_pairs (s : jsstr) : outcome bytes :=
  match match_pairs (slice_from s 2) with
  | [] => Throw (TypeError (js "Cannot read properties of null (reading 'map')"))
  | ps => Ret ((λ p, to_uint8 (parse_int_16 p)) <$> ps)
  end.

(** The authorization is whatever JSON the answer holds: the code asserts its
    type. *)
Definition read_answer `{JsEngine} (body : json) : outcome (EnclaveFailure + json) :=
  status ← prop body (js "status");
  if bool_decide (status = Some (JNum (num_of_Z 1))) then
    data ← prop body (js "data");
    hex ← as_string (js "slice") data;
    bytes ← from_pairs hex;
    auth ← JSON_parse (text_decode bytes);
    Ret (inr auth)
  else
    log ← as_string (js "replace") (Some (nullish (get body (js "log")) (JStr [])));
    Ret (inl (Rejected (str_or (strip_error log) (js "authorization refused")))).

Definition requestAuthorization `{JsEngine} (ENCLAVE_URL : jsstr)
    (fetch : jsstr → jsstr → outcome FetchResponse) (now : Z)
    (payload : json) (command : jsstr) : outcome (EnclaveFailure + json) :=
  match fetch (ENCLAVE_URL ++ js "/action") (buildActionBody (js "STREAM") command payload now) with
  | Throw e => Ret (inl (Unreachable (err_message e)))
  | Ret res =>
      if res_ok res then body ← res_json res; read_answer body
      else Ret (inl (Unreachable (js "HTTP " ++ bigint_to_string (res_status res))))
  end.

(** The last segment of a URL, from its last slash. *)
Definition last_segment (url : jsstr) : jsstr :=
  fold_left (λ seg c, if c =? 47 then [47] else seg ++ [c]) url [].

(** A post as the server receives it, mounted at the URL without its last segment. *)
Definition posted_to (url body : jsstr) : HttpRequest :=
  {| http_method := Some (js "POST"); http_url := Some (last_segment url); http_chunks := Some [utf8_encode body] |}.

(** A network that delivers the post to the server and its response back; a
    request that is never answered times out. *)
Definition deliver `{JsEngine} (srv : Server) (env : Env) (origin : option jsstr) (s : AppState)
    (url body : jsstr) : outcome FetchResponse :=
  match (serve srv env origin (posted_to url body) s).1 with
  | Ret r => Ret {| res_status := http_status r; res_body := Some (utf8_encode (http_body r)) |}
  | Throw _ => Throw (Error (js "TimeoutError") (js "The operation was aborted due to timeout"))
  end.

(** ** Lemmas *)

Lemma last_segment_action base : last_segment (base ++ js "/action") = js "/action".
Proof. unfold last_segment. rewrite fold_left_app. reflexivity. Qed.

Lemma posted_to_action base body : posted_to (base ++ js "/action") body =
  {| http_method := Some (js "POST"); http_url := Some (js "/action"); http_chunks := Some [utf8_encode body] |}.
Proof. unfold posted_to. by rewrite last_segment_action. Qed.

(** A property of the sixteen digits, by evaluation. *)
Lemma digits_forall (P : Z → bool) : forallb P (seqZ 0 16) = true → ∀ i, 0 ≤ i < 16 → P i = true.
Proof.
  intros HP i Hi. apply forallb_Forall in HP. rewrite Forall_forall in HP. apply HP.
  apply elem_of_seqZ. lia.
Qed.

Lemma hex_at_digit i : 0 ≤ i < 16 → hex_at i = [digit_char i].
Proof.
  intros Hi. apply (bool_decide_eq_true_1 _). revert i Hi.
  apply (digits_forall (λ i, bool_decide (hex_at i = [digit_char i]))). vm_compute. reflexivity.
Qed.

Lemma toHex_bytes b : is_bytes b → toHex b = bytesToHex b.
Proof.
  unfold toHex, bytesToHex. generalize (js "0x"). intros out Hb. revert out.
  induction Hb as [|x b Hx Hb IH]; intros out; [done|]. cbn [fold_left]. rewrite IH. do 2 f_equal.
  assert (0 ≤ x / 16 < 16) as Hq.
  { unfold is_byte in Hx. split; [apply Z.div_pos; lia|apply Z.div_lt_upper_bound; lia]. }
  pose proof (Z.mod_pos_bound x 16 ltac:(lia)) as Hm.
  rewrite Z.shiftr_div_pow2 by lia. change (2 ^ 4) with 16.
  change 15 with (Z.ones 4). rewrite Z.land_ones by lia. change (2 ^ 4) with 16.
  rewrite !hex_at_digit by done. change ([digit_char (x / 16)] ++ [digit_char (x mod 16)])
    with [digit_char (x / 16); digit_char (x mod 16)].
  rewrite <- byte_hex_pair by done. f_equal. pose proof (Z.div_mod x 16 ltac:(lia)). lia.
Qed.

Lemma toBytes32Hex_bytes s : is_units s →
  toBytes32Hex s = bytesToHex (pad32 (take 32 (utf8_encode s))).
Proof.
  intros Hs. unfold toBytes32Hex. apply toHex_bytes. apply pad32_bytes, Forall_take.
  by apply utf8_encode_bytes.
Qed.

(** On names that fit, the client's encoding is the scaffold's. *)
Lemma toBytes32Hex_scaffold s : is_units s → (length (utf8_encode s) ≤ 32)%nat →
  stringToBytes32Hex s = Ret (toBytes32Hex s).
Proof.
  intros Hs Hl. rewrite stringToBytes32Hex_ok, toBytes32Hex_bytes by done.
  by rewrite firstn_all2.
Qed.

(** Reading hex back by pairs. *)
Lemma digit_char_plain d : 0 ≤ d < 16 → is_line_end (digit_char d) = false.
Proof.
  intros Hd. apply negb_true_iff. revert d Hd.
  apply (digits_forall (λ d, negb (is_line_end (digit_char d)))). vm_compute. reflexivity.
Qed.

Lemma parse_pair a b : 0 ≤ a < 16 → 0 ≤ b < 16 →
  parse_int_16 [digit_char a; digit_char b] = Some (a * 16 + b).
Proof.
  intros Ha Hb. apply (bool_decide_eq_true_1 _). revert b Hb.
  apply (digits_forall (λ b, bool_decide (parse_int_16 [digit_char a; digit_char b] = Some (a * 16 + b)))).
  revert a Ha. apply (digits_forall (λ a, forallb (λ b, bool_decide
    (parse_int_16 [digit_char a; digit_char b] = Some (a * 16 + b))) (seqZ 0 16))).
  vm_compute. reflexivity.
Qed.

Lemma match_pairs_hex b : is_bytes b → match_pairs (hex_digits b) = byte_hex <$> b.
Proof.
  induction 1 as [|x b Hx Hb IH]; [done|]. rewrite hex_digits_cons.
  destruct (byte_digits x Hx) as (h & l & E & Hh & Hl & _). cbn [fmap list_fmap]. rewrite E.
  cbn [app match_pairs]. rewrite !digit_char_plain by done. cbn [orb]. by rewrite IH.
Qed.

Lemma from_pairs_hex b : is_bytes b → b ≠ [] → from_pairs (bytesToHex b) = Ret b.
Proof.
  intros Hb Hne. unfold from_pairs. rewrite bytesToHex_digits.
  rewrite slice_from_drop by lia. change (drop (Z.to_nat 2) (48 :: 120 :: hex_digits b)) with (hex_digits b).
  rewrite match_pairs_hex by done.
  assert ((λ p, to_uint8 (parse_int_16 p)) <$> (byte_hex <$> b) = b) as E.
  { clear Hne. induction Hb as [|x b Hx Hb IH]; [done|]. cbn [fmap list_fmap]. f_equal; [|exact IH].
    destruct (byte_digits x Hx) as (h & l & E & Hh & Hl & Ex). rewrite E, parse_pair, <- Ex by done.
    unfold to_uint8, is_byte in *. cbn [default]. apply Z.mod_small. lia. }
  destruct b as [|x b]; [done|]. cbn [fmap list_fmap] in *. by rewrite E.
Qed.

(** ** Well-formed values *)

Lemma object_ok kvs :
  forallb (λ k, bool_decide (array_index k = None) && forallb is_ascii k) kvs.*1 = true →
  bool_decide (NoDup kvs.*1) = true → Forall (λ kv, json_ok kv.2 = true) kvs →
  json_ok (JObj kvs) = true.
Proof.
  intros Hk Hnd Hv. cbn [json_ok]. rewrite Hnd. cbn [andb].
  apply forallb_Forall in Hk. apply forallb_Forall. rewrite Forall_fmap in Hk.
  eapply Forall_impl; [apply Forall_and; split; [exact Hk|exact Hv]|].
  intros [k v] [Hkk Hok]. cbn in *. apply andb_prop in Hkk as [-> Ha]. rewrite Hok.
  rewrite bool_decide_eq_true_2; [done|].
  rewrite forallb_Forall in Ha. eapply Forall_impl; [exact Ha|].
  intros c. unfold is_ascii, is_unit. rewrite andb_true_iff, Z.leb_le, Z.ltb_lt. lia.
Qed.

Lemma str_ok s : is_units s → json_ok (JStr s) = true.
Proof. intros Hs. cbn. by apply bool_decide_eq_true. Qed.

Lemma hex_text_units n s : hex_shape n s = true → is_units s.
Proof.
  intros Hs%hex_shape_ascii. eapply Forall_impl; [exact Hs|]. intros c. unfold is_ascii, is_unit.
  rewrite andb_true_iff, Z.leb_le, Z.ltb_lt. lia.
Qed.

Lemma num_ok z : Z.abs z ≤ 2 ^ 53 → json_ok (JNum (num_of_Z z)) = true.
Proof. apply safe_num_of_Z. Qed.

Lemma toHex_json v : json_ok v = true →
  toHex (utf8_encode (JSON_stringify v)) = json_to_hex v ∧ is_units (json_to_hex v).
Proof.
  intros Hv. split; [|by apply json_to_hex_units]. apply toHex_bytes, utf8_encode_bytes.
  by destruct (stringify_wf v Hv).
Qed.

Lemma toBytes32Hex_units s : is_units s → is_units (toBytes32Hex s).
Proof.
  intros Hs. rewrite toBytes32Hex_bytes by done. apply bytesToHex_units, pad32_bytes, Forall_take.
  by apply utf8_encode_bytes.
Qed.

#[local] Hint Resolve str_ok num_ok js_is_units toBytes32Hex_units : sw.

(** An object literal: its keys by evaluation, its values by the lemmas above. *)
Ltac json_fields :=
  apply object_ok; [vm_compute; reflexivity..|];
  repeat apply List.Forall_cons; try apply List.Forall_nil; cbn [snd]; auto with sw;
  try reflexivity; try (apply str_ok, units_check; vm_compute; reflexivity).

Definition date_ok (now : Z) : Prop := 0 ≤ now ≤ 8640000000000000.

Lemma date_seconds now : date_ok now → Z.abs (now / 1000) ≤ 2 ^ 53.
Proof.
  unfold date_ok. intros Hn. pose proof (Z.div_pos now 1000 ltac:(lia) ltac:(lia)).
  pose proof (Z.div_le_upper_bound now 1000 8640000000000 ltac:(lia) ltac:(lia)). lia.
Qed.

Lemma dataFixed_ok t c v now : is_units t → is_units c → json_ok v = true → date_ok now →
  json_ok (dataFixed t c v now) = true.
Proof.
  intros Ht Hc Hv Hn%date_seconds. unfold dataFixed. destruct (toHex_json v Hv) as [-> Hu].
  json_fields.
Qed.

Lemma action_envelope_ok m : is_units m → json_ok (action_envelope m) = true.
Proof. intros Hm. json_fields. json_fields. Qed.

(** The request of a party that signs its challenge: what the clients send. *)
Definition party_request (id : Z) (vault_hex chain cm sealed : jsstr) (iss : Z) (sig : jsstr) : AuthRequest := {|
  streamId := bigint_to_string id; vault := vault_hex; chainId := chain; commitment := cm;
  encryptedTerms := sealed; issuedAt := bigint_to_string iss; callerSignature := sig |}.

Lemma party_request_units `{JsEngine, EvmLaws, Viem, !ViemLaws} id vault_hex chain cm c iss sg : isAddress vault_hex = true → is_units chain →
  is_bytes cm → is_bytes c → is_bytes sg →
  request_units (party_request id vault_hex chain (bytesToHex cm) (bytesToHex c) iss (bytesToHex sg)).
Proof.
  intros Hv Hc Hcm Hb Hs. unfold request_units, party_request. cbn.
  repeat split; try apply bigint_units; try (by apply bytesToHex_units); [|done].
  eapply hex_text_units, isAddress_shape, Hv.
Qed.

(** It is honest, when the terms are sealed to the enclave's key. *)
Lemma challenge_honest `{JsEngine, EvmLaws, Viem, !ViemLaws, Ecies, !EciesLaws}
    env tag t tee a vault_hex chain ch id iss ke ks rnd c :
  op_tag tag → env_ok env → terms_ok t → env_truthy (TEE_ECIES_PRIVKEY env) = Some ke →
  env_truthy (TEE_SIGNER_PRIVKEY env) = Some ks → privateKeyToAccount ks = Ret tee →
  encrypt (ecies_public ke) rnd (abi_encode (terms_words t)) = Ret c →
  isAddress vault_hex = true → is_units chain → BigInt chain = Ret ch → uint_range 256 ch →
  uint_range 256 id → 0 ≤ iss → Z.abs (iss - now_sec env) ≤ 300 →
  hex_value (account_address a) = hex_value (employer t) ∨
    (tag ≠ SETTLE_TAG ∧ hex_value (account_address a) = hex_value (recipient t)) →
  let cm := bytesToHex (keccak (abi_encode (terms_words t))) in
  ∃ raw sig, buildCallerChallenge {| cp_chainId := ch; cp_vault := vault_hex; cp_streamId := id;
      cp_commitment := cm; cp_purpose := tag; cp_issuedAt := iss |} = Ret raw ∧
    signMessage a raw = Ret sig ∧
    let req := party_request id vault_hex chain cm (bytesToHex c) iss sig in
    request_units req ∧ honest env tag (payload (JObj (request_fields req))) req t tee ch id.
Proof.
  intros Htag Henv Ht Hke Hks Htee Henc Hv Hcu Hchain Hch Hid Hi0 Hskew Hparty cm. unfold cm.
  set (p := keccak (abi_encode (terms_words t))) in *.
  assert (is_bytes p) as Hp by apply keccak_bytes.
  assert (length p = 32%nat) as Hpl by apply keccak_length.
  pose proof (env_deadline env Henv) as Hdl. change AUTH_TTL_SECONDS with 600 in Hdl.
  assert (uint_range 256 iss) as Hiss by lia.
  pose proof (challenge_returns {| cp_chainId := ch; cp_vault := vault_hex; cp_streamId := id;
    cp_commitment := bytesToHex p; cp_purpose := tag; cp_issuedAt := iss |} p) as Hraw.
  cbn [cp_purpose cp_commitment cp_chainId cp_vault cp_streamId cp_issuedAt] in Hraw.
  specialize (Hraw Htag Hp Hpl (bytesToHex_to_lower _ Hp) Hch Hv Hid Hiss).
  destruct (sign_raw a (keccak (abi_encode [tag_word (js "SW_CALLER_AUTH_V1"); ch; hex_value vault_hex;
    id; be_value p; hex_value tag; iss]))) as (sg & Hsg & Hsgb & _); [apply keccak_bytes|apply keccak_length|].
  eexists _, (bytesToHex sg). split; [exact Hraw|]. split; [exact Hsg|]. cbn zeta.
  assert (request_units (party_request id vault_hex chain (bytesToHex p) (bytesToHex c) iss (bytesToHex sg))) as Hu
    by (apply party_request_units; first [done|by eapply encrypt_bytes]).
  split; [exact Hu|]. split; [done|done|done|by exists ke, ks, rnd, c|by apply decode_request_fields| | | |done|].
  - cbn [commitment party_request]. rewrite bytesToHex_to_lower by done. by apply commitTo_hash.
  - by split.
  - split; [apply BigInt_to_string|done].
  - exists a, iss. eexists. split; [apply BigInt_to_string|]. split; [done|]. split; [done|].
    split; [exact Hraw|]. by split.
Qed.

(** ** The server's view of an action of the client *)

(** The two commands and the tags they sign under. *)
Definition stream_op `{Viem} (command tag : jsstr) : Prop :=
  (command = OP_COMMAND_AUTH_WITHDRAW ∧ tag = WITHDRAW_TAG) ∨
  (command = OP_COMMAND_AUTH_SETTLE ∧ tag = SETTLE_TAG).

Lemma stream_op_tag `{Viem} command tag : stream_op command tag → op_tag tag.
Proof. intros [[_ ->]|[_ ->]]; [by left|by right]. Qed.

Definition client_action `{JsEngine, Viem, Ecies} (command tag : jsstr) (v : json) (now : Z) : Prepared := {|
  p_data := default JNull (get (action_envelope (json_to_hex (dataFixed OP_TYPE_STREAM command v now))) (js "data"));
  p_df := dataFixed OP_TYPE_STREAM command v now;
  p_handler := on_authCount (λ env msg, authorize env tag msg);
  p_msg := payload v |}.

Section server.
Context `{JsEngine, Viem, Ecies}.

Lemma stream_handler srv command tag : main_server = Ret srv → stream_op command tag →
  lookup (server_framework srv) (Some (JStr (toBytes32Hex OP_TYPE_STREAM))) (Some (JStr (toBytes32Hex command)))
    = Ret (Some (on_authCount (λ env msg, authorize env tag msg))).
Proof.
  intros (_ & _ & Hr & _)%main_server_ok Hop.
  assert (identifier OP_TYPE_STREAM) as It by (apply identifier_ascii; reflexivity).
  assert (identifier command) as Ic by (by destruct Hop as [[-> _]|[-> _]]; apply identifier_ascii; reflexivity).
  rewrite (lookup_refines_dispatch operations _ OP_TYPE_STREAM command); try done.
  - by destruct Hop as [[-> ->]|[-> ->]].
  - apply operations_identifiers.
  - destruct Hop as [[-> _]|[-> _]]; (apply toBytes32Hex_scaffold; [apply js_is_units|vm_compute; lia]).
Qed.

Lemma prepare_client srv command tag v now :
  main_server = Ret srv → stream_op command tag → json_ok v = true → date_ok now →
  prepare_action srv (utf8_decode (utf8_encode (buildActionBody OP_TYPE_STREAM command v now)))
    = Ret (inr (client_action command tag v now)).
Proof.
  intros Hm Hop Hv Hn.
  assert (is_units command) as Hc by (destruct Hop as [[-> _]|[-> _]]; apply js_is_units).
  assert (json_ok (dataFixed OP_TYPE_STREAM command v now) = true) as Hdf
    by (apply dataFixed_ok; auto with sw; apply js_is_units).
  destruct (toHex_json _ Hdf) as [Ehex Hu]. unfold prepare_action, buildActionBody. rewrite Ehex.
  rewrite JSON_utf8_roundtrip by by apply action_envelope_ok.
  set (df := dataFixed OP_TYPE_STREAM command v now) in *.
  assert (object_get (action_envelope (json_to_hex df)) (js "data")
    = Some (p_data (client_action command tag v now))) as -> by reflexivity.
  assert (hexToBytes (get (p_data (client_action command tag v now)) (js "message"))
    = Ret (utf8_encode (JSON_stringify df))) as ->.
  { transitivity (hexToBytes (Some (payload df))); [reflexivity|]. by apply json_to_hex_bytes. }
  rewrite JSON_utf8_roundtrip by done.
  assert (object_get df (js "opType") = Some (JStr (toBytes32Hex OP_TYPE_STREAM))) as -> by reflexivity.
  assert (nullish (get df (js "opCommand")) (JStr []) = JStr (toBytes32Hex command)) as -> by reflexivity.
  rewrite (stream_handler srv command tag) by done. cbn [mbind outcome_bind].
  assert (nullish (get df (js "originalMessage")) (JStr (js "0x")) = payload v) as ->; [|done].
  transitivity (JStr (toHex (utf8_encode (JSON_stringify v)))); [reflexivity|].
  by destruct (toHex_json v Hv) as [-> _].
Qed.
End server.

(** ** Refusals of well-formed requests *)

Definition refusal_texts : list jsstr := [
  js "TEE keys not configured (TEE_ECIES_PRIVKEY / TEE_SIGNER_PRIVKEY)";
  js "failed to decrypt terms";
  js "terms do not match commitment";
  js "terms blob is malformed";
  js "issuedAt must be a unix-seconds integer";
  js "caller authorization expired";
  js "malformed caller signature";
  js "caller is not a party to this stream"].

(** A step that returns early only with one of these refusals. *)
Definition refusing_known {A} (m : step A) : Prop :=
  ∀ r, m = Ret (inl r) → ∃ t, t ∈ refusal_texts ∧ r = refuse t.

Lemma known_bind {A B} (m : step A) (k : A → step B) :
  refusing_known m → (∀ a, refusing_known (k a)) → refusing_known (step_bind m k).
Proof. unfold refusing_known. destruct m as [[r|a]|e]; cbn; naive_solver. Qed.

Lemma known_attempt {A} (m : outcome A) t : t ∈ refusal_texts → refusing_known (attempt m (refuse t)).
Proof. unfold refusing_known. destruct m; cbn; naive_solver. Qed.

Lemma known_call {A} (m : outcome A) : refusing_known (call m).
Proof. unfold refusing_known. destruct m; cbn; naive_solver. Qed.

Lemma known_guard {A} (b : bool) t (k : step A) : t ∈ refusal_texts →
  refusing_known k → refusing_known (guard! b else refuse t in k).
Proof. unfold refusing_known. destruct b; naive_solver. Qed.

Lemma known_done {A} (a : A) : refusing_known (Ret (inr a)).
Proof. unfold refusing_known. naive_solver. Qed.

Ltac known_text := apply (bool_decide_eq_true_1 _); vm_compute; reflexivity.
Ltac known_step :=
  repeat first
    [ apply known_bind; [|intros ?] | apply known_guard; [known_text|]
    | apply known_attempt; known_text | apply known_call | apply known_done ].

Lemma authorize_steps_known `{JsEngine, Viem, Ecies} env msg tag req :
  decode_request msg = Ret (inr req) → refusing_known (authorize_steps env msg tag).
Proof.
  intros Hreq. unfold authorize_steps. rewrite Hreq. cbn [step_bind].
  assert (refusing_known (Ret (inl keys_missing) : step json)) as Hk.
  { intros r [= <-]. eexists. split; [|reflexivity]. known_text. }
  destruct (env_truthy (TEE_ECIES_PRIVKEY env)), (env_truthy (TEE_SIGNER_PRIVKEY env)); try exact Hk.
  unfold unseal, authenticate, sign_authorization. known_step.
Qed.

(** The client shows a refusal as the enclave worded it. *)
Lemma refusal_shown t : t ∈ refusal_texts →
  str_or (strip_error (action_log 0 (Some t))) (js "authorization refused") = t ∧
  is_units (action_log 0 (Some t)).
Proof.
  intros Ht.
  assert (forallb (λ t, bool_decide (str_or (strip_error (action_log 0 (Some t))) (js "authorization refused") = t)
    && forallb (λ c, bool_decide (is_unit c)) (action_log 0 (Some t))) refusal_texts = true) as Hall
    by (vm_compute; reflexivity).
  apply forallb_Forall in Hall. rewrite Forall_forall in Hall. apply Hall in Ht.
  apply andb_prop in Ht as [Heq%bool_decide_eq_true Hu]. split; [done|]. by apply units_check.
Qed.

(** ** Reading the answer *)

Section answers.
Context `{JsEngine, EvmLaws, Viem, !ViemLaws, Ecies, !EciesLaws}.

Lemma res_json_ok status v : json_ok v = true → (∃ kvs, v = JObj kvs) →
  res_json {| res_status := status; res_body := Some (utf8_encode (JSON_stringify v)) |} = Ret v.
Proof.
  intros Hv [kvs ->]. unfold res_json. cbn [res_body].
  rewrite text_decode_no_bom; [by apply JSON_utf8_roundtrip|].
  cbn [JSON_stringify]. change (take 3 (utf8_encode (123 :: comma_sep
    ((λ kv : jsstr * json, quote kv.1 ++ [58] ++ JSON_stringify kv.2) <$> kvs) ++ [125])) ≠ [0xEF; 0xBB; 0xBF]).
  intros E. discriminate E.
Qed.

Definition client_result (command ver log data : jsstr) (status : Z) : list (jsstr * json) := [
  (js "id", JStr actionId); (js "submissionTag", JStr (js "submit"));
  (js "status", JNum (num_of_Z status)); (js "log", JStr log);
  (js "opType", JStr (toBytes32Hex OP_TYPE_STREAM)); (js "opCommand", JStr (toBytes32Hex command));
  (js "additionalResultStatus", JStr (js "0x")); (js "version", JStr ver); (js "data", JStr data)].

(** What the server answers to an action of the client. *)
Lemma serve_client srv env origin s url command tag v now r n' :
  main_server = Ret srv → stream_op command tag → json_ok v = true → date_ok now →
  authorize env tag (payload v) (authCount s) = (Ret r, n') →
  deliver srv env origin s (url ++ js "/action") (buildActionBody OP_TYPE_STREAM command v now) =
    Ret {| res_status := 200;
           res_body := Some (utf8_encode (JSON_stringify (JObj (client_result command (js "0.1.0")
             (action_log r.1.2 r.2) (default (js "0x") r.1.1) r.1.2)))) |}.
Proof.
  intros Hm Hop Hv Hn E. unfold deliver. rewrite posted_to_action. unfold serve.
  rewrite bool_decide_eq_false_2 by discriminate. cbn [http_chunks readBody fmap option_fmap option_map].
  cbn [mjoin list_join]. rewrite app_nil_r.
  set (body := utf8_decode _).
  assert (handleRequest srv env (default [] (Some (js "POST"))) (default [] (Some (js "/action"))) body s
    = processAction srv env body s) as Hroute by reflexivity.
  cbn [http_method http_url]. rewrite Hroute. unfold processAction, body.
  rewrite (prepare_client srv command tag) by done. cbn [p_handler client_action p_msg].
  unfold on_authCount. rewrite E. cbn [mbind outcome_bind].
  pose proof (main_server_ok srv Hm) as (Hver & _). destruct r as [[data status] err].
  unfold finish_action, action_result. rewrite Hver. reflexivity.
Qed.

Lemma read_client_ok command ver log data resp : json_ok resp = true →
  (∃ kvs, resp = JObj kvs) → data = json_to_hex resp →
  read_answer (JObj (client_result command ver log data 1)) = Ret (inr resp).
Proof.
  intros Hr Hkvs ->. unfold read_answer. cbn [prop].
  assert (get (JObj (client_result command ver log (json_to_hex resp) 1)) (js "status")
    = Some (JNum (num_of_Z 1))) as -> by reflexivity.
  assert (get (JObj (client_result command ver log (json_to_hex resp) 1)) (js "data")
    = Some (JStr (json_to_hex resp))) as -> by reflexivity.
  cbn [mbind outcome_bind]. rewrite bool_decide_eq_true_2 by done. cbn [as_string mbind outcome_bind].
  unfold json_to_hex. rewrite from_pairs_hex.
  - cbn [mbind outcome_bind]. pose proof (res_json_ok 200 resp Hr Hkvs) as E.
    unfold res_json in E. cbn [res_body] in E. by rewrite E.
  - apply utf8_encode_bytes. by destruct (stringify_wf resp Hr).
  - destruct Hkvs as [kvs ->]. discriminate.
Qed.

Lemma read_client_refused command ver t data : t ∈ refusal_texts →
  read_answer (JObj (client_result command ver (action_log 0 (Some t)) data 0)) = Ret (inl (Rejected t)).
Proof.
  intros [Ht _]%refusal_shown. unfold read_answer. cbn [prop].
  set (b := JObj _).
  assert (get b (js "status") = Some (JNum (num_of_Z 0))) as -> by reflexivity.
  cbn [mbind outcome_bind]. rewrite bool_decide_eq_false_2 by discriminate.
  assert (nullish (get b (js "log")) (JStr []) = JStr (action_log 0 (Some t))) as -> by reflexivity.
  cbn [as_string mbind outcome_bind]. by rewrite Ht.
Qed.
End answers.

(** ** The client's question and the enclave's decision *)

Section asked.
Context `{JsEngine, EvmLaws, Viem, !ViemLaws, Ecies, !EciesLaws}.
Context (srv : Server) (env : Env) (origin : option jsstr) (s : AppState) (url command tag : jsstr)
  (r : AuthRequest) (now : Z).
Context (Hm : main_server = Ret srv) (Hop : stream_op command tag) (Henv : env_ok env)
  (Hr : request_units r) (Hn : date_ok now).

Let msg := payload (JObj (request_fields r)).

#[local] Notation asked :=
  (requestAuthorization url (deliver srv env origin s) now (JObj (request_fields r)) command).

Lemma asked_answer x n' : authorize env tag msg (authCount s) = (Ret x, n') →
  let answer := client_result command (js "0.1.0") (action_log x.1.2 x.2) (default (js "0x") x.1.1) x.1.2 in
  json_ok (JObj answer) = true → asked = read_answer (JObj answer).
Proof using Hm Hop Hr Hn.
  intros E answer Hok. unfold requestAuthorization.
  pose proof (request_fields_ok r Hr) as Hrok.
  change (js "STREAM") with OP_TYPE_STREAM.
  rewrite (serve_client srv env origin s url command tag _ now x n' Hm Hop Hrok Hn E).
  cbn [res_ok res_status]. fold answer. rewrite res_json_ok; [done|done|by eexists].
Qed.

Lemma asked_refused x : authorize_steps env msg tag = Ret (inl x) →
  ∃ t, t ∈ refusal_texts ∧ authorize env tag msg (authCount s) = (Ret (None, 0, Some t), authCount s) ∧
    asked = Ret (inl (Rejected t)).
Proof using Hm Hop Hr Hn.
  intros Es. destruct (authorize_steps_known env msg tag r (decode_request_fields r Hr) x Es) as (t & Ht & ->).
  exists t. split; [done|].
  assert (authorize env tag msg (authCount s) = (Ret (refuse t), authCount s)) as Ea
    by (unfold authorize; by rewrite Es).
  split; [exact Ea|]. destruct (refusal_shown t Ht) as [_ Hu].
  assert (is_units command) as Hcu by (destruct Hop as [[-> _]|[-> _]]; apply js_is_units).
  rewrite (asked_answer _ _ Ea); cbn [refuse fst snd default]; [by apply read_client_refused|json_fields].
Qed.

Lemma asked_granted resp : authorize_steps env msg tag = Ret (inr resp) →
  authorize env tag msg (authCount s) = (Ret (Some (json_to_hex resp), 1, None), num_incr (authCount s)) ∧
    asked = Ret (inr resp).
Proof using All.
  intros Es. pose proof (stream_op_tag _ _ Hop) as Htag.
  apply authorize_steps_inr in Es as Hg. destruct Hg as (req & p & terms & Hreq' & Hg).
  pose proof (granted_response_ok _ _ _ _ _ _ _ Htag Henv Hreq' Hg) as Hrok.
  assert (authorize env tag msg (authCount s)
    = (Ret (Some (json_to_hex resp), 1, None), num_incr (authCount s))) as Ea
    by (unfold authorize, json_to_hex; by rewrite Es).
  split; [done|]. pose proof (json_to_hex_units _ Hrok).
  assert (is_units command) as Hcu by (destruct Hop as [[-> _]|[-> _]]; apply js_is_units).
  rewrite (asked_answer _ _ Ea); cbn [fst snd default]; [|json_fields].
  apply read_client_ok; [done| |done].
  destruct Hg as [_ _ _ (? & ? & ? & ? & ? & ? & ? & ? & ? & _ & _ & _ & _ & _ & _ & _ & _ & _ & _ & _ & ->)].
  by eexists.
Qed.
End asked.

(** ** Properties *)

(** C1: through the whole stack (the client's envelope, HTTP, the server's routing
    and lookup, the queue's job, the answer and its decoding) the client's question
    is the enclave's decision: for any request of seven strings, the server runs
    exactly [authorize] under the command's own tag on exactly these fields, and the
    client returns the response object when it signs and, when it refuses, a
    rejection with the refusal's own wording, one of eight; it never throws. *)
Theorem client_gets_verdict `{JsEngine, EvmLaws, Viem, !ViemLaws, Ecies, !EciesLaws}
    srv env origin s url command tag r now :
  main_server = Ret srv → stream_op command tag → env_ok env → request_units r → date_ok now →
  let msg := payload (JObj (request_fields r)) in
  let decision := (authorize env tag msg (authCount s)).1 in
  let asked := requestAuthorization url (deliver srv env origin s) now (JObj (request_fields r)) command in
  (∃ resp, decision = Ret (Some (json_to_hex resp), 1, None) ∧ asked = Ret (inr resp)) ∨
  (∃ t, t ∈ refusal_texts ∧ decision = Ret (None, 0, Some t) ∧ asked = Ret (inl (Rejected t))).
Proof.
  intros Hm Hop Henv Hr Hn. cbn zeta.
  destruct (authorize_steps env (payload (JObj (request_fields r))) tag) as [[x|resp]|e] eqn:Es.
  - right. destruct (asked_refused srv env origin s url command tag r now Hm Hop Hr Hn x Es) as (t & Ht & -> & Ea).
    by exists t.
  - left. destruct (asked_granted srv env origin s url command tag r now Hm Hop Henv Hr Hn resp Es) as [-> Ea].
    by exists resp.
  - by destruct (authorize_steps_no_throw env tag (payload (JObj (request_fields r))) e
    (stream_op_tag _ _ Hop) Henv).
Qed.

(** ** A concrete exchange *)

#[local] Existing Instance plain_engine.

(** The recipient's request of StreamProps.v, asked through the stack. *)
Definition demo_asked (srv : Server) (a : Z) : outcome (EnclaveFailure + json) :=
  requestAuthorization (js "http://127.0.0.1:18080") (deliver srv demo_env None init_state) 1400000
    (JObj (request_fields (demo_request a WITHDRAW_TAG))) OP_COMMAND_AUTH_WITHDRAW.

Lemma demo_granted : ∃ d n, authorize demo_env WITHDRAW_TAG (demo_msg 226 WITHDRAW_TAG) 0 = (Ret (Some d, 1, None), n).
Proof. do 2 eexists. vm_compute. reflexivity. Qed.

Lemma demo_request_ok a : forallb (λ c, bool_decide (is_unit c)) (callerSignature (demo_request a WITHDRAW_TAG)) = true →
  request_units (demo_request a WITHDRAW_TAG) ∧ date_ok 1400000 ∧ stream_op OP_COMMAND_AUTH_WITHDRAW WITHDRAW_TAG.
Proof.
  intros Hs. split; [by apply demo_units|]. split; [unfold date_ok; lia|]. left. split; reflexivity.
Qed.

Lemma client_gets_verdict_witness :
  ∃ srv, demo_server = Ret srv ∧ ∃ resp, demo_asked srv 226 = Ret (inr resp).
Proof.
  destruct demo_server as [srv|e] eqn:Hm; [|discriminate Hm]. exists srv. split; [reflexivity|].
  destruct (demo_request_ok 226 ltac:(vm_compute; reflexivity)) as (Hr & Hn & Hop).
  destruct demo_granted as (d & n & Eg).
  destruct (client_gets_verdict (H:=plain_engine) srv demo_env None init_state (js "http://127.0.0.1:18080")
    OP_COMMAND_AUTH_WITHDRAW WITHDRAW_TAG (demo_request 226 WITHDRAW_TAG) 1400000 Hm Hop demo_env_ok Hr Hn)
    as [(resp & _ & E)|(t & _ & E & _)].
  - exists resp. exact E.
  - exfalso. apply (f_equal fst) in Eg. cbn [fst] in Eg. unfold demo_msg in Eg.
    cbn [authCount init_state] in E. rewrite Eg in E. discriminate E.
Defined.

(** A 200 without a JSON body is reported neither as unreachable nor as rejected:
    the promise is rejected with the parser's error. *)
Example untyped_failure : throws (requestAuthorization []
  (λ _ _, Ret {| res_status := 200; res_body := Some (js "<html>") |}) 0 JNull OP_COMMAND_AUTH_WITHDRAW).
Proof. eexists. vm_compute. reflexivity. Qed.

(** The client cuts a name of more than 32 bytes; the scaffold's encoder refuses it. *)
Example long_name_cut :
  toBytes32Hex (replicate 33 97) = toBytes32Hex (replicate 32 97) ∧
  throws (stringToBytes32Hex (replicate 33 97)).
Proof. split; [reflexivity|eexists; reflexivity]. Qed.
