(* ===== verification/Node.v ===== *)
(** * The tee-node client ([typescript/src/base/node.ts])

    Base64 as Node's Buffer writes and reads it, and the client that posts a
    ciphertext to tee-node and reads the plaintext.  The network is a parameter: an
    answer or an exception for each URL and body.

    Theorems: base64 round-trips; [decrypt] returns exactly the bytes the node
    answers with; and every failure is an exception with the node's own words. *)

From S2P Require Import Prelude JsString JsNumber Utf8 Json JsonFacts Encoding Wire Framework Abi Instances Protocol StreamHandlers StreamProps Handlers Server EnclaveClient.

(** ** Base64 *)

(** The alphabet: [A-Z a-z 0-9 + /]. *)
Definition b64_char (n : Z) : Z :=
  if n <? 26 then 65 + n else if n <? 52 then 71 + n else if n <? 62 then n - 4
  else if n =? 62 then 43 else 47.

(** The value of a character, in the standard or the URL alphabet. *)
Definition b64_val (c : Z) : option Z :=
  if (65 <=? c) && (c <=? 90) then Some (c - 65)
  else if (97 <=? c) && (c <=? 122) then Some (c - 71)
  else if (48 <=? c) && (c <=? 57) then Some (c + 4)
  else if (c =? 43) || (c =? 45) then Some 62
  else if (c =? 47) || (c =? 95) then Some 63
  else None.

(** [Buffer.from(b).toString("base64")]. *)
Fixpoint to_base64 (b : bytes) : jsstr :=
  match b with
  | x :: y :: z :: rest =>
      b64_char (Z.shiftr x 2) :: b64_char (Z.lor (Z.shiftl (Z.land x 3) 4) (Z.shiftr y 4))
      :: b64_char (Z.lor (Z.shiftl (Z.land y 15) 2) (Z.shiftr z 6)) :: b64_char (Z.land z 63)
      :: to_base64 rest
  | [x; y] =>
      [b64_char (Z.shiftr x 2); b64_char (Z.lor (Z.shiftl (Z.land x 3) 4) (Z.shiftr y 4));
       b64_char (Z.shiftl (Z.land y 15) 2); 61]
  | [x] => [b64_char (Z.shiftr x 2); b64_char (Z.shiftl (Z.land x 3) 4); 61; 61]
  | [] => []
  end.

(** The bytes of a sequence of sextets; bits that do not fill a byte are dropped. *)
Fixpoint from_sextets (s : list Z) : bytes :=
  match s with
  | p :: q :: r :: t :: rest =>
      Z.lor (Z.shiftl p 2) (Z.shiftr q 4) :: Z.lor (Z.shiftl (Z.land q 15) 4) (Z.shiftr r 2)
      :: Z.lor (Z.shiftl (Z.land r 3) 6) t :: from_sextets rest
  | [p; q; r] => [Z.lor (Z.shiftl p 2) (Z.shiftr q 4); Z.lor (Z.shiftl (Z.land q 15) 4) (Z.shiftr r 2)]
  | [p; q] => [Z.lor (Z.shiftl p 2) (Z.shiftr q 4)]
  | _ => []
  end.

(** [Buffer.from(s, "base64")]: up to the first [=], other characters skipped. *)
Definition from_base64 (s : jsstr) : bytes := from_sextets (omap b64_val (take_while (λ c, negb (c =? 61)) s)).

(** ** The client *)

Definition DEFAULT_TIMEOUT_MS : Z := 30000.

(** [signPort] is the value of [Number(signPort)]. *)
Record NodeClient := { signPort : jsnum; timeoutMs : Z }.

Definition new_NodeClient (port : jsnum) (timeout : option Z) : NodeClient :=
  {| signPort := port; timeoutMs := default DEFAULT_TIMEOUT_MS timeout |}.

Definition baseUrl (c : NodeClient) : jsstr := js "http://localhost:" ++ num_to_string (signPort c).

Section node.
Context `{JsEngine} (fetch : jsstr → jsstr → outcome FetchResponse).

(** [res.text()]. *)
Definition res_text (r : FetchResponse) : outcome jsstr :=
  match res_body r with
  | Some b => Ret (text_decode b)
  | None => Throw (TypeError (js "terminated"))
  end.

(** The body of the [try]; an abort is an exception named AbortError. *)
Definition post_body (c : NodeClient) (path : jsstr) (payload : json) : outcome json :=
  res ← fetch (baseUrl c ++ path) (JSON_stringify payload);
  if res_ok res then res_json res
  else
    text ← res_text res;
    Throw (PlainError (js "node returned " ++ bigint_to_string (res_status res) ++ js " for " ++ path ++ js ": " ++ text)).

Definition post (c : NodeClient) (path : jsstr) (payload : json) : outcome json :=
  match post_body c path payload with
  | Ret v => Ret v
  | Throw e =>
      if str_eqb (err_name e) (js "AbortError") then
        Throw (PlainError (js "node request to " ++ path ++ js " timed out after "
          ++ bigint_to_string (timeoutMs c) ++ js "ms"))
      else Throw e
  end.

(** What [Buffer.from] makes of a value that is no string; the type of the answer
    excludes one. *)
Context (buffer_from : json → outcome bytes).

Definition node_decrypt (c : NodeClient) (ciphertext : bytes) : outcome bytes :=
  resp ← post c (js "/decrypt") (JObj [(js "encryptedMessage", JStr (to_base64 ciphertext))]);
  encoded ← prop resp (js "decryptedMessage");
  match encoded with
  | None => Throw (PlainError (js "node response missing decryptedMessage"))
  | Some (JStr s) => Ret (from_base64 s)
  | Some v => buffer_from v
  end.
End node.

(** ** Base64: lemmas *)

(** The six-bit groups of a byte string, and the padding. *)
Fixpoint sextets (b : bytes) : list Z :=
  match b with
  | x :: y :: z :: rest =>
      Z.shiftr x 2 :: Z.lor (Z.shiftl (Z.land x 3) 4) (Z.shiftr y 4)
      :: Z.lor (Z.shiftl (Z.land y 15) 2) (Z.shiftr z 6) :: Z.land z 63 :: sextets rest
  | [x; y] => [Z.shiftr x 2; Z.lor (Z.shiftl (Z.land x 3) 4) (Z.shiftr y 4); Z.shiftl (Z.land y 15) 2]
  | [x] => [Z.shiftr x 2; Z.shiftl (Z.land x 3) 4]
  | [] => []
  end.

Fixpoint padding (b : bytes) : jsstr :=
  match b with
  | _ :: _ :: _ :: rest => padding rest
  | [_; _] => [61]
  | [_] => [61; 61]
  | [] => []
  end.

(** Induction by three elements. *)
Lemma triple_ind {A} (P : list A → Prop) : P [] → (∀ x, P [x]) → (∀ x y, P [x; y]) →
  (∀ x y z l, P l → P (x :: y :: z :: l)) → ∀ l, P l.
Proof.
  intros H0 H1 H2 H3. assert (∀ n l, (length l ≤ n)%nat → P l) as Hn.
  { induction n as [|n IH]; intros [|x [|y [|z l]]] Hl; cbn in Hl; auto; try lia. apply H3, IH. lia. }
  intros l. by apply (Hn (length l)).
Qed.

Lemma to_base64_sextets b : to_base64 b = (b64_char <$> sextets b) ++ padding b.
Proof.
  induction b as [|x|x y|x y z l IH] using triple_ind; [done..|].
  cbn [to_base64 sextets padding fmap list_fmap app]. by rewrite IH.
Qed.

(** What the groups of two neighbouring bytes give back, by evaluation. *)
Definition neighbours (x y : Z) : bool :=
  let q := Z.lor (Z.shiftl (Z.land x 3) 4) (Z.shiftr y 4) in
  let r := Z.lor (Z.shiftl (Z.land x 15) 2) (Z.shiftr y 6) in
  (Z.lor (Z.shiftl (Z.shiftr x 2) 2) (Z.shiftr q 4) =? x) &&
  (Z.land q 15 =? Z.shiftr y 4) && (Z.shiftr r 2 =? Z.land x 15) && (Z.land r 3 =? Z.shiftr y 6) &&
  (Z.lor (Z.shiftl (Z.shiftr x 4) 4) (Z.land x 15) =? x) && (Z.lor (Z.shiftl (Z.shiftr x 6) 6) (Z.land x 63) =? x) &&
  (0 <=? Z.shiftr x 2) && (Z.shiftr x 2 <? 64) && (0 <=? q) && (q <? 64) && (0 <=? r) && (r <? 64) &&
  (0 <=? Z.land x 63) && (Z.land x 63 <? 64).

Lemma neighbours_ok x y : is_byte x → is_byte y → neighbours x y = true.
Proof.
  assert (forallb (λ x, forallb (neighbours x) (seqZ 0 256)) (seqZ 0 256) = true) as H by (vm_compute; reflexivity).
  unfold is_byte. intros Hx Hy. rewrite forallb_Forall, Forall_forall in H. specialize (H x).
  rewrite forallb_Forall, Forall_forall in H. apply H; apply elem_of_seqZ; lia.
Qed.

Definition is_sextet (n : Z) : Prop := 0 ≤ n < 64.

Ltac use_neighbours H :=
  unfold neighbours in H; cbn zeta in H; rewrite !andb_true_iff, !Z.eqb_eq, !Z.leb_le, !Z.ltb_lt in H.

Lemma sextets_ok b : is_bytes b → Forall is_sextet (sextets b) ∧ from_sextets (sextets b) = b.
Proof.
  unfold is_sextet. assert (is_byte 0) as H0 by (unfold is_byte; lia).
  induction b as [|x|x y|x y z l IH] using triple_ind; intros Hb.
  - by split.
  - apply Forall_cons in Hb as [Hx _]. pose proof (neighbours_ok x 0 Hx H0) as N. use_neighbours N.
    change (Z.shiftr 0 4) with 0 in N. rewrite Z.lor_0_r in N. cbn [sextets from_sextets].
    split; [repeat (apply List.Forall_cons; [lia|]); constructor|]. f_equal. lia.
  - apply Forall_cons in Hb as [Hx [Hy _]%Forall_cons].
    pose proof (neighbours_ok x y Hx Hy) as N. pose proof (neighbours_ok y 0 Hy H0) as M.
    use_neighbours N. use_neighbours M. change (Z.shiftr 0 6) with 0 in M. rewrite !Z.lor_0_r in M.
    cbn [sextets from_sextets]. split; [repeat (apply List.Forall_cons; [lia|]); constructor|].
    f_equal; [lia|]. f_equal. replace (Z.land _ 15) with (Z.shiftr y 4) by lia.
    replace (Z.shiftr (Z.shiftl (Z.land y 15) 2) 2) with (Z.land y 15) by lia. lia.
  - apply Forall_cons in Hb as [Hx [Hy [Hz Hl]%Forall_cons]%Forall_cons]. destruct (IH Hl) as [Hs E].
    pose proof (neighbours_ok x y Hx Hy) as N. pose proof (neighbours_ok y z Hy Hz) as M.
    pose proof (neighbours_ok z 0 Hz H0) as K. use_neighbours N. use_neighbours M. use_neighbours K.
    cbn [sextets from_sextets]. rewrite E. split; [repeat (apply List.Forall_cons; [lia|]); exact Hs|].
    destruct N as (((((((((((((N1 & N2) & _) & _) & _) & _) & _) & _) & _) & _) & _) & _) & _) & _).
    destruct M as (((((((((((((_ & _) & M3) & M4) & M5) & _) & _) & _) & _) & _) & _) & _) & _) & _).
    destruct K as (((((((((((((_ & _) & _) & _) & _) & K6) & _) & _) & _) & _) & _) & _) & _) & _).
    by rewrite N1, N2, M3, M4, M5, K6.
Qed.

Lemma sextet_char n : is_sextet n → b64_val (b64_char n) = Some n ∧ negb (b64_char n =? 61) = true.
Proof.
  assert (forallb (λ n, bool_decide (b64_val (b64_char n) = Some n) && negb (b64_char n =? 61)) (seqZ 0 64) = true)
    as H by (vm_compute; reflexivity).
  unfold is_sextet. intros Hn. rewrite forallb_Forall, Forall_forall in H.
  specialize (H n ltac:(apply elem_of_seqZ; lia)). apply andb_prop in H as [H%bool_decide_eq_true ?]. done.
Qed.

Lemma padding_stops b : take_while (λ c, negb (c =? 61)) (padding b) = [].
Proof. induction b as [|x|x y|x y z l IH] using triple_ind; [done..|exact IH]. Qed.

Lemma read_sextets ss rest : Forall is_sextet ss → take_while (λ c, negb (c =? 61)) rest = [] →
  omap b64_val (take_while (λ c, negb (c =? 61)) ((b64_char <$> ss) ++ rest)) = ss.
Proof.
  intros Hs Hr. induction Hs as [|n ss Hn _ IH]; [cbn [fmap list_fmap app]; by rewrite Hr|].
  destruct (sextet_char n Hn) as [Ev Ec]. cbn [fmap list_fmap app take_while]. rewrite Ec.
  cbn [omap list_omap]. by rewrite Ev, IH.
Qed.

Lemma base64_roundtrip b : is_bytes b → from_base64 (to_base64 b) = b.
Proof.
  intros [Hs E]%sextets_ok. unfold from_base64.
  by rewrite to_base64_sextets, (read_sextets _ _ Hs (padding_stops b)), E.
Qed.

Lemma to_base64_units b : is_bytes b → is_units (to_base64 b).
Proof.
  intros [Hs _]%sextets_ok. rewrite to_base64_sextets. apply Forall_app. split.
  - apply Forall_fmap. eapply Forall_impl; [exact Hs|]. intros n Hn. cbn. unfold is_sextet in Hn.
    unfold is_unit, b64_char. repeat case_match; reflect_Z; lia.
  - clear. induction b as [|x|x y|x y z l IH] using triple_ind; [constructor| | |exact IH];
      repeat (apply List.Forall_cons; [unfold is_unit; lia|]); constructor.
Qed.

(** ** A node *)

Section decrypts.
Context `{JsEngine, Ecies} (fetch : jsstr → jsstr → outcome FetchResponse) (buffer_from : json → outcome bytes).
Context (c : NodeClient).

Definition decrypt_url : jsstr := baseUrl c ++ js "/decrypt".
Definition decrypt_request (ct : bytes) : jsstr :=
  JSON_stringify (JObj [(js "encryptedMessage", JStr (to_base64 ct))]).
Definition decrypt_answer (p : bytes) : bytes :=
  utf8_encode (JSON_stringify (JObj [(js "decryptedMessage", JStr (to_base64 p))])).

(** A node that holds the key [k]: it answers with the plaintext, or with an error
    status when the ciphertext does not open. *)
Record node_holds (k : jsstr) : Prop := {
  nh_plain ct p : is_bytes ct → decrypt k ct = Ret p →
    fetch decrypt_url (decrypt_request ct) = Ret {| res_status := 200; res_body := Some (decrypt_answer p) |};
  nh_refused ct e : is_bytes ct → decrypt k ct = Throw e →
    ∃ r, fetch decrypt_url (decrypt_request ct) = Ret r ∧ res_ok r = false;
}.

Lemma decrypted_json_ok p : is_bytes p → json_ok (JObj [(js "decryptedMessage", JStr (to_base64 p))]) = true.
Proof.
  intros Hp%to_base64_units. apply object_ok; [vm_compute; reflexivity..|].
  apply List.Forall_cons; [by apply str_ok|constructor].
Qed.

Lemma post_answer path payload r : fetch (baseUrl c ++ path) (JSON_stringify payload) = Ret r →
  post_body fetch c path payload =
    if res_ok r then res_json r
    else text ← res_text r;
         Throw (PlainError (js "node returned " ++ bigint_to_string (res_status r) ++ js " for " ++ path ++ js ": " ++ text)).
Proof. intros E. unfold post_body. by rewrite E. Qed.

Lemma node_reads ct p : is_bytes p →
  fetch decrypt_url (decrypt_request ct) = Ret {| res_status := 200; res_body := Some (decrypt_answer p) |} →
  node_decrypt fetch buffer_from c ct = Ret p.
Proof.
  intros Hp E. unfold node_decrypt, post. rewrite (post_answer _ _ _ E).
  change (res_ok _) with true. unfold decrypt_answer.
  rewrite res_json_ok by (by apply decrypted_json_ok || by eexists).
  cbn [mbind outcome_bind]. change (Ret (from_base64 (to_base64 p)) = Ret p). by rewrite base64_roundtrip.
Qed.

Lemma node_refuses ct r : fetch decrypt_url (decrypt_request ct) = Ret r → res_ok r = false →
  throws (node_decrypt fetch buffer_from c ct).
Proof.
  intros E Hr. unfold node_decrypt, post. rewrite (post_answer _ _ _ E), Hr.
  destruct (res_text r) as [text|e]; cbn [mbind outcome_bind].
  - change (str_eqb (err_name (PlainError _)) (js "AbortError")) with false. by eexists.
  - by destruct (str_eqb (err_name e) (js "AbortError")); eexists.
Qed.
End decrypts.

(** ** Properties *)

(** decryption through the node is decryption with the node's key: base64
    carries the ciphertext there and the plaintext back, every byte value included,
    so [decrypt] returns exactly the bytes the key opens, and throws when the key
    does not open them; what was encrypted to the node's key comes back.  Of the
    other failures, a request that is aborted is reported as a timeout, with the
    path and the limit; any other exception of the network passes unchanged; an
    error status carries the status, the path and the node's text; an answer that
    is no object with the field is an exception. *)
Theorem node_decrypt_correct `{JsEngine, Ecies, !EciesLaws} fetch buffer_from c k ct : is_bytes ct →
  (node_holds fetch c k →
     (∀ p, node_decrypt fetch buffer_from c ct = Ret p ↔ decrypt k ct = Ret p) ∧
     (∀ rnd m, encrypt (ecies_public k) rnd m = Ret ct → node_decrypt fetch buffer_from c ct = Ret m)) ∧
  (∀ e, fetch (decrypt_url c) (decrypt_request ct) = Throw e →
     node_decrypt fetch buffer_from c ct = Throw (if str_eqb (err_name e) (js "AbortError")
       then PlainError (js "node request to /decrypt timed out after " ++ bigint_to_string (timeoutMs c) ++ js "ms")
       else e)) ∧
  (∀ st b, fetch (decrypt_url c) (decrypt_request ct) = Ret {| res_status := st; res_body := Some b |} →
     ¬ 200 ≤ st ≤ 299 →
     node_decrypt fetch buffer_from c ct = Throw (PlainError
       (js "node returned " ++ bigint_to_string st ++ js " for /decrypt: " ++ text_decode b))) ∧
  (∀ st b v, fetch (decrypt_url c) (decrypt_request ct) = Ret {| res_status := st; res_body := Some b |} →
     200 ≤ st ≤ 299 → JSON_parse (text_decode b) = Ret v → get v (js "decryptedMessage") = None →
     throws (node_decrypt fetch buffer_from c ct)).
Proof.
  intros Hct. split; [|split_and!].
  - intros Hn. assert (∀ p, decrypt k ct = Ret p → node_decrypt fetch buffer_from c ct = Ret p) as Hp.
    { intros p E. apply node_reads; [by eapply decrypt_bytes|]. by apply (nh_plain _ _ _ Hn). }
    split.
    + intros p. split; [|apply Hp]. intros E. destruct (decrypt k ct) as [q|e] eqn:Ed.
      * specialize (Hp q eq_refl). congruence.
      * destruct (nh_refused _ _ _ Hn ct e Hct Ed) as (r & Er & Hr).
        destruct (node_refuses fetch buffer_from c ct r Er Hr). congruence.
    + intros rnd m E%decrypt_encrypt. by apply Hp.
  - intros e E. unfold node_decrypt, post, post_body.
    change (fetch (baseUrl c ++ js "/decrypt") _) with (fetch (decrypt_url c) (decrypt_request ct)).
    rewrite E. cbn [mbind outcome_bind]. by destruct (str_eqb _ _).
  - intros st b E Hst. unfold node_decrypt, post. rewrite (post_answer _ _ _ _ _ E).
    assert (res_ok {| res_status := st; res_body := Some b |} = false) as ->.
    { unfold res_ok. cbn [res_status]. apply andb_false_iff. rewrite !Z.leb_gt. lia. }
    reflexivity.
  - intros st b v E Hst Hv Hg. unfold node_decrypt, post. rewrite (post_answer _ _ _ _ _ E).
    assert (res_ok {| res_status := st; res_body := Some b |} = true) as ->.
    { unfold res_ok. cbn [res_status]. apply andb_true_iff. rewrite !Z.leb_le. lia. }
    unfold res_json. cbn [res_body]. rewrite Hv. cbn [mbind outcome_bind].
    unfold prop. destruct v; cbn [mbind outcome_bind]; try by eexists. all: rewrite Hg; by eexists.
Qed.

(** A node that holds [demo_key], on the default port. *)
Definition demo_node : NodeClient := new_NodeClient (num_of_Z 9090) None.
Definition demo_fetch (url body : jsstr) : outcome FetchResponse :=
  match JSON_parse (H:=plain_engine) body with
  | Ret v =>
      match get v (js "encryptedMessage") with
      | Some (JStr s) =>
          match decrypt demo_key (from_base64 s) with
          | Ret p => Ret {| res_status := 200; res_body := Some (decrypt_answer p) |}
          | Throw e => Ret {| res_status := 400; res_body := Some (utf8_encode (err_message e)) |}
          end
      | _ => Throw (TypeError (js "no message"))
      end
  | Throw e => Throw e
  end.

Lemma demo_fetch_request ct : is_bytes ct →
  demo_fetch (decrypt_url demo_node) (decrypt_request ct) =
    match decrypt demo_key ct with
    | Ret p => Ret {| res_status := 200; res_body := Some (decrypt_answer p) |}
    | Throw e => Ret {| res_status := 400; res_body := Some (utf8_encode (err_message e)) |}
    end.
Proof.
  intros Hct. unfold demo_fetch, decrypt_request. rewrite (JSON_roundtrip (H:=plain_engine)).
  - change (get (JObj [(js "encryptedMessage", JStr (to_base64 ct))]) (js "encryptedMessage"))
      with (Some (JStr (to_base64 ct))). cbn iota. by rewrite base64_roundtrip.
  - apply object_ok; [vm_compute; reflexivity..|].
    apply List.Forall_cons; [by apply str_ok, to_base64_units|constructor].
Qed.

Lemma demo_node_holds : node_holds demo_fetch demo_node demo_key.
Proof.
  split.
  - intros ct p Hct E. by rewrite demo_fetch_request, E.
  - intros ct e Hct E. rewrite demo_fetch_request, E by done. eexists. split; [done|reflexivity].
Qed.

Lemma node_decrypt_correct_witness :
  node_decrypt (H:=plain_engine) demo_fetch (λ _, Throw (TypeError [])) demo_node (hex_bytes demo_key ++ [1; 2; 255])
    = Ret [1; 2; 255].
Proof.
  apply (proj2 (proj1 (node_decrypt_correct (H:=plain_engine) demo_fetch (λ _, Throw (TypeError [])) demo_node demo_key
    (hex_bytes demo_key ++ [1; 2; 255])
    ltac:(apply all_bytes; vm_compute; reflexivity)) demo_node_holds) [] [1; 2; 255]). vm_compute. reflexivity.
Defined.
