(* ===== verification/Main.v ===== *)
(** * Starting the extension ([typescript/src/main.ts], [typescript/scripts/serve-extension.ts])

    The two programs that run the server of Server.v: the ports they take from the
    environment, the check of the keys, the socket they listen on, and the shutdown
    on a signal.  Whether listening succeeds, and whether connections are open when a
    signal arrives, are parameters.

    Theorems: both programs run the same server; they differ in the default ports
    and in what they do when a key is missing; and a second signal, while the first
    waits for connections, ends the process with code 1. *)

From S2P Require Import Prelude JsString JsNumber Utf8 Json JsMath JsonFacts Encoding Wire Framework Abi Instances Protocol StreamHandlers StreamProps Handlers Server EnclaveClient.

(** ** The programs *)

(** [process.env]. *)
Abbreviation Environment := (jsstr → option jsstr).

(** The [http.Server] that the field [server] holds. *)
Inductive Socket : Type := Listening | Stopped.

(** How the promise of [close] settles: at once, when the last connection has ended,
    or never well ([ERR_SERVER_NOT_RUNNING]). *)
Inductive Closing : Type := Resolved | OnceIdle | Rejected_.

Record Process `{JsEngine, Viem, Ecies} := {
  extPort : option jsnum;
  signPort : option jsnum;
  program : Server;
  socket : option Socket;
}.

Inductive Status `{JsEngine, Viem, Ecies} : Type :=
| Running (p : Process)
| Exited (code : Z) (said : option jsstr).

Section programs.
Context `{JsEngine, Viem, Ecies} (env : Environment).
(** Listening on a port. *)
Context (listen : option jsnum → outcome unit).

Definition listenAndServe (port : option jsnum) : outcome (option Socket) :=
  _ ← listen port; Ret (Some Listening).

(** [close], on the field [server]. *)
Definition close (server : option Socket) : option Socket * Closing :=
  match server with
  | None => (None, Resolved)
  | Some Listening => (Some Stopped, OnceIdle)
  | Some Stopped => (Some Stopped, Rejected_)
  end.

(** [new Server(extPort, signPort, VERSION, register, reportState)] and
    [listenAndServe]; an exception ends the program. *)
Definition start (ext sign : jsstr) : Status :=
  match (srv ← main_server; s ← listenAndServe (Number ext); Ret (srv, s)) with
  | Ret (srv, s) => Running {| extPort := Number ext; signPort := Number sign; program := srv; socket := s |}
  | Throw e => Exited 1 (Some (err_message e))
  end.

(** [main.ts]. *)
Definition main : Status :=
  start (default (js "8080") (env (js "EXTENSION_PORT"))) (default (js "9090") (env (js "SIGN_PORT"))).

(** [serve-extension.ts]. *)
Definition serve_ports : jsstr * jsstr :=
  let ext := default (js "18080") (env (js "EXTENSION_PORT")) in
  (ext, default (number_text (num_plus_one <$> Number ext)) (env (js "SIGN_PORT"))).

Definition serve_extension : Status :=
  match env_truthy (env (js "TEE_ECIES_PRIVKEY")), env_truthy (env (js "TEE_SIGNER_PRIVKEY")) with
  | Some _, Some _ => start serve_ports.1 serve_ports.2
  | _, _ => Exited 1 (Some (js "TEE keys missing. Run:  set -a; . ./.env; set +a   (or npm run tee-keys)"))
  end.

(** SIGTERM and SIGINT, [idle] when no connection is open. *)
Definition shutdown (idle : bool) (p : Process) : Status :=
  match close (socket p) with
  | (_, Resolved) => Exited 0 None
  | (s, OnceIdle) =>
      if idle then Exited 0 None
      else Running {| extPort := extPort p; signPort := signPort p; program := program p; socket := s |}
  | (_, Rejected_) => Exited 1 None
  end.

(** What the handlers of the process read, at the time [ms]. *)
Definition env_at (ms : Z) : Env := {|
  TEE_ECIES_PRIVKEY := env (js "TEE_ECIES_PRIVKEY");
  TEE_SIGNER_PRIVKEY := env (js "TEE_SIGNER_PRIVKEY");
  now_ms := ms |}.
End programs.

(** ** Lemmas *)

Lemma main_server_starts `{JsEngine, Viem, Ecies} : returns main_server.
Proof. eexists. reflexivity. Qed.

Lemma Number_to_string n : 0 ≤ n ≤ 2 ^ 53 → Number (bigint_to_string n) = Some (num_of_Z n).
Proof.
  intros Hn. assert (bigint_to_string n = to_radix 10 n) as E.
  { unfold bigint_to_string. by rewrite (proj2 (Z.ltb_ge _ _)) by lia. }
  rewrite E. pose proof (decimal_digits n ltac:(lia)) as Hd. set (s := to_radix 10 n) in *.
  assert (s ≠ []) as Hne by (by apply to_radix_nonempty).
  assert (forallb is_digit s = true) as Hb by by apply forallb_Forall.
  destruct (take_while_app is_digit s [] Hd I) as [E1 E2]. rewrite app_nil_r in E1, E2.
  unfold Number. rewrite trim_digits by (eapply Forall_impl; [exact Hd|apply digit_not_space]). destruct s as [|c s'] eqn:Es; [done|].
  rewrite radix_prefix_digits by done. rewrite <- Es in *.
  assert (is_digit c = true) as Hc by (rewrite Es in Hd; by apply Forall_cons in Hd as [? _]).
  unfold is_digit in Hc. reflect_Z. rewrite !(proj2 (Z.eqb_neq c _)) by lia.
  unfold decimal_literal. destruct (str_eqb s (js "Infinity")) eqn:Ei.
  { apply str_eqb_true in Ei. rewrite Es in Ei. injection Ei as Ec _. lia. }
  rewrite E1, E2. cbn [expect]. rewrite app_nil_r, bool_decide_eq_false_2 by done.
  cbn [parse_exp]. f_equal. unfold s. rewrite to_radix_value by lia.
  pose proof (num_of_decimal_Z n ltac:(lia)) as Ez.
  by rewrite (proj2 (Z.ltb_ge _ _)), Z.abs_eq in Ez by lia.
Qed.

Lemma num_plus_one_Z n : 0 ≤ n < 2 ^ 53 → num_plus_one (num_of_Z n) = num_of_Z (n + 1).
Proof.
  intros Hn. destruct (Z.eq_dec n 0) as [->|Hne]; [reflexivity|].
  unfold num_of_Z at 1. rewrite Z.abs_eq, (proj2 (Z.leb_le _ _)), (proj2 (Z.ltb_ge _ _)) by lia.
  destruct n as [|p|p]; [lia| |lia]. cbn [num_exact].
  pose proof (strip_pos_value p 0 ltac:(lia)) as Hs. destruct (strip_pos p 0) as [p' e'].
  destruct Hs as [He Hv]. rewrite Z.pow_0_r, Z.mul_1_r in Hv. cbn [signed num_plus_one].
  by rewrite (proj2 (Z.leb_le _ _) He), Hv.
Qed.

Lemma missing_keys_refused `{JsEngine, Viem, Ecies} env tag msg n req :
  decode_request msg = Ret (inr req) →
  env_truthy (TEE_ECIES_PRIVKEY env) = None ∨ env_truthy (TEE_SIGNER_PRIVKEY env) = None →
  authorize env tag msg n = (Ret keys_missing, n).
Proof.
  intros Hreq Hk. unfold authorize, authorize_steps. rewrite Hreq. cbn [step_bind].
  destruct Hk as [->| ->]; [done|]. by destruct (env_truthy _).
Qed.

(** A signal ends a server without connections well; with connections it waits, and
    the next signal ends it with code 1. *)
Lemma shutdown_ends `{JsEngine, Viem, Ecies} p : socket p = Some Listening →
  shutdown true p = Exited 0 None ∧
  ∃ p', shutdown false p = Running p' ∧ program p' = program p ∧ ∀ idle, shutdown idle p' = Exited 1 None.
Proof.
  intros Hs. unfold shutdown. rewrite Hs. cbn [close]. split; [done|]. eexists. split; [reflexivity|]. by split.
Qed.

(** ** Properties *)

(** both programs run the server with the application's handlers.  [main.ts]
    listens on 8080 and [serve-extension.ts] on 18080 unless EXTENSION_PORT says
    otherwise, and the second derives the signing port as the next one: for a port
    written in decimal, exactly its successor.  When one of the enclave's keys is
    missing or empty, [serve-extension.ts] exits with code 1 and never listens;
    [main.ts] starts, and every well-formed authorization request it serves is
    refused, leaving the counter unchanged.  A failure to listen ends both with
    code 1. *)
Theorem startup_correct `{JsEngine, Viem, Ecies} env listen
    (Hlisten : ∀ p, listen p = Ret tt) :
  ∃ srv, main_server = Ret srv ∧
  (env (js "EXTENSION_PORT") = None → env (js "SIGN_PORT") = None →
     main env listen = Running {| extPort := Some (num_of_Z 8080); signPort := Some (num_of_Z 9090); program := srv; socket := Some Listening |}) ∧
  (is_Some (env_truthy (env (js "TEE_ECIES_PRIVKEY"))) → is_Some (env_truthy (env (js "TEE_SIGNER_PRIVKEY"))) →
     env (js "SIGN_PORT") = None →
     (env (js "EXTENSION_PORT") = None →
        serve_extension env listen =
          Running {| extPort := Some (num_of_Z 18080); signPort := Some (num_of_Z 18081); program := srv; socket := Some Listening |}) ∧
     ∀ p, 0 ≤ p < 2 ^ 53 → env (js "EXTENSION_PORT") = Some (bigint_to_string p) →
       serve_extension env listen =
         Running {| extPort := Some (num_of_Z p); signPort := Some (num_of_Z (p + 1)); program := srv; socket := Some Listening |} ∧
       ∃ sign, main env listen = Running {| extPort := Some (num_of_Z p); signPort := sign; program := srv; socket := Some Listening |}) ∧
  (env_truthy (env (js "TEE_ECIES_PRIVKEY")) = None ∨ env_truthy (env (js "TEE_SIGNER_PRIVKEY")) = None →
     (∀ listen', ∃ said, serve_extension env listen' = Exited 1 said) ∧
     (∃ p, main env listen = Running p ∧ program p = srv) ∧
     ∀ ms tag msg n req, decode_request msg = Ret (inr req) →
       authorize (env_at env ms) tag msg n = (Ret keys_missing, n)).
Proof.
  destruct main_server_starts as [srv Hm]. exists srv. split; [done|].
  assert (∀ ext sign, start listen ext sign =
    Running {| extPort := Number ext; signPort := Number sign; program := srv; socket := Some Listening |}) as Hstart.
  { intros ext sign. unfold start, listenAndServe. rewrite Hm. cbn [mbind outcome_bind]. by rewrite Hlisten. }
  assert (∀ p, 0 ≤ p < 2 ^ 53 →
    number_text (num_plus_one <$> Number (bigint_to_string p)) = bigint_to_string (p + 1)) as Hnext.
  { intros p Hp. rewrite Number_to_string by lia. cbn [fmap option_fmap option_map number_text].
    rewrite num_plus_one_Z by done. apply num_to_string_of_Z. lia. }
  split_and!.
  - intros He Hs. unfold main. rewrite He, Hs, Hstart. reflexivity.
  - intros [ke Hke] [ks Hks] Hs. unfold serve_extension, serve_ports. rewrite Hke, Hks, Hs. split.
    + intros ->. rewrite Hstart. reflexivity.
    + intros p Hp He. rewrite He. cbn [fst snd].
      change (default (js "18080") (Some (bigint_to_string p))) with (bigint_to_string p).
      change (default ?d None) with d. rewrite Hstart, Hnext by done.
      rewrite !Number_to_string by lia. split; [done|]. unfold main. rewrite He, Hstart.
      change (default (js "8080") (Some (bigint_to_string p))) with (bigint_to_string p).
      rewrite Number_to_string by lia. by eexists.
  - intros Hk. split; [|split].
    + intros listen'. unfold serve_extension.
      destruct Hk as [->| ->]; [|destruct (env_truthy _)]; by eexists.
    + unfold main. rewrite Hstart. by eexists.
    + intros ms tag msg n req Hreq. by apply (missing_keys_refused _ _ _ _ req).
Qed.

Definition demo_environment : Environment := λ k,
  if str_eqb k (js "EXTENSION_PORT") then Some (js "8081")
  else if str_eqb k (js "SIGN_PORT") then None else Some (js "k").

Lemma startup_correct_witness :
  ∃ srv, demo_server = Ret srv ∧
    @serve_extension plain_engine _ _ demo_environment (λ _, Ret tt) =
      Running {| extPort := Some (num_of_Z 8081); signPort := Some (num_of_Z 8082); program := srv; socket := Some Listening |}.
Proof.
  destruct (startup_correct (H:=plain_engine) demo_environment (λ _, Ret tt) (λ _, eq_refl))
    as (srv & Hm & _ & Hs & _). exists srv. split; [exact Hm|].
  destruct (Hs (ex_intro _ _ eq_refl) (ex_intro _ _ eq_refl) eq_refl) as [_ Hp].
  assert (0 ≤ 8081 < 2 ^ 53) as Hr by lia. exact (proj1 (Hp 8081 Hr eq_refl)).
Defined.
