(* ===== verification/TeeKeys.v ===== *)
(** * Generating the enclave's keys ([typescript/scripts/gen-tee-keys.ts])

    The editing of an env file by regular expressions, each written out as a search
    over the text, and the program: which files it writes and what it reports.  The
    files are their contents, [None] when absent; the keys it would draw, eciesjs's
    public half and viem's accounts are parameters.

    Theorems: a key that was set reads back, the other keys read as before, and the
    program without [--force] keeps the keys of the first file. *)

From S2P Require Import Prelude JsString JsNumber Utf8 Json JsonFacts Encoding Wire Framework Abi Instances Protocol StreamHandlers StreamProps Handlers Server EnclaveClient.

(** ** Lines *)

Definition in_line (c : Z) : bool := negb (is_line_end c).

(** [$] with the flag m. *)
Definition line_stop (s : jsstr) : bool := match s with [] => true | c :: _ => is_line_end c end.

Definition assign (key : jsstr) : jsstr := key ++ js "=".

(** The first match of [^key=.*$], with the text around it; [start]: at the start
    of a line. *)
Fixpoint match_line (p : jsstr) (start : bool) (s : jsstr) : option (jsstr * jsstr * jsstr) :=
  if start && starts_with s p then Some ([], take_while in_line s, drop_while in_line s)
  else match s with
       | [] => None
       | c :: s' =>
           match match_line p (is_line_end c) s' with
           | Some (b, m, a) => Some (c :: b, m, a)
           | None => None
           end
       end.

(** The replacement text of [replace]: [$$], [$&], [$`] and [$']. *)
Fixpoint expand (before matched after line : jsstr) : jsstr :=
  match line with
  | c :: ((d :: rest) as r) =>
      if negb (c =? 36) then c :: expand before matched after r
      else if d =? 36 then 36 :: expand before matched after rest
      else if d =? 38 then matched ++ expand before matched after rest
      else if d =? 96 then before ++ expand before matched after rest
      else if d =? 39 then after ++ expand before matched after rest
      else c :: expand before matched after r
  | _ => line
  end.

Definition key_line (key value : jsstr) : jsstr := key ++ [61; 34] ++ value ++ [34].

Definition upsert (body key value : jsstr) : jsstr :=
  let line := key_line key value in
  match match_line (assign key) true body with
  | Some (b, m, a) => b ++ expand b m a line ++ a
  | None => trim_end body ++ [10] ++ line ++ [10]
  end.

(** [^key=][+ an optional quote, one unit or more, an optional quote][$]. *)
Fixpoint has_line (p : jsstr) (start : bool) (s : jsstr) : bool :=
  if start && starts_with s p && negb (line_stop (drop (length p) s)) then true
  else match s with [] => false | c :: s' => has_line p (is_line_end c) s' end.

Definition hasKey (body key : jsstr) : bool := has_line (assign key) true body.

(** The group of [(^key=, an optional quote, ([^ quote \n]+), an optional quote, $)]
    at [s], the text after [key=]: the longest that matches. *)
Fixpoint longest (n : nat) (r : jsstr) : option jsstr :=
  match n with
  | O => None
  | S n' =>
      let rest := drop n r in
      if line_stop (default rest (expect 34 rest)) then Some (take n r) else longest n' r
  end.

Definition unquoted (c : Z) : bool := negb ((c =? 34) || (c =? 10)).

Definition capture (s : jsstr) : option jsstr :=
  let r := default s (expect 34 s) in
  longest (length (take_while unquoted r)) r.

Fixpoint read_line (p : jsstr) (start : bool) (s : jsstr) : option jsstr :=
  match (if start && starts_with s p then capture (drop (length p) s) else None) with
  | Some v => Some v
  | None => match s with [] => None | c :: s' => read_line p (is_line_end c) s' end
  end.

(** The value that the program reads for a key. *)
Definition read_key (body key : jsstr) : option jsstr := read_line (assign key) true body.

(** ** The program *)

Definition ECIES : jsstr := js "TEE_ECIES_PRIVKEY".
Definition SIGNER : jsstr := js "TEE_SIGNER_PRIVKEY".

Section program.
Context `{Viem} (public_of : jsstr → outcome jsstr).

(** What it prints: the signer's address and the public key. *)
Definition report (eciesPriv signerPriv : jsstr) : outcome (jsstr * jsstr) :=
  pub ← public_of eciesPriv;
  a ← privateKeyToAccount signerPriv;
  Ret (account_address a, pub).

Definition with_keys (ecies signer body : jsstr) : jsstr :=
  upsert (upsert body ECIES ecies) SIGNER signer.

(** The files afterwards and the report; [ecies] and [signer] are the keys drawn. *)
Definition gen_tee_keys (FORCE : bool) (ecies signer : jsstr) (files : list (option jsstr)) :
    list (option jsstr) * outcome (jsstr * jsstr) :=
  let existing := default [] (default None (head files)) in
  if hasKey existing ECIES && hasKey existing SIGNER && negb FORCE then
    (files,
     match read_key existing ECIES, read_key existing SIGNER with
     | Some e, Some s => report e s
     | _, _ => Throw (TypeError (js "Cannot read properties of null (reading '1')"))
     end)
  else (option_map (with_keys ecies signer) <$> files, report ecies signer).
End program.

(** ** Lemmas *)

Lemma starts_with_app s t p : starts_with s p = true → starts_with (s ++ t) p = true.
Proof.
  revert s. induction p as [|c p IH]; intros [|d s]; try done. cbn. intros [-> H]%andb_prop.
  by apply IH.
Qed.

Lemma starts_with_self p t : starts_with (p ++ t) p = true.
Proof. induction p; [done|]. cbn. by rewrite Z.eqb_refl. Qed.

Lemma starts_with_true s p : starts_with s p = true ↔ ∃ t, s = p ++ t.
Proof.
  split; [|intros [t ->]; apply starts_with_self]. revert s.
  induction p as [|c p IH]; intros [|d s]; try done; cbn; [by exists []|by exists (d :: s)|].
  intros [->%Z.eqb_eq [t ->]%IH]%andb_prop. by exists t.
Qed.

(** A prefix without [n] is decided before the first [n]. *)
Lemma starts_with_cut p n x y : n ∉ p → starts_with (x ++ n :: y) p = starts_with x p.
Proof.
  revert x. induction p as [|c p IH]; intros x Hn; [by destruct x|].
  apply not_elem_of_cons in Hn as [Hc Hn]. destruct x as [|d x]; cbn.
  - by rewrite (proj2 (Z.eqb_neq _ _)) by done.
  - by rewrite IH.
Qed.

Lemma drop_cut (p x : jsstr) n y : (length p ≤ length x)%nat → drop (length p) (x ++ n :: y) = drop (length p) x ++ n :: y.
Proof. intros. by rewrite drop_app_le. Qed.

Lemma starts_with_fits s p : starts_with s p = true → (length p ≤ length s)%nat.
Proof. intros [t ->]%starts_with_true. rewrite length_app. lia. Qed.

Lemma expect_cut r y : expect 34 (r ++ 10 :: y) = (λ r', r' ++ 10 :: y) <$> expect 34 r.
Proof. destruct r as [|c r]; [done|]. cbn. by destruct (c =? 34). Qed.

Lemma line_stop_cut r y : line_stop (r ++ 10 :: y) = line_stop r.
Proof. by destruct r. Qed.

Lemma longest_cut n r y : (n ≤ length r)%nat → longest n (r ++ 10 :: y) = longest n r.
Proof.
  induction n as [|n IH]; intros Hn; [done|]. cbn [longest].
  rewrite drop_app_le, take_app_le by lia. rewrite expect_cut, IH by lia.
  destruct (expect 34 (drop (S n) r)) as [r'|].
  - change (default _ ((λ r', r' ++ 10 :: y) <$> Some r')) with (r' ++ 10 :: y). by rewrite line_stop_cut.
  - change (default ?d (_ <$> None)) with d. by rewrite line_stop_cut.
Qed.

Lemma take_while_cut f r y : f 10 = false → take_while f (r ++ 10 :: y) = take_while f r.
Proof. intros Hf. induction r as [|c r IH]; cbn; [by rewrite Hf|]. by rewrite IH. Qed.

Lemma take_while_length f s : (length (take_while f s) ≤ length s)%nat.
Proof. induction s as [|c s IH]; cbn; [done|]. destruct (f c); cbn; lia. Qed.

Lemma capture_cut x y : capture (x ++ 10 :: y) = capture x.
Proof.
  unfold capture. rewrite expect_cut.
  assert (∀ r, longest (length (take_while unquoted (r ++ 10 :: y))) (r ++ 10 :: y) =
    longest (length (take_while unquoted r)) r) as Hr.
  { intros r. rewrite take_while_cut by done. apply longest_cut, take_while_length. }
  destruct (expect 34 x); apply Hr.
Qed.

(** What is read of two parts is read of the first, or else of the second. *)
Lemma read_line_cut p st x y : 10 ∉ p →
  read_line p st (x ++ 10 :: y) = match read_line p st x with Some v => Some v | None => read_line p true y end.
Proof.
  intros Hp. revert st. induction x as [|c x IH]; intros st.
  - pose proof (starts_with_cut p 10 [] y Hp) as E0. cbn [app] in *. cbn [read_line]. rewrite E0.
    destruct (st && starts_with [] p) eqn:E; [|done].
    apply andb_prop in E as [_ E%starts_with_fits]. destruct p; [|cbn in E; lia]. done.
  - change ((c :: x) ++ 10 :: y) with (c :: (x ++ 10 :: y)). cbn [read_line].
    change (c :: x ++ 10 :: y) with ((c :: x) ++ 10 :: y). rewrite starts_with_cut, IH by done.
    destruct (st && starts_with (c :: x) p) eqn:E; [|done].
    apply andb_prop in E as [_ E%starts_with_fits]. rewrite drop_cut, capture_cut by done.
    by destruct (capture _).
Qed.

Lemma has_line_cut p st x y : 10 ∉ p →
  has_line p st (x ++ 10 :: y) = has_line p st x || has_line p true y.
Proof.
  intros Hp. revert st. induction x as [|c x IH]; intros st.
  - pose proof (starts_with_cut p 10 [] y Hp) as E0. cbn [app] in *. cbn [has_line]. rewrite E0.
    destruct (st && starts_with [] p) eqn:E; [|done].
    apply andb_prop in E as [_ E%starts_with_fits]. destruct p; [|cbn in E; lia]. done.
  - change ((c :: x) ++ 10 :: y) with (c :: (x ++ 10 :: y)). cbn [has_line].
    change (c :: x ++ 10 :: y) with ((c :: x) ++ 10 :: y). rewrite starts_with_cut, IH by done.
    destruct (st && starts_with (c :: x) p) eqn:E; [|done].
    apply andb_prop in E as [_ E%starts_with_fits]. rewrite drop_cut, line_stop_cut by done.
    by destruct (line_stop _).
Qed.

(** A text whose only line ends are line feeds, a key and a value of an env file. *)
Definition lf_only (s : jsstr) : Prop := Forall (λ c, is_line_end c = true → c = 10) s.
Definition key_char (c : Z) : bool :=
  is_digit c || ((65 <=? c) && (c <=? 90)) || ((97 <=? c) && (c <=? 122)) || (c =? 95).
Definition plain_key (k : jsstr) : Prop := Forall (λ c, key_char c = true) k.
Definition plain_value (v : jsstr) : Prop := v ≠ [] ∧ Forall (λ c, in_line c = true ∧ c ≠ 34 ∧ c ≠ 36) v.

(** A text that ends a line, or starts after one. *)
Definition ends_line (b : jsstr) : Prop := b = [] ∨ ∃ b', b = b' ++ [10].
Definition starts_after (a : jsstr) : Prop := a = [] ∨ ∃ a', a = 10 :: a'.

Lemma match_line_none p st s : match_line p st s = None → read_line p st s = None.
Proof.
  revert st. induction s as [|c s IH]; intros st; cbn [match_line read_line];
    (destruct (st && _); [done|]); [done|].
  destruct (match_line p (is_line_end c) s) as [[[b m] a]|] eqn:E; [done|]. intros _. by apply IH.
Qed.

Lemma match_line_prefix p st x y : match_line p st (x ++ y) = None → match_line p st x = None.
Proof.
  revert st. induction x as [|c x IH]; intros st; cbn [app].
  - destruct y as [|c y]; [done|]. cbn [match_line].
    destruct (st && starts_with (c :: y) p) eqn:E; [done|]. intros _.
    destruct (st && starts_with [] p) eqn:E'; [|done]. apply andb_prop in E' as [-> E'].
    apply (starts_with_app [] (c :: y)) in E'. cbn [app] in E'. by rewrite E' in E.
  - cbn [match_line]. destruct (st && starts_with (c :: x ++ y) p) eqn:E; [done|].
    destruct (st && starts_with (c :: x) p) eqn:E'.
    { apply andb_prop in E' as [-> E']. apply (starts_with_app _ y) in E'. cbn [app] in E'. by rewrite E' in E. }
    destruct (match_line p (is_line_end c) (x ++ y)) as [[[b m] a]|] eqn:Em; [done|].
    intros _. by rewrite (IH _ Em).
Qed.

Lemma take_while_prefix f p t : Forall (λ c, f c = true) p → take_while f (p ++ t) = p ++ take_while f t.
Proof. induction 1 as [|c p Hc _ IH]; [done|]. cbn. by rewrite Hc, IH. Qed.

Lemma take_while_all f s : Forall (λ c, f c = true) (take_while f s).
Proof. induction s as [|c s IH]; cbn; [constructor|]. destruct (f c) eqn:E; by constructor. Qed.

Lemma line_stop_rest s : line_stop (drop_while in_line s) = true.
Proof.
  induction s as [|c s IH]; [done|]. cbn. unfold in_line at 1. destruct (is_line_end c) eqn:E; [|done]. done.
Qed.

(** The first line of a key, and what is around it. *)
Lemma match_line_some p st s b m a : p ≠ [] → Forall (λ c, in_line c = true) p →
  match_line p st s = Some (b, m, a) →
  s = b ++ m ++ a ∧ match_line p st b = None ∧ Forall (λ c, in_line c = true) m ∧
  starts_with m p = true ∧ line_stop a = true ∧
  ((b = [] ∧ st = true) ∨ ∃ b' c, b = b' ++ [c] ∧ is_line_end c = true).
Proof.
  intros Hne Hp. revert st b. induction s as [|c s IH]; intros st b.
  - cbn [match_line]. by destruct p; [|destruct st].
  - cbn [match_line]. destruct (st && starts_with (c :: s) p) eqn:E.
    + intros [= <- <- <-]. apply andb_prop in E as [-> E]. split; [|split; [|split; [|split; [|split]]]].
      * symmetry. apply (take_drop_while in_line (c :: s)).
      * by destruct p.
      * apply (take_while_all in_line (c :: s)).
      * apply starts_with_true in E as [t Et]. change (starts_with (take_while in_line (c :: s)) p = true).
        rewrite Et, take_while_prefix by done. apply starts_with_self.
      * apply (line_stop_rest (c :: s)).
      * by left.
    + destruct (match_line p (is_line_end c) s) as [[[b0 m0] a0]|] eqn:Em; [|done].
      intros [= <- -> ->]. destruct (IH _ _ Em) as (-> & Hb & Hm & Hs & Ha & Hl).
      split_and!; try done.
      * cbn [match_line]. destruct (st && starts_with (c :: b0) p) eqn:E'.
        { apply andb_prop in E' as [-> E']. apply (starts_with_app _ (m ++ a)) in E'. cbn [app] in E'. by rewrite E' in E. }
        by rewrite Hb.
      * right. destruct Hl as [[-> Hc]|(b' & c' & -> & Hc)]; [by exists [], c|].
        exists (c :: b'), c'. done.
Qed.

Lemma key_char_plain c : key_char c = true → in_line c = true ∧ c ≠ 61 ∧ c ≠ 36.
Proof.
  unfold key_char, is_digit, in_line, is_line_end. rewrite !orb_true_iff, !andb_true_iff, !Z.leb_le, !Z.eqb_eq.
  intros H. rewrite !(proj2 (Z.eqb_neq c _)) by lia. split; [done|lia].
Qed.

Lemma assign_plain key : plain_key key →
  assign key ≠ [] ∧ Forall (λ c, in_line c = true) (assign key) ∧ 10 ∉ assign key.
Proof.
  intros Hk. assert (Forall (λ c, in_line c = true) (assign key)) as Ha.
  { apply Forall_app. split; [eapply Forall_impl; [exact Hk|]; by intros c [? _]%key_char_plain|by repeat constructor]. }
  split_and!; [|done|].
  - unfold assign. by destruct key.
  - intros Hin. rewrite Forall_forall in Ha. by specialize (Ha 10 Hin).
Qed.

Section blocks.
Context (p : jsstr) (Hne : p ≠ []) (Hp : 10 ∉ p).

Lemma read_nil : read_line p true [] = None.
Proof. by destruct p. Qed.

(** Reading skips from line to line. *)
Lemma read_blocks b m a : ends_line b → starts_after a →
  read_line p true (b ++ m ++ a) =
    match read_line p true b with Some v => Some v | None =>
    match read_line p true m with Some v => Some v | None => read_line p true a end end.
Proof.
  intros Hb Ha.
  assert (read_line p true (m ++ a) =
    match read_line p true m with Some v => Some v | None => read_line p true a end) as Em.
  { destruct Ha as [->|[a' ->]].
    - rewrite app_nil_r, read_nil. by destruct (read_line p true m).
    - rewrite read_line_cut by done. pose proof (read_line_cut p true [] a' Hp) as Er.
      rewrite read_nil in Er. cbn [app] in Er. by rewrite Er. }
  rewrite <- Em. destruct Hb as [->|[b' ->]]; [by rewrite read_nil|].
  rewrite <- app_assoc. cbn [app]. rewrite !read_line_cut by done. rewrite read_nil.
  by destruct (read_line p true b').
Qed.

(** A single line of another key. *)
Lemma read_other m : Forall (λ c, in_line c = true) m → starts_with m p = false → read_line p true m = None.
Proof.
  intros Hm Hs. destruct m as [|c m]; [by apply read_nil|]. cbn [read_line andb]. rewrite Hs.
  apply Forall_cons in Hm as [Hc Hm]. unfold in_line in Hc. apply negb_true_iff in Hc. rewrite Hc.
  clear Hs. induction Hm as [|d m Hd _ IH]; [done|]. cbn [read_line andb].
  unfold in_line in Hd. apply negb_true_iff in Hd. by rewrite Hd.
Qed.
End blocks.

Lemma read_own p t v : capture t = Some v → read_line p true (p ++ t) = Some v.
Proof.
  intros E. destruct (p ++ t) as [|c s] eqn:Es.
  - apply app_eq_nil in Es as [-> ->]. done.
  - cbn [read_line andb]. rewrite <- Es, starts_with_self, drop_app_length, E. done.
Qed.

Lemma capture_value value : plain_value value → capture (34 :: value ++ [34]) = Some value.
Proof.
  intros [Hne Hv]. unfold capture. change (default _ (expect 34 (34 :: value ++ [34]))) with (value ++ [34]).
  assert (take_while unquoted (value ++ [34]) = value) as ->.
  { rewrite take_while_prefix; [by rewrite app_nil_r|]. eapply Forall_impl; [exact Hv|].
    intros c (Hc & H34 & _). unfold unquoted. destruct (Z.eqb_spec c 34); [done|].
    by destruct (Z.eqb_spec c 10) as [->|]. }
  destruct value as [|c value]; [done|]. cbn [length longest].
  change (S (length value)) with (length (c :: value)). by rewrite drop_app_length, take_app_length.
Qed.

Lemma read_key_line key value : plain_value value → read_line (assign key) true (key_line key value) = Some value.
Proof.
  intros Hv. unfold key_line. change (key ++ [61; 34] ++ value ++ [34]) with (key ++ [61] ++ 34 :: value ++ [34]).
  rewrite app_assoc. by apply read_own, capture_value.
Qed.

Lemma expand_plain b m a line : 36 ∉ line → expand b m a line = line.
Proof.
  intros Hl. induction line as [|c line IH]; [done|]. apply not_elem_of_cons in Hl as [Hc Hl].
  cbn [expand]. destruct line as [|d line]; [done|].
  rewrite (proj2 (Z.eqb_neq c 36)) by done. cbn [negb]. by rewrite IH.
Qed.

(** White space after a quote is all that trimming removes. *)
Lemma trim_end_quote x y : trim_end (x ++ 34 :: y) = x ++ 34 :: trim_end y.
Proof.
  unfold trim_end. rewrite reverse_app, reverse_cons, <- app_assoc. cbn [app].
  assert (∀ u w, drop_while is_js_space (u ++ 34 :: w) = drop_while is_js_space u ++ 34 :: w) as Hd.
  { induction u as [|c u IH]; intros w; [done|]. cbn. by destruct (is_js_space c). }
  rewrite Hd, reverse_app, reverse_cons, reverse_involutive, <- app_assoc. done.
Qed.

Lemma trim_end_prefix s : ∃ w, s = trim_end s ++ w.
Proof.
  unfold trim_end. exists (reverse (take_while is_js_space (reverse s))).
  by rewrite <- reverse_app, take_drop_while, reverse_involutive.
Qed.

Lemma starts_after_trim a : starts_after a → starts_after (trim_end a).
Proof.
  intros Ha. destruct (trim_end_prefix a) as [w E]. destruct (trim_end a) as [|c t]; [by left|].
  destruct Ha as [->|[a' ->]]; [done|]. injection E as <- _. right. by exists t.
Qed.

Lemma plain_line key value : plain_key key → plain_value value →
  Forall (λ c, in_line c = true) (key_line key value) ∧ 36 ∉ key_line key value.
Proof.
  intros Hk [_ Hv]. unfold plain_key in Hk. unfold key_line. split.
  - rewrite !Forall_app. split_and!; [|by repeat constructor| |by repeat constructor].
    + eapply Forall_impl; [exact Hk|]. by intros c [? _]%key_char_plain.
    + eapply Forall_impl; [exact Hv|]. by intros c [? _].
  - rewrite !not_elem_of_app. rewrite Forall_forall in Hk, Hv. repeat split; [| |..].
    + by intros (_ & _ & ?)%Hk%key_char_plain.
    + by repeat (apply not_elem_of_cons; split; [done|]); apply not_elem_of_nil.
    + by intros (_ & _ & ?)%Hv.
    + by apply not_elem_of_cons; split; [done|]; apply not_elem_of_nil.
Qed.

Lemma assign_prefix s key : plain_key key → starts_with s (assign key) = true →
  take_while (λ c, negb (c =? 61)) s = key.
Proof.
  intros Hk [t ->]%starts_with_true. unfold assign. rewrite <- app_assoc, take_while_prefix.
  - by rewrite app_nil_r.
  - eapply Forall_impl; [exact Hk|]. intros c (_ & Hc & _)%key_char_plain. by rewrite (proj2 (Z.eqb_neq c 61)).
Qed.

Lemma assign_distinct s key key2 : plain_key key → plain_key key2 → key ≠ key2 →
  starts_with s (assign key) = true → starts_with s (assign key2) = false.
Proof.
  intros Hk Hk2 Hne Hs. destruct (starts_with s (assign key2)) eqn:E; [|done].
  apply assign_prefix in Hs, E; [|done..]. congruence.
Qed.

Lemma key_line_starts key value : starts_with (key_line key value) (assign key) = true.
Proof.
  unfold key_line, assign. change (key ++ [61; 34] ++ value ++ [34]) with (key ++ [61] ++ 34 :: value ++ [34]).
  rewrite app_assoc. apply starts_with_self.
Qed.

(** The edited text: the line of the key between what was there. *)
Record edited (body key value b a : jsstr) : Prop := {
  ed_text : upsert body key value = b ++ key_line key value ++ a;
  ed_before : ends_line b;
  ed_after : starts_after a;
  ed_first : read_line (assign key) true b = None;
  ed_rest : (∃ m, body = b ++ m ++ a ∧ Forall (λ c, in_line c = true) m ∧ starts_with m (assign key) = true) ∨
    (match_line (assign key) true body = None ∧ b = trim_end body ++ [10] ∧ a = [10]);
}.

Lemma upsert_edits body key value : lf_only body → plain_key key → plain_value value →
  ∃ b a, edited body key value b a.
Proof.
  intros Hb Hk Hv. destruct (assign_plain key Hk) as (Hne & Hp & Hp10).
  pose proof (plain_line key value Hk Hv) as [_ H36].
  destruct (match_line (assign key) true body) as [[[b m] a]|] eqn:E.
  - destruct (match_line_some _ _ _ _ _ _ Hne Hp E) as (Es & Hn & Hm & Hs & Ha & Hl).
    assert (∀ c, c ∈ body → is_line_end c = true → c = 10) as Hlf.
    { intros c Hin. unfold lf_only in Hb. rewrite Forall_forall in Hb. by apply Hb. }
    exists b, a. split.
    + unfold upsert. by rewrite E, expand_plain.
    + destruct Hl as [[-> _]|(b' & c & -> & Hc)]; [by left|]. right. exists b'.
      rewrite (Hlf c); [done|rewrite Es; set_solver|done].
    + destruct a as [|c a']; [by left|]. right. exists a'. rewrite (Hlf c); [done|rewrite Es; set_solver|done].
    + by apply match_line_none.
    + left. by exists m.
  - exists (trim_end body ++ [10]), [10]. split.
    + unfold upsert. rewrite E. by rewrite <- app_assoc.
    + right. by exists (trim_end body).
    + right. by exists [].
    + rewrite read_line_cut by done. destruct (trim_end_prefix body) as [w Ew].
      rewrite (match_line_none _ _ _ (match_line_prefix _ _ (trim_end body) w ltac:(by rewrite <- Ew))).
      by apply read_nil.
    + by right.
Qed.

Section edited.
Context (body key value b a : jsstr) (He : edited body key value b a) (Hk : plain_key key) (Hv : plain_value value).

(** The key reads as set, also when the end of the text is trimmed or changed. *)
Lemma edited_reads a' : starts_after a' → read_key (b ++ key_line key value ++ a') key = Some value.
Proof.
  intros Ha. destruct (assign_plain key Hk) as (Hne & _ & Hp10).
  unfold read_key. rewrite read_blocks by (done || by destruct He).
  by rewrite (ed_first _ _ _ _ _ He), read_key_line.
Qed.

Lemma edited_others key2 : plain_key key2 → key ≠ key2 →
  read_key (b ++ key_line key value ++ a) key2 = read_key body key2 ∨
  match_line (assign key) true body = None ∧
    read_key (b ++ key_line key value ++ a) key2 = read_key (trim_end body) key2.
Proof.
  intros Hk2 Hd. destruct (assign_plain key2 Hk2) as (Hne & _ & Hp10).
  assert (∀ m, Forall (λ c, in_line c = true) m → starts_with m (assign key) = true →
    read_line (assign key2) true m = None) as Hm.
  { intros m H1 H2. apply read_other; [done..|]. by apply (assign_distinct m key key2). }
  pose proof (Hm (key_line key value) (proj1 (plain_line key value Hk Hv)) (key_line_starts key value)) as Hl.
  unfold read_key. rewrite read_blocks by (done || by destruct He). rewrite Hl.
  destruct (ed_rest _ _ _ _ _ He) as [(m & Eb & H1 & H2)|(Em & Eb & Ea)].
  - left. rewrite Eb, read_blocks by (done || by destruct He). by rewrite (Hm m H1 H2).
  - right. split; [done|]. rewrite Eb, Ea, read_line_cut, (read_nil _ Hne) by done.
    change (read_line (assign key2) true [10]) with (read_line (assign key2) true ([] ++ 10 :: [])).
    rewrite read_line_cut, (read_nil _ Hne) by done. by destruct (read_line (assign key2) true (trim_end body)).
Qed.
End edited.

(** The edited text reads as the original but for the key. *)
Lemma upsert_reads body key value : lf_only body → plain_key key → plain_value value →
  read_key (upsert body key value) key = Some value ∧
  read_key (trim_end (upsert body key value)) key = Some value ∧
  ∀ key2, plain_key key2 → key ≠ key2 →
    read_key (upsert body key value) key2 = read_key body key2 ∨
    match_line (assign key) true body = None ∧
    read_key (upsert body key value) key2 = read_key (trim_end body) key2.
Proof.
  intros Hb Hk Hv. destruct (upsert_edits body key value Hb Hk Hv) as (b & a & He).
  rewrite (ed_text _ _ _ _ _ He). split_and!.
  - apply (edited_reads body key value b a He Hk Hv). by destruct He.
  - assert (trim_end (b ++ key_line key value ++ a) = b ++ key_line key value ++ trim_end a) as ->.
    { unfold key_line. change (b ++ (key ++ [61; 34] ++ value ++ [34]) ++ ?x)
        with (b ++ (key ++ [61; 34] ++ value ++ [34]) ++ x).
      rewrite <- !app_assoc. change ([34] ++ a) with (34 :: a). change ([34] ++ trim_end a) with (34 :: trim_end a).
      rewrite !app_assoc. apply trim_end_quote. }
    apply (edited_reads body key value b a He Hk Hv). apply starts_after_trim. by destruct He.
  - intros key2 Hk2 Hd. by apply (edited_others body key value b a He Hk Hv key2 Hk2 Hd).
Qed.

(** ** Lemmas on the program *)

Lemma capture_starts s v : lf_only s → capture s = Some v → line_stop s = false.
Proof.
  intros Hs E. destruct s as [|c s]; [done|]. cbn. destruct (is_line_end c) eqn:Ec; [|done].
  apply Forall_cons in Hs as [Hc _]. rewrite (Hc Ec) in E.
  pose proof (capture_cut [] s) as Hcut. cbn [app] in Hcut. by rewrite Hcut in E.
Qed.

Lemma read_has p st s v : lf_only s → read_line p st s = Some v → has_line p st s = true.
Proof.
  revert st. induction s as [|c s IH]; intros st Hs; cbn [read_line has_line].
  - destruct (st && starts_with [] p); [|done]. by rewrite drop_nil.
  - destruct (st && starts_with (c :: s) p) eqn:E; cbn [andb].
    + destruct (capture (drop (length p) (c :: s))) as [w|] eqn:Ec.
      * intros _. rewrite (capture_starts _ w); [done|by apply Forall_drop|done].
      * destruct (negb _); [done|]. apply Forall_cons in Hs as [_ Hs]. by apply IH.
    + apply Forall_cons in Hs as [_ Hs]. by apply IH.
Qed.

Lemma upsert_lf body key value : lf_only body → plain_key key → plain_value value → lf_only (upsert body key value).
Proof.
  intros Hb Hk Hv. destruct (upsert_edits body key value Hb Hk Hv) as (b & a & He).
  rewrite (ed_text _ _ _ _ _ He). destruct (plain_line key value Hk Hv) as [Hl _].
  assert (lf_only (key_line key value)) as Hline.
  { eapply Forall_impl; [exact Hl|]. intros c Hc Hc'. unfold in_line in Hc. by rewrite Hc' in Hc. }
  unfold lf_only in *. rewrite !Forall_app.
  destruct (ed_rest _ _ _ _ _ He) as [(m & -> & _)|(_ & -> & ->)].
  - rewrite !Forall_app in Hb. by destruct Hb as (? & _ & ?).
  - destruct (trim_end_prefix body) as [w Ew]. rewrite Ew, Forall_app in Hb. destruct Hb as [Hb _].
    assert (Forall (λ c, is_line_end c = true → c = 10) [10]) as H10 by by repeat constructor.
    by rewrite Forall_app.
Qed.

Lemma program_keys : plain_key ECIES ∧ plain_key SIGNER ∧ ECIES ≠ SIGNER.
Proof. split_and!; [apply (bool_decide_eq_true_1 _); vm_compute; reflexivity..|discriminate]. Qed.

Lemma with_keys_reads ecies signer f : lf_only f → plain_value ecies → plain_value signer →
  let f' := with_keys ecies signer f in
  lf_only f' ∧ read_key f' ECIES = Some ecies ∧ read_key f' SIGNER = Some signer.
Proof.
  intros Hf He Hs. destruct program_keys as (Ke & Ks & Hd). cbn zeta. unfold with_keys.
  pose proof (upsert_lf f ECIES ecies Hf Ke He) as H1.
  destruct (upsert_reads f ECIES ecies Hf Ke He) as (R1 & R2 & _).
  destruct (upsert_reads _ SIGNER signer H1 Ks Hs) as (R3 & _ & R4).
  split; [by apply upsert_lf|]. split; [|done].
  destruct (R4 ECIES Ke ltac:(congruence)) as [->|[_ ->]]; done.
Qed.

(** ** Properties *)

(** editing an env file sets the key and nothing else: the program's own
    expression reads the value that was set, whether the key was there (its first
    line is replaced) or not (a line is appended), also after white space at the
    end of the file is trimmed; and every other key reads as before, up to that
    white space, which the appending trims. *)
Theorem upsert_correct body key value : lf_only body → plain_key key → plain_value value →
  read_key (upsert body key value) key = Some value ∧
  read_key (trim_end (upsert body key value)) key = Some value ∧
  ∀ key2, plain_key key2 → key ≠ key2 →
    read_key (upsert body key value) key2 = read_key body key2 ∨
    match_line (assign key) true body = None ∧
    read_key (upsert body key value) key2 = read_key (trim_end body) key2.
Proof. apply upsert_reads. Qed.

Definition demo_env_file : jsstr := js "A=1" ++ [10] ++ js "KEY=old" ++ [10] ++ js "B=2" ++ [10].

Lemma upsert_correct_witness :
  upsert demo_env_file (js "KEY") (js "new")
    = js "A=1" ++ [10] ++ js "KEY=" ++ [34] ++ js "new" ++ [34; 10] ++ js "B=2" ++ [10] ∧
  read_key (upsert demo_env_file (js "KEY") (js "new")) (js "KEY") = Some (js "new").
Proof.
  split; [vm_compute; reflexivity|].
  apply (upsert_correct demo_env_file (js "KEY") (js "new")).
  - apply (bool_decide_eq_true_1 _). vm_compute. reflexivity.
  - apply (bool_decide_eq_true_1 _). vm_compute. reflexivity.
  - split; [discriminate|]. apply (bool_decide_eq_true_1 _). vm_compute. reflexivity.
Defined.

(** C40: without [--force] the program keeps the keys of the first file (for files
    whose lines end in line feeds).  Whatever
    a run did, when the first file exists, the next run changes no file and reports
    the same, whatever keys it would draw; a run that wrote, as one with [--force]
    always does, left both of its keys in every file that exists and reported them.
    When the first file does not exist, every run draws and writes new keys: it is
    the first file alone that is looked at. *)
Theorem tee_keys_kept `{Viem} public_of force ecies signer ecies2 signer2 env rest :
  (∀ f, Some f ∈ Some env :: rest → lf_only f) → plain_value ecies → plain_value signer →
  let run := gen_tee_keys public_of force ecies signer (Some env :: rest) in
  gen_tee_keys public_of false ecies2 signer2 run.1 = run ∧
  ((force = false ∧ run.1 = Some env :: rest) ∨
   (run.2 = report public_of ecies signer ∧
    ∀ f, Some f ∈ run.1 → read_key f ECIES = Some ecies ∧ read_key f SIGNER = Some signer)) ∧
  ∀ others, gen_tee_keys public_of false ecies2 signer2 (gen_tee_keys public_of false ecies signer (None :: others)).1
    = (None :: (option_map (with_keys ecies2 signer2) <$> (option_map (with_keys ecies signer) <$> others)),
       report public_of ecies2 signer2).
Proof.
  intros Hf He Hs run. split; [|split; [|done]].
  - unfold run, gen_tee_keys at 2 3. cbn [head default from_option id].
    destruct (hasKey env ECIES && hasKey env SIGNER && negb force) eqn:E; cbn [fst].
    + apply andb_prop in E as [E _]. unfold gen_tee_keys. cbn [head default from_option id].
      by rewrite E.
    + destruct (with_keys_reads ecies signer env (Hf env ltac:(by left)) He Hs) as (Hl & Re & Rs).
      cbn [fmap list_fmap option_map]. unfold gen_tee_keys. cbn [head default from_option id].
      pose proof (read_has _ _ _ _ Hl Re) as He1. pose proof (read_has _ _ _ _ Hl Rs) as Hs1.
      unfold hasKey. rewrite He1, Hs1. cbn [andb negb]. by rewrite Re, Rs.
  - unfold run, gen_tee_keys. cbn [head default from_option id].
    destruct (hasKey env ECIES && hasKey env SIGNER && negb force) eqn:E; cbn [fst snd].
    + left. apply andb_prop in E as [_ E]. by destruct force.
    + right. split; [done|]. intros f Hin.
      apply list_elem_of_fmap in Hin as ([f0|] & Ef & Hin); [|done]. injection Ef as ->.
      by destruct (with_keys_reads ecies signer f0 (Hf f0 Hin) He Hs) as (_ & ? & ?).
Qed.

Lemma tee_keys_kept_witness :
  let files := [Some demo_env_file; None; Some []] in
  let run := gen_tee_keys Ret false (js "e1") (js "s1") files in
  gen_tee_keys Ret false (js "e2") (js "s2") run.1 = run.
Proof.
  apply (tee_keys_kept Ret false (js "e1") (js "s1") (js "e2") (js "s2") demo_env_file [None; Some []]).
  - intros f Hf. apply (bool_decide_eq_true_1 _). 
    apply elem_of_cons in Hf as [[= ->]|Hf]; [vm_compute; reflexivity|].
    apply elem_of_cons in Hf as [?|Hf]; [discriminate|].
    apply elem_of_cons in Hf as [[= ->]|Hf]; [reflexivity|]. by apply not_elem_of_nil in Hf.
  - split; [discriminate|]. apply (bool_decide_eq_true_1 _). vm_compute. reflexivity.
  - split; [discriminate|]. apply (bool_decide_eq_true_1 _). vm_compute. reflexivity.
Defined.

(** A key set to the empty string, in quotes, counts as present but does not read:
    the program ends in an exception. *)
Example blank_keys_throw ecies signer :
  let blank := key_line ECIES [] ++ [10] ++ key_line SIGNER [] ++ [10] in
  gen_tee_keys Ret false ecies signer [Some blank]
    = ([Some blank], Throw (TypeError (js "Cannot read properties of null (reading '1')"))).
Proof. reflexivity. Qed.
