(* ===== verification/Scripts.v ===== *)
(** * The envelopes of the scripts ([typescript/scripts/e2e-coston2.ts], [test-settle.ts])

    Three places build the body of an action by hand: the frontend's client
    (EnclaveClient.v) and two scripts, each with its own encoding helpers.

    Theorem: the three build the same bytes. *)

From S2P Require Import Prelude JsString JsNumber Utf8 Json JsonFacts Encoding Wire Framework Abi Instances Protocol StreamHandlers StreamProps Handlers Server EnclaveClient.

(** ** e2e-coston2.ts *)

(** [bytesToHex] and [stringToBytes32Hex] of encoding.ts; the second may throw. *)
Definition e2e_data_fixed (opType opCommand : jsstr) (payload : json) (now : Z) : outcome json :=
  let original := utf8_encode (JSON_stringify payload) in
  t ← stringToBytes32Hex opType;
  c ← stringToBytes32Hex opCommand;
  Ret (JObj [
    (js "instructionId", JStr (js "0x" ++ str_repeat (js "11") 32));
    (js "teeId", JStr (js "0x" ++ str_repeat (js "22") 20));
    (js "timestamp", JNum (num_of_Z (now / 1000)));
    (js "rewardEpochId", JNum (num_of_Z 0));
    (js "opType", JStr t);
    (js "opCommand", JStr c);
    (js "cosigners", JArr []);
    (js "cosignersThreshold", JNum (num_of_Z 0));
    (js "originalMessage", JStr (bytesToHex original));
    (js "additionalFixedMessage", JStr (js "0x"))]).

Definition e2e_buildActionBody (opType opCommand : jsstr) (payload : json) (now : Z) : outcome jsstr :=
  dataFixed ← e2e_data_fixed opType opCommand payload now;
  Ret (JSON_stringify (JObj [
    (js "data", JObj [
      (js "id", JStr (js "0x" ++ str_repeat (js "11") 32));
      (js "type", JStr (js "instruction"));
      (js "submissionTag", JStr (js "submit"));
      (js "message", JStr (bytesToHex (utf8_encode (JSON_stringify dataFixed))))]);
    (js "additionalVariableMessages", JArr []);
    (js "timestamps", JArr []);
    (js "additionalActionData", JStr (js "0x"));
    (js "signatures", JArr [])])).

(** ** test-settle.ts *)

(** [Buffer.from(b).toString("hex")]. *)
Definition buffer_hex (b : bytes) : jsstr := mjoin (byte_hex <$> b).

(** [b.set(new TextEncoder().encode(s).slice(0, 32))] of a zeroed array of 32. *)
Definition settle_stringToBytes32Hex (s : jsstr) : jsstr :=
  let src := take 32 (utf8_encode s) in
  js "0x" ++ buffer_hex (src ++ replicate (32 - length src) 0).

Definition settle_actionBody (opCommand : jsstr) (payload : json) (now : Z) : jsstr :=
  let original := utf8_encode (JSON_stringify payload) in
  let id := js "0x" ++ str_repeat (js "11") 32 in
  let df := JObj [
    (js "instructionId", JStr id);
    (js "teeId", JStr (js "0x" ++ str_repeat (js "22") 20));
    (js "timestamp", JNum (num_of_Z (now / 1000)));
    (js "rewardEpochId", JNum (num_of_Z 0));
    (js "opType", JStr (settle_stringToBytes32Hex (js "STREAM")));
    (js "opCommand", JStr (settle_stringToBytes32Hex opCommand));
    (js "cosigners", JArr []);
    (js "cosignersThreshold", JNum (num_of_Z 0));
    (js "originalMessage", JStr (js "0x" ++ buffer_hex original));
    (js "additionalFixedMessage", JStr (js "0x"))] in
  JSON_stringify (JObj [
    (js "data", JObj [
      (js "id", JStr id);
      (js "type", JStr (js "instruction"));
      (js "submissionTag", JStr (js "submit"));
      (js "message", JStr (js "0x" ++ buffer_hex (utf8_encode (JSON_stringify df))))]);
    (js "additionalVariableMessages", JArr []);
    (js "timestamps", JArr []);
    (js "additionalActionData", JStr (js "0x"));
    (js "signatures", JArr [])]).

(** ** Lemmas *)

Lemma buffer_hex_bytes b : js "0x" ++ buffer_hex b = bytesToHex b.
Proof. by rewrite bytesToHex_digits. Qed.

Lemma settle_bytes32 s : is_units s → settle_stringToBytes32Hex s = toBytes32Hex s.
Proof. intros Hs. rewrite toBytes32Hex_bytes by done. apply buffer_hex_bytes. Qed.

Lemma bytes32_too_long s : (length (utf8_encode s) > 32)%nat → throws (stringToBytes32Hex s).
Proof. intros Hs. unfold stringToBytes32Hex. rewrite (proj2 (Z.ltb_lt _ _)) by lia. by eexists. Qed.

Lemma toHex_text v : json_ok v = true →
  toHex (utf8_encode (JSON_stringify v)) = bytesToHex (utf8_encode (JSON_stringify v)).
Proof. intros Hv. by destruct (toHex_json v Hv) as [-> _]. Qed.

Lemma settle_envelope c payload now : is_units c → json_ok payload = true → date_ok now →
  settle_actionBody c payload now = buildActionBody (js "STREAM") c payload now.
Proof.
  intros Hc Hp Hn. unfold settle_actionBody, buildActionBody. rewrite toHex_text by (apply dataFixed_ok; auto with sw).
  unfold dataFixed. rewrite toHex_text by done. rewrite !settle_bytes32, !buffer_hex_bytes by auto with sw. reflexivity.
Qed.

Lemma e2e_envelope t c payload now : is_units t → is_units c → json_ok payload = true → date_ok now →
  (length (utf8_encode t) ≤ 32)%nat → (length (utf8_encode c) ≤ 32)%nat →
  e2e_buildActionBody t c payload now = Ret (buildActionBody t c payload now).
Proof.
  intros Ht Hc Hp Hn Htl Hcl. unfold e2e_buildActionBody, e2e_data_fixed, buildActionBody.
  rewrite !toBytes32Hex_scaffold by done. cbn [mbind outcome_bind].
  rewrite toHex_text by (by apply dataFixed_ok). unfold dataFixed. rewrite toHex_text by done. reflexivity.
Qed.

(** ** Properties *)

(** C39: the three implementations of the envelope agree byte for byte.  For
    operation names that fit in 32 bytes, any well-formed payload and any clock, the
    body that the end-to-end script builds with the scaffold's helpers is the body
    of the frontend's client, and the settlement test's is the client's for STREAM
    and every command, fitting or not.  On a name that does not fit they part: the
    script throws where the two others cut the name. *)
Theorem envelopes_agree t c payload now :
  is_units t → is_units c → json_ok payload = true → date_ok now →
  settle_actionBody c payload now = buildActionBody (js "STREAM") c payload now ∧
  ((length (utf8_encode t) ≤ 32)%nat → (length (utf8_encode c) ≤ 32)%nat →
     e2e_buildActionBody t c payload now = Ret (buildActionBody t c payload now)) ∧
  ((length (utf8_encode c) > 32)%nat → throws (e2e_buildActionBody t c payload now)).
Proof.
  intros Ht Hc Hp Hn. split; [by apply settle_envelope|]. split; [by apply e2e_envelope|].
  intros Hcl. unfold e2e_buildActionBody, e2e_data_fixed.
  destruct (stringToBytes32Hex t) as [t'|e]; cbn [mbind outcome_bind]; [|by eexists].
  pose proof (bytes32_too_long c Hcl) as [e ->]. by eexists.
Qed.

Lemma envelopes_agree_witness :
  let payload := JObj [(js "streamId", JStr (js "7"))] in
  e2e_buildActionBody (js "STREAM") (js "AUTH_SETTLE") payload 1700000000000
    = Ret (settle_actionBody (js "AUTH_SETTLE") payload 1700000000000).
Proof.
  intros payload. assert (json_ok payload = true) as Hp by (vm_compute; reflexivity).
  assert (date_ok 1700000000000) as Hd by (unfold date_ok; lia).
  destruct (envelopes_agree (js "STREAM") (js "AUTH_SETTLE") payload 1700000000000
    (js_is_units _) (js_is_units _) Hp Hd) as (-> & He & _).
  apply He; vm_compute; lia.
Defined.
