(* ===== verification/Vault.v ===== *)
(** * The vault ([contracts/StreamVault.sol])

    The contract the enclave's signatures are for: its storage, its external
    functions as transactions on the storage, the token balances and the event
    log.  A transaction that reverts is [Throw] and changes nothing.  Tokens
    are behind the interface [Erc20]; [ecrecover] and keccak are the chain's.

    Unsigned integers are [Z] in their range: additions are checked, the two
    explicit casts to uint128 are written as remainders. *)

From S2P Require Import Prelude JsString JsNumber Utf8 Json JsonFacts Encoding Wire Abi Instances.

(** ** Storage *)

Record Stream := {
  s_employer : Z;
  s_recipient : Z;
  s_token : Z;
  s_commitment : Z;
  s_funded : Z;
  s_withdrawn : Z;
  s_startTime : Z;
  s_cancelled : bool;
}.

(** A storage slot that was never written. *)
Definition zero_stream : Stream :=
  {| s_employer := 0; s_recipient := 0; s_token := 0; s_commitment := 0; s_funded := 0;
     s_withdrawn := 0; s_startTime := 0; s_cancelled := false |}.

Record Storage := {
  owner : Z;
  teeSigner : Z;
  nextStreamId : Z;
  streams : gmap Z Stream;
  entered : Z;
}.

Definition stream_at (v : Storage) (id : Z) : Stream := default zero_stream (streams v !! id).

Definition set_stream (v : Storage) (id : Z) (s : Stream) : Storage :=
  {| owner := owner v; teeSigner := teeSigner v; nextStreamId := nextStreamId v;
     streams := <[id := s]> (streams v); entered := entered v |}.

Inductive Event : Type :=
| StreamCreated (id employer recipient token commitment startTime : Z) (encryptedTerms : bytes)
| StreamFunded (id amount : Z)
| Withdrawn (id recipient amount : Z)
| StreamCancelled (id refunded : Z)
| TermsRevealed (id : Z) (terms : bytes)
| TeeSignerUpdated (signer : Z).

(** ** Tokens *)

(** Balances by token and holder. *)
Definition Balances : Type := Z → Z → Z.

(** [transfer] and [transferFrom] of a token: [None] when the call reverts or
    returns false. *)
Class Erc20 := {
  token_transfer : Z → Z → Z → Z → Balances → option Balances;
}.

(** What a standard token does to the balances. *)
Definition move (token from to amount : Z) (b : Balances) : Balances :=
  λ t h,
    if decide (t = token) then
      b t h - (if decide (h = from) then amount else 0) + (if decide (h = to) then amount else 0)
    else b t h.

Class Erc20Laws `{Erc20} := {
  transfer_moves t from to n b b' :
    token_transfer t from to n b = Some b' → b' = move t from to n b ∧ n ≤ b t from;
}.

(** ** Transactions *)

(** The deployment: [address(this)] and [block.chainid]. *)
Record Net := { this : Z; chainid : Z }.

Record Msg := { sender : Z; timestamp : Z }.

Record World := {
  vault : Storage;
  balances : Balances;
  events : list Event;
}.

Definition WITHDRAW_TAG_word `{Evm} : Z := be_value (keccak (utf8_encode (js "SW_WITHDRAW_V1"))).
Definition SETTLE_TAG_word `{Evm} : Z := be_value (keccak (utf8_encode (js "SW_SETTLE_V1"))).

(** [_recoverEthSigned]; [ecrecover] is called with [v], [r] and [s] of the
    65 bytes, a [v] below 27 shifted by 27. *)
Definition recoverEthSigned `{Evm} (digest : bytes) (sig : bytes) : outcome Z :=
  require! (length sig =? 65)%nat else js "bad sig length" in
  let v0 := be_value (drop 64 sig) in
  let v := if v0 <? 27 then v0 + 27 else v0 in
  let signer := ecrecover (eth_signed digest) v (take 32 sig) (take 32 (drop 32 sig)) in
  require! negb (signer =? 0) else js "invalid signature" in
  Ret signer.

Section vault.
Context `{Evm, Erc20} (net : Net).

Definition authorization_digest (tag id commitment accrued deadline : Z) : bytes :=
  keccak (abi_encode [tag; chainid net; this net; id; commitment; accrued; deadline]).

Definition setTeeSigner (m : Msg) (signer : Z) (w : World) : outcome World :=
  let v := vault w in
  require! sender m =? owner v else js "not owner" in
  require! negb (signer =? 0) else js "zero signer" in
  Ret {| vault := {| owner := owner v; teeSigner := signer; nextStreamId := nextStreamId v;
                     streams := streams v; entered := entered v |};
         balances := balances w; events := events w ++ [TeeSignerUpdated signer] |}.

Definition checked (w n : Z) : outcome Z :=
  if n <? 2 ^ w then Ret n else Throw (Error (js "Panic") (js "0x11")).

Definition createStream (m : Msg) (recipient token commitment startTime : Z)
    (encryptedTerms : bytes) (w : World) : outcome World :=
  let v := vault w in
  require! negb (recipient =? 0) else js "zero recipient" in
  require! negb (token =? 0) else js "zero token" in
  require! negb (commitment =? 0) else js "zero commitment" in
  let id := nextStreamId v in
  next ← checked 256 (id + 1);
  Ret {| vault := {| owner := owner v; teeSigner := teeSigner v; nextStreamId := next;
                     streams := <[id := {| s_employer := sender m; s_recipient := recipient;
                       s_token := token; s_commitment := commitment; s_funded := 0;
                       s_withdrawn := 0; s_startTime := startTime; s_cancelled := false |}]> (streams v);
                     entered := entered v |};
         balances := balances w;
         events := events w ++ [StreamCreated id (sender m) recipient token commitment startTime encryptedTerms] |}.

(** The modifier: the body runs with the flag raised, on success it is lowered. *)
Definition set_entered (n : Z) (v : Storage) : Storage :=
  {| owner := owner v; teeSigner := teeSigner v; nextStreamId := nextStreamId v;
     streams := streams v; entered := n |}.

Definition nonReentrant (body : World → outcome World) (w : World) : outcome World :=
  require! entered (vault w) =? 1 else js "reentrancy" in
  w' ← body {| vault := set_entered 2 (vault w); balances := balances w; events := events w |};
  Ret {| vault := set_entered 1 (vault w'); balances := balances w'; events := events w' |}.

(** An external call of a token, and a [require] on its result. *)
Definition pay (token from to amount : Z) (failure : jsstr) (w : World) : outcome World :=
  match token_transfer token from to amount (balances w) with
  | Some b => Ret {| vault := vault w; balances := b; events := events w |}
  | None => revert failure
  end.

Definition emit (e : Event) (w : World) : World :=
  {| vault := vault w; balances := balances w; events := events w ++ [e] |}.

Definition put_stream (id : Z) (s : Stream) (w : World) : World :=
  {| vault := set_stream (vault w) id s; balances := balances w; events := events w |}.

Definition fund_body (m : Msg) (id amount : Z) (w : World) : outcome World :=
  let s := stream_at (vault w) id in
  require! negb (s_employer s =? 0) else js "no stream" in
  require! negb (s_cancelled s) else js "cancelled" in
  require! 0 <? amount else js "zero amount" in
  funded ← checked 128 (s_funded s + amount);
  let s' := {| s_employer := s_employer s; s_recipient := s_recipient s; s_token := s_token s;
               s_commitment := s_commitment s; s_funded := funded; s_withdrawn := s_withdrawn s;
               s_startTime := s_startTime s; s_cancelled := s_cancelled s |} in
  w' ← pay (s_token s) (sender m) (this net) amount (js "transferFrom failed") (put_stream id s' w);
  Ret (emit (StreamFunded id amount) w').

Definition fund (m : Msg) (id amount : Z) : World → outcome World :=
  nonReentrant (fund_body m id amount).

Definition set_withdrawn (s : Stream) (n : Z) (cancelled : bool) : Stream :=
  {| s_employer := s_employer s; s_recipient := s_recipient s; s_token := s_token s;
     s_commitment := s_commitment s; s_funded := s_funded s; s_withdrawn := n;
     s_startTime := s_startTime s; s_cancelled := cancelled |}.

Definition withdraw_body (m : Msg) (id accrued deadline : Z) (sig : bytes) (w : World) : outcome World :=
  let s := stream_at (vault w) id in
  require! negb (s_employer s =? 0) else js "no stream" in
  require! negb (s_cancelled s) else js "cancelled" in
  require! timestamp m <=? deadline else js "authorization expired" in
  signer ← recoverEthSigned
    (authorization_digest WITHDRAW_TAG_word id (s_commitment s) accrued deadline) sig;
  require! signer =? teeSigner (vault w) else js "bad TEE signature" in
  let cap := if accrued <? s_funded s then accrued else s_funded s in
  require! s_withdrawn s <? cap else js "nothing accrued" in
  let payout := cap - s_withdrawn s in
  w' ← pay (s_token s) (this net) (s_recipient s) payout (js "transfer failed")
         (put_stream id (set_withdrawn s (cap mod 2 ^ 128) false) w);
  Ret (emit (Withdrawn id (s_recipient s) payout) w').

Definition withdraw (m : Msg) (id accrued deadline : Z) (sig : bytes) : World → outcome World :=
  nonReentrant (withdraw_body m id accrued deadline sig).

(** [if (amount > 0) require(transfer(to, amount), failure)]. *)
Definition pay_positive (token from to amount : Z) (failure : jsstr) (w : World) : outcome World :=
  if 0 <? amount then pay token from to amount failure w else Ret w.

Definition cancel_body (m : Msg) (id finalAccrued deadline : Z) (sig : bytes) (w : World) : outcome World :=
  let s := stream_at (vault w) id in
  require! sender m =? s_employer s else js "not employer" in
  require! negb (s_cancelled s) else js "cancelled" in
  require! timestamp m <=? deadline else js "authorization expired" in
  signer ← recoverEthSigned
    (authorization_digest SETTLE_TAG_word id (s_commitment s) finalAccrued deadline) sig;
  require! signer =? teeSigner (vault w) else js "bad TEE signature" in
  let owed := if finalAccrued <? s_funded s then finalAccrued else s_funded s in
  let toRecipient := if s_withdrawn s <? owed then owed - s_withdrawn s else 0 in
  let refund := s_funded s - s_withdrawn s - toRecipient in
  let paid := if s_withdrawn s <? owed then owed else s_withdrawn s in
  w1 ← pay_positive (s_token s) (this net) (s_recipient s) toRecipient (js "transfer failed")
         (put_stream id (set_withdrawn s (paid mod 2 ^ 128) true) w);
  w2 ← pay_positive (s_token s) (this net) (s_employer s) refund (js "refund failed") w1;
  Ret (emit (StreamCancelled id refund) w2).

Definition cancelStream (m : Msg) (id finalAccrued deadline : Z) (sig : bytes) : World → outcome World :=
  nonReentrant (cancel_body m id finalAccrued deadline sig).

Definition revealTerms (id : Z) (terms : bytes) (w : World) : outcome World :=
  let s := stream_at (vault w) id in
  require! negb (s_employer s =? 0) else js "no stream" in
  require! be_value (keccak terms) =? s_commitment s else js "terms do not match commitment" in
  Ret (emit (TermsRevealed id terms) w).

Inductive Call : Type :=
| CSetTeeSigner (signer : Z)
| CCreateStream (recipient token commitment startTime : Z) (encryptedTerms : bytes)
| CFund (id amount : Z)
| CWithdraw (id accrued deadline : Z) (sig : bytes)
| CCancelStream (id finalAccrued deadline : Z) (sig : bytes)
| CRevealTerms (id : Z) (terms : bytes).

Definition exec (m : Msg) (c : Call) : World → outcome World :=
  match c with
  | CSetTeeSigner a => setTeeSigner m a
  | CCreateStream r t k st et => createStream m r t k st et
  | CFund id n => fund m id n
  | CWithdraw id n d sg => withdraw m id n d sg
  | CCancelStream id n d sg => cancelStream m id n d sg
  | CRevealTerms id ts => revealTerms id ts
  end.

(** Senders are accounts, not the vault; arguments fit their ABI types. *)
Definition msg_ok (m : Msg) : Prop := sender m ≠ 0 ∧ sender m ≠ this net.
Definition call_ok (c : Call) : Prop :=
  match c with
  | CFund _ n => uint_range 128 n
  | CWithdraw _ n _ _ | CCancelStream _ n _ _ => uint_range 256 n
  | _ => True
  end.

(** The state after the constructor. *)
Definition deployed (own signer : Z) (b : Balances) : World :=
  {| vault := {| owner := own; teeSigner := signer; nextStreamId := 1; streams := ∅; entered := 1 |};
     balances := b; events := [] |}.
End vault.

(** ** Inversion of transactions *)

Lemma require_Ret {A} (b : bool) m (k : outcome A) a :
  (require! b else m in k) = Ret a ↔ b = true ∧ k = Ret a.
Proof. destruct b; cbn; naive_solver. Qed.

Lemma checked_Ret w n a : checked w n = Ret a ↔ n < 2 ^ w ∧ a = n.
Proof. unfold checked. destruct (Z.ltb_spec n (2 ^ w)); split; naive_solver lia. Qed.

Ltac inv_require :=
  repeat match goal with
  | H : (if _ then _ else revert _) = Ret _ |- _ => apply require_Ret in H as [? H]
  | H : negb _ = true |- _ => apply negb_true_iff in H
  | _ => progress (inv_bind; reflect_Z)
  end.

Section facts.
Context `{Evm, Erc20} (net : Net).

Lemma nonReentrant_Ret body w w' : nonReentrant body w = Ret w' ↔
  entered (vault w) = 1 ∧
  ∃ w1, body {| vault := set_entered 2 (vault w); balances := balances w; events := events w |} = Ret w1 ∧
    w' = {| vault := set_entered 1 (vault w1); balances := balances w1; events := events w1 |}.
Proof.
  unfold nonReentrant. rewrite require_Ret, Z.eqb_eq, bind_Ret_iff.
  split; [intros (? & w1 & ? & [= <-]); eauto|]. intros (? & w1 & -> & ->). eauto.
Qed.

(** The storage after a transaction that only wrote the stream [id]. *)
Lemma set_entered_stream v id s : entered v = 1 →
  set_entered 1 (set_stream (set_entered 2 v) id s) = set_stream v id s.
Proof. destruct v. cbn. by intros ->. Qed.

Lemma stream_at_entered v id n : stream_at (set_entered n v) id = stream_at v id.
Proof. done. Qed.

(** The signature check that both payouts make. *)
Definition signed_by_tee (v : Storage) (tag id commitment accrued deadline : Z) (sig : bytes) : Prop :=
  recoverEthSigned (authorization_digest net tag id commitment accrued deadline) sig
    = Ret (teeSigner v).

Lemma withdraw_Ret m id acc dl sig w w' : uint_range 256 acc →
  s_funded (stream_at (vault w) id) < 2 ^ 128 → 0 ≤ s_funded (stream_at (vault w) id) →
  withdraw net m id acc dl sig w = Ret w' ↔
  let s := stream_at (vault w) id in
  let cap := Z.min acc (s_funded s) in
  entered (vault w) = 1 ∧ s_employer s ≠ 0 ∧ s_cancelled s = false ∧ timestamp m ≤ dl ∧
  signed_by_tee (vault w) WITHDRAW_TAG_word id (s_commitment s) acc dl sig ∧
  s_withdrawn s < cap ∧
  ∃ b, token_transfer (s_token s) (this net) (s_recipient s) (cap - s_withdrawn s) (balances w) = Some b ∧
    w' = {| vault := set_stream (vault w) id (set_withdrawn s cap false); balances := b;
            events := events w ++ [Withdrawn id (s_recipient s) (cap - s_withdrawn s)] |}.
Proof.
  intros Hacc Hf1 Hf0. cbn zeta. unfold withdraw. rewrite nonReentrant_Ret. unfold withdraw_body.
  cbn [vault balances events]. rewrite stream_at_entered.
  set (s := stream_at (vault w) id) in *. set (cap := Z.min acc (s_funded s)).
  assert ((if acc <? s_funded s then acc else s_funded s) = cap) as ->
    by (unfold cap; destruct (Z.ltb_spec acc (s_funded s)); lia).
  rewrite (Z.mod_small cap) by (unfold cap, s in *; lia). unfold signed_by_tee, pay.
  split.
  - intros (He & w1 & Hb & ->). inv_require.
    destruct (token_transfer _ _ _ _ _) as [b|] eqn:Et; [|done]. inv_bind.
    repeat (split; [first [done | congruence]|]). exists b. split; [done|].
    cbn [vault put_stream emit balances events]. by rewrite set_entered_stream.
  - intros (He & H1 & H2 & H3 & H4 & H5 & b & Hb & ->). split; [done|].
    rewrite (proj2 (Z.eqb_neq _ _)), H2, (proj2 (Z.leb_le _ _)), H4 by done.
    cbn [negb mbind outcome_bind]. rewrite Z.eqb_refl, (proj2 (Z.ltb_lt _ _)) by done.
    cbn [balances put_stream]. rewrite Hb. eexists. split; [reflexivity|].
    cbn [vault put_stream emit balances events]. by rewrite set_entered_stream.
Qed.

(** A transfer that is skipped when there is nothing to transfer. *)
Definition transfer_positive (t from to n : Z) (b : Balances) : option Balances :=
  if 0 <? n then token_transfer t from to n b else Some b.

Lemma pay_Ret t from to n f w w' : pay t from to n f w = Ret w' ↔
  ∃ b, token_transfer t from to n (balances w) = Some b ∧
    w' = {| vault := vault w; balances := b; events := events w |}.
Proof. unfold pay. destruct (token_transfer _ _ _ _ _); naive_solver. Qed.

Lemma pay_positive_Ret t from to n f w w' : pay_positive t from to n f w = Ret w' ↔
  ∃ b, transfer_positive t from to n (balances w) = Some b ∧
    w' = {| vault := vault w; balances := b; events := events w |}.
Proof.
  unfold pay_positive, transfer_positive. destruct (0 <? n); [apply pay_Ret|].
  destruct w; cbn. naive_solver.
Qed.

Lemma cancelStream_Ret m id acc dl sig w w' : uint_range 256 acc →
  s_funded (stream_at (vault w) id) < 2 ^ 128 → 0 ≤ s_withdrawn (stream_at (vault w) id) ≤ s_funded (stream_at (vault w) id) →
  cancelStream net m id acc dl sig w = Ret w' ↔
  let s := stream_at (vault w) id in
  let paid := Z.max (s_withdrawn s) (Z.min acc (s_funded s)) in
  entered (vault w) = 1 ∧ sender m = s_employer s ∧ s_cancelled s = false ∧ timestamp m ≤ dl ∧
  signed_by_tee (vault w) SETTLE_TAG_word id (s_commitment s) acc dl sig ∧
  ∃ b1 b2, transfer_positive (s_token s) (this net) (s_recipient s) (paid - s_withdrawn s) (balances w) = Some b1 ∧
    transfer_positive (s_token s) (this net) (s_employer s) (s_funded s - paid) b1 = Some b2 ∧
    w' = {| vault := set_stream (vault w) id (set_withdrawn s paid true); balances := b2;
            events := events w ++ [StreamCancelled id (s_funded s - paid)] |}.
Proof.
  intros Hacc Hf1 Hw. cbn zeta. unfold cancelStream. rewrite nonReentrant_Ret. unfold cancel_body.
  cbn [vault balances events]. rewrite stream_at_entered.
  set (s := stream_at (vault w) id) in *.
  set (paid := Z.max (s_withdrawn s) (Z.min acc (s_funded s))).
  set (owed := if acc <? s_funded s then acc else s_funded s).
  assert (owed = Z.min acc (s_funded s)) as Ho
    by (unfold owed; destruct (Z.ltb_spec acc (s_funded s)); lia).
  assert ((if s_withdrawn s <? owed then owed - s_withdrawn s else 0) = paid - s_withdrawn s) as ->
    by (unfold paid; rewrite <- Ho; destruct (Z.ltb_spec (s_withdrawn s) owed); lia).
  assert ((if s_withdrawn s <? owed then owed else s_withdrawn s) = paid) as ->
    by (unfold paid; rewrite <- Ho; destruct (Z.ltb_spec (s_withdrawn s) owed); lia).
  rewrite (Z.mod_small paid) by (unfold paid; lia).
  replace (s_funded s - s_withdrawn s - (paid - s_withdrawn s)) with (s_funded s - paid) by lia.
  unfold signed_by_tee. split.
  - intros (He & w1 & Hb & ->). inv_require.
    repeat match goal with
    | H : pay_positive _ _ _ _ _ _ = Ret _ |- _ => apply pay_positive_Ret in H as (? & ? & ->)
    end. cbn [balances put_stream] in *.
    change (teeSigner (set_entered 2 (vault w))) with (teeSigner (vault w)) in *.
    repeat (split; [first [done | congruence]|]). do 2 eexists. split; [eassumption|].
    split; [eassumption|].
    cbn [vault put_stream emit balances events]. by rewrite set_entered_stream.
  - intros (He & H1 & H2 & H3 & H4 & b1 & b2 & Hb1 & Hb2 & ->). split; [done|].
    rewrite H1, Z.eqb_refl, H2, (proj2 (Z.leb_le _ _)), H4 by done.
    cbn [negb mbind outcome_bind]. rewrite Z.eqb_refl.
    unfold pay_positive, pay. unfold transfer_positive in Hb1, Hb2. cbn [balances put_stream] in *.
    destruct (0 <? paid - s_withdrawn s).
    + rewrite Hb1. cbn [mbind outcome_bind balances]. destruct (0 <? s_funded s - paid).
      * rewrite Hb2. eexists. split; [reflexivity|].
        cbn [vault put_stream emit balances events]. by rewrite set_entered_stream.
      * injection Hb2 as <-. eexists. split; [reflexivity|].
        cbn [vault put_stream emit balances events]. by rewrite set_entered_stream.
    + injection Hb1 as <-. cbn [mbind outcome_bind balances put_stream].
      destruct (0 <? s_funded s - paid).
      * rewrite Hb2. eexists. split; [reflexivity|].
        cbn [vault put_stream emit balances events]. by rewrite set_entered_stream.
      * injection Hb2 as <-. eexists. split; [reflexivity|].
        cbn [vault put_stream emit balances events]. by rewrite set_entered_stream.
Qed.

Definition add_funds (s : Stream) (n : Z) : Stream :=
  {| s_employer := s_employer s; s_recipient := s_recipient s; s_token := s_token s;
     s_commitment := s_commitment s; s_funded := s_funded s + n; s_withdrawn := s_withdrawn s;
     s_startTime := s_startTime s; s_cancelled := s_cancelled s |}.

Lemma fund_Ret m id n w w' : fund net m id n w = Ret w' ↔
  let s := stream_at (vault w) id in
  entered (vault w) = 1 ∧ s_employer s ≠ 0 ∧ s_cancelled s = false ∧ 0 < n ∧
  s_funded s + n < 2 ^ 128 ∧
  ∃ b, token_transfer (s_token s) (sender m) (this net) n (balances w) = Some b ∧
    w' = {| vault := set_stream (vault w) id (add_funds s n); balances := b;
            events := events w ++ [StreamFunded id n] |}.
Proof.
  cbn zeta. unfold fund. rewrite nonReentrant_Ret. unfold fund_body.
  cbn [vault balances events]. rewrite stream_at_entered.
  set (s := stream_at (vault w) id) in *. split.
  - intros (He & w1 & Hb & ->). inv_require.
    match goal with H : checked _ _ = Ret _ |- _ => apply checked_Ret in H as [? ->] end.
    match goal with H : pay _ _ _ _ _ _ = Ret _ |- _ => apply pay_Ret in H as (? & ? & ->) end.
    cbn [balances put_stream] in *. change (teeSigner (set_entered 2 (vault w))) with (teeSigner (vault w)) in *.
    repeat (split; [first [done | congruence]|]). eexists. split; [done|].
    cbn [vault put_stream emit balances events]. by rewrite set_entered_stream.
  - intros (He & H1 & H2 & H3 & H4 & b & Hb & ->). split; [done|].
    rewrite (proj2 (Z.eqb_neq _ _)), H2, (proj2 (Z.ltb_lt _ _)) by done.
    unfold checked. rewrite (proj2 (Z.ltb_lt _ _)) by done.
    cbn [negb mbind outcome_bind]. unfold pay. cbn [balances put_stream]. rewrite Hb.
    eexists. split; [reflexivity|].
    cbn [vault put_stream emit balances events]. rewrite set_entered_stream by done.
    unfold add_funds. by rewrite H2.
Qed.
End facts.
