(* ===== verification/VaultFacts.v ===== *)
(** * Accounting of the vault

    The invariant of the storage, solvency, and what the payouts amount to over
    any history: theorems about the transactions of Vault.v. *)

From S2P Require Import Prelude JsString JsNumber Utf8 Json JsonFacts Encoding Wire Abi Instances Vault.

(** ** The invariant *)

Definition stream_ok (s : Stream) : Prop :=
  0 ≤ s_withdrawn s ≤ s_funded s ∧ s_funded s < 2 ^ 128.

Definition vault_ok (net : Net) (v : Storage) : Prop :=
  entered v = 1 ∧ 1 ≤ nextStreamId v ∧
  ∀ id s, streams v !! id = Some s →
    1 ≤ id < nextStreamId v ∧ stream_ok s ∧ s_employer s ≠ 0 ∧ s_employer s ≠ this net.

(** What the vault still owes for a stream, in the token [t]. *)
Definition pending (t : Z) (s : Stream) : Z :=
  if s_cancelled s then 0 else if decide (s_token s = t) then s_funded s - s_withdrawn s else 0.

Definition liabilities (t : Z) (v : Storage) : Z :=
  map_fold (λ _ s acc, pending t s + acc) 0 (streams v).

(** The vault holds at least what it owes, in every token. *)
Definition solvent (net : Net) (w : World) : Prop :=
  ∀ t, liabilities t (vault w) ≤ balances w t (this net).

Lemma zero_stream_ok : stream_ok zero_stream.
Proof. unfold stream_ok. cbn. lia. Qed.

Lemma stream_at_ok net v id : vault_ok net v → stream_ok (stream_at v id).
Proof.
  intros (_ & _ & Hs). unfold stream_at. destruct (streams v !! id) as [s|] eqn:E; cbn.
  - by apply Hs in E as (_ & ? & _).
  - apply zero_stream_ok.
Qed.

Lemma stream_at_Some v id : s_employer (stream_at v id) ≠ 0 → streams v !! id = Some (stream_at v id).
Proof. unfold stream_at. by destruct (streams v !! id). Qed.

Lemma liabilities_insert t v id s :
  liabilities t (set_stream v id s) = liabilities t v - pending t (stream_at v id) + pending t s.
Proof.
  unfold liabilities, set_stream, stream_at. cbn [streams].
  assert (∀ m : gmap Z Stream, m !! id = None →
    map_fold (λ _ s acc, pending t s + acc) 0 (<[id:=s]> m)
    = pending t s + map_fold (λ _ s acc, pending t s + acc) 0 m) as Hfresh.
  { intros m Hm. rewrite map_fold_insert_L; [done|intros; lia|done]. }
  destruct (streams v !! id) as [s'|] eqn:E; cbn [default].
  - rewrite <- insert_delete_eq, Hfresh by apply lookup_delete_eq.
    rewrite (map_fold_delete_L _ 0 id s' (streams v)); [cbn; lia|intros; lia|done].
  - rewrite Hfresh by done.
    assert (pending t zero_stream = 0) as -> by (unfold pending; cbn; by destruct (decide _)).
    lia.
Qed.

Lemma pending_nonneg t s : stream_ok s → 0 ≤ pending t s.
Proof. unfold stream_ok, pending. intros. repeat case_match; lia. Qed.

Section facts.
Context `{EvmLaws, Erc20Laws} (net : Net).

(** One transaction keeps the storage well-formed and the vault solvent. *)
Lemma put_stream_ok v id s : vault_ok net v → streams v !! id ≠ None → stream_ok s →
  s_employer s = s_employer (stream_at v id) → vault_ok net (set_stream v id s).
Proof.
  intros (He & Hn & Hs) Hid Hok Hemp. split; [done|]. split; [done|]. cbn.
  destruct (streams v !! id) as [s0|] eqn:E0; [|done].
  unfold stream_at in Hemp. rewrite E0 in Hemp. cbn in Hemp.
  intros id' s' [[<- <-]|[_ E]]%lookup_insert_Some; [|by apply Hs].
  destruct (Hs _ _ E0) as (? & _ & ?). rewrite Hemp. tauto.
Qed.


(** A payment out of the vault lowers its balance by at most the amount, and
    only in that token. *)
Lemma pay_out_balance t k to n b b' : 0 ≤ n → token_transfer k (this net) to n b = Some b' →
  b t (this net) - (if decide (k = t) then n else 0) ≤ b' t (this net).
Proof.
  intros Hn (-> & _)%transfer_moves. unfold move.
  destruct (decide (t = k)) as [->|Hne].
  - rewrite !decide_True by done. destruct (decide _); lia.
  - rewrite decide_False by done. lia.
Qed.

Lemma pay_positive_balance t k to n b b' : 0 ≤ n →
  transfer_positive k (this net) to n b = Some b' →
  b t (this net) - (if decide (k = t) then n else 0) ≤ b' t (this net).
Proof.
  unfold transfer_positive. intros Hn. destruct (0 <? n); [by apply pay_out_balance|].
  intros [= <-]. case_decide; lia.
Qed.

Lemma pay_in_balance t k from n b b' : 0 ≤ n → from ≠ this net →
  token_transfer k from (this net) n b = Some b' →
  b' t (this net) = b t (this net) + (if decide (k = t) then n else 0).
Proof.
  intros Hn Hf (-> & _)%transfer_moves. unfold move.
  destruct (decide (t = k)) as [->|Hne].
  - rewrite (decide_False (P:=this net = from)), !decide_True by done. lia.
  - rewrite decide_False by done. lia.
Qed.

Definition world_ok (w : World) : Prop := vault_ok net (vault w) ∧ solvent net w.

Lemma withdraw_ok m id acc dl sig w w' : world_ok w → uint_range 256 acc →
  withdraw net m id acc dl sig w = Ret w' → world_ok w'.
Proof.
  intros [Hv Hs] Hacc E. pose proof (stream_at_ok net (vault w) id Hv) as Hst.
  destruct Hst as [Hw Hf]. apply withdraw_Ret in E; [|done|done|lia]. cbn zeta in E.
  set (s := stream_at (vault w) id) in *.
  destruct E as (_ & He & Hc & _ & _ & Hlt & b & Hb & ->). split.
  - apply put_stream_ok; [done|by rewrite (stream_at_Some _ _ He)| |done].
    unfold stream_ok. cbn. lia.
  - intros t. cbn [vault balances]. rewrite liabilities_insert. fold s.
    specialize (Hs t). unshelve epose proof (pay_out_balance t _ _ _ _ _ _ Hb); [lia|].
    unfold pending. rewrite Hc. cbn. repeat case_decide; lia.
Qed.

Lemma cancelStream_ok m id acc dl sig w w' : world_ok w → msg_ok net m → uint_range 256 acc →
  cancelStream net m id acc dl sig w = Ret w' → world_ok w'.
Proof.
  intros [Hv Hs] [Hm _] Hacc E. pose proof (stream_at_ok net (vault w) id Hv) as Hst.
  destruct Hst as [Hw Hf]. apply cancelStream_Ret in E; [|done|done|lia]. cbn zeta in E.
  set (s := stream_at (vault w) id) in *.
  destruct E as (_ & He & Hc & _ & _ & b1 & b2 & Hb1 & Hb2 & ->). split.
  - apply put_stream_ok; [done|rewrite stream_at_Some; [done|by fold s; rewrite <- He]| |done].
    unfold stream_ok. cbn. lia.
  - intros t. cbn [vault balances]. rewrite liabilities_insert. fold s.
    specialize (Hs t). unshelve epose proof (pay_positive_balance t _ _ _ _ _ _ Hb1); [lia|].
    unshelve epose proof (pay_positive_balance t _ _ _ _ _ _ Hb2); [lia|].
    unfold pending. rewrite Hc. cbn. repeat case_decide; lia.
Qed.

Lemma fund_ok m id n w w' : world_ok w → msg_ok net m → fund net m id n w = Ret w' → world_ok w'.
Proof.
  intros [Hv Hs] [_ Hm] E. pose proof (stream_at_ok net (vault w) id Hv) as Hst.
  destruct Hst as [Hw Hf]. apply fund_Ret in E. cbn zeta in E.
  set (s := stream_at (vault w) id) in *.
  destruct E as (_ & He & Hc & Hn & Hlt & b & Hb & ->). split.
  - apply put_stream_ok; [done|by rewrite (stream_at_Some _ _ He)| |done].
    unfold stream_ok. cbn. lia.
  - intros t. cbn [vault balances]. rewrite liabilities_insert. fold s.
    specialize (Hs t). unshelve epose proof (pay_in_balance t _ _ _ _ _ _ Hm Hb); [lia|].
    unfold pending. cbn. rewrite Hc. repeat case_decide; lia.
Qed.

Lemma createStream_ok m r k c st et w w' : world_ok w → msg_ok net m →
  createStream m r k c st et w = Ret w' → world_ok w'.
Proof.
  intros [(He & Hn & Hv) Hs] [Hm0 Hm] E. unfold createStream in E. inv_require.
  match goal with H : checked _ _ = Ret _ |- _ => apply checked_Ret in H as [? ->] end.
  set (ns := Build_Stream _ _ _ _ _ _ _ _).
  assert (streams (vault w) !! nextStreamId (vault w) = None) as Hfresh.
  { apply eq_None_not_Some. intros [s E]. apply Hv in E. lia. }
  split.
  - split; [done|]. split; [cbn; lia|]. cbn. intros id s [[<- <-]|[_ E]]%lookup_insert_Some.
    + split; [lia|]. split; [|done]. unfold stream_ok. cbn. lia.
    + apply Hv in E as (? & ?). split; [lia|done].
  - intros t. specialize (Hs t). cbn [vault balances].
    change (liabilities t _) with (liabilities t (set_stream (vault w) (nextStreamId (vault w)) ns)).
    rewrite liabilities_insert. unfold stream_at. rewrite Hfresh. cbn [default].
    assert (pending t zero_stream = 0) as -> by (unfold pending; cbn; by destruct (decide _)).
    assert (pending t ns = 0) as -> by (unfold pending; cbn; by destruct (decide _)). lia.
Qed.

Lemma exec_ok m c w w' : world_ok w → msg_ok net m → call_ok c → exec net m c w = Ret w' → world_ok w'.
Proof.
  intros Hw Hm Hc E. destruct c; cbn [exec] in E.
  - destruct Hw as [(He & Hn & Hv) Hs]. unfold setTeeSigner in E. inv_require. done.
  - by eapply createStream_ok.
  - by eapply fund_ok.
  - by eapply withdraw_ok.
  - by eapply cancelStream_ok.
  - destruct Hw as [(He & Hn & Hv) Hs]. unfold revealTerms in E. inv_require. done.
Qed.

Lemma deployed_ok own signer b : (∀ t, 0 ≤ b t (this net)) → world_ok (deployed own signer b).
Proof.
  intros Hb. split; [|exact Hb]. split; [done|]. split; [done|]. intros id s E. change ((∅ : gmap Z Stream) !! id = Some s) in E. by rewrite lookup_empty in E.
Qed.

Lemma transfer_ok w t from to n b : world_ok w → from ≠ this net → 0 ≤ n →
  token_transfer t from to n (balances w) = Some b →
  world_ok {| vault := vault w; balances := b; events := events w |}.
Proof.
  intros [Hv Hs] Hf Hn E. split; [done|]. intros u. specialize (Hs u). cbn [vault balances].
  apply transfer_moves in E as (-> & _). unfold move. case_decide as Hu; [|done]. subst.
  rewrite (decide_False (P:=this net = from)) by done. case_decide; lia.
Qed.
End facts.

(** ** Histories *)

(** Transactions in order, the reverted ones left out, and token transfers that
    the vault has no part in. *)
Inductive vrun `{Evm, Erc20} (net : Net) (w0 : World) : list (Msg * Call) → World → Prop :=
| vrun_nil : vrun net w0 [] w0
| vrun_snoc cs w m c w' :
    vrun net w0 cs w → msg_ok net m → call_ok c → exec net m c w = Ret w' →
    vrun net w0 (cs ++ [(m, c)]) w'
| vrun_transfer cs w t from to n b :
    vrun net w0 cs w → from ≠ this net → 0 ≤ n →
    token_transfer t from to n (balances w) = Some b →
    vrun net w0 cs {| vault := vault w; balances := b; events := events w |}.

(** The cumulative amounts that the transactions on a stream were authorized for. *)
Definition authorized_for (id : Z) (c : Msg * Call) : option Z :=
  match c.2 with
  | CWithdraw i n _ _ | CCancelStream i n _ _ => if decide (i = id) then Some n else None
  | _ => None
  end.

(** What the log says was withdrawn from a stream. *)
Definition withdrawn_in (id : Z) (e : Event) : Z :=
  match e with Withdrawn i _ n => if decide (i = id) then n else 0 | _ => 0 end.
Definition total_withdrawn (id : Z) (es : list Event) : Z := foldr Z.add 0 (withdrawn_in id <$> es).

Lemma total_withdrawn_snoc id es e : total_withdrawn id (es ++ [e]) = total_withdrawn id es + withdrawn_in id e.
Proof.
  unfold total_withdrawn. induction es as [|e' es IH]; cbn; [lia|]. rewrite IH. lia.
Qed.

Lemma stream_at_set v id s id' :
  stream_at (set_stream v id s) id' = if decide (id' = id) then s else stream_at v id'.
Proof.
  unfold stream_at. cbn [streams set_stream]. case_decide as Hd.
  - subst. by rewrite lookup_insert_eq.
  - by rewrite lookup_insert_ne.
Qed.

Section histories.
Context `{EvmLaws, Erc20Laws} (net : Net).

Lemma vrun_ok w0 cs w : world_ok net w0 → vrun net w0 cs w → world_ok net w.
Proof.
  intros H0'. induction 1 as [|cs w m c w' _ IH Hm Hc E|cs w t from to n b _ IH Hf Hn E]; [done| |].
  - by eapply exec_ok.
  - by eapply transfer_ok.
Qed.

(** How one transaction changes a stream: identity, amounts, state. *)
Inductive evolves (id : Z) (s : Stream) (m : Msg) (c : Call) : Stream → Prop :=
| ev_same : evolves id s m c s
| ev_created s' : s = zero_stream → s_withdrawn s' = 0 → s_cancelled s' = false →
    (∃ r k cm st et, c = CCreateStream r k cm st et) → evolves id s m c s'
| ev_funded n : c = CFund id n → s_employer s ≠ 0 → s_cancelled s = false → 0 < n →
    evolves id s m c (add_funds s n)
| ev_withdrawn acc dl sig : c = CWithdraw id acc dl sig → s_employer s ≠ 0 →
    s_cancelled s = false → s_withdrawn s < Z.min acc (s_funded s) →
    evolves id s m c (set_withdrawn s (Z.min acc (s_funded s)) false)
| ev_cancelled acc dl sig : c = CCancelStream id acc dl sig → sender m = s_employer s →
    s_cancelled s = false →
    evolves id s m c (set_withdrawn s (Z.max (s_withdrawn s) (Z.min acc (s_funded s))) true).

Lemma exec_evolves m c w w' id : world_ok net w → msg_ok net m → call_ok c →
  exec net m c w = Ret w' → evolves id (stream_at (vault w) id) m c (stream_at (vault w') id).
Proof.
  intros Hw Hm Hc E. pose proof Hw as [Hv _].
  destruct c as [a|r k cm st et|i n|i n dl sg|i n dl sg|i ts]; cbn [exec] in E.
  - unfold setTeeSigner in E. inv_require. constructor.
  - unfold createStream in E. inv_require.
    match goal with H : checked _ _ = Ret _ |- _ => apply checked_Ret in H as [? ->] end.
    set (ns := Build_Stream _ _ _ _ _ _ _ _).
    change (evolves id (stream_at (vault w) id) m (CCreateStream r k cm st et)
      (stream_at (set_stream (vault w) (nextStreamId (vault w)) ns) id)).
    rewrite stream_at_set. case_decide as Hd; [|constructor]. subst id.
    destruct Hv as (_ & _ & Hv). apply ev_created; try done; [|by repeat eexists].
    unfold stream_at. destruct (streams _ !! _) eqn:E; [|done]. apply Hv in E. lia.
  - apply fund_Ret in E. cbn zeta in E. destruct E as (_ & He & Hcn & Hn & _ & b & _ & ->).
    cbn [vault]. rewrite stream_at_set. case_decide; [subst; by apply ev_funded|constructor].
  - pose proof (stream_at_ok net _ i Hv) as [Hs1 Hs2].
    apply withdraw_Ret in E; [|done|done|lia]. cbn zeta in E.
    destruct E as (_ & He & Hcn & _ & _ & Hlt & b & _ & ->).
    cbn [vault]. rewrite stream_at_set. case_decide; [subst; by eapply ev_withdrawn|constructor].
  - pose proof (stream_at_ok net _ i Hv) as [Hs1 Hs2].
    apply cancelStream_Ret in E; [|done|done|lia]. cbn zeta in E.
    destruct E as (_ & He & Hcn & _ & _ & b1 & b2 & _ & _ & ->).
    cbn [vault]. rewrite stream_at_set. case_decide; [subst; by eapply ev_cancelled|constructor].
  - unfold revealTerms in E. inv_require. constructor.
Qed.

(** What a transaction adds to the withdrawals in the log. *)
Lemma exec_withdrawn m c w w' id : world_ok net w → msg_ok net m → call_ok c →
  exec net m c w = Ret w' →
  total_withdrawn id (events w') - total_withdrawn id (events w)
    ≤ s_withdrawn (stream_at (vault w') id) - s_withdrawn (stream_at (vault w) id).
Proof.
  intros Hw Hm Hc E. pose proof (exec_evolves m c w w' id Hw Hm Hc E) as Hev.
  destruct c as [a|r k cm st et|i n|i n dl sg|i n dl sg|i ts]; cbn [exec] in E.
  - unfold setTeeSigner in E. inv_require. cbn [events]. rewrite total_withdrawn_snoc.
    unfold stream_at. cbn. lia.
  - assert (0 ≤ s_withdrawn (stream_at (vault w') id) - s_withdrawn (stream_at (vault w) id)) as Hd.
    { revert Hev. generalize (stream_at (vault w') id). intros s'.
      destruct 1 as [|s' Hz Hw0 _ _|? Hx|? ? ? Hx|? ? ? Hx]; try discriminate Hx; [lia|].
      rewrite Hz, Hw0. cbn. lia. }
    assert (total_withdrawn id (events w') = total_withdrawn id (events w)) as ->; [|lia].
    clear Hd Hev. unfold createStream in E. inv_require. cbn [events].
    rewrite total_withdrawn_snoc. cbn. lia.
  - apply fund_Ret in E. cbn zeta in E. destruct E as (_ & He & Hcn & Hn & _ & b & _ & ->).
    cbn [vault events]. rewrite total_withdrawn_snoc, stream_at_set. cbn [withdrawn_in].
    case_decide; subst; cbn; lia.
  - pose proof Hw as [Hv _]. pose proof (stream_at_ok net _ i Hv) as [Hs1 Hs2].
    apply withdraw_Ret in E; [|done|done|lia]. cbn zeta in E.
    destruct E as (_ & He & Hcn & _ & _ & Hlt & b & _ & ->).
    cbn [vault events]. rewrite total_withdrawn_snoc, stream_at_set. cbn [withdrawn_in].
    repeat case_decide; subst; try done; cbn; lia.
  - pose proof Hw as [Hv _]. pose proof (stream_at_ok net _ i Hv) as [Hs1 Hs2].
    apply cancelStream_Ret in E; [|done|done|lia]. cbn zeta in E.
    destruct E as (_ & He & Hcn & _ & _ & b1 & b2 & _ & _ & ->).
    cbn [vault events]. rewrite total_withdrawn_snoc, stream_at_set. cbn [withdrawn_in].
    case_decide; subst; cbn; lia.
  - unfold revealTerms in E. inv_require. cbn [emit events vault]. rewrite total_withdrawn_snoc. cbn. lia.
Qed.

(** How a stream that exists can differ later. *)
Definition later_stream (s s' : Stream) : Prop :=
  s_employer s' = s_employer s ∧ s_recipient s' = s_recipient s ∧ s_token s' = s_token s ∧
  s_commitment s' = s_commitment s ∧ s_withdrawn s ≤ s_withdrawn s' ∧ s_funded s ≤ s_funded s' ∧
  (s_cancelled s = true → s' = s).

Lemma later_refl s : later_stream s s.
Proof. by repeat split. Qed.

Lemma later_trans s1 s2 s3 : later_stream s1 s2 → later_stream s2 s3 → later_stream s1 s3.
Proof.
  intros (E1 & E2 & E3 & E4 & E5 & E6 & E7) (F1 & F2 & F3 & F4 & F5 & F6 & F7).
  do 4 (split; [congruence|]). split; [lia|]. split; [lia|]. intros Hc.
  rewrite <- (E7 Hc). apply F7. by rewrite (E7 Hc).
Qed.

Lemma evolves_later id s m c s' : stream_ok s → s_employer s ≠ 0 → evolves id s m c s' → later_stream s s'.
Proof.
  intros [Hs _] He. destruct 1 as [|s' -> _ _ _|n _ _ Hc Hn|acc dl sig _ _ Hc Hlt|acc dl sig _ _ Hc].
  - apply later_refl.
  - by destruct He.
  - unfold later_stream. cbn. rewrite Hc. repeat (split; [first [done|lia]|]). done.
  - unfold later_stream. cbn. rewrite Hc. repeat (split; [first [done|lia]|]). done.
  - unfold later_stream. cbn. rewrite Hc. repeat (split; [first [done|lia]|]). done.
Qed.

Lemma exec_later m c w w' id : world_ok net w → msg_ok net m → call_ok c → exec net m c w = Ret w' →
  s_employer (stream_at (vault w) id) ≠ 0 →
  later_stream (stream_at (vault w) id) (stream_at (vault w') id).
Proof.
  intros Hw Hm Hc E He. eapply evolves_later; [|done|by eapply exec_evolves].
  eapply stream_at_ok, Hw.
Qed.

Lemma vrun_later w0 cs w id : world_ok net w0 → vrun net w0 cs w →
  s_employer (stream_at (vault w0) id) ≠ 0 →
  later_stream (stream_at (vault w0) id) (stream_at (vault w) id).
Proof.
  intros Hw Hr He. induction Hr as [|cs w m c w' Hr IH Hm Hc E|cs w t from to n b Hr IH _ _ _].
  - apply later_refl.
  - eapply later_trans; [exact IH|]. eapply exec_later; try done; [by eapply vrun_ok|].
    by destruct IH as [-> _].
  - exact IH.
Qed.

Lemma vrun_cumulative w0 cs w id : world_ok net w0 → vrun net w0 cs w →
  total_withdrawn id (events w0) = 0 → s_withdrawn (stream_at (vault w0) id) = 0 →
  total_withdrawn id (events w) ≤ s_withdrawn (stream_at (vault w) id) ∧
  (s_withdrawn (stream_at (vault w) id) = 0 ∨
   ∃ c n, c ∈ cs ∧ authorized_for id c = Some n ∧ s_withdrawn (stream_at (vault w) id) ≤ n).
Proof.
  intros Hw Hr Ht Hs. induction Hr as [|cs w m c w' Hr [IH1 IH2] Hm Hc E|cs w t from to n b Hr IH _ _ _].
  - split; [lia|by left].
  - pose proof (vrun_ok _ _ _ Hw Hr) as Hok.
    pose proof (exec_withdrawn m c w w' id Hok Hm Hc E) as Hd. split; [lia|].
    assert (∀ n, s_withdrawn (stream_at (vault w) id) = 0 ∨ (∃ c n, c ∈ cs ∧
      authorized_for id c = Some n ∧ s_withdrawn (stream_at (vault w) id) ≤ n) →
      n = s_withdrawn (stream_at (vault w) id) →
      n = 0 ∨ ∃ c' n', c' ∈ cs ++ [(m, c)] ∧ authorized_for id c' = Some n' ∧ n ≤ n') as Hold.
    { intros n [?|(c' & n' & Hin & Ha & Hle)] ->; [by left|right]. exists c', n'.
      split; [apply elem_of_app; by left|done]. }
    destruct (exec_evolves m c w w' id Hok Hm Hc E)
      as [|s' Hz Hw0 _ _|n _ _ _ _|acc dl sig -> _ _ Hlt|acc dl sig -> _ _].
    + by apply Hold.
    + by left.
    + by apply Hold.
    + right. exists (m, CWithdraw id acc dl sig), acc.
      split; [apply elem_of_app; right; left|]. split; [cbn; by rewrite decide_True|]. cbn. lia.
    + cbn [s_withdrawn set_withdrawn].
      destruct (Z.max_spec (s_withdrawn (stream_at (vault w) id))
        (Z.min acc (s_funded (stream_at (vault w) id)))) as [[_ ->]|[_ ->]]; [|by apply Hold].
      right. exists (m, CCancelStream id acc dl sig), acc.
      split; [apply elem_of_app; right; left|]. split; [cbn; by rewrite decide_True|]. lia.
  - exact IH.
Qed.

(** What an event says of the state, from then on. *)
Definition records (w : World) (e : Event) : Prop :=
  match e with
  | StreamCreated id emp rec tok com _ _ =>
      let s := stream_at (vault w) id in
      emp ≠ 0 ∧ s_employer s = emp ∧ s_recipient s = rec ∧ s_token s = tok ∧ s_commitment s = com
  | TermsRevealed id ts =>
      s_employer (stream_at (vault w) id) ≠ 0 ∧
      be_value (keccak ts) = s_commitment (stream_at (vault w) id)
  | _ => True
  end.

Lemma exec_events m c w w' : world_ok net w → msg_ok net m → call_ok c → exec net m c w = Ret w' →
  ∃ e, events w' = events w ++ [e] ∧ records w' e.
Proof.
  intros [Hv _] Hm Hc E.
  destruct c as [a|r k cm st et|i n|i n dl sg|i n dl sg|i ts]; cbn [exec] in E.
  - unfold setTeeSigner in E. inv_require. by eexists.
  - unfold createStream in E. inv_require. eexists. split; [reflexivity|]. cbn [records vault streams].
    unfold stream_at. cbn [streams]. rewrite lookup_insert_eq. split; [apply Hm|done].
  - apply fund_Ret in E. cbn zeta in E. destruct E as (_ & _ & _ & _ & _ & b & _ & ->). by eexists.
  - pose proof (stream_at_ok net _ i Hv) as [Hs1 Hs2].
    apply withdraw_Ret in E; [|done|done|lia]. cbn zeta in E.
    destruct E as (_ & _ & _ & _ & _ & _ & b & _ & ->). by eexists.
  - pose proof (stream_at_ok net _ i Hv) as [Hs1 Hs2].
    apply cancelStream_Ret in E; [|done|done|lia]. cbn zeta in E.
    destruct E as (_ & _ & _ & _ & _ & b1 & b2 & _ & _ & ->). by eexists.
  - unfold revealTerms in E. inv_require. eexists. split; [reflexivity|]. done.
Qed.

Lemma records_later m c w w' e : world_ok net w → msg_ok net m → call_ok c → exec net m c w = Ret w' →
  records w e → records w' e.
Proof.
  intros Hw Hm Hc E. destruct e as [|id emp rec tok com st et| | | |id ts]; try done; cbn [records].
  - intros (He & Es & Er & Ht & Hcm).
    pose proof (exec_later m c w w' id Hw Hm Hc E ltac:(by rewrite Es)) as (-> & -> & -> & -> & _). done.
  - intros [He Hcm]. pose proof (exec_later m c w w' id Hw Hm Hc E He) as (-> & _ & _ & -> & _). done.
Qed.

Lemma vrun_records w0 cs w e : world_ok net w0 → vrun net w0 cs w →
  e ∉ events w0 → e ∈ events w → records w e.
Proof.
  intros Hw Hr Hn. induction Hr as [|cs w m c w' Hr IH Hm Hc E|cs w t from to n b Hr IH _ _ _]; try done.
  pose proof (vrun_ok _ _ _ Hw Hr) as Hok.
  destruct (exec_events m c w w' Hok Hm Hc E) as (e' & Hev & Hrec). rewrite Hev.
  intros [Hin| ->%list_elem_of_singleton]%elem_of_app; [|done].
  eapply records_later; eauto.
Qed.

(** Which transactions create streams: the next id, each once. *)
Definition created_id (e : Event) : option Z :=
  match e with StreamCreated id _ _ _ _ _ _ => Some id | _ => None end.

Lemma exec_created m c w w' : world_ok net w → call_ok c → exec net m c w = Ret w' →
  ∃ e, events w' = events w ++ [e] ∧
    match created_id e with
    | Some id => id = nextStreamId (vault w) ∧ nextStreamId (vault w') = id + 1 ∧ id + 1 < 2 ^ 256
    | None => nextStreamId (vault w') = nextStreamId (vault w)
    end.
Proof.
  intros [Hv _] Hc E.
  destruct c as [a|r k cm st et|i n|i n dl sg|i n dl sg|i ts]; cbn [exec] in E.
  - unfold setTeeSigner in E. inv_require. by eexists.
  - unfold createStream in E. inv_require.
    match goal with H : checked _ _ = Ret _ |- _ => apply checked_Ret in H as [? ->] end.
    by eexists.
  - apply fund_Ret in E. cbn zeta in E. destruct E as (_ & _ & _ & _ & _ & b & _ & ->). by eexists.
  - pose proof (stream_at_ok net _ i Hv) as [Hs1 Hs2].
    apply withdraw_Ret in E; [|done|done|lia]. cbn zeta in E.
    destruct E as (_ & _ & _ & _ & _ & _ & b & _ & ->). by eexists.
  - pose proof (stream_at_ok net _ i Hv) as [Hs1 Hs2].
    apply cancelStream_Ret in E; [|done|done|lia]. cbn zeta in E.
    destruct E as (_ & _ & _ & _ & _ & b1 & b2 & _ & _ & ->). by eexists.
  - unfold revealTerms in E. inv_require. by eexists.
Qed.

Lemma vrun_created w0 cs w : world_ok net w0 → events w0 = [] → nextStreamId (vault w0) < 2 ^ 256 →
  vrun net w0 cs w →
  let ids := omap created_id (events w) in
  NoDup ids ∧ Forall (λ id, 1 ≤ id < nextStreamId (vault w)) ids ∧ nextStreamId (vault w) < 2 ^ 256.
Proof.
  intros Hw He Hn Hr. cbn zeta. induction Hr as [|cs w m c w' Hr IH Hm Hc E|cs w t from to n b Hr IH _ _ _];
    [rewrite He; do 2 (split; [constructor|]); done| |done].
  destruct IH as (Hd & Hids & Hlt). pose proof (vrun_ok _ _ _ Hw Hr) as Hok.
  destruct (exec_created m c w w' Hok Hc E) as (e & -> & Hcr). rewrite omap_app. cbn [omap list_omap].
  destruct (created_id e) as [id|].
  - destruct Hcr as (-> & -> & Hlt'). destruct Hok as [(_ & Hn1 & _) _]. split; [|split; [|done]].
    + apply NoDup_app. split; [done|]. split; [|apply NoDup_singleton].
      intros x Hx ->%list_elem_of_singleton. rewrite Forall_forall in Hids. specialize (Hids _ Hx). lia.
    + apply Forall_app. split; [|repeat constructor; lia].
      eapply Forall_impl; [exact Hids|]. cbn. lia.
  - rewrite app_nil_r, Hcr. done.
Qed.
End histories.
