(* ===== verification/VaultProps.v ===== *)
(** * What the vault promises

    The theorems about contracts/StreamVault.sol over the lemmas of VaultFacts.v:
    it stays solvent, pays exactly the authorized difference, never pays more than
    was authorized and never twice, settles once, and changes a stream only on the
    enclave's signature. *)

From S2P Require Import Prelude JsString JsNumber Utf8 Json JsonFacts Encoding Wire Abi Instances Vault VaultFacts.

Section facts.
Context `{EvmLaws, Erc20Laws} (net : Net).

(** The state of a fresh deployment. *)
Definition fresh (w : World) : Prop :=
  ∃ own signer b, w = deployed own signer b ∧ ∀ t, 0 ≤ b t (this net).

Lemma fresh_ok w : fresh w → world_ok net w.
Proof. intros (own & signer & b & -> & Hb). by apply deployed_ok. Qed.

Lemma fresh_run_ok w0 cs w : fresh w0 → vrun net w0 cs w → world_ok net w.
Proof. intros H0' Hr. eapply vrun_ok; [by apply fresh_ok|exact Hr]. Qed.

(** A transaction returns or reverts. *)
Lemma not_Ret_throws {A} (o : outcome A) : (∀ a, o ≠ Ret a) → throws o.
Proof. destruct o; [naive_solver|by eexists]. Qed.

(** A withdrawal that would pay nothing reverts. *)
Lemma withdraw_nothing m id acc dl sig w : world_ok net w → uint_range 256 acc →
  Z.min acc (s_funded (stream_at (vault w) id)) ≤ s_withdrawn (stream_at (vault w) id) →
  throws (withdraw net m id acc dl sig w).
Proof.
  intros [Hv _] Hacc Hle. apply not_Ret_throws. intros w' E.
  pose proof (stream_at_ok net _ id Hv) as [? ?]. apply withdraw_Ret in E; [|done|done|lia].
  cbn zeta in E. lia.
Qed.

(** On a cancelled stream nothing succeeds any more. *)
Lemma cancelled_final m c id w w' : world_ok net w → call_ok c →
  s_cancelled (stream_at (vault w) id) = true → exec net m c w = Ret w' →
  match c with
  | CFund i _ | CWithdraw i _ _ _ | CCancelStream i _ _ _ => i ≠ id
  | _ => True
  end.
Proof.
  intros [Hv _] Hc Hcn E. destruct c as [| |i n|i n dl sg|i n dl sg|]; cbn [exec] in E; try done;
    intros ->; pose proof (stream_at_ok net _ id Hv) as [? ?].
  - apply fund_Ret in E. cbn zeta in E. destruct E as (_ & _ & Hf & _). congruence.
  - apply withdraw_Ret in E; [|done|done|lia]. cbn zeta in E.
    destruct E as (_ & _ & Hf & _). congruence.
  - apply cancelStream_Ret in E; [|done|done|lia]. cbn zeta in E.
    destruct E as (_ & _ & Hf & _). congruence.
Qed.
End facts.

(** Transactions in sequence, as a function. *)
Definition run `{Evm, Erc20} (net : Net) (cs : list (Msg * Call)) (w : World) : outcome World :=
  foldl (λ o c, w ← o; exec net c.1 c.2 w) (Ret w) cs.

Lemma run_throw `{Evm, Erc20} net cs e :
  foldl (λ o c, w ← o; exec net c.1 c.2 w) (Throw e) cs = Throw e.
Proof. induction cs; done. Qed.

Lemma run_vrun `{Evm, Erc20} net w0 cs0 cs w w' :
  Forall (λ c, msg_ok net c.1 ∧ call_ok c.2) cs →
  vrun net w0 cs0 w → run net cs w = Ret w' → vrun net w0 (cs0 ++ cs) w'.
Proof.
  unfold run. revert cs0 w. induction cs as [|[m c] cs IH]; intros cs0 w Hok Hr E.
  - rewrite app_nil_r. cbn in E. by injection E as <-.
  - apply Forall_cons in Hok as [[Hm Hc] Hok]. cbn [foldl fst snd mbind outcome_bind] in E.
    destruct (exec net m c w) as [w1|e] eqn:E1; [|by rewrite run_throw in E].
    change ((m, c) :: cs) with ([(m, c)] ++ cs). rewrite app_assoc.
    eapply IH; [done| |exact E]. by econstructor.
Qed.

(** ** Properties *)

(** C13: the vault is solvent: after any history of transactions from a
    deployment, in any order and by any callers, interleaved with any token
    transfers of others, every stream has withdrawn at most its funding, which fits
    uint128, and for every token the vault's balance covers what all open streams
    still hold. *)
Theorem vault_solvent `{EvmLaws, Erc20Laws} net w0 cs w : fresh net w0 → vrun net w0 cs w →
  entered (vault w) = 1 ∧
  (∀ id, 0 ≤ s_withdrawn (stream_at (vault w) id) ≤ s_funded (stream_at (vault w) id) ∧
         s_funded (stream_at (vault w) id) < 2 ^ 128) ∧
  ∀ t, liabilities t (vault w) ≤ balances w t (this net).
Proof.
  intros H0' Hr. destruct (fresh_run_ok net w0 cs w H0' Hr) as [Hv Hs].
  split; [apply Hv|]. split; [|exact Hs]. intros id. exact (stream_at_ok net _ id Hv).
Qed.

(** a withdrawal pays exactly the authorized difference: in every reachable
    state it succeeds if and only if the stream exists and is open, the deadline
    has not passed, the signature over this very chain, vault, stream, commitment,
    amount and deadline is the enclave's, there is something to pay and the token
    pays it; the recipient then gets min(accrued, funded) minus what was withdrawn
    before, this is recorded, and nothing else changes. *)
Theorem withdraw_pays `{EvmLaws, Erc20Laws} net w0 cs w m id acc dl sig w' :
  fresh net w0 → vrun net w0 cs w → uint_range 256 acc →
  let s := stream_at (vault w) id in
  let payout := Z.min acc (s_funded s) - s_withdrawn s in
  withdraw net m id acc dl sig w = Ret w' ↔
  s_employer s ≠ 0 ∧ s_cancelled s = false ∧ timestamp m ≤ dl ∧
  signed_by_tee net (vault w) WITHDRAW_TAG_word id (s_commitment s) acc dl sig ∧
  0 < payout ∧
  token_transfer (s_token s) (this net) (s_recipient s) payout (balances w) = Some (balances w') ∧
  balances w' = move (s_token s) (this net) (s_recipient s) payout (balances w) ∧
  vault w' = set_stream (vault w) id (set_withdrawn s (s_withdrawn s + payout) false) ∧
  events w' = events w ++ [Withdrawn id (s_recipient s) payout].
Proof.
  intros H0' Hr Hacc. cbn zeta. destruct (fresh_run_ok net w0 cs w H0' Hr) as [Hv _].
  pose proof (stream_at_ok net _ id Hv) as [? ?].
  rewrite withdraw_Ret by (done || lia). cbn zeta.
  set (s := stream_at (vault w) id) in *.
  replace (s_withdrawn s + (Z.min acc (s_funded s) - s_withdrawn s)) with (Z.min acc (s_funded s)) by lia.
  split.
  - intros (_ & He & Hc & Hd & Hsig & Hlt & b & Hb & ->).
    pose proof (transfer_moves _ _ _ _ _ _ Hb) as [Hmv _].
    repeat (split; [first [done|lia]|]). done.
  - intros (He & Hc & Hd & Hsig & Hlt & Hb & _ & Hw & Hev). split; [apply Hv|].
    repeat (split; [first [done|lia]|]). exists (balances w'). split; [done|].
    destruct w'. cbn in *. by subst.
Qed.


(** C16: replaying an authorization pays nothing, as long as it was paid in full:
    once a withdrawal of [acc] succeeded while the stream held at least that
    much, then after any further history every withdrawal for at most [acc], by
    anyone and with any signature, reverts. *)
Theorem replay_pays_nothing `{EvmLaws, Erc20Laws} net w0 cs0 w m id acc dl sig w1 cs w2 m' acc' dl' sig' :
  fresh net w0 → vrun net w0 cs0 w → uint_range 256 acc →
  withdraw net m id acc dl sig w = Ret w1 → acc ≤ s_funded (stream_at (vault w) id) →
  vrun net w1 cs w2 → 0 ≤ acc' ≤ acc →
  throws (withdraw net m' id acc' dl' sig' w2).
Proof.
  intros H0' Hr Hacc E Hf Hr2 Ha. pose proof (fresh_run_ok net w0 cs0 w H0' Hr) as Hok.
  pose proof (withdraw_ok net _ _ _ _ _ _ _ Hok Hacc E) as Hok1.
  pose proof (stream_at_ok net _ id (proj1 Hok)) as [? ?].
  apply withdraw_Ret in E; [|done|done|lia]. cbn zeta in E.
  destruct E as (_ & He & _ & _ & _ & _ & b & _ & ->).
  pose proof (vrun_later net _ _ _ id Hok1 Hr2) as Hl. cbn [vault] in Hl.
  rewrite stream_at_set, decide_True in Hl by done. destruct (Hl He) as (_ & _ & _ & _ & Hw & _).
  cbn [s_withdrawn set_withdrawn] in Hw.
  apply withdraw_nothing; [by eapply vrun_ok|lia|lia].
Qed.

(** C17: a settlement pays everything out, once: a successful cancellation is the
    employer's, with the enclave's signature for a settlement within its deadline;
    it brings the recipient to max(withdrawn, min(final, funded)), refunds exactly
    the rest of the funding, and after any further history the stream is
    unchanged: no fund, withdrawal or cancellation of it succeeds again. *)
Theorem cancel_settles `{EvmLaws, Erc20Laws} net w0 cs0 w m id acc dl sig w1 :
  fresh net w0 → vrun net w0 cs0 w → msg_ok net m → uint_range 256 acc →
  cancelStream net m id acc dl sig w = Ret w1 →
  let s := stream_at (vault w) id in
  let paid := Z.max (s_withdrawn s) (Z.min acc (s_funded s)) in
  sender m = s_employer s ∧ timestamp m ≤ dl ∧
  signed_by_tee net (vault w) SETTLE_TAG_word id (s_commitment s) acc dl sig ∧
  (∃ b, transfer_positive (s_token s) (this net) (s_recipient s) (paid - s_withdrawn s) (balances w) = Some b ∧
     transfer_positive (s_token s) (this net) (s_employer s) (s_funded s - paid) b = Some (balances w1)) ∧
  ∀ cs w2, vrun net w1 cs w2 →
    stream_at (vault w2) id = set_withdrawn s paid true ∧
    (∀ m' n, uint_range 128 n → throws (fund net m' id n w2)) ∧
    (∀ m' n dl' sig', uint_range 256 n → throws (withdraw net m' id n dl' sig' w2)) ∧
    (∀ m' n dl' sig', uint_range 256 n → throws (cancelStream net m' id n dl' sig' w2)).
Proof.
  intros H0' Hr Hm Hacc E. cbn zeta. pose proof (fresh_run_ok net w0 cs0 w H0' Hr) as Hok.
  pose proof (cancelStream_ok net _ _ _ _ _ _ _ Hok Hm Hacc E) as Hok1.
  pose proof (stream_at_ok net _ id (proj1 Hok)) as [? ?].
  apply cancelStream_Ret in E; [|done|done|lia]. cbn zeta in E.
  destruct E as (_ & He & _ & Hd & Hsig & b1 & b2 & Hb1 & Hb2 & ->).
  split; [done|]. split; [done|]. split; [done|]. split; [by exists b1|].
  intros cs w2 Hr2. pose proof (vrun_later net _ _ _ id Hok1 Hr2) as Hl.
  pose proof (vrun_ok net _ _ _ Hok1 Hr2) as Hok2. cbn [vault] in Hl.
  rewrite stream_at_set, decide_True in Hl by done.
  cbn [s_employer set_withdrawn] in Hl. rewrite <- He in Hl. destruct (Hl (proj1 Hm)) as (_ & _ & _ & _ & _ & _ & Hcn).
  specialize (Hcn eq_refl). split; [done|].
  assert (s_cancelled (stream_at (vault w2) id) = true) as Hc2 by by rewrite Hcn.
  split; [|split].
  - intros m' n Hn. apply not_Ret_throws. intros w' E'.
    by apply (cancelled_final net m' (CFund id n) id w2 w' Hok2 Hn Hc2 E').
  - intros m' n dl' sig' Hn. apply not_Ret_throws. intros w' E'.
    by apply (cancelled_final net m' (CWithdraw id n dl' sig') id w2 w' Hok2 Hn Hc2 E').
  - intros m' n dl' sig' Hn. apply not_Ret_throws. intros w' E'.
    by apply (cancelled_final net m' (CCancelStream id n dl' sig') id w2 w' Hok2 Hn Hc2 E').
Qed.

(** C20: a stream changes only as authorized: over one transaction in any
    reachable state, an existing stream keeps its parties, token and commitment;
    what it paid out grows only with an enclave signature for its commitment that
    has not expired; it is cancelled only by its employer; its funding grows only
    by a [fund] of it. *)
Theorem stream_changes_authorized `{EvmLaws, Erc20Laws} net w0 cs w m c w' id :
  fresh net w0 → vrun net w0 cs w → msg_ok net m → call_ok c → exec net m c w = Ret w' →
  let s := stream_at (vault w) id in
  let s' := stream_at (vault w') id in
  s_employer s ≠ 0 →
  s_employer s' = s_employer s ∧ s_recipient s' = s_recipient s ∧ s_token s' = s_token s ∧
  s_commitment s' = s_commitment s ∧ s_startTime s' = s_startTime s ∧
  (s_withdrawn s' ≠ s_withdrawn s ∨ s_cancelled s' ≠ s_cancelled s →
     ∃ tag acc dl sig, s_withdrawn s' ≤ Z.max (s_withdrawn s) acc ∧ timestamp m ≤ dl ∧
       signed_by_tee net (vault w) tag id (s_commitment s) acc dl sig ∧
       ((tag = WITHDRAW_TAG_word ∧ c = CWithdraw id acc dl sig ∧ s_cancelled s' = s_cancelled s) ∨
        (tag = SETTLE_TAG_word ∧ c = CCancelStream id acc dl sig ∧ sender m = s_employer s))) ∧
  (s_funded s' ≠ s_funded s → ∃ n, c = CFund id n ∧ 0 < n ∧ s_funded s' = s_funded s + n).
Proof.
  intros H0' Hr Hm Hc E. cbn zeta. intros He. pose proof (fresh_run_ok net w0 cs w H0' Hr) as Hok.
  pose proof (stream_at_ok net _ id (proj1 Hok)) as [? ?].
  pose proof (exec_evolves net m c w w' id Hok Hm Hc E) as Hev.
  inversion Hev as [Heq|s' Hz _ _ _ Heq|n Hcl _ Hcn Hn Heq|acc dl sig Hcl _ Hcn _ Heq|acc dl sig Hcl Hs Hcn Heq].
  - repeat (split; [done|]). split; [intros [?|?]; done|done].
  - by rewrite Hz in He.
  - cbn. rewrite Hcn. repeat (split; [done|]). split; [intros [?|?]; done|]. intros _. by exists n.
  - cbn. rewrite Hcn. repeat (split; [done|]). split; [intros _|done]. subst c.
    cbn [exec call_ok] in *. apply withdraw_Ret in E; [|done|done|lia]. cbn zeta in E.
    destruct E as (_ & _ & _ & Hd & Hsig & _). exists WITHDRAW_TAG_word, acc, dl, sig.
    split; [lia|]. split; [done|]. split; [done|]. by left.
  - cbn. repeat (split; [done|]). split; [intros _|done]. subst c.
    cbn [exec call_ok] in *. apply cancelStream_Ret in E; [|done|done|lia]. cbn zeta in E.
    destruct E as (_ & _ & _ & Hd & Hsig & _). exists SETTLE_TAG_word, acc, dl, sig.
    split; [lia|]. split; [done|]. split; [done|]. by right.
Qed.

(** C14: the log tells the truth, for good: in the log of every history, a
    StreamCreated entry still gives the stream's employer, recipient, token and
    commitment, whatever happened since, and the bytes of a TermsRevealed entry hash
    to the commitment that the stream was created with and has to this day. *)
Theorem log_authentic `{EvmLaws, Erc20Laws} net w0 cs w e :
  fresh net w0 → vrun net w0 cs w → e ∈ events w → records w e.
Proof.
  intros H0' Hr Hin. eapply vrun_records; [by apply fresh_ok|exact Hr| |exact Hin].
  destruct H0' as (? & ? & ? & -> & _). apply not_elem_of_nil.
Qed.

(** ** A concrete history

    The vault with address 170 on chain 114, the enclave's signer 238, the
    employer 225, the recipient 226, token 5; signatures of the concrete
    instance. *)

#[export] Instance toy_erc20 : Erc20 := {|
  token_transfer t from to n b :=
    if (0 <=? n) && (n <=? b t from) then Some (move t from to n b) else None
|}.

#[export] Instance toy_erc20_laws : Erc20Laws.
Proof.
  split. intros t from to n b b'. cbn. destruct (_ && _) eqn:E; [|done]. intros [= <-].
  apply andb_prop in E as [_ ?%Z.leb_le]. done.
Qed.

Definition toy_net : Net := {| this := 170; chainid := 114 |}.

(** The enclave's signature in the concrete instance. *)
Definition toy_signature (tag id commitment acc dl : Z) : bytes :=
  word 238 ++ eth_signed (authorization_digest toy_net tag id commitment acc dl) ++ [27].

Definition toy_terms : bytes := [1; 2; 3].
Definition toy_commitment : Z := be_value (keccak toy_terms).
Definition by_employer (t : Z) : Msg := {| sender := 225; timestamp := t |}.
Definition by_recipient (t : Z) : Msg := {| sender := 226; timestamp := t |}.

Lemma by_employer_ok t : msg_ok toy_net (by_employer t).
Proof. done. Qed.

Lemma by_recipient_ok t : msg_ok toy_net (by_recipient t).
Proof. done. Qed.

Definition toy_withdraw (acc dl : Z) : Call :=
  CWithdraw 1 acc dl (toy_signature WITHDRAW_TAG_word 1 toy_commitment acc dl).
Definition toy_cancel (acc dl : Z) : Call :=
  CCancelStream 1 acc dl (toy_signature SETTLE_TAG_word 1 toy_commitment acc dl).

Definition toy_world : World :=
  deployed 1 238 (λ t h, if bool_decide (t = 5 ∧ h = 225) then 1000 else 0).

Definition toy_opening : list (Msg * Call) :=
  [(by_employer 10, CCreateStream 226 5 toy_commitment 10 []); (by_employer 11, CFund 1 500)].

Definition after (cs : list (Msg * Call)) : World :=
  match run toy_net cs toy_world with Ret w => w | Throw _ => toy_world end.

Lemma toy_fresh : fresh toy_net toy_world.
Proof. exists 1, 238. eexists. split; [reflexivity|]. intros t. cbn. case_bool_decide; lia. Qed.

Definition is_ret {A} (o : outcome A) : bool := match o with Ret _ => true | Throw _ => false end.

Definition call_okb (c : Msg * Call) : bool :=
  negb (sender c.1 =? 0) && negb (sender c.1 =? 170) &&
  match c.2 with
  | CFund _ n => (0 <=? n) && (n <? 2 ^ 128)
  | CWithdraw _ n _ _ | CCancelStream _ n _ _ => (0 <=? n) && (n <? 2 ^ 256)
  | _ => true
  end.

Lemma call_okb_ok c : call_okb c = true → msg_ok toy_net c.1 ∧ call_ok c.2.
Proof.
  unfold call_okb, msg_ok. rewrite !andb_true_iff, !negb_true_iff, !Z.eqb_neq.
  destruct c as [m c]. cbn [fst snd]. intros [[? ?] Hc]. split; [done|].
  destruct c; cbn in *; try done; apply andb_prop in Hc; lia.
Qed.

(** A history of the concrete instance that succeeds. *)
Lemma toy_run cs : forallb call_okb cs = true → is_ret (run toy_net cs toy_world) = true →
  vrun toy_net toy_world cs (after cs).
Proof.
  intros Hok Hr. change cs with ([] ++ cs). eapply run_vrun; [|constructor|].
  - apply forallb_Forall in Hok. eapply Forall_impl; [exact Hok|]. intros c. apply call_okb_ok.
  - unfold after. cbn [app]. by destruct (run _ _ _).
Qed.

Lemma run_snoc cs c : is_ret (run toy_net (cs ++ [c]) toy_world) = true →
  exec toy_net c.1 c.2 (after cs) = Ret (after (cs ++ [c])).
Proof.
  unfold after, run. rewrite foldl_app. cbn [foldl].
  destruct (foldl _ _ cs) as [w|]; [|done]. cbn [mbind outcome_bind].
  by destruct (exec _ _ _ w).
Qed.

Definition toy_paid : list (Msg * Call) := toy_opening ++ [(by_recipient 20, toy_withdraw 200 100)].

Lemma vault_solvent_witness :
  (∀ t, liabilities t (vault (after toy_paid)) ≤ balances (after toy_paid) t 170) ∧
  liabilities 5 (vault (after toy_paid)) = 300 ∧ balances (after toy_paid) 5 170 = 300.
Proof.
  split.
  - apply (vault_solvent toy_net toy_world toy_paid).
    + exact toy_fresh.
    + apply toy_run; vm_compute; reflexivity.
  - split; vm_compute; reflexivity.
Defined.

Lemma withdraw_pays_witness :
  balances (after toy_paid) 5 226 = 200 ∧
  events (after toy_paid) = events (after toy_opening) ++ [Withdrawn 1 226 200].
Proof.
  assert (vrun toy_net toy_world toy_opening (after toy_opening)) as Hr
    by (apply toy_run; vm_compute; reflexivity).
  assert (uint_range 256 200) as Hu by lia.
  pose proof (run_snoc toy_opening (by_recipient 20, toy_withdraw 200 100)) as E.
  destruct (proj1 (withdraw_pays toy_net toy_world toy_opening (after toy_opening) (by_recipient 20) 1 200 100
    (toy_signature WITHDRAW_TAG_word 1 toy_commitment 200 100) (after toy_paid) toy_fresh Hr Hu)
    (E ltac:(vm_compute; reflexivity))) as (_ & _ & _ & _ & _ & _ & Hb & _ & He).
  split; [exact (f_equal (λ b, b 5 226) Hb)|exact He].
Defined.


(** The replay of a withdrawal that was paid in full, by the recipient, within
    the deadline. *)
Lemma replay_pays_nothing_witness :
  throws (exec toy_net (by_recipient 30) (toy_withdraw 200 100) (after toy_paid)).
Proof.
  apply (replay_pays_nothing toy_net toy_world toy_opening (after toy_opening) (by_recipient 20) 1 200 100
    (toy_signature WITHDRAW_TAG_word 1 toy_commitment 200 100) (after toy_paid) [] (after toy_paid)).
  - exact toy_fresh.
  - apply toy_run; vm_compute; reflexivity.
  - lia.
  - apply (run_snoc toy_opening (by_recipient 20, toy_withdraw 200 100)). vm_compute. reflexivity.
  - vm_compute. discriminate.
  - constructor.
  - lia.
Defined.

(** The hypothesis that it was paid in full is needed: a withdrawal that was cut
    at the funding pays again, with the same authorization, after a top-up. *)
Example replay_pays_after_top_up :
  let first := toy_opening ++ [(by_recipient 20, toy_withdraw 800 100)] in
  let topped_up := first ++ [(by_employer 21, CFund 1 200)] in
  let replayed := topped_up ++ [(by_recipient 22, toy_withdraw 800 100)] in
  balances (after first) 5 226 = 500 ∧ balances (after replayed) 5 226 = 700 ∧
  is_ret (run toy_net replayed toy_world) = true.
Proof. vm_compute. done. Qed.

Definition toy_settled : list (Msg * Call) := toy_paid ++ [(by_employer 40, toy_cancel 350 100)].

Lemma cancel_settles_witness :
  balances (after toy_settled) 5 226 = 350 ∧ balances (after toy_settled) 5 225 = 650 ∧
  throws (fund toy_net (by_employer 50) 1 1 (after toy_settled)).
Proof.
  assert (vrun toy_net toy_world toy_paid (after toy_paid)) as Hr
    by (apply toy_run; vm_compute; reflexivity).
  pose proof (run_snoc toy_paid (by_employer 40, toy_cancel 350 100)) as E.
  pose proof (by_employer_ok 40) as Hm.
  assert (uint_range 256 350) as Hu by (clear; lia).
  destruct (cancel_settles toy_net toy_world toy_paid (after toy_paid) (by_employer 40) 1 350 100
    (toy_signature SETTLE_TAG_word 1 toy_commitment 350 100) (after toy_settled) toy_fresh Hr Hm Hu
    (E ltac:(vm_compute; reflexivity))) as (_ & _ & _ & (b & _ & _) & Hfin).
  split; [vm_compute; reflexivity|]. split; [vm_compute; reflexivity|].
  destruct (Hfin [] (after toy_settled) ltac:(constructor)) as (_ & Hf & _). apply Hf. lia.
Defined.

Lemma stream_changes_authorized_witness :
  ∃ tag acc dl sig, s_withdrawn (stream_at (vault (after toy_paid)) 1) ≤ Z.max 0 acc ∧ 20 ≤ dl ∧
    signed_by_tee toy_net (vault (after toy_opening)) tag 1 toy_commitment acc dl sig.
Proof.
  assert (vrun toy_net toy_world toy_opening (after toy_opening)) as Hr
    by (apply toy_run; vm_compute; reflexivity).
  pose proof (run_snoc toy_opening (by_recipient 20, toy_withdraw 200 100)) as E.
  pose proof (by_recipient_ok 20) as Hm.
  assert (call_ok (toy_withdraw 200 100)) as Hu by (clear; cbn; lia).
  destruct (stream_changes_authorized toy_net toy_world toy_opening (after toy_opening) (by_recipient 20)
    (toy_withdraw 200 100) (after toy_paid) 1 toy_fresh Hr Hm Hu (E ltac:(vm_compute; reflexivity))
    ltac:(vm_compute; discriminate)) as (_ & _ & _ & _ & _ & Hch & _).
  destruct Hch as (tag & acc & dl & sig & H1 & H2 & H3 & _).
  - left. vm_compute. discriminate.
  - exists tag, acc, dl, sig. split; [exact H1|]. split; [exact H2|exact H3].
Defined.

Lemma log_authentic_witness :
  let w := after (toy_opening ++ [(by_recipient 30, CRevealTerms 1 toy_terms)]) in
  be_value (keccak toy_terms) = s_commitment (stream_at (vault w) 1).
Proof.
  apply (log_authentic toy_net toy_world
    (toy_opening ++ [(by_recipient 30, CRevealTerms 1 toy_terms)]) _ (TermsRevealed 1 toy_terms) toy_fresh).
  - apply toy_run; vm_compute; reflexivity.
  - apply last_Some_elem_of. vm_compute. reflexivity.
Defined.
