(* ===== verification/EndToEnd.v ===== *)
(** * From the enclave to the vault

    The signatures of [authorize] (StreamHandlers.v) against the checks of the
    vault (Vault.v): what the enclave grants the vault pays, and what the vault
    pays the enclave granted. *)

From S2P Require Import Prelude JsString JsNumber Utf8 Json JsonFacts Encoding Wire Framework Abi Instances Protocol StreamHandlers StreamProps Vault VaultFacts VaultProps.

Section facts.
Context `{JsEngine, EvmLaws, Viem, !ViemLaws, Ecies, !EciesLaws, Erc20, !Erc20Laws}.

(** The word of a hash. *)
Lemma hash_word p : bytesToHex (word (be_value (keccak p))) = bytesToHex (keccak p).
Proof. unfold word. rewrite <- (keccak_length p). by rewrite be_bytes_be_value by apply keccak_bytes. Qed.

Lemma hash_value_inj p q : be_value (keccak p) = be_value (keccak q) → keccak p = keccak q.
Proof.
  intros E. apply bytesToHex_inj; [apply keccak_bytes..|]. by rewrite <- (hash_word p), E, hash_word.
Qed.

(** The tags of the enclave and of the contract are the same words. *)
Lemma withdraw_tag_word : hex_value WITHDRAW_TAG = WITHDRAW_TAG_word.
Proof.
  unfold WITHDRAW_TAG, hex_value. rewrite tag_hash by done. by rewrite hex_bytes_hex by apply keccak_bytes.
Qed.

Lemma settle_tag_word : hex_value SETTLE_TAG = SETTLE_TAG_word.
Proof.
  unfold SETTLE_TAG, hex_value. rewrite tag_hash by done. by rewrite hex_bytes_hex by apply keccak_bytes.
Qed.

(** The words that a vault hashes for an authorization. *)
Definition vault_words (net : Net) (tag id commitment accrued deadline : Z) : list Z :=
  [tag; chainid net; this net; id; commitment; accrued; deadline].

(** A signature of the enclave's account passes the vault's check. *)
Lemma signature_accepted net v tee tag id cm acc dl sg :
  teeSigner v = hex_value (account_address tee) → teeSigner v ≠ 0 →
  signed_by tee (vault_words net tag id cm acc dl) sg →
  signed_by_tee net v tag id cm acc dl sg.
Proof.
  intros Ht Hz (_ & Hl & Hv & Hr). unfold signed_by_tee, recoverEthSigned. rewrite Hl.
  assert (be_value (drop 64 sg) <? 27 = false) as ->.
  { apply Z.ltb_ge. rewrite !elem_of_cons in Hv. destruct Hv as [->|[->|Hv]]; [lia|lia|].
    by apply not_elem_of_nil in Hv. }
  unfold recover_sig, vault_words in Hr. unfold authorization_digest. rewrite Hr, <- Ht.
  by apply Z.eqb_neq in Hz as ->.
Qed.

(** And what passes was recovered from the digest. *)
Lemma accepted_recovers net v tag id cm acc dl sg :
  signed_by_tee net v tag id cm acc dl sg →
  length sg = 65%nat ∧
  ∃ vb, ecrecover (eth_signed (keccak (abi_encode (vault_words net tag id cm acc dl)))) vb
    (take 32 sg) (take 32 (drop 32 sg)) = teeSigner v.
Proof.
  unfold signed_by_tee, recoverEthSigned. intros E. inv_require.
  split; [by apply Nat.eqb_eq|]. by eexists.
Qed.

(** The seven words that [authorize] signs in a call of the log that it granted. *)
Definition signed_words (log : list (Env * jsstr * json)) (vs : list Z) : Prop :=
  ∃ env tag msg, (env, tag, msg) ∈ log ∧ op_tag tag ∧ env_ok env ∧
  ∃ req p terms resp ch st, decode_request msg = Ret (inr req) ∧
    granted env tag req p terms resp ∧
    BigInt (chainId req) = Ret ch ∧ BigInt (streamId req) = Ret st ∧
    vs = [hex_value tag; ch; hex_value (StreamHandlers.vault req); st; be_value (keccak p);
      accruedAt terms (now_sec env); now_sec env + 600].

(** What the enclave signed in a call of [authorize] that granted the request. *)
Definition enclave_signed (log : list (Env * jsstr * json)) (d : bytes) : Prop :=
  ∃ env tag msg, (env, tag, msg) ∈ log ∧ op_tag tag ∧ env_ok env ∧
  ∃ req p terms resp ch st, decode_request msg = Ret (inr req) ∧
    granted env tag req p terms resp ∧
    BigInt (chainId req) = Ret ch ∧ BigInt (streamId req) = Ret st ∧
    buildAuthDigest {| ap_tag := tag; ap_chainId := ch; ap_vault := StreamHandlers.vault req; ap_streamId := st;
      ap_commitment := commitment req; ap_cumulativeAccrued := accruedAt terms (now_sec env);
      ap_deadline := now_sec env + AUTH_TTL_SECONDS |} = Ret (bytesToHex d).

(** A call of [authorize] in the log that opened the bytes [p], which decode to
    [terms], and granted the request to one of their parties. *)
Record granted_to_party (log : list (Env * jsstr * json)) (tag : jsstr) (p : bytes)
    (terms : StreamTerms) (now : Z) : Prop := {
  gp_terms : decodeTerms (bytesToHex p) = Ret terms;
  gp_call : ∃ env msg req raw caller resp, (env, tag, msg) ∈ log ∧ now = now_sec env ∧
    decode_request msg = Ret (inr req) ∧ granted env tag req p terms resp ∧
    recoverMessageAddress raw (callerSignature req) = Ret caller ∧
    (hex_value caller = hex_value (employer terms) ∨
     (tag ≠ SETTLE_TAG ∧ hex_value caller = hex_value (recipient terms)));
}.

(** A granted call signs the seven words of a party's grant. *)
Lemma signed_words_granted log vs : signed_words log vs →
  Forall (λ z, uint_range 256 z) vs ∧
  ∃ tag p terms now, op_tag tag ∧ granted_to_party log tag p terms now ∧
    ∃ ch v st, vs = [hex_value tag; ch; v; st; be_value (keccak p); accruedAt terms now; now + 600].
Proof.
  intros (env & tag & msg & Hin & Htag & Henv & req & p & terms & resp & ch & st & Hreq & Hg & Hch & Hst & ->).
  pose proof Hg as [(k & c & _ & _ & Hp%decrypt_bytes) Hh Hdt
    (ks & a & ch' & st' & iss & raw & caller & d & s & _ & _ & Hch' & Hst' & Hiss & _ & Hraw & Hrec & Hin' & _)].
  rewrite Hch in Hch'. injection Hch' as <-. rewrite Hst in Hst'. injection Hst' as <-.
  apply challenge_returned in Hraw as (R1 & R2 & R3 & _). cbn in R1, R2, R3.
  pose proof (decodeTerms_typed _ _ Hdt) as (He & Hr & T1 & T2 & _).
  split.
  - pose proof (be_value_range _ (keccak_bytes p)) as Hkr. rewrite keccak_length in Hkr.
    pose proof (accruedAt_range terms (now_sec env) T1 T2).
    pose proof (env_deadline env Henv) as Hdl. change (now_sec env + AUTH_TTL_SECONDS) with (now_sec env + 600) in Hdl.
    apply isAddress_shape in R2. pose proof (proj1 (hex_value_address_hex _ R2)).
    destruct (op_tag_hash tag Htag) as (tb & -> & Htb & Htl).
    pose proof (be_value_range _ Htb) as Htr. rewrite Htl in Htr. rewrite hex_value_hex by done.
    repeat apply List.Forall_cons; try apply List.Forall_nil; lia.
  - exists tag, p, terms, (now_sec env). split; [done|]. split; [|by do 3 eexists].
    split; [done|]. exists env, msg, req, raw, caller, resp. do 5 (split; [done|]).
    apply permitted_address; try done. eapply isAddress_shape, recover_address, Hrec.
Qed.

(** The digest that the enclave signs is the hash of these words. *)
Lemma enclave_signed_digest log d : is_bytes d → enclave_signed log d →
  ∃ vs, signed_words log vs ∧ d = keccak (abi_encode vs).
Proof.
  intros Hb (env & tag & msg & Hin & Htag & Henv & req & p & terms & resp & ch & st & Hreq & Hg & Hch & Hst & Hd).
  eexists. split.
  { exists env, tag, msg. do 3 (split; [done|]). exists req, p, terms, resp, ch, st. do 4 (split; [done|]). reflexivity. }
  destruct Hg as [(k & c & _ & _ & Hp%decrypt_bytes) Hh Hdt
    (ks & a & ch' & st' & iss & raw & caller & d' & s & _ & _ & Hch' & Hst' & Hiss & _ & Hraw & _)].
  rewrite Hch in Hch'. injection Hch' as <-. rewrite Hst in Hst'. injection Hst' as <-.
  apply commitment_hash in Hh; [|done].
  apply challenge_returned in Hraw as (R1 & R2 & R3 & _). cbn in R1, R2, R3.
  pose proof (decodeTerms_typed _ _ Hdt) as (He & Hr & T1 & T2 & _).
  rewrite (auth_digest_returns _ (keccak p)) in Hd;
    [|done|apply keccak_bytes|apply keccak_length|done|done|done|done|by apply accruedAt_range
     |by apply env_deadline].
  cbn [ap_tag ap_chainId ap_vault ap_streamId ap_cumulativeAccrued ap_deadline] in Hd.
  change (now_sec env + AUTH_TTL_SECONDS) with (now_sec env + 600) in Hd.
  apply bytesToHex_inj; [done|apply keccak_bytes|congruence].
Qed.

(** The words of a digest that the enclave signed, when it equals the vault's and
    the vault's encoding clashes with none that was signed. *)
Lemma enclave_signed_words log ws : enclave_signed log (keccak (abi_encode ws)) →
  Forall (λ z, uint_range 256 z) ws →
  (∀ vs, signed_words log vs → no_clash (abi_encode vs) (abi_encode ws)) →
  ∃ tag p terms now, op_tag tag ∧ granted_to_party log tag p terms now ∧
    ∃ ch v st, ws = [hex_value tag; ch; v; st; be_value (keccak p); accruedAt terms now; now + 600].
Proof.
  intros (vs & Hvs & Hk)%enclave_signed_digest Hws Hnc; [|apply keccak_bytes].
  destruct (signed_words_granted log vs Hvs) as [Hr Hg].
  pose proof (Hnc vs Hvs (eq_sym Hk)) as Heq%abi_encode_inj; [by subst|done|done].
Qed.

(** What an honest request, the only one of a log, was granted with. *)
Lemma honest_opened env tag msg req t tee ch st req' p tm resp : honest env tag msg req t tee ch st →
  decode_request msg = Ret (inr req') → granted env tag req' p tm resp →
  req' = req ∧ p = abi_encode (terms_words t) ∧ tm = canonical t.
Proof.
  intros [_ _ Ht (ke & ks & rnd & c & Eke & _ & _ & Henc & Hcipher) Hreq _ _ _ _ _] Hreq' [(k & c' & Ek & Ec & Hp) _ Hd _].
  assert (req' = req) as -> by congruence.
  pose proof (encrypt_bytes _ _ _ _ Henc) as Hcb. apply decrypt_encrypt in Henc.
  assert (k = ke) as -> by congruence.
  rewrite Hcipher in Ec. cbn [hexToBytes] in Ec. rewrite hexToBytes_bytesToHex_str in Ec by done.
  assert (c' = c) as -> by congruence.
  assert (p = abi_encode (terms_words t)) as -> by congruence.
  rewrite decode_terms_words in Hd by done. split; [done|]. split; [done|congruence].
Qed.

Lemma honest_words env tag msg req t tee ch st vs : honest env tag msg req t tee ch st →
  signed_words [(env, tag, msg)] vs →
  vs = [hex_value tag; ch; hex_value (StreamHandlers.vault req); st;
    be_value (keccak (abi_encode (terms_words t))); accruedAt t (now_sec env); now_sec env + 600].
Proof.
  intros Hh (env' & tag' & msg' & Hin & _ & _ & req' & p & tm & resp & ch' & st' & Hreq & Hg & Hch & Hst & ->).
  apply list_elem_of_singleton in Hin. rewrite !pair_eq in Hin. destruct Hin as [[-> ->] ->].
  destruct (honest_opened _ _ _ _ _ _ _ _ _ _ _ _ Hh Hreq Hg) as (-> & -> & ->).
  pose proof (proj1 (h_chain _ _ _ _ _ _ _ _ Hh)). pose proof (proj1 (h_stream _ _ _ _ _ _ _ _ Hh)).
  assert (ch' = ch) as -> by congruence. assert (st' = st) as -> by congruence. by rewrite accruedAt_canonical.
Qed.

Lemma honest_bytes env tag msg req t tee ch st tag' q tm now : honest env tag msg req t tee ch st →
  granted_to_party [(env, tag, msg)] tag' q tm now → q = abi_encode (terms_words t).
Proof.
  intros Hh [_ (env' & msg' & req' & raw & caller & resp & Hin & _ & Hreq & Hg & _)].
  apply list_elem_of_singleton in Hin. rewrite !pair_eq in Hin. destruct Hin as [[-> ->] ->].
  by destruct (honest_opened _ _ _ _ _ _ _ _ _ _ _ _ Hh Hreq Hg) as (_ & -> & _).
Qed.

(** The digest of an honest request that was granted. *)
Lemma honest_signed env tag msg req t tee ch st : honest env tag msg req t tee ch st →
  enclave_signed [(env, tag, msg)] (keccak (abi_encode [hex_value tag; ch; hex_value (StreamHandlers.vault req); st;
    be_value (keccak (abi_encode (terms_words t))); accruedAt t (now_sec env); now_sec env + 600])).
Proof.
  intros Hh. destruct (honest_granted _ _ _ _ _ _ _ _ Hh) as (sg & Hsteps & _).
  apply authorize_steps_inr in Hsteps as (req' & p & tm & Hreq & Hg).
  destruct Hh as [Htag Henv Ht _ Hreq' Hcom [Hch Rch] [Hst Rst] Hv _].
  assert (req' = req) as -> by congruence.
  pose proof (abi_encode_bytes (terms_words t)) as Hb.
  assert (p = abi_encode (terms_words t)) as Ep.
  { destruct Hg as [(k & c & _ & _ & Hp%decrypt_bytes) _ _
      (? & ? & ? & ? & ? & ? & ? & ? & ? & _ & _ & _ & _ & _ & _ & _ & _ & _ & _ & _ & E)].
    unfold authorization in E. apply bytesToHex_inj; [done|done|congruence]. }
  pose proof (g_terms _ _ _ _ _ _ Hg) as Hd. rewrite Ep, decode_terms_words in Hd by done.
  injection Hd as <-. exists env, tag, msg. split; [by left|]. split; [done|]. split; [done|].
  exists req, p, (canonical t), (authorization req t (now_sec env) sg), ch, st. split; [done|]. split; [exact Hg|]. do 2 (split; [done|]).
  unfold commitTo in Hcom. rewrite terms_abi_words in Hcom by done. cbn [mbind outcome_bind] in Hcom.
  apply commitment_hash in Hcom; [|done].
  destruct (canonical_ok t Ht) as [(_ & _ & _ & T1 & T2 & _) _].
  pose proof (accruedAt_range (canonical t) (now_sec env) T1 T2).
  by rewrite (auth_digest_returns _ (keccak (abi_encode (terms_words t))));
    [|done|apply keccak_bytes|apply keccak_length|done|done|done|done|done|apply env_deadline].
Qed.
(** What a payout that succeeded was checked against. *)
Lemma payout_signed net w0 cs w m tagw c w' id acc dl sig :
  fresh net w0 → vrun net w0 cs w → call_ok c →
  (tagw, c) ∈ [(WITHDRAW_TAG_word, CWithdraw id acc dl sig); (SETTLE_TAG_word, CCancelStream id acc dl sig)] →
  exec net m c w = Ret w' →
  let s := stream_at (vault w) id in
  signed_by_tee net (vault w) tagw id (s_commitment s) acc dl sig ∧ timestamp m ≤ dl ∧
  s_withdrawn (stream_at (vault w') id) ≤ Z.max (s_withdrawn s) acc.
Proof.
  intros H0' Hr Hc Hin E s.
  pose proof (fresh_run_ok net w0 cs w H0' Hr) as [Hv _].
  pose proof (stream_at_ok net _ id Hv) as [Hs1 Hs2].
  rewrite !elem_of_cons in Hin. destruct Hin as [[= -> ->]|[[= -> ->]|Hin]];
    [| |by apply not_elem_of_nil in Hin]; cbn [exec call_ok] in *.
  - apply withdraw_Ret in E; [|done|done|lia]. cbn zeta in E. fold s in E.
    destruct E as (_ & _ & _ & Hd & Hsg & _ & b & _ & ->). split; [done|]. split; [done|].
    cbn [vault]. rewrite stream_at_set, decide_True by done. cbn. lia.
  - apply cancelStream_Ret in E; [|done|done|lia]. cbn zeta in E. fold s in E.
    destruct E as (_ & _ & _ & Hd & Hsg & b1 & b2 & _ & _ & ->). split; [done|]. split; [done|].
    cbn [vault]. rewrite stream_at_set, decide_True by done. cbn. lia.
Qed.
End facts.

(** ** Properties *)

(** C2: payday: what the enclave grants the vault pays.  When an honest party's
    request for a withdrawal is granted, and the vault of the request's chain and
    address, in any reachable state, holds the open stream with these terms'
    commitment and the enclave's account as its signer, then anyone who submits the
    signed authorization within 600 seconds moves min(accrued, funded) minus what
    was withdrawn to the recipient, provided that is positive and the token pays. *)
Theorem payday `{JsEngine, EvmLaws, Viem, !ViemLaws, Ecies, !EciesLaws, Erc20, !Erc20Laws}
    env msg n req t tee ch st net w0 cs w m b :
  honest env WITHDRAW_TAG msg req t tee ch st →
  net = {| this := hex_value (StreamHandlers.vault req); chainid := ch |} →
  fresh net w0 → vrun net w0 cs w →
  teeSigner (vault w) = hex_value (account_address tee) → teeSigner (vault w) ≠ 0 →
  let s := stream_at (vault w) st in
  let payout := Z.min (accruedAt t (now_sec env)) (s_funded s) - s_withdrawn s in
  s_employer s ≠ 0 → s_cancelled s = false →
  s_commitment s = be_value (keccak (abi_encode (terms_words t))) →
  timestamp m ≤ now_sec env + 600 → 0 < payout →
  token_transfer (s_token s) (this net) (s_recipient s) payout (balances w) = Some b →
  ∃ sg, authorize env WITHDRAW_TAG msg n =
      (Ret (Some (json_to_hex (authorization req t (now_sec env) sg)), 1, None), num_incr n) ∧
    withdraw net m st (accruedAt t (now_sec env)) (now_sec env + 600) sg w = Ret
      {| vault := set_stream (vault w) st (set_withdrawn s (s_withdrawn s + payout) false);
         balances := b; events := events w ++ [Withdrawn st (s_recipient s) payout] |}.
Proof.
  intros Hh Hnet H0' Hr Htee Hz s payout He Hc Hcm Hts Hpos Hb.
  destruct (honest_granted _ _ _ _ _ _ _ _ Hh) as (sg & Hsteps & Hsg).
  exists sg. split; [unfold authorize, json_to_hex; by rewrite Hsteps|].
  pose proof (fresh_run_ok net w0 cs w H0' Hr) as [Hv _].
  pose proof (stream_at_ok net _ st Hv) as [Hs1 Hs2]. fold s in Hs1, Hs2.
  destruct (canonical_ok t (h_terms _ _ _ _ _ _ _ _ Hh)) as [(_ & _ & _ & T1 & T2 & _) _].
  pose proof (accruedAt_range (canonical t) (now_sec env) T1 T2) as Hacc.
  change (accruedAt (canonical t) (now_sec env)) with (accruedAt t (now_sec env)) in Hacc.
  apply withdraw_Ret; [done|exact Hs2|fold s; lia|]. cbn zeta. fold s.
  split; [apply Hv|]. do 3 (split; [done|]). split.
  { apply signature_accepted with tee; [done|done|]. rewrite Hcm. unfold vault_words.
    rewrite Hnet. cbn [this chainid]. rewrite <- withdraw_tag_word. exact Hsg. }
  unfold payout in *. split; [lia|]. exists b. split; [done|]. do 3 f_equal. lia.
Qed.

(** C4: no payout without the enclave's consent: when a withdrawal or a
    cancellation succeeds in any reachable state, the enclave granted, to a party of
    the stream named in terms that hash to the on-chain commitment, exactly the
    accrual of these terms at a moment at most 600 seconds earlier, and what the
    stream has paid is at most that accrual or what it had paid before.  Assumed of
    the hash: the seven words that the vault checks encode to the same hash as the
    words of a granted call only when they are the same; and of the enclave's key:
    it signed this digest only in [authorize]. *)
Theorem payouts_backed `{JsEngine, EvmLaws, Viem, !ViemLaws, Ecies, !EciesLaws, Erc20, !Erc20Laws}
    log net w0 cs w m tagw c w' id acc dl sig :
  fresh net w0 → vrun net w0 cs w → msg_ok net m → call_ok c →
  (tagw, c) ∈ [(WITHDRAW_TAG_word, CWithdraw id acc dl sig); (SETTLE_TAG_word, CCancelStream id acc dl sig)] →
  exec net m c w = Ret w' →
  let s := stream_at (vault w) id in
  let ws := vault_words net tagw id (s_commitment s) acc dl in
  Forall (λ z, uint_range 256 z) ws →
  (signed_by_tee net (vault w) tagw id (s_commitment s) acc dl sig → enclave_signed log (keccak (abi_encode ws))) →
  (∀ vs, signed_words log vs → no_clash (abi_encode vs) (abi_encode ws)) →
  ∃ tag p terms now, hex_value tag = tagw ∧ op_tag tag ∧ granted_to_party log tag p terms now ∧
    be_value (keccak p) = s_commitment s ∧ acc = accruedAt terms now ∧ timestamp m ≤ now + 600 ∧
    s_withdrawn (stream_at (vault w') id) ≤ Z.max (s_withdrawn s) (accruedAt terms now).
Proof.
  intros H0' Hr Hm Hc Hin E s ws Hws Hgen Hnc.
  destruct (payout_signed net w0 cs w m tagw c w' id acc dl sig H0' Hr Hc Hin E) as (Hsig & Hts & Hpaid). fold s in Hsig, Hpaid.
  destruct (enclave_signed_words log ws (Hgen Hsig) Hws Hnc) as (tag & p & terms & now & Htag & Hgp & ch & v & st & E').
  unfold ws, vault_words in E'. injection E' as -> _ _ _ Hcm -> ->. exists tag, p, terms, now. done.
Qed.

(** ** A concrete payday

    The vault of VaultProps.v with a stream for the terms of StreamProps.v. *)

#[local] Existing Instance plain_engine.

Definition demo_opening : list (Msg * Call) :=
  [(by_employer 1000, CCreateStream 226 5 (be_value (keccak demo_plain)) 1000 []); (by_employer 1001, CFund 1 500)].

Lemma toy_transfer t from to n b : (0 <=? n) && (n <=? b t from) = true →
  token_transfer t from to n b = Some (move t from to n b).
Proof. cbn. by intros ->. Qed.

Lemma demo_run : vrun toy_net toy_world demo_opening (after demo_opening).
Proof. apply toy_run; vm_compute; reflexivity. Qed.

(** The recipient's request of StreamProps.v; 500 of the 57870 accrued are funded. *)
Lemma payday_witness :
  ∃ sg w', authorize demo_env WITHDRAW_TAG (demo_msg 226 WITHDRAW_TAG) 3 =
      (Ret (Some (json_to_hex (authorization (demo_request 226 WITHDRAW_TAG) demo_terms 1500 sg)), 1, None), 4) ∧
    withdraw toy_net (by_recipient 1600) 1 57870 2100 sg (after demo_opening) = Ret w' ∧
    events w' = events (after demo_opening) ++ [Withdrawn 1 226 500].
Proof.
  destruct (payday demo_env (demo_msg 226 WITHDRAW_TAG) 3 (demo_request 226 WITHDRAW_TAG) demo_terms
    (demo_account 238) 114 1 toy_net toy_world demo_opening (after demo_opening) (by_recipient 1600)
    (move 5 170 226 500 (balances (after demo_opening))) demo_honest ltac:(vm_compute; reflexivity)
    toy_fresh demo_run) as (sg & H1 & H2).
  - vm_compute. reflexivity.
  - vm_compute. discriminate.
  - vm_compute. discriminate.
  - vm_compute. reflexivity.
  - vm_compute. reflexivity.
  - vm_compute. discriminate.
  - vm_compute. reflexivity.
  - apply (toy_transfer 5 170 226 500). vm_compute. reflexivity.
  - exists sg. eexists. split; [exact H1|]. split; [exact H2|]. vm_compute. reflexivity.
Defined.

Lemma words_check ws : forallb (λ z, (0 <=? z) && (z <? 2 ^ 256)) ws = true →
  Forall (λ z, uint_range 256 z) ws.
Proof.
  rewrite forallb_Forall. intros Hs. eapply Forall_impl; [exact Hs|].
  intros z [? ?]%andb_prop. cbn in *. lia.
Qed.

Definition demo_signature : bytes :=
  toy_signature WITHDRAW_TAG_word 1 (be_value (keccak demo_plain)) 57870 2100.
Definition demo_withdraw : Msg * Call := (by_recipient 1600, CWithdraw 1 57870 2100 demo_signature).

Lemma demo_paid : is_ret (run toy_net (demo_opening ++ [demo_withdraw]) toy_world) = true.
Proof. vm_compute. reflexivity. Qed.

(** The words of the withdrawal are those of the grant, so they do not clash. *)
Lemma demo_no_clash vs : signed_words [(demo_env, WITHDRAW_TAG, demo_msg 226 WITHDRAW_TAG)] vs →
  no_clash (abi_encode vs) (abi_encode
    (vault_words toy_net WITHDRAW_TAG_word 1 (s_commitment (stream_at (vault (after demo_opening)) 1)) 57870 2100)).
Proof.
  intros ->%(honest_words _ _ _ _ _ _ _ _ _ demo_honest) _. apply (f_equal abi_encode).
  vm_compute. reflexivity.
Qed.

(** Its withdrawal is backed by the grant. *)
Lemma payouts_backed_witness :
  ∃ tag p terms now, hex_value tag = WITHDRAW_TAG_word ∧ op_tag tag ∧
    granted_to_party [(demo_env, WITHDRAW_TAG, demo_msg 226 WITHDRAW_TAG)] tag p terms now ∧
    be_value (keccak p) = s_commitment (stream_at (vault (after demo_opening)) 1) ∧ 57870 = accruedAt terms now.
Proof.
  pose proof (run_snoc demo_opening demo_withdraw demo_paid) as E.
  pose proof (honest_signed _ _ _ _ _ _ _ _ demo_honest) as Hs.
  destruct (payouts_backed [(demo_env, WITHDRAW_TAG, demo_msg 226 WITHDRAW_TAG)] toy_net toy_world
    demo_opening (after demo_opening) (by_recipient 1600) WITHDRAW_TAG_word
    (CWithdraw 1 57870 2100 demo_signature) (after (demo_opening ++ [demo_withdraw])) 1 57870 2100 demo_signature
    toy_fresh demo_run (by_recipient_ok 1600) ltac:(cbn; lia) ltac:(left) E)
    as (tag & p & terms & now & H1 & H2 & H3 & H4 & H5 & _).
  - apply words_check. vm_compute. reflexivity.
  - intros _. exact Hs.
  - exact demo_no_clash.
  - exists tag, p, terms, now. split; [exact H1|]. split; [exact H2|].
    split; [exact H3|]. split; [exact H4|exact H5].
Defined.
