(* ===== verification/Chain.v ===== *)
(** * Chain reads of the frontend ([frontend/lib/chain.ts])

    The reads behind the pages: the stream's storage, the revealed terms in a
    clamped window of blocks, the token's metadata, and the creation events that
    the explorer indexes.  The RPC endpoint and the explorer are parameters: an
    answer per question, of the type that the code declares for it. *)

From S2P Require Import Prelude JsString JsNumber Utf8 Json JsonFacts Encoding Wire Framework Abi Instances Protocol Vault VaultFacts VaultProps.

(** ** Configuration *)

Record ChainConfig := {
  CHAIN_ID : Z;
  RPC_URL : jsstr;
  EXPLORER : jsstr;
  VAULT_ADDRESS : jsstr;
  DEMO_STREAM_ID : Z;
  DEMO_REVEAL_BLOCK : Z;
}.

(** [env] is [process.env]; the chain id is the value of [Number(...)]. *)
Definition chain_config (env : jsstr → option jsstr) (chain_id : Z) : outcome ChainConfig :=
  demo ← BigInt (default (js "3") (env (js "NEXT_PUBLIC_DEMO_STREAM_ID")));
  reveal ← BigInt (default (js "33546811") (env (js "NEXT_PUBLIC_DEMO_REVEAL_BLOCK")));
  Ret {| CHAIN_ID := chain_id;
    RPC_URL := default (js "https://coston2-api.flare.network/ext/C/rpc") (env (js "NEXT_PUBLIC_RPC_URL"));
    EXPLORER := default (js "https://coston2-explorer.flare.network") (env (js "NEXT_PUBLIC_EXPLORER_URL"));
    VAULT_ADDRESS := default (js "0xd235B90dc929f7B061EAefdE0C8f020B3Cff47D7")
      (env (js "NEXT_PUBLIC_STREAMVAULT_ADDRESS"));
    DEMO_STREAM_ID := demo; DEMO_REVEAL_BLOCK := reveal |}.

(** What an ABI declares, by name. *)
Inductive abi_item : Type :=
| AFunction (name : jsstr)
| AEvent (name : jsstr).

#[export] Instance abi_item_eq_dec : EqDecision abi_item.
Proof. solve_decision. Defined.

Definition VAULT_ABI : list abi_item :=
  [AFunction (js "streams"); AFunction (js "teeSigner"); AEvent (js "TermsRevealed"); AEvent (js "StreamCreated")].
Definition ERC20_ABI : list abi_item :=
  [AFunction (js "decimals"); AFunction (js "symbol"); AFunction (js "balanceOf")].

(** ** Reads over RPC *)

(** A viem public client. *)
Record Rpc := {
  rpc_streams : jsstr → Z → outcome (jsstr * jsstr * jsstr * jsstr * Z * Z * Z * bool);
  rpc_decimals : jsstr → outcome Z;
  rpc_symbol : jsstr → outcome jsstr;
  rpc_block_number : outcome Z;
  (** [getLogs] of TermsRevealed at an address for a stream id from a block to a
      block: the [args.terms] of each log. *)
  rpc_revealed : jsstr → Z → Z → Z → outcome (list (option jsstr));
}.

Record OnChainStream := {
  o_employer : jsstr;
  o_recipient : jsstr;
  o_token : jsstr;
  o_commitment : jsstr;
  o_funded : Z;
  o_withdrawn : Z;
  o_startTime : Z;
  o_cancelled : bool;
}.

Definition readStream (cfg : ChainConfig) (rpc : Rpc) (streamId : Z) : outcome OnChainStream :=
  r ← rpc_streams rpc (VAULT_ADDRESS cfg) streamId;
  let '(r0, r1, r2, r3, r4, r5, r6, r7) := r in
  Ret {| o_employer := r0; o_recipient := r1; o_token := r2; o_commitment := r3;
         o_funded := r4; o_withdrawn := r5; o_startTime := r6; o_cancelled := r7 |}.

(** The blocks queried when the chain's head is [head]. *)
Definition reveal_window (DEMO_REVEAL_BLOCK head : Z) : Z * Z :=
  let span := 10 in
  let anchor := if (DEMO_REVEAL_BLOCK >? 0) && (DEMO_REVEAL_BLOCK <=? head) then DEMO_REVEAL_BLOCK else head in
  let fromBlock := if anchor >? span then anchor - span else 0 in
  let toBlock := if anchor + span >? head then head else anchor + span in
  (fromBlock, toBlock).

Definition readRevealedTerms (cfg : ChainConfig) (rpc : Rpc) (streamId : Z) : outcome (option jsstr) :=
  head ← rpc_block_number rpc;
  let '(fromBlock, toBlock) := reveal_window (DEMO_REVEAL_BLOCK cfg) head in
  logs ← rpc_revealed rpc (VAULT_ADDRESS cfg) streamId fromBlock toBlock;
  Ret (mjoin (last logs)).

(** [Promise.all]: rejected when either read is. *)
Definition readTokenMeta (rpc : Rpc) (token : jsstr) : outcome (Z * jsstr) :=
  decimals ← rpc_decimals rpc token;
  symbol ← rpc_symbol rpc token;
  Ret (decimals, symbol).

(** [`${a.slice(0, n + 2)}…${a.slice(-4)}`]. *)
Definition short (a : jsstr) (n : Z) : jsstr := slice a 0 (n + 2) ++ [0x2026] ++ slice_from a (-4).

(** ** The explorer's index of StreamCreated *)

Definition STREAM_CREATED_TOPIC : jsstr :=
  js "0x53c8067c6ec448936f0de64df8f0359d0a324be1a35dcf3150a229bf13312a28".

Record RawLog := { l_topics : list jsstr; l_data : jsstr; l_blockNumber : jsstr }.

Record CreatedLog := {
  c_streamId : Z;
  c_employer : jsstr;
  c_recipient : jsstr;
  c_encryptedTerms : jsstr;
  c_blockNumber : option jsnum;
}.

(** The non-indexed parameters of StreamCreated. *)
Definition CREATED_PARAMS : list abi_type := [TAddress; TBytes32; TUint 64; TBytes].

(** [log.topics[i]] where a string is needed: [undefined] throws. *)
Definition topic (log : RawLog) (i : nat) : outcome jsstr :=
  match l_topics log !! i with
  | Some t => Ret t
  | None => Throw (TypeError (js "Cannot read properties of undefined"))
  end.

(** The body of the [try]. *)
Definition decode_created `{Viem} (log : RawLog) : outcome CreatedLog :=
  vs ← decodeAbiParameters CREATED_PARAMS (l_data log);
  match vs with
  | [_; _; _; AHex encryptedTerms] =>
      t1 ← topic log 1; id ← BigInt t1;
      t2 ← topic log 2; t3 ← topic log 3;
      Ret {| c_streamId := id;
             c_employer := js "0x" ++ slice_from t2 26;
             c_recipient := js "0x" ++ slice_from t3 26;
             c_encryptedTerms := encryptedTerms;
             c_blockNumber := num_of_Z <$> parse_int_16 (l_blockNumber log) |}
  | _ => Throw (TypeError (js "not the decoded parameters"))
  end.

Definition decodeCreatedLog `{Viem} (log : RawLog) : option CreatedLog :=
  match decode_created log with Ret l => Some l | Throw _ => None end.

(** An explorer answers a URL with a status, and a 2xx with [status] and [result]
    of its body; [None] is a result that is no array. *)
Record ExplorerAnswer := { x_http : Z; x_status : jsstr; x_result : option (list RawLog) }.
Definition Explorer : Type := jsstr → outcome ExplorerAnswer.

Definition created_url (cfg : ChainConfig) (extraParams : jsstr) : jsstr :=
  EXPLORER cfg ++ js "/api" ++ js "?module=logs&action=getLogs&fromBlock=1&toBlock=latest"
  ++ js "&address=" ++ VAULT_ADDRESS cfg ++ js "&topic0=" ++ STREAM_CREATED_TOPIC ++ extraParams.

Definition queryCreatedLogs `{Viem} (cfg : ChainConfig) (fetch : Explorer) (extraParams : jsstr) :
    outcome (list CreatedLog) :=
  res ← fetch (created_url cfg extraParams);
  if negb ((200 <=? x_http res) && (x_http res <=? 299))
  then Throw (PlainError (js "explorer API " ++ bigint_to_string (x_http res)))
  else if negb (str_eqb (x_status res) (js "1")) then Ret []
  else match x_result res with
  | None => Ret []
  | Some logs => Ret (omap decodeCreatedLog logs)
  end.

Definition fetchEncryptedTerms `{Viem} (cfg : ChainConfig) (fetch : Explorer) (streamId : Z) :
    outcome (option jsstr) :=
  logs ← queryCreatedLogs cfg fetch [];
  Ret (c_encryptedTerms <$> head (filter (λ l, c_streamId l = streamId) logs)).

Definition fetchStreamsForRecipient `{JsEngine, Viem} (cfg : ChainConfig) (fetch : Explorer) (who : jsstr) :
    outcome (list CreatedLog) :=
  let padded := js "0x" ++ pad_start (slice_from (to_lower who) 2) 64 48 in
  queryCreatedLogs cfg fetch (js "&topic3=" ++ padded ++ js "&topic0_3_opr=and").

(** ** Lemmas *)

(** An RPC endpoint of a chain at block [head] with these reveals of a stream, in
    the order of the chain, that refuses what the code says Coston2 refuses: more
    than 30 blocks, or blocks past the head. *)
Definition capped_logs (head : Z) (reveals : list (Z * jsstr)) (from to : Z) : outcome (list (option jsstr)) :=
  if (to <=? head) && (to - from <? 30) then
    Ret ((λ r, Some r.2) <$> filter (λ r, from ≤ r.1 ≤ to) reveals)
  else Throw (PlainError (js "requested too many blocks")).

Lemma reveal_window_bounds B head : 0 ≤ head →
  let '(from, to) := reveal_window B head in
  0 ≤ from ≤ to ∧ to ≤ head ∧ to - from ≤ 20 ∧ (0 < B ≤ head → from ≤ B ≤ to).
Proof.
  intros Hh. unfold reveal_window. rewrite !Z.gtb_ltb.
  destruct ((0 <? B) && (B <=? head)) eqn:E; [apply andb_prop in E as [? ?]; reflect_Z|].
  - destruct (Z.ltb_spec 10 B), (Z.ltb_spec head (B + 10)); lia.
  - apply andb_false_iff in E. rewrite Z.ltb_ge, Z.leb_gt in E.
    destruct (Z.ltb_spec 10 head), (Z.ltb_spec head (head + 10)); lia.
Qed.

(** *** Hex words *)

(** The digits of a byte string, read as a number. *)
Lemma hex_digits_value b : is_bytes b → digits_value 16 (hex_digits b) = be_value b.
Proof.
  induction b as [|x b IH] using rev_ind; intros Hb; [done|].
  apply Forall_app in Hb as [Hb [Hx _]%Forall_cons]. rewrite hex_digits_app, be_value_snoc.
  unfold hex_digits at 2. cbn [fmap list_fmap mjoin list_join]. rewrite app_nil_r.
  destruct (byte_digits x Hx) as (h & l & -> & Hh & Hl & ->).
  rewrite digits_value_app, IH by done. unfold digits_value at 1. cbn [fold_left length].
  rewrite !digit_val_char by lia. lia.
Qed.

Lemma hex_digit_radix c : is_hex_digit c = true → is_radix_digit 16 c = true.
Proof.
  intros Hc. unfold is_radix_digit. rewrite Hc. destruct (hex_digit_lower c Hc) as [_ ?].
  by rewrite (proj2 (Z.ltb_lt _ _)) by lia.
Qed.

Lemma hex_digit_not_space c : is_hex_digit c = true → is_js_space c = false.
Proof.
  intros Hc. assert (48 ≤ c < 48 + 55) as Hr by (unfold is_hex_digit, is_digit in Hc; clear -Hc; Zbool).
  assert (forallb (λ c, negb (is_hex_digit c) || negb (is_js_space c)) (seqZ 48 55) = true) as Hall
    by (vm_compute; reflexivity).
  rewrite forallb_Forall, Forall_forall in Hall. specialize (Hall c ltac:(by apply elem_of_seqZ)). cbn beta in Hall.
  rewrite Hc in Hall. by apply negb_true_iff in Hall.
Qed.

Lemma BigInt_hex b : is_bytes b → b ≠ [] → BigInt (bytesToHex b) = Ret (be_value b).
Proof.
  intros Hb Hne. pose proof (hex_digits_facts b Hb) as (Hl & Hc & _).
  rewrite bytesToHex_digits. unfold BigInt. rewrite trim_digits.
  - unfold parse_bigint. change (radix_prefix (48 :: 120 :: hex_digits b)) with (Some 16).
    change (drop 2 (48 :: 120 :: hex_digits b)) with (hex_digits b).
    assert (forallb (is_radix_digit 16) (hex_digits b) = true) as Hr.
    { apply forallb_Forall. eapply Forall_impl; [exact Hc|]. intros c [? _]. by apply hex_digit_radix. }
    unfold nonempty_all. rewrite Hr. destruct (hex_digits b) as [|c d] eqn:E.
    + destruct b; [done|]. cbn in Hl. lia.
    + by rewrite <- E, hex_digits_value.
  - repeat constructor. eapply Forall_impl; [exact Hc|]. intros c [? _]. by apply hex_digit_not_space.
Qed.

Lemma word_not_nil z : word z ≠ [].
Proof. intros E%(f_equal length). by rewrite word_length in E. Qed.

(** A topic that carries an address. *)
Lemma topic_address a : js "0x" ++ slice_from (bytesToHex (word a)) 26 = address_hex a.
Proof.
  unfold address_hex. rewrite !bytesToHex_digits, slice_from_drop by lia.
  change (js "0x") with [48; 120]. cbn [app]. do 2 f_equal. change (Z.to_nat 26) with 26%nat.
  cbn [drop]. rewrite <- (take_drop 12 (word a)), hex_digits_app, word_address.
  apply drop_app_length'.
  pose proof (hex_digits_facts (take 12 (word a)) ltac:(apply Forall_take, word_bytes)) as (-> & _).
  by rewrite length_take, word_length.
Qed.

(** *** A chain and its index

    An RPC endpoint and an explorer that serve a state of the vault: [blocks] are
    the events with the blocks they are in. *)

Definition event_typed (e : Event) : Prop :=
  match e with
  | StreamCreated _ emp rec _ _ _ et => uint_range 160 emp ∧ uint_range 160 rec ∧ is_bytes et
  | TermsRevealed _ ts => is_bytes ts
  | _ => True
  end.

(** The reveals of a stream, by block. *)
Definition reveal_of (id : Z) (be : Z * Event) : option (Z * jsstr) :=
  match be.2 with
  | TermsRevealed i ts => if decide (i = id) then Some (be.1, bytesToHex ts) else None
  | _ => None
  end.

Record serves `{Viem} (cfg : ChainConfig) (w : World) (head : Z) (blocks : list (Z * Event)) (rpc : Rpc) : Prop := {
  sv_events : blocks.*2 = events w;
  sv_typed : Forall event_typed (events w);
  sv_head : rpc_block_number rpc = Ret head;
  sv_head_range : 0 ≤ head;
  sv_streams id : rpc_streams rpc (VAULT_ADDRESS cfg) id =
    let s := stream_at (vault w) id in
    Ret (checksumAddress (address_hex (s_employer s)), checksumAddress (address_hex (s_recipient s)),
         checksumAddress (address_hex (s_token s)), bytesToHex (word (s_commitment s)),
         s_funded s, s_withdrawn s, s_startTime s, s_cancelled s);
  sv_revealed id from to : rpc_revealed rpc (VAULT_ADDRESS cfg) id from to =
    capped_logs head (omap (reveal_of id) blocks) from to;
}.

(** What an explorer stores of a StreamCreated event: its topics, and data that
    decodes to the other arguments. *)
Definition encodes `{Viem} (log : RawLog) (e : Event) : Prop :=
  match e with
  | StreamCreated id emp rec tok com st et =>
      l_topics log = [STREAM_CREATED_TOPIC; bytesToHex (word id); bytesToHex (word emp); bytesToHex (word rec)] ∧
      decodeAbiParameters CREATED_PARAMS (l_data log) =
        Ret [AAddr (checksumAddress (address_hex tok)); AHex (bytesToHex (word com)); AInt st; AHex (bytesToHex et)]
  | _ => False
  end.

Definition is_created (e : Event) : Prop := created_id e ≠ None.
#[export] Instance is_created_dec e : Decision (is_created e).
Proof. unfold is_created. apply _. Defined.

Definition recipient_topic (e : Event) : option jsstr :=
  match e with StreamCreated _ _ rec _ _ _ _ => Some (bytesToHex (word rec)) | _ => None end.

(** An answer that lists these events; none is reported with another status. *)
Definition lists `{Viem} (ans : outcome ExplorerAnswer) (es : list Event) : Prop :=
  ∃ r, ans = Ret r ∧ 200 ≤ x_http r ≤ 299 ∧
    ((x_status r = js "1" ∧ ∃ logs, x_result r = Some logs ∧ Forall2 encodes logs es) ∨
     (x_status r ≠ js "1" ∧ es = [])).

Record indexes `{Viem} (cfg : ChainConfig) (w : World) (fetch : Explorer) : Prop := {
  ix_typed : Forall event_typed (events w);
  ix_all : lists (fetch (created_url cfg [])) (filter is_created (events w));
  ix_topic3 t : lists (fetch (created_url cfg (js "&topic3=" ++ t ++ js "&topic0_3_opr=and")))
    (filter (λ e, recipient_topic e = Some t) (events w));
}.

(** What a decoded log says of its event. *)
Definition describes (l : CreatedLog) (e : Event) : Prop :=
  match e with
  | StreamCreated id emp rec _ _ _ et =>
      c_streamId l = id ∧ c_employer l = address_hex emp ∧ c_recipient l = address_hex rec ∧
      c_encryptedTerms l = bytesToHex et
  | _ => False
  end.

Lemma decode_encoded `{Viem} log e : encodes log e →
  (∀ id, created_id e = Some id → uint_range 256 id) →
  ∃ l, decodeCreatedLog log = Some l ∧ describes l e.
Proof.
  destruct e as [id emp rec tok com st et| | | | |]; try done. intros [Ht Hd] Hid.
  specialize (Hid id eq_refl). unfold decodeCreatedLog, decode_created. rewrite Hd.
  assert (topic log 1 = Ret (bytesToHex (word id)) ∧ topic log 2 = Ret (bytesToHex (word emp)) ∧
    topic log 3 = Ret (bytesToHex (word rec))) as (E1 & E2 & E3) by (unfold topic; by rewrite Ht).
  cbn [mbind outcome_bind]. rewrite E1, E2, E3. cbn [mbind outcome_bind].
  rewrite BigInt_hex by (apply word_bytes || apply word_not_nil).
  cbn [mbind outcome_bind]. rewrite !topic_address, word_value by done.
  eexists. split; [reflexivity|]. done.
Qed.

Lemma queryCreatedLogs_lists `{Viem} cfg fetch extra es :
  lists (fetch (created_url cfg extra)) es →
  Forall (λ e, ∀ id, created_id e = Some id → uint_range 256 id) es →
  ∃ ls, queryCreatedLogs cfg fetch extra = Ret ls ∧ Forall2 describes ls es.
Proof.
  intros (r & Hr & Hok & Hl) Hids. unfold queryCreatedLogs. rewrite Hr. cbn [mbind outcome_bind].
  rewrite (proj2 (Z.leb_le 200 _)), (proj2 (Z.leb_le _ 299)) by lia. cbn [andb negb].
  destruct Hl as [(-> & logs & -> & Henc)|(Hs & ->)].
  - rewrite str_eqb_refl. cbn [negb]. eexists. split; [reflexivity|].
    induction Henc as [|log e logs es He Henc IH]; [constructor|].
    apply Forall_cons in Hids as [Hid Hids]. destruct (decode_encoded log e He Hid) as (l & El & Hd).
    cbn [omap list_omap]. rewrite El. constructor; [done|by apply IH].
  - apply str_eqb_false in Hs. rewrite Hs. exists []. split; [done|constructor].
Qed.

(** The first decoded log of a stream. *)
Lemma find_described ls es id : Forall2 describes ls es → NoDup (omap created_id es) →
  (∀ emp rec tok com st et, StreamCreated id emp rec tok com st et ∈ es →
     c_encryptedTerms <$> head (filter (λ l, c_streamId l = id) ls) = Some (bytesToHex et)) ∧
  (id ∉ omap created_id es → head (filter (λ l, c_streamId l = id) ls) = None).
Proof.
  induction 1 as [|l e ls es Hd Hf IH]; intros Hnd.
  - split; [intros * Hin; by apply not_elem_of_nil in Hin|done].
  - destruct e as [i emp0 rec0 tok0 com0 st0 et0| | | | |]; try done.
    destruct Hd as (Hid & _ & _ & Het). cbn [omap list_omap created_id] in Hnd |- *.
    apply NoDup_cons in Hnd as [Hni Hnd]. specialize (IH Hnd). rewrite filter_cons. split.
    + intros * [[= -> -> -> -> -> -> ->]|Hin]%elem_of_cons.
      * rewrite decide_True by done. cbn. by rewrite Het.
      * assert (i ≠ id) as Hne.
        { intros ->. apply Hni, list_elem_of_omap. by eexists. }
        rewrite decide_False by congruence. by eapply IH.
    + rewrite not_elem_of_cons. intros [Hne Hn]. rewrite decide_False by congruence. by apply IH.
Qed.

Lemma Forall_filter {A} (P Q : A → Prop) `{∀ x, Decision (Q x)} l : Forall P l → Forall P (filter Q l).
Proof. rewrite !Forall_forall. intros Hl x [_ Hx]%list_elem_of_filter. auto. Qed.

Lemma created_filter (es : list Event) : omap created_id (filter is_created es) = omap created_id es.
Proof.
  induction es as [|e es IH]; [done|]. rewrite filter_cons. unfold is_created at 1.
  case_decide as Hd; cbn [omap list_omap]; [by rewrite IH|].
  by rewrite Hd.
Qed.

(** The ids of a history's events are words. *)
Lemma created_ids `{EvmLaws, Erc20Laws} net w0 cs w : fresh net w0 → vrun net w0 cs w →
  NoDup (omap created_id (events w)) ∧
  Forall (λ e, ∀ id, created_id e = Some id → uint_range 256 id) (events w).
Proof.
  intros Hf Hr. pose proof (fresh_ok net w0 Hf) as Hok. destruct Hf as (own & tee & b & -> & _).
  destruct (vrun_created net _ cs w Hok eq_refl eq_refl Hr) as (Hd & Hids & Hlt). split; [done|].
  apply Forall_forall. intros e He id Hid. rewrite Forall_forall in Hids.
  assert (1 ≤ id < nextStreamId (vault w)) by (apply Hids, list_elem_of_omap; by exists e). lia.
Qed.

Lemma hex_digits_zeros k b : hex_digits (replicate k 0 ++ b) = replicate (2 * k) 48 ++ hex_digits b.
Proof.
  rewrite hex_digits_app. f_equal. induction k as [|k IH]; [done|]. cbn [replicate].
  rewrite hex_digits_cons, IH. by replace (2 * S k)%nat with (S (S (2 * k))) by lia.
Qed.

Lemma be_bytes_zero n : be_bytes n 0 = replicate n 0.
Proof.
  induction n as [|n IH]; [done|]. cbn [be_bytes]. change (0 / 256) with 0. change (0 mod 256) with 0.
  by rewrite IH, replicate_S_end.
Qed.

(** The topic that [fetchStreamsForRecipient] asks for. *)
Lemma padded_topic `{JsEngine, EvmLaws, Viem, !ViemLaws} who : isAddress who = true →
  js "0x" ++ pad_start (slice_from (to_lower who) 2) 64 48 = bytesToHex (word (hex_value who)).
Proof.
  intros Hs%isAddress_shape. rewrite (hex_shape_to_lower 40) by done.
  destruct (hex_value_address_hex who Hs) as [Hr <-]. set (v := hex_value who) in *. clearbody v.
  unfold address_hex, pad_start. rewrite !bytesToHex_digits, slice_from_drop by lia.
  change (drop (Z.to_nat 2) (48 :: 120 :: hex_digits (be_bytes 20 v))) with (hex_digits (be_bytes 20 v)).
  pose proof (hex_digits_facts (be_bytes 20 v) (be_bytes_bytes _ _)) as (-> & _).
  rewrite be_bytes_length. unfold word. change 32%nat with (12 + 20)%nat.
  rewrite be_bytes_app, Z.div_small, be_bytes_zero, hex_digits_zeros by exact Hr. done.
Qed.

(** For every history of a deployed vault and every endpoint that serves it,
    [readRevealedTerms] stays within the endpoint's limit of 30 blocks and below the
    head; what it returns hashes to the stream's commitment on chain; and it does return terms when the configured block is on
    the chain and holds a reveal of the stream. *)
Lemma revealed_terms_read `{EvmLaws, Viem, !ViemLaws, Erc20Laws} net w0 cs w cfg head blocks rpc id :
  fresh net w0 → vrun net w0 cs w → serves cfg w head blocks rpc →
  ∃ r, readRevealedTerms cfg rpc id = Ret r ∧
    (∀ h, r = Some h → ∃ ts, h = bytesToHex ts ∧ is_bytes ts ∧ TermsRevealed id ts ∈ events w ∧
       be_value (keccak ts) = s_commitment (stream_at (vault w) id)) ∧
    (∀ ts, (DEMO_REVEAL_BLOCK cfg, TermsRevealed id ts) ∈ blocks →
       0 < DEMO_REVEAL_BLOCK cfg ≤ head → r ≠ None).
Proof.
  intros Hf Hr [Hev Hty Hhd Hhr _ Hrv]. unfold readRevealedTerms. rewrite Hhd. cbn [mbind outcome_bind].
  pose proof (reveal_window_bounds (DEMO_REVEAL_BLOCK cfg) head Hhr) as Hw.
  destruct (reveal_window _ head) as [from to]. destruct Hw as (Hft & Hto & Hlen & Hin).
  rewrite Hrv. unfold capped_logs. rewrite (proj2 (Z.leb_le _ _)), (proj2 (Z.ltb_lt _ _)) by lia.
  cbn [andb mbind outcome_bind]. rewrite fmap_last. set (found := filter _ _).
  eexists. split; [reflexivity|]. split.
  - intros h E. destruct (last found) as [[b' h']|] eqn:El; [|done]. injection E as <-.
    assert ((b', h') ∈ found) as [_ Hm]%list_elem_of_filter by (by apply last_Some_elem_of).
    apply list_elem_of_omap in Hm as ([b e] & Hbe & Hm). unfold reveal_of in Hm. cbn [fst snd] in Hm.
    destruct e as [| | | |i ts|]; try done. case_decide as Hi; [|done]. injection Hm as <- <-. subst i.
    assert (TermsRevealed id ts ∈ events w) as He.
    { rewrite <- Hev. by apply (list_elem_of_fmap_2 snd) in Hbe. }
    rewrite Forall_forall in Hty. pose proof (Hty _ He) as Hb. cbn in Hb.
    assert (events w0 = []) as He0 by (destruct Hf as (? & ? & ? & -> & _); done).
    exists ts. do 3 (split; [done|]).
    apply (vrun_records net w0 cs w (TermsRevealed id ts) (fresh_ok net w0 Hf) Hr); [rewrite He0; apply not_elem_of_nil|done].
  - intros ts Hbe Hb. specialize (Hin Hb). destruct (last found) as [[b' h']|] eqn:El; [done|].
    apply last_None in El. exfalso.
    assert ((DEMO_REVEAL_BLOCK cfg, bytesToHex ts) ∈ found) as Hm.
    { apply list_elem_of_filter. split; [done|]. apply list_elem_of_omap. eexists. split; [exact Hbe|].
      unfold reveal_of. cbn [fst snd]. by rewrite decide_True. }
    rewrite El in Hm. by apply not_elem_of_nil in Hm.
Qed.

(** The explorer gives a stream the ciphertext it was created with. *)
Lemma sealed_fetched `{JsEngine, EvmLaws, Viem, !ViemLaws, Erc20Laws} net w0 cs w cfg fetch id emp rec tok com st et :
  fresh net w0 → vrun net w0 cs w → indexes cfg w fetch →
  StreamCreated id emp rec tok com st et ∈ events w → fetchEncryptedTerms cfg fetch id = Ret (Some (bytesToHex et)).
Proof.
  intros Hf Hr [Hty Hall _] Hin. destruct (created_ids net w0 cs w Hf Hr) as [Hnd Hids].
  destruct (queryCreatedLogs_lists cfg fetch [] _ Hall (Forall_filter _ _ _ Hids)) as (ls & Els & Hd).
  unfold fetchEncryptedTerms. rewrite Els. cbn [mbind outcome_bind]. f_equal. rewrite <- created_filter in Hnd.
  eapply (proj1 (find_described ls _ id Hd Hnd)). by apply list_elem_of_filter.
Qed.

(** ** Properties *)

(** the explorer's index is read faithfully: for every history of a deployed
    vault that an explorer indexes, [fetchEncryptedTerms] returns exactly the
    ciphertext that the stream was created with, [null] for an id that no stream
    has, and [fetchStreamsForRecipient] lists, in order, exactly the streams whose
    recipient is the address asked for, in any letter case. *)
Theorem explorer_reads `{JsEngine, EvmLaws, Viem, !ViemLaws, Erc20Laws} net w0 cs w cfg fetch :
  fresh net w0 → vrun net w0 cs w → indexes cfg w fetch →
  (∀ id emp rec tok com st et, StreamCreated id emp rec tok com st et ∈ events w →
     fetchEncryptedTerms cfg fetch id = Ret (Some (bytesToHex et))) ∧
  (∀ id, id ∉ omap created_id (events w) → fetchEncryptedTerms cfg fetch id = Ret None) ∧
  (∀ who, isAddress who = true →
     ∃ ls, fetchStreamsForRecipient cfg fetch who = Ret ls ∧
       Forall2 describes ls (filter (λ e, recipient_topic e = Some (bytesToHex (word (hex_value who)))) (events w))).
Proof.
  intros Hf Hr [Hty Hall Hto]. destruct (created_ids net w0 cs w Hf Hr) as [Hnd Hids].
  destruct (queryCreatedLogs_lists cfg fetch [] _ Hall) as (ls & Els & Hd).
  { by apply Forall_filter. }
  assert (∀ id, fetchEncryptedTerms cfg fetch id =
    Ret (c_encryptedTerms <$> head (filter (λ l, c_streamId l = id) ls))) as Ef.
  { intros id. unfold fetchEncryptedTerms. by rewrite Els. }
  rewrite <- created_filter in Hnd. split; [|split].
  - intros * Hin. by eapply sealed_fetched; [exact Hf|exact Hr|split|exact Hin].
  - intros id Hn. rewrite Ef. rewrite <- created_filter in Hn.
    by rewrite (proj2 (find_described ls _ id Hd Hnd) Hn).
  - intros who Hw. unfold fetchStreamsForRecipient. rewrite padded_topic by done.
    apply queryCreatedLogs_lists; [apply Hto|by apply Forall_filter].
Qed.

(** ** A concrete chain

    The vault of VaultProps.v after a creation and a reveal in block 40 of 60. *)

Definition toy_chain : ChainConfig := {| CHAIN_ID := 114; RPC_URL := []; EXPLORER := js "e";
  VAULT_ADDRESS := address_hex 170; DEMO_STREAM_ID := 1; DEMO_REVEAL_BLOCK := 40 |}.

Definition toy_audit : list (Msg * Call) :=
  [(by_employer 10, CCreateStream 226 5 toy_commitment 10 [7; 8]); (by_employer 11, CFund 1 500);
   (by_recipient 30, CRevealTerms 1 toy_terms)].
Definition toy_blocks : list (Z * Event) := zip [30; 31; 40] (events (after toy_audit)).

Definition toy_rpc (cfg : ChainConfig) (w : World) (head : Z) (blocks : list (Z * Event)) : Rpc := {|
  rpc_streams _ id := let s := stream_at (vault w) id in
    Ret (checksumAddress (address_hex (s_employer s)), checksumAddress (address_hex (s_recipient s)),
         checksumAddress (address_hex (s_token s)), bytesToHex (word (s_commitment s)),
         s_funded s, s_withdrawn s, s_startTime s, s_cancelled s);
  rpc_decimals _ := Ret 6; rpc_symbol _ := Ret (js "USD"); rpc_block_number := Ret head;
  rpc_revealed _ id := capped_logs head (omap (reveal_of id) blocks);
|}.

(** The data of the created event, as [abi.encode] lays it out. *)
Definition toy_log : RawLog := {|
  l_topics := [STREAM_CREATED_TOPIC; bytesToHex (word 1); bytesToHex (word 225); bytesToHex (word 226)];
  l_data := bytesToHex (word 5 ++ word toy_commitment ++ word 10 ++ word 128 ++ word 2 ++ [7; 8] ++ replicate 30 0);
  l_blockNumber := js "0x1e" |}.

(** An explorer that has indexed one log. *)
Definition one_log_explorer (cfg : ChainConfig) (topic3 : jsstr) (log : RawLog) : Explorer := λ url,
  let found := str_eqb url (created_url cfg []) ||
    str_eqb url (created_url cfg (js "&topic3=" ++ topic3 ++ js "&topic0_3_opr=and")) in
  Ret {| x_http := 200; x_status := if found then js "1" else js "0"; x_result := Some (if found then [log] else []) |}.

Definition toy_explorer : Explorer := one_log_explorer toy_chain (bytesToHex (word 226)) toy_log.

Lemma toy_audit_events : events (after toy_audit) =
  [StreamCreated 1 225 226 5 toy_commitment 10 [7; 8]; StreamFunded 1 500; TermsRevealed 1 toy_terms].
Proof. vm_compute. reflexivity. Qed.

Lemma toy_log_encodes : encodes toy_log (StreamCreated 1 225 226 5 toy_commitment 10 [7; 8]).
Proof. split; vm_compute; reflexivity. Qed.

Lemma toy_audit_typed : Forall event_typed (events (after toy_audit)).
Proof.
  rewrite toy_audit_events. repeat constructor; cbn; try lia; repeat constructor; lia.
Qed.

Lemma created_url_inj cfg x y : created_url cfg x = created_url cfg y → x = y.
Proof. unfold created_url. intros E. do 7 apply app_inv_head in E. exact E. Qed.

(** It serves a history with one creation. *)
Lemma one_log_indexes `{Viem} cfg w topic3 log e rest : Forall event_typed (events w) →
  events w = e :: rest → filter is_created rest = [] → encodes log e → recipient_topic e = Some topic3 →
  indexes cfg w (one_log_explorer cfg topic3 log).
Proof.
  intros Hty Hev Hrest Hlog Ht. split; [done| |].
  - eexists. split; [reflexivity|]. split; [by split|]. left. cbn [x_status x_result]. rewrite str_eqb_refl.
    split; [done|]. exists [log]. split; [done|]. rewrite Hev, filter_cons, Hrest, decide_True; [by repeat constructor|].
    by destruct e.
  - intros t. eexists. split; [reflexivity|]. split; [by split|]. cbn [x_status x_result].
    assert (filter (λ e, recipient_topic e = Some t) rest = []) as Hr.
    { clear -Hrest. induction rest as [|x rest IH]; [done|]. rewrite filter_cons in Hrest. case_decide as Hx; [done|].
      rewrite filter_cons, decide_False; [by apply IH|]. destruct x; try done. by destruct Hx. }
    rewrite Hev, filter_cons, Hr, Ht. case_decide as Hd.
    + injection Hd as <-. left. rewrite str_eqb_refl, orb_true_r. split; [done|]. exists [log].
      split; [done|]. constructor; [exact Hlog|constructor].
    + right. destruct (str_eqb _ _) eqn:E1; [|destruct (str_eqb _ (created_url _ (_ ++ topic3 ++ _))) eqn:E2].
      * apply str_eqb_true, created_url_inj, (f_equal length) in E1. by rewrite length_app in E1.
      * apply str_eqb_true, created_url_inj, app_inv_head, app_inv_tail in E2. congruence.
      * done.
Qed.

Lemma toy_indexes : indexes toy_chain (after toy_audit) toy_explorer.
Proof.
  eapply one_log_indexes; [exact toy_audit_typed|exact toy_audit_events|reflexivity|exact toy_log_encodes|reflexivity].
Qed.

Lemma explorer_reads_witness :
  fetchEncryptedTerms toy_chain toy_explorer 1 = Ret (Some (bytesToHex [7; 8])) ∧
  fetchEncryptedTerms toy_chain toy_explorer 2 = Ret None.
Proof.
  destruct (@explorer_reads plain_engine _ _ _ _ _ _ toy_net toy_world toy_audit (after toy_audit) toy_chain
    toy_explorer toy_fresh ltac:(apply toy_run; vm_compute; reflexivity) toy_indexes) as (H1 & H2 & _).
  split.
  - apply (H1 1 225 226 5 toy_commitment 10 [7; 8]). rewrite toy_audit_events. left.
  - apply H2. rewrite toy_audit_events. apply (bool_decide_eq_true_1 _). vm_compute. reflexivity.
Defined.

Lemma toy_rpc_serves cfg w head blocks : blocks.*2 = events w → Forall event_typed (events w) → 0 ≤ head →
  serves cfg w head blocks (toy_rpc cfg w head blocks).
Proof. by split. Qed.

Lemma toy_serves : serves toy_chain (after toy_audit) 60 toy_blocks (toy_rpc toy_chain (after toy_audit) 60 toy_blocks).
Proof. apply toy_rpc_serves; [reflexivity|exact toy_audit_typed|lia]. Qed.
