(* ===== verification/Pages.v ===== *)
(** * What the pages share ([frontend/app])

    The pages are React components: a state, handlers that run asynchronously and
    write the state, and a rendering of the state.  A handler is a computation
    [act] that lists the updates it makes, in order, and how it ends; updates of
    handlers that run at the same time interleave ([ui_step]).  A wallet and the
    receipts of transactions are parameters.

    The last part is the formula by which the three pages turn a rate back into an
    amount per day. *)

From S2P Require Import Prelude JsString JsNumber Utf8 Json JsonFacts Encoding Wire Framework Abi Instances Protocol Vault Chain.

(** ** Handlers *)

(** The updates made, and how the handler ends. *)
Definition act (U A : Type) : Type := list U * outcome A.

Definition done_with {U A} (a : A) : act U A := ([], Ret a).
Definition await {U A} (o : outcome A) : act U A := ([], o).
Definition set_state {U} (u : U) : act U unit := ([u], Ret tt).

Definition act_bind {U A B} (m : act U A) (k : A → act U B) : act U B :=
  match m.2 with
  | Ret a => (m.1 ++ (k a).1, (k a).2)
  | Throw e => (m.1, Throw e)
  end.

(** [try { m } catch (e) { h(e) }] and [try { m } finally { u }]. *)
Definition act_catch {U A} (m : act U A) (h : js_error → act U A) : act U A :=
  match m.2 with
  | Ret a => m
  | Throw e => (m.1 ++ (h e).1, (h e).2)
  end.
Definition act_finally {U A} (m : act U A) (u : U) : act U A := (m.1 ++ [u], m.2).

Declare Scope act_scope.
Delimit Scope act_scope with act.
Notation "'do!' x := m 'in' k" := (act_bind m (λ x, k))
  (at level 10, x name, m at level 100, k at level 200) : act_scope.
Notation "'set!' u 'in' k" := (act_bind (set_state u) (λ _, k))
  (at level 10, u at level 100, k at level 200) : act_scope.

(** [e instanceof Error ? e.message : String(e)]: every error here is one. *)
Definition error_text (e : js_error) : jsstr := err_message e.

(** [e.message.split("\n")[0]]. *)
Definition first_line (s : jsstr) : jsstr := default [] (head (split_on 10 s)).

(** ** Wallets and receipts (wagmi and viem) *)

Record WriteCall := {
  wc_address : jsstr;
  wc_abi : list abi_item;
  wc_functionName : jsstr;
  wc_args : list abi_value;
}.

(** A function of the vault with its arguments. *)
Definition encoded_call (f : jsstr) (args : list abi_value) : option Call :=
  match args with
  | [AAddr r; AAddr t; AHex cm; AInt st; AHex et] =>
      if str_eqb f (js "createStream")
      then Some (CCreateStream (hex_value r) (hex_value t) (hex_value cm) st (hex_bytes et)) else None
  | [AInt id; AInt n] => if str_eqb f (js "fund") then Some (CFund id n) else None
  | [AInt id; AInt n; AInt d; AHex sg] =>
      if str_eqb f (js "withdraw") then Some (CWithdraw id n d (hex_bytes sg))
      else if str_eqb f (js "cancelStream") then Some (CCancelStream id n d (hex_bytes sg)) else None
  | [AInt id; AHex ts] => if str_eqb f (js "revealTerms") then Some (CRevealTerms id (hex_bytes ts)) else None
  | _ => None
  end.

(** The transaction that a call is encoded as: none, when its ABI lacks the function. *)
Definition call_of (c : WriteCall) : option Call :=
  if bool_decide (AFunction (wc_functionName c) ∈ wc_abi c)
  then encoded_call (wc_functionName c) (wc_args c) else None.

Lemma call_of_encoded c : AFunction (wc_functionName c) ∈ wc_abi c →
  call_of c = encoded_call (wc_functionName c) (wc_args c).
Proof. intros Hf. unfold call_of. by rewrite (bool_decide_eq_true_2 _ Hf). Qed.

Record WalletClient := {
  wallet_sign : jsstr → outcome jsstr;
  writeContract : WriteCall → outcome jsstr;
}.

(** viem encodes the call first, and throws when the ABI lacks the function. *)
Definition wallet_encodes (wl : WalletClient) : Prop :=
  ∀ c, AFunction (wc_functionName c) ∉ wc_abi c → throws (writeContract wl c).

Record ReceiptLog := { rl_address : jsstr; rl_topics : list jsstr }.
Record Receipt := { rc_status : jsstr; rc_logs : list ReceiptLog }.

(** ** Values the pages compute *)

(** [try { return BigInt(params.id) } catch { return null }]. *)
Definition parse_id (id : jsstr) : option Z :=
  match BigInt id with Ret n => Some n | Throw _ => None end.

Definition ZERO_ADDRESS : jsstr := js "0x0000000000000000000000000000000000000000".

(** [BigInt(Math.floor(Date.now() / 1000))]. *)
Definition clock (ms : Z) : Z := ms / 1000.

(** The amount per day that a rate is shown as, in raw units. *)
Definition perDay (terms : StreamTerms) : Z :=
  Z.quot (ratePerSecond terms * 86400 + Z.quot RATE_SCALE 2) RATE_SCALE.

(** [computed.toLowerCase() === stream.commitment.toLowerCase()]. *)
Definition same_text `{JsEngine} (x y : jsstr) : bool := str_eqb (to_lower x) (to_lower y).

(** ** Interleavings *)

Section ui.
Context {S U : Type} (apply_update : U → S → S).
(** [allowed s us]: some handler that can be called in the state [s] makes the
    updates [us]. *)
Context (allowed : S → list U → Prop).

(** The state and the updates to come of each running handler. *)
Inductive ui_step : S * list (list U) → S * list (list U) → Prop :=
| ui_call s us ps : allowed s us → ui_step (s, ps) (s, us :: ps)
| ui_update s u us ps1 ps2 :
    ui_step (s, ps1 ++ (u :: us) :: ps2) (apply_update u s, ps1 ++ us :: ps2).

Definition ui_reachable (s0 : S) (s : S) : Prop := ∃ ps, rtc ui_step (s0, []) (s, ps).

(** Updates run one after the other. *)
Definition run_updates (us : list U) (s : S) : S := foldl (λ s u, apply_update u s) s us.

(** An invariant that the updates of every handler keep, whatever interleaves. *)
Lemma ui_invariant (good : U → Prop) (Inv : S → Prop) s0 s :
  Inv s0 → (∀ u s, good u → Inv s → Inv (apply_update u s)) →
  (∀ s us, Inv s → allowed s us → Forall good us) → ui_reachable s0 s → Inv s.
Proof.
  intros H0 Hu Ha [ps Hr].
  cut (Inv (s, ps).1 ∧ Forall (Forall good) (s, ps).2); [intros [? _]; done|].
  revert Hr. apply (rtc_ind_r (λ c, Inv c.1 ∧ Forall (Forall good) c.2)); [done|].
  intros c c' _ Hs [Hi Hg]. destruct Hs as [s1 us ps1 Hal|s1 u us ps1 ps2]; cbn [fst snd] in *.
  - split; [done|]. constructor; [by eapply Ha|done].
  - apply Forall_app in Hg as [Hg1 [Hg2 Hg3]%Forall_cons]. apply Forall_cons in Hg2 as [Hg Hg2].
    split; [by apply Hu|]. apply Forall_app. split; [done|]. by constructor.
Qed.

(** Running one handler to its end is such an interleaving. *)
Lemma ui_reachable_run s0 s us : ui_reachable s0 s → allowed s us → ui_reachable s0 (run_updates us s).
Proof.
  intros [ps Hr] Ha.
  assert (∀ us s, rtc ui_step (s, us :: ps) (run_updates us s, [] :: ps)) as Hrun.
  { clear. induction us as [|u us IH]; intros s; [constructor|].
    eapply rtc_l; [apply (ui_update s u us [] ps)|]. apply IH. }
  exists ([] :: ps). etrans; [exact Hr|]. eapply rtc_l; [by apply ui_call|]. apply Hrun.
Qed.
End ui.

(** ** Updates of handlers *)

Section act_facts.
Context {U : Type} (P : U → Prop).

Definition all_updates {A} (m : act U A) : Prop := Forall P m.1.

Lemma updates_bind {A B} (m : act U A) (k : A → act U B) :
  all_updates m → (∀ a, m.2 = Ret a → all_updates (k a)) → all_updates (act_bind m k).
Proof.
  unfold all_updates, act_bind. destruct m as [us [a|e]]; cbn; [|done].
  intros Hm Hk. apply Forall_app. split; [done|by apply Hk].
Qed.

Lemma updates_set u : P u → all_updates (set_state u).
Proof. intros. by repeat constructor. Qed.

Lemma updates_none {A} (o : outcome A) : all_updates (await o).
Proof. constructor. Qed.

Lemma updates_catch {A} (m : act U A) h : all_updates m → (∀ e, all_updates (h e)) → all_updates (act_catch m h).
Proof.
  unfold all_updates, act_catch. destruct m as [us [a|e]]; cbn; [done|].
  intros Hm Hh. apply Forall_app. split; [done|apply Hh].
Qed.

Lemma updates_finally {A} (m : act U A) u : all_updates m → P u → all_updates (act_finally m u).
Proof. intros Hm Hu. apply Forall_app. split; [done|by constructor]. Qed.

Lemma catch_returns {A} (m : act U A) h : (∀ e, returns (h e).2) → returns (act_catch m h).2.
Proof. unfold act_catch. destruct m as [us [a|e]]; cbn; [by eexists|auto]. Qed.
End act_facts.

(** Walk through a handler: each setter becomes a goal. *)
Ltac updates_step :=
  repeat lazymatch goal with
  | |- all_updates _ (act_finally _ _) => apply updates_finally
  | |- all_updates _ (act_catch _ _) => apply updates_catch; [|intros ?]
  | |- all_updates _ (act_bind _ _) => apply updates_bind; [|intros ? ?]
  | |- all_updates _ (await _) => apply updates_none
  | |- all_updates _ (set_state _) => apply updates_set
  | |- all_updates _ (done_with _) => apply List.Forall_nil
  end.

(** ** Properties *)

(** C38: a daily rate is shown as it was entered: converting an amount per day to
    the fixed-point rate of the terms and back, with the rounding that the pages
    use, gives the amount, for every amount; without the rounding it would be one
    unit less whenever the division by 86400 has a remainder. *)
Theorem perDay_roundtrip t x : 0 ≤ x → ratePerSecond t = ratePerDayToScaled x →
  perDay t = x ∧
  Z.quot (ratePerSecond t * 86400) RATE_SCALE = (if x * RATE_SCALE mod 86400 =? 0 then x else x - 1).
Proof.
  intros Hx E0. unfold perDay. rewrite E0. unfold ratePerDayToScaled, RATE_SCALE.
  rewrite (Z.quot_div_nonneg (x * 10 ^ 12)) by lia. set (r := x * 10 ^ 12 / 86400).
  pose proof (Z.div_mod (x * 10 ^ 12) 86400 ltac:(lia)) as E. fold r in E.
  pose proof (Z.mod_pos_bound (x * 10 ^ 12) 86400 ltac:(lia)) as Hm.
  assert (0 ≤ r) by (apply Z.div_pos; lia).
  change (Z.quot (10 ^ 12) 2) with 500000000000. rewrite !Z.quot_div_nonneg by lia. split.
  - symmetry. apply Z.div_unique with (r * 86400 + 500000000000 - x * 10 ^ 12); lia.
  - symmetry. destruct (Z.eqb_spec (x * 10 ^ 12 mod 86400) 0) as [Ez|Ez].
    + apply Z.div_unique with 0; lia.
    + apply Z.div_unique with (r * 86400 - (x - 1) * 10 ^ 12); lia.
Qed.

Lemma perDay_roundtrip_witness :
  let t := {| employer := []; recipient := []; token := []; ratePerSecond := ratePerDayToScaled 250000;
              total := 0; startTime := 0; salt := [] |} in
  perDay t = 250000 ∧ Z.quot (ratePerSecond t * 86400) RATE_SCALE = 249999.
Proof. apply (perDay_roundtrip _ 250000); [lia|reflexivity]. Defined.
