(* ===== verification/Dashboard.v ===== *)
(** * The recipient's page ([frontend/app/stream/[id]/page.tsx])

    Its state, one constructor per setter, its three handlers ([loadChain],
    [unlock], [withdraw]) and the clock's tick, and what its buttons allow.  The
    enclave, the wallet, the RPC endpoint and the explorer are arguments of each
    call, as they may answer differently every time.

    Whatever the enclave answers and however the handlers interleave, the terms shown
    hash to the commitment on chain; with an honest enclave and a party's wallet,
    unlocking keeps the terms and the authorization; every handler ends, with the
    page no longer busy; and the page's own ABI keeps its Withdraw button from ever
    reaching the vault.  What the page renders is in DashboardView.v. *)

From S2P Require Import Prelude JsString JsNumber Utf8 Json JsMath JsonFacts Encoding Wire Framework Abi Instances Protocol StreamHandlers StreamProps Handlers Server EnclaveClient Vault VaultFacts VaultProps EndToEnd Chain Pages.
#[local] Open Scope act_scope.

(** ** State *)

Record Dash := {
  d_stream : option OnChainStream;
  d_meta : option (Z * jsstr);
  d_sealed : option jsstr;
  d_chainError : option jsstr;
  d_terms : option StreamTerms;
  d_auth : option json;
  d_status : option jsstr;
  d_failure : option EnclaveFailure;
  d_busy : bool;
  d_withdrawTx : option jsstr;
  d_now : Z;
}.

Definition initial_dash (ms : Z) : Dash :=
  {| d_stream := None; d_meta := None; d_sealed := None; d_chainError := None; d_terms := None;
     d_auth := None; d_status := None; d_failure := None; d_busy := false; d_withdrawTx := None;
     d_now := clock ms |}.

Inductive Update : Type :=
| SetStream (v : option OnChainStream)
| SetMeta (v : option (Z * jsstr))
| SetSealed (v : option jsstr)
| SetChainError (v : option jsstr)
| SetTerms (v : option StreamTerms)
| SetAuth (v : option json)
| SetStatus (v : option jsstr)
| SetFailure (v : option EnclaveFailure)
| SetBusy (v : bool)
| SetWithdrawTx (v : option jsstr)
| SetNow (v : Z).

Definition dash_update (u : Update) (d : Dash) : Dash := {|
  d_stream := match u with SetStream v => v | _ => d_stream d end;
  d_meta := match u with SetMeta v => v | _ => d_meta d end;
  d_sealed := match u with SetSealed v => v | _ => d_sealed d end;
  d_chainError := match u with SetChainError v => v | _ => d_chainError d end;
  d_terms := match u with SetTerms v => v | _ => d_terms d end;
  d_auth := match u with SetAuth v => v | _ => d_auth d end;
  d_status := match u with SetStatus v => v | _ => d_status d end;
  d_failure := match u with SetFailure v => v | _ => d_failure d end;
  d_busy := match u with SetBusy v => v | _ => d_busy d end;
  d_withdrawTx := match u with SetWithdrawTx v => v | _ => d_withdrawTx d end;
  d_now := match u with SetNow v => v | _ => d_now d end;
|}.

(** ** Handlers *)

(** The fields of an [Authorization] are strings by its type. *)
Definition auth_field (auth : json) (k : jsstr) : outcome jsstr :=
  v ← prop auth k;
  match v with
  | Some (JStr s) => Ret s
  | _ => Throw (TypeError (k ++ js " is not a string"))
  end.

(** The authorization when it is truthy: [!auth] is the test of the page. *)
Definition auth_held (d : Dash) : option json := a ← d_auth d; if truthy a then Some a else None.

Section handlers.
Context `{JsEngine, Viem} (cfg : ChainConfig) (streamId : option Z).

Definition loadChain (rpc : Rpc) (explorer : Explorer) : act Update unit :=
  match streamId with
  | None => done_with tt
  | Some id =>
      act_catch
        (do! s := await (readStream cfg rpc id) in
         if str_eqb (o_employer s) ZERO_ADDRESS then
           set_state (SetChainError (Some (js "Stream #" ++ bigint_to_string id ++ js " does not exist.")))
         else
           set! SetStream (Some s) in
           do! m := await (readTokenMeta rpc (o_token s)) in
           set! SetMeta (Some m) in
           do! c := await (fetchEncryptedTerms cfg explorer id) in
           set! SetSealed c in
           set_state (SetChainError None))
        (λ e, set_state (SetChainError (Some (error_text e))))
  end.

Definition failed (e : js_error) : act Update unit :=
  set! SetFailure (Some (Rejected (first_line (error_text e)))) in
  set_state (SetStatus None).

Definition refused_with (f : EnclaveFailure) : act Update unit :=
  set! SetFailure (Some f) in set_state (SetStatus None).

(** What the page asks of the enclave. *)
Definition unlock_request (s : OnChainStream) (sealed : jsstr) (id issued : Z) (sig : jsstr) : AuthRequest := {|
  StreamHandlers.streamId := bigint_to_string id;
  StreamHandlers.vault := VAULT_ADDRESS cfg;
  chainId := bigint_to_string (CHAIN_ID cfg);
  commitment := o_commitment s;
  encryptedTerms := sealed;
  issuedAt := bigint_to_string issued;
  callerSignature := sig |}.

(** [signed_ms] and [asked_ms] are the clock when the challenge and the envelope
    are built. *)
Definition unlock (walletClient : option WalletClient) (ENCLAVE_URL : jsstr)
    (fetch : jsstr → jsstr → outcome FetchResponse) (signed_ms asked_ms : Z) (d : Dash) : act Update unit :=
  match walletClient, d_stream d, env_truthy (d_sealed d), streamId with
  | Some wl, Some s, Some sealed, Some id =>
      set! SetBusy true in
      set! SetFailure None in
      set! SetStatus (Some (js "Waiting for your signature" ++ [0x2026])) in
      act_finally (act_catch
        (let issued := clock signed_ms in
         do! challenge := await (buildCallerChallenge
           {| cp_chainId := CHAIN_ID cfg; cp_vault := VAULT_ADDRESS cfg; cp_streamId := id;
              cp_commitment := o_commitment s; cp_purpose := WITHDRAW_TAG; cp_issuedAt := issued |}) in
         do! sig := await (wallet_sign wl challenge) in
         set! SetStatus (Some (js "Asking the enclave" ++ [0x2026])) in
         do! res := await (requestAuthorization ENCLAVE_URL fetch asked_ms
           (JObj (request_fields (unlock_request s sealed id issued sig))) (js "AUTH_WITHDRAW")) in
         match res with
         | inl error => refused_with error
         | inr auth =>
             do! termsHex := await (auth_field auth (js "terms")) in
             do! h := await (keccak256 termsHex) in
             if negb (same_text h (o_commitment s)) then
               refused_with (Rejected (js "Enclave returned terms that do not match the on-chain commitment."))
             else
               do! terms := await (decodeTerms termsHex) in
               set! SetTerms (Some terms) in
               set! SetAuth (Some auth) in
               set_state (SetStatus None)
         end)
        failed) (SetBusy false)
  | _, _, _, _ => done_with tt
  end.

(** [publicClient.waitForTransactionReceipt] is [receipt]. *)
Definition withdraw (walletClient : option WalletClient) (receipt : option (jsstr → outcome Receipt))
    (rpc : Rpc) (explorer : Explorer) (d : Dash) : act Update unit :=
  match walletClient, receipt, auth_held d, streamId with
  | Some wl, Some wait, Some auth, Some id =>
      set! SetBusy true in
      set! SetFailure None in
      set! SetStatus (Some (js "Submitting withdrawal" ++ [0x2026])) in
      act_finally (act_catch
        (do! accrued := await (v ← prop auth (js "cumulativeAccrued"); bigint_of_json v) in
         do! deadline := await (v ← prop auth (js "deadline"); bigint_of_json v) in
         do! sig := await (auth_field auth (js "signature")) in
         do! hash := await (writeContract wl
           {| wc_address := VAULT_ADDRESS cfg; wc_abi := VAULT_ABI; wc_functionName := js "withdraw";
              wc_args := [AInt id; AInt accrued; AInt deadline; AHex sig] |}) in
         do! rcpt := await (wait hash) in
         if negb (str_eqb (rc_status rcpt) (js "success")) then await (Throw (PlainError (js "withdraw reverted")))
         else
           set! SetWithdrawTx (Some hash) in
           set! SetAuth None in
           set! SetStatus None in
           loadChain rpc explorer)
        failed) (SetBusy false)
  | _, _, _, _ => done_with tt
  end.

(** ** What is shown *)

Definition isParty (address : option jsstr) (d : Dash) : bool :=
  match env_truthy address, d_stream d with
  | Some a, Some s => same_text a (o_recipient s) || same_text a (o_employer s)
  | _, _ => false
  end.

Definition accrued (d : Dash) : option Z := (λ t, accruedAt t (d_now d)) <$> d_terms d.

Definition available (d : Dash) : option Z :=
  match accrued d, d_stream d with
  | Some a, Some s => Some ((if a >? o_funded s then o_funded s else a) - o_withdrawn s)
  | _, _ => None
  end.

(** The buttons that can be clicked: the sections with them are shown, and they
    are not disabled. *)
Definition is_some {A} (o : option A) : bool := match o with Some _ => true | None => false end.

Definition record_shown (d : Dash) : bool := is_some (d_stream d) && is_some (d_meta d).
Definition can_unlock (address : option jsstr) (d : Dash) : bool :=
  record_shown d && negb (is_some (d_terms d)) &&
  negb (negb (is_some address) || negb (isParty address d) || d_busy d || negb (is_some (env_truthy (d_sealed d)))).
Definition can_withdraw (d : Dash) : bool :=
  record_shown d && is_some (d_terms d) &&
  negb (negb (is_some (auth_held d)) || d_busy d || (default 0 (available d) <=? 0)).

(** The calls a user, the effects and the timer make.  The endpoint and the wallet
    satisfy [rpc_ok] and [wallet_ok]; the enclave and the explorer are arbitrary. *)
Inductive dash_call (rpc_ok : Rpc → Prop) (wallet_ok : WalletClient → Prop) (d : Dash) : list Update → Prop :=
| call_tick ms : dash_call rpc_ok wallet_ok d [SetNow (clock ms)]
| call_load rpc explorer : rpc_ok rpc → dash_call rpc_ok wallet_ok d (loadChain rpc explorer).1
| call_unlock address wl url fetch ms ms' : can_unlock address d = true → wallet_ok wl →
    dash_call rpc_ok wallet_ok d (unlock (Some wl) url fetch ms ms' d).1
| call_withdraw wl receipt rpc explorer : can_withdraw d = true → rpc_ok rpc → wallet_ok wl →
    dash_call rpc_ok wallet_ok d (withdraw (Some wl) receipt rpc explorer d).1.

Definition dash_reachable (rpc_ok : Rpc → Prop) (wallet_ok : WalletClient → Prop) (ms : Z) : Dash → Prop :=
  ui_reachable dash_update (dash_call rpc_ok wallet_ok) (initial_dash ms).
End handlers.

(** ** Lemmas *)

Section facts.
Context `{JsEngine, EvmLaws, Viem, !ViemLaws, Erc20, !Erc20Laws, Ecies, !EciesLaws}.
Context (cfg : ChainConfig).

(** Terms that hash to a commitment. *)
Definition authentic (cm : Z) (t : StreamTerms) : Prop :=
  ∃ h k, decodeTerms h = Ret t ∧ keccak256 h = Ret k ∧ to_lower k = bytesToHex (word cm).

(** A stream as the page holds it. *)
Definition genuine (s1 : Stream) (s : OnChainStream) : Prop :=
  o_employer s = checksumAddress (address_hex (s_employer s1)) ∧
  o_recipient s = checksumAddress (address_hex (s_recipient s1)) ∧
  o_token s = checksumAddress (address_hex (s_token s1)) ∧
  o_commitment s = bytesToHex (word (s_commitment s1)).

Definition good_update (s1 : Stream) (u : Update) : Prop :=
  match u with
  | SetStream (Some s) => genuine s1 s
  | SetTerms (Some t) => authentic (s_commitment s1) t
  | _ => True
  end.

(** An endpoint that serves some later state of the vault. *)
Definition serves_later (net : Net) (w1 : World) (rpc : Rpc) : Prop :=
  ∃ cs w head blocks, vrun net w1 cs w ∧ serves cfg w head blocks rpc.

Lemma served_genuine net w1 rpc id s : world_ok net w1 → s_employer (stream_at (vault w1) id) ≠ 0 →
  serves_later net w1 rpc → readStream cfg rpc id = Ret s → genuine (stream_at (vault w1) id) s.
Proof.
  intros Hok He (cs & w & hd & blocks & Hr & Hs) E. unfold readStream in E.
  rewrite (sv_streams _ _ _ _ _ Hs) in E. injection E as <-.
  destruct (vrun_later net w1 cs w id Hok Hr He) as (E1 & E2 & E3 & E4 & _).
  unfold genuine. cbn. by rewrite E1, E2, E3, E4.
Qed.

Lemma failed_good s1 e : all_updates (good_update s1) (failed e).
Proof. unfold failed. updates_step; done. Qed.

Lemma refused_good s1 f : all_updates (good_update s1) (refused_with f).
Proof. unfold refused_with. updates_step; done. Qed.

#[local] Hint Resolve failed_good refused_good : core.

Lemma loadChain_good net w1 rpc explorer id : world_ok net w1 → s_employer (stream_at (vault w1) id) ≠ 0 →
  serves_later net w1 rpc → all_updates (good_update (stream_at (vault w1) id)) (loadChain cfg (Some id) rpc explorer).
Proof.
  intros Hok He Hs. unfold loadChain. updates_step; [|done].
  destruct (str_eqb _ _); updates_step; try done.
  by apply (served_genuine net w1 rpc id a).
Qed.

Lemma unlock_good s1 wl url fetch ms ms' id d :
  (∀ s, d_stream d = Some s → genuine s1 s) →
  all_updates (good_update s1) (unlock cfg (Some id) wl url fetch ms ms' d).
Proof.
  intros Hs. unfold unlock. destruct wl as [wl|]; [|constructor].
  destruct (d_stream d) as [s|]; [|constructor]. specialize (Hs s eq_refl) as (_ & _ & _ & Hcm).
  destruct (env_truthy (d_sealed d)) as [sealed|]; [|constructor]. updates_step; try done.
  match goal with res : EnclaveFailure + json |- _ => destruct res as [f|auth] end;
    [done|]. updates_step.
  destruct (same_text _ (o_commitment s)) eqn:Esame; cbn [negb]; [|done].
  updates_step; try done. cbn [good_update].
  match goal with
  | Hd : (await (decodeTerms ?h)).2 = _, Hk : (await (keccak256 ?h)).2 = Ret ?k |- authentic _ _ =>
      exists h, k; split; [exact Hd|split; [exact Hk|]]
  end.
  unfold same_text in Esame. apply str_eqb_true in Esame. rewrite Esame, Hcm.
  apply bytesToHex_to_lower, word_bytes.
Qed.

Lemma withdraw_good net w1 wl receipt rpc explorer id d :
  world_ok net w1 → s_employer (stream_at (vault w1) id) ≠ 0 → serves_later net w1 rpc →
  all_updates (good_update (stream_at (vault w1) id)) (withdraw cfg (Some id) wl receipt rpc explorer d).
Proof.
  intros Hok He Hs. unfold withdraw. destruct wl as [wl|]; [|constructor].
  destruct receipt as [wait|]; [|constructor]. destruct (auth_held d) as [auth|]; [|constructor].
  updates_step; try done. destruct (negb _); [apply updates_none|].
  updates_step; try done. by apply (loadChain_good net).
Qed.

(** ** How handlers end *)

(** A handler that returns, and leaves the page idle if it did anything. *)
Definition settles (m : act Update unit) : Prop :=
  m.2 = Ret tt ∧ (m.1 = [] ∨ ∀ d, let d' := run_updates dash_update m.1 d in
    d_busy d' = false ∧ d_status d' = None).

Lemma run_updates_app us vs d :
  run_updates dash_update (us ++ vs) d = run_updates dash_update vs (run_updates dash_update us d).
Proof. apply foldl_app. Qed.

(** The body of a handler ends with no status, or throws. *)
Definition clears (m : act Update unit) : Prop :=
  ∀ d, m.2 = Ret tt → d_status (run_updates dash_update m.1 d) = None.

Lemma clears_bind {A} (m : act Update A) k : (∀ a, clears (k a)) → clears (act_bind m k).
Proof.
  intros Hk d. unfold act_bind. destruct m as [us [a|e]]; cbn [fst snd]; [|done].
  rewrite run_updates_app. apply Hk.
Qed.

Definition keeps_status (u : Update) : Prop := match u with SetStatus _ => False | _ => True end.

Lemma run_keeps_status us d : Forall keeps_status us → d_status (run_updates dash_update us d) = d_status d.
Proof.
  intros Hus. revert d. induction Hus as [|u us Hu _ IH]; intros d; [done|].
  change (d_status (run_updates dash_update us (dash_update u d)) = d_status d). rewrite IH. by destruct u.
Qed.

Lemma clears_then (m : act Update unit) : all_updates keeps_status m → clears (set! SetStatus None in m).
Proof.
  intros Hm d _. unfold act_bind, set_state. cbn [fst snd]. rewrite run_updates_app.
  by rewrite run_keeps_status.
Qed.

Lemma loadChain_status rpc explorer id : all_updates keeps_status (loadChain cfg id rpc explorer).
Proof.
  unfold loadChain. destruct id as [id|]; updates_step; try done. destruct (str_eqb _ _); updates_step; done.
Qed.

Lemma loadChain_returns rpc explorer id : (loadChain cfg id rpc explorer).2 = Ret tt.
Proof.
  unfold loadChain, act_catch. destruct id as [id|]; [|done].
  set (m := act_bind _ _). by destruct m as [us [[]|e]].
Qed.

(** [setBusy(true); setFailure(null); setStatus(s); try { m } catch { failed } finally { setBusy(false) }]. *)
Lemma handler_settles s m : clears m → settles
  (set! SetBusy true in set! SetFailure None in set! SetStatus s in
   act_finally (act_catch m failed) (SetBusy false)).
Proof.
  intros Hm. unfold settles, act_finally, act_bind, set_state, act_catch. cbn [fst snd].
  destruct m as [us [[]|e]]; cbn [fst snd]; (split; [done|]; right); intros d.
  - cbn zeta. rewrite !app_assoc, run_updates_app, run_updates_app. cbn. split; [done|]. by apply (Hm _).
  - cbn zeta. rewrite !app_assoc. rewrite !run_updates_app. done.
Qed.

Lemma unlock_settles wl url fetch ms ms' id d : settles (unlock cfg id wl url fetch ms ms' d).
Proof.
  unfold unlock. destruct wl as [wl|], (d_stream d) as [s|], (env_truthy (d_sealed d)) as [sealed|], id as [id|];
    try (split; [done|by left]).
  apply handler_settles. do 2 (apply clears_bind; intros ?). do 2 (apply clears_bind; intros ?).
  destruct a2 as [f|auth]; [done|]. do 2 (apply clears_bind; intros ?). destruct (negb _); [done|].
  by do 3 (apply clears_bind; intros ?).
Qed.

Lemma withdraw_settles wl receipt rpc explorer id d : settles (withdraw cfg id wl receipt rpc explorer d).
Proof.
  unfold withdraw. destruct wl as [wl|], receipt as [wait|], (auth_held d) as [auth|], id as [id|];
    try (split; [done|by left]).
  apply handler_settles. do 5 (apply clears_bind; intros ?). destruct (negb _); [done|].
  do 2 (apply clears_bind; intros ?). apply clears_then, loadChain_status.
Qed.
(** The vault's ABI on the page lacks [withdraw]: the handler fails, whatever the
    authorization holds. *)
Lemma withdraw_fails wl receipt rpc explorer id d : wallet_encodes wl →
  let us := (withdraw cfg id (Some wl) receipt rpc explorer d).1 in
  match receipt, auth_held d, id with
  | Some _, Some _, Some _ => ∃ m, us = [SetBusy true; SetFailure None;
      SetStatus (Some (js "Submitting withdrawal" ++ [0x2026]));
      SetFailure (Some (Rejected m)); SetStatus None; SetBusy false]
  | _, _, _ => us = []
  end.
Proof.
  intros Hwl. cbn zeta. unfold withdraw.
  destruct receipt as [wait|], (auth_held d) as [auth|], id as [i|]; try done.
  unfold act_finally, act_catch, act_bind, await, set_state. cbn [fst snd].
  destruct (prop auth (js "cumulativeAccrued") ≫= bigint_of_json) as [x|e]; [|by eexists]. cbn [fst snd].
  destruct (prop auth (js "deadline") ≫= bigint_of_json) as [y|e]; [|by eexists]. cbn [fst snd].
  destruct (auth_field auth (js "signature")) as [z|e]; [|by eexists]. cbn [fst snd].
  match goal with |- context [writeContract wl ?c] => destruct (Hwl c) as [e ->] end; [|by eexists].
  apply (bool_decide_eq_true_1 _). vm_compute. reflexivity.
Qed.

Definition no_tx (u : Update) : Prop := match u with SetWithdrawTx _ => False | _ => True end.

Lemma loadChain_no_tx rpc explorer id : all_updates no_tx (loadChain cfg id rpc explorer).
Proof.
  unfold loadChain. destruct id; updates_step; try done. destruct (str_eqb _ _); updates_step; done.
Qed.

Lemma unlock_no_tx wl url fetch ms ms' id d : all_updates no_tx (unlock cfg id wl url fetch ms ms' d).
Proof.
  unfold unlock, failed, refused_with.
  destruct wl, (d_stream d), (env_truthy (d_sealed d)), id; updates_step; try done.
  match goal with res : EnclaveFailure + json |- _ => destruct res end; updates_step; try done.
  destruct (negb _); updates_step; done.
Qed.

Lemma withdraw_no_tx wl receipt rpc explorer id d : wallet_encodes wl →
  all_updates no_tx (withdraw cfg id (Some wl) receipt rpc explorer d).
Proof.
  intros Hwl. pose proof (withdraw_fails wl receipt rpc explorer id d Hwl) as Hus. unfold all_updates. cbn zeta in Hus.
  destruct receipt, (auth_held d), id; try (rewrite Hus; constructor). destruct Hus as [m ->]. by repeat constructor.
Qed.
End facts.

(** ** Properties *)

(** C9: the page shows no other terms than the stream's: for every stream of a
    deployed vault, whatever the enclave, the explorer and the wallet answer, and
    however loads, unlocks, withdrawals and ticks interleave, as long as the RPC
    endpoint serves states of the vault, the terms on the page were decoded from
    bytes that hash to the commitment on chain, and the record shown has the
    stream's parties, token and commitment. *)
Theorem shown_terms_authentic `{JsEngine, EvmLaws, Viem, !ViemLaws, Erc20, !Erc20Laws}
    net w0 cs0 w1 cfg id ms d :
  fresh net w0 → vrun net w0 cs0 w1 → s_employer (stream_at (vault w1) id) ≠ 0 →
  dash_reachable cfg (Some id) (serves_later cfg net w1) (λ _, True) ms d →
  (∀ t, d_terms d = Some t → authentic (s_commitment (stream_at (vault w1) id)) t) ∧
  (∀ s, d_stream d = Some s → genuine (stream_at (vault w1) id) s).
Proof.
  intros Hf Hr He Hd. pose proof (fresh_run_ok net w0 cs0 w1 Hf Hr) as Hok.
  set (s1 := stream_at (vault w1) id) in *.
  revert Hd. apply (ui_invariant dash_update _ (good_update s1) (λ d,
    (∀ t, d_terms d = Some t → authentic (s_commitment s1) t) ∧ ∀ s, d_stream d = Some s → genuine s1 s)); [done| |].
  - intros u d0 Hu [Ht Hs]. destruct u; cbn [d_terms d_stream dash_update]; try done.
    + split; [done|]. intros s ->. exact Hu.
    + split; [|done]. intros t ->. exact Hu.
  - intros d0 us [_ Hs] Hc. destruct Hc as [ms'|rpc explorer Hrpc|address wl url fetch ms1 ms2 _ _|wl receipt rpc explorer _ Hrpc _].
    + by repeat constructor.
    + by apply (loadChain_good cfg net).
    + by apply unlock_good.
    + by apply (withdraw_good cfg net).
Qed.

(** every handler ends: whatever the wallet, the enclave, the RPC endpoint and
    the explorer answer or throw, a load, an unlock and a withdrawal return without
    an exception, and the latter two leave the page idle, with neither the busy flag
    nor a status, or did nothing. *)
Theorem handlers_settle `{JsEngine, Viem} cfg id rpc explorer wl url fetch ms ms' receipt d :
  (loadChain cfg id rpc explorer).2 = Ret tt ∧
  settles (unlock cfg id wl url fetch ms ms' d) ∧
  settles (withdraw cfg id wl receipt rpc explorer d).
Proof.
  split; [apply loadChain_returns|]. split; [apply unlock_settles|apply withdraw_settles].
Qed.

(** no withdrawal leaves this page: its ABI of the vault has no [withdraw], so
    with wallets that encode calls by the ABI they are given the page never has a
    withdrawal transaction, in any reachable state, and clicking Withdraw only
    records a failure and keeps the authorization. *)
Theorem page_never_withdraws `{JsEngine, Viem} cfg id ms d wl receipt rpc explorer :
  wallet_encodes wl →
  dash_reachable cfg id (λ _, True) wallet_encodes ms d →
  d_withdrawTx d = None ∧
  (can_withdraw d = true → id ≠ None →
   let d' := run_updates dash_update (withdraw cfg id (Some wl) (Some receipt) rpc explorer d).1 d in
   (∃ m, d_failure d' = Some (Rejected m)) ∧ d_withdrawTx d' = None ∧ d_auth d' = d_auth d).
Proof.
  intros Hwl Hd.
  assert (d_withdrawTx d = None) as Htx.
  { revert Hd. apply (ui_invariant dash_update _ no_tx (λ d, d_withdrawTx d = None)); [done| |].
    - intros u d0 Hu Hi. by destruct u.
    - intros d0 us _ Hc. destruct Hc as [ms'|rpc' ex _|address wl' url fetch ms1 ms2 _ _|wl' rc rpc' ex _ _ Hwl'].
      + by repeat constructor.
      + apply loadChain_no_tx.
      + apply unlock_no_tx.
      + by apply withdraw_no_tx. }
  split; [done|]. intros Hcan Hid. cbn zeta.
  pose proof (withdraw_fails cfg wl (Some receipt) rpc explorer id d Hwl) as Hus. cbn zeta in Hus.
  unfold can_withdraw in Hcan. destruct (auth_held d) as [auth|] eqn:Ea; [|by rewrite andb_false_r in Hcan].
  destruct id as [i|]; [|done]. destruct Hus as [m ->]. cbn. split; [by eexists|]. by split.
Qed.

(** A page on which a party can unlock: the record and the sealed terms of the
    stream are loaded, the enclave holds the key they are sealed to, and the wallet
    signs for the employer or the recipient, by a clock near the enclave's. *)
Record unlockable `{JsEngine, EvmLaws, Viem, !ViemLaws, Ecies, !EciesLaws} (cfg : ChainConfig) (env : Env)
    (t : StreamTerms) (tee : account) (id signed_ms : Z) (wl : WalletClient) (d : Dash) : Prop := {
  un_env : env_ok env;
  un_terms : terms_ok t;
  un_cfg : isAddress (VAULT_ADDRESS cfg) = true ∧ uint_range 256 (CHAIN_ID cfg) ∧ uint_range 256 id;
  un_stream : ∃ s, d_stream d = Some s ∧ commitTo t = Ret (o_commitment s);
  un_sealed : ∃ ke ks rnd c, env_truthy (TEE_ECIES_PRIVKEY env) = Some ke ∧
    env_truthy (TEE_SIGNER_PRIVKEY env) = Some ks ∧ privateKeyToAccount ks = Ret tee ∧
    encrypt (ecies_public ke) rnd (abi_encode (terms_words t)) = Ret c ∧ d_sealed d = Some (bytesToHex c);
  un_wallet : ∃ a, (∀ m, wallet_sign wl m = signMessage a m) ∧
    (hex_value (account_address a) = hex_value (employer t) ∨
     hex_value (account_address a) = hex_value (recipient t));
  un_tags : WITHDRAW_TAG ≠ SETTLE_TAG;
  un_clock : 0 ≤ clock signed_ms ∧ Z.abs (clock signed_ms - now_sec env) ≤ 300;
}.

Section unlocking.
Context `{JsEngine, EvmLaws, Viem, !ViemLaws, Ecies, !EciesLaws}.

(** The request such a page makes is honest. *)
Lemma unlockable_honest cfg env t tee id signed_ms wl d : unlockable cfg env t tee id signed_ms wl d →
  ∃ s sealed challenge sig, d_stream d = Some s ∧ o_commitment s = bytesToHex (keccak (abi_encode (terms_words t))) ∧
    env_truthy (d_sealed d) = Some sealed ∧
    buildCallerChallenge {| cp_chainId := CHAIN_ID cfg; cp_vault := VAULT_ADDRESS cfg; cp_streamId := id;
      cp_commitment := o_commitment s; cp_purpose := WITHDRAW_TAG; cp_issuedAt := clock signed_ms |} = Ret challenge ∧
    wallet_sign wl challenge = Ret sig ∧
    let req := unlock_request cfg s sealed id (clock signed_ms) sig in
    request_units req ∧
    honest env WITHDRAW_TAG (payload (JObj (request_fields req))) req t tee (CHAIN_ID cfg) id.
Proof.
  intros [Henv Ht (Hv & Hch & Hid) (s & Hs & Hcm) (ke & ks & rnd & c & Hke & Hks & Htee & Henc & Hsealed)
    (a & Hwl & Hparty) Htags [Hc0 Hskew]].
  pose proof (commitTo_hash t Ht) as Hcm'. rewrite Hcm in Hcm'. injection Hcm' as Hcm'.
  assert (hex_value (account_address a) = hex_value (employer t) ∨
    (WITHDRAW_TAG ≠ SETTLE_TAG ∧ hex_value (account_address a) = hex_value (recipient t))) as Hp
    by (destruct Hparty; auto).
  destruct (challenge_honest env WITHDRAW_TAG t tee a (VAULT_ADDRESS cfg) (bigint_to_string (CHAIN_ID cfg))
    (CHAIN_ID cfg) id (clock signed_ms) ke ks rnd c ltac:(by left) Henv Ht Hke Hks Htee Henc Hv (bigint_units _)
    (BigInt_to_string _) Hch Hid Hc0 Hskew Hp) as (raw & sig & Hraw & Hsig & Hu & Hh).
  exists s, (bytesToHex c), raw, sig. split; [done|]. split; [done|]. split.
  { rewrite Hsealed. by rewrite bytesToHex_digits. }
  unfold unlock_request. rewrite Hcm'. split; [exact Hraw|]. split; [by rewrite Hwl|]. split; [exact Hu|exact Hh].
Qed.
End unlocking.

(** The updates of an unlock that succeeds. *)
Lemma unlock_success `{JsEngine, Viem} cfg wl url fetch ms ms' id d s sealed challenge sig auth h k terms :
  d_stream d = Some s → env_truthy (d_sealed d) = Some sealed →
  buildCallerChallenge {| cp_chainId := CHAIN_ID cfg; cp_vault := VAULT_ADDRESS cfg; cp_streamId := id;
    cp_commitment := o_commitment s; cp_purpose := WITHDRAW_TAG; cp_issuedAt := clock ms |} = Ret challenge →
  wallet_sign wl challenge = Ret sig →
  requestAuthorization url fetch ms' (JObj (request_fields (unlock_request cfg s sealed id (clock ms) sig)))
    (js "AUTH_WITHDRAW") = Ret (inr auth) →
  auth_field auth (js "terms") = Ret h → keccak256 h = Ret k → same_text k (o_commitment s) = true →
  decodeTerms h = Ret terms →
  (unlock cfg (Some id) (Some wl) url fetch ms ms' d).1 =
    [SetBusy true; SetFailure None; SetStatus (Some (js "Waiting for your signature" ++ [0x2026]));
     SetStatus (Some (js "Asking the enclave" ++ [0x2026])); SetTerms (Some terms); SetAuth (Some auth);
     SetStatus None; SetBusy false].
Proof.
  intros Hs Hsealed Hch Hsig Hask Hh Hk Hsame Hdec.
  unfold unlock. rewrite Hs, Hsealed. unfold act_finally, act_catch, act_bind, await, set_state. cbn [fst snd].
  rewrite Hch. cbn [fst snd]. rewrite Hsig. cbn [fst snd]. rewrite Hask. cbn [fst snd]. rewrite Hh. cbn [fst snd].
  rewrite Hk. cbn [fst snd]. rewrite Hsame. cbn [negb fst snd]. rewrite Hdec. done.
Qed.

Lemma authorization_terms `{Viem} req t now sg :
  auth_field (authorization req t now sg) (js "terms") = Ret (bytesToHex (abi_encode (terms_words t))).
Proof. reflexivity. Qed.

(** Unlocking with a party's wallet and the enclave's own server at the other end. *)
Lemma unlock_result `{JsEngine, EvmLaws, Viem, !ViemLaws, Ecies, !EciesLaws}
    srv env origin st url cfg t tee id signed_ms asked_ms wl d :
  main_server = Ret srv → unlockable cfg env t tee id signed_ms wl d → date_ok asked_ms →
  let d' := run_updates dash_update
    (unlock cfg (Some id) (Some wl) url (deliver srv env origin st) signed_ms asked_ms d).1 d in
  ∃ req sg, d_terms d' = Some (canonical t) ∧
    d_auth d' = Some (authorization req t (now_sec env) sg) ∧
    d_failure d' = None ∧ d_status d' = None ∧ d_busy d' = false ∧
    d_stream d' = d_stream d ∧ d_meta d' = d_meta d ∧
    (∀ ms, accrued (dash_update (SetNow (clock ms)) d') = Some (accruedAt t (clock ms))) ∧
    signed_by tee [hex_value WITHDRAW_TAG; CHAIN_ID cfg; hex_value (VAULT_ADDRESS cfg); id;
      be_value (keccak (abi_encode (terms_words t))); accruedAt t (now_sec env); now_sec env + 600] sg.
Proof.
  intros Hm Hu Hn. pose proof (un_terms _ _ _ _ _ _ _ _ Hu) as Ht. pose proof (un_env _ _ _ _ _ _ _ _ Hu) as Henv.
  destruct (unlockable_honest _ _ _ _ _ _ _ _ Hu) as (s & sealed & challenge & sig & Hs & Hcm & Hsealed & Hch & Hsig & Hunits & Hh).
  cbn zeta in *. change (js "AUTH_WITHDRAW") with OP_COMMAND_AUTH_WITHDRAW in *.
  set (req := unlock_request _ _ _ _ _ _) in *.
  destruct (honest_granted _ _ _ _ _ _ _ _ Hh) as (sg & Hsteps & Hsg).
  destruct (asked_granted srv env origin st url OP_COMMAND_AUTH_WITHDRAW WITHDRAW_TAG req asked_ms Hm
    ltac:(by left) Henv Hunits Hn _ Hsteps) as [_ Hasked].
  pose proof (authorization_terms req t (now_sec env) sg) as Hf.
  pose proof (keccak256_hex _ (abi_encode_bytes (terms_words t))) as Hk.
  assert (same_text (bytesToHex (keccak (abi_encode (terms_words t)))) (o_commitment s) = true) as Hsame
    by (rewrite Hcm; apply str_eqb_refl).
  rewrite (unlock_success cfg wl url _ signed_ms asked_ms id d s sealed challenge sig _ _ _ _ Hs Hsealed Hch Hsig
    Hasked Hf Hk Hsame (decode_terms_words t Ht)).
  exists req, sg. cbn [run_updates foldl dash_update d_terms d_auth d_failure d_status d_busy d_stream d_meta].
  do 7 (split; [done|]). split; [|exact Hsg]. intros ms. unfold accrued.
  cbn [run_updates foldl dash_update d_terms d_now fmap option_fmap option_map]. by rewrite accruedAt_canonical.
Qed.

(** ** A concrete page *)

#[local] Existing Instance plain_engine.

(** The recipient's page for the stream of EndToEnd.v, loaded. *)
Definition demo_chain : ChainConfig := {| CHAIN_ID := 114; RPC_URL := []; EXPLORER := [];
  VAULT_ADDRESS := demo_vault; DEMO_STREAM_ID := 1; DEMO_REVEAL_BLOCK := 0 |}.
Definition demo_wallet (a : Z) : WalletClient :=
  {| wallet_sign := signMessage (demo_account a); writeContract _ := Throw (PlainError (js "AbiFunctionNotFoundError")) |}.
Definition demo_page : Dash := {|
  d_stream := Some {| o_employer := address_hex 225; o_recipient := address_hex 226; o_token := address_hex 5;
    o_commitment := demo_commitment; o_funded := 500; o_withdrawn := 0; o_startTime := 1000; o_cancelled := false |};
  d_meta := Some (6, js "USD"); d_sealed := Some (bytesToHex demo_cipher); d_chainError := None; d_terms := None;
  d_auth := None; d_status := None; d_failure := None; d_busy := false; d_withdrawTx := None; d_now := 1400 |}.

Lemma demo_unlockable : unlockable demo_chain demo_env demo_terms (demo_account 238) 1 1400000 (demo_wallet 226) demo_page.
Proof.
  split.
  - exact demo_env_ok.
  - exact demo_terms_ok.
  - split; [reflexivity|split; cbn; lia].
  - eexists. split; [reflexivity|]. vm_compute. reflexivity.
  - exists demo_key, demo_signer, [], demo_cipher. split; [reflexivity|]. split; [reflexivity|].
    split; [vm_compute; reflexivity|]. split; [vm_compute; reflexivity|reflexivity].
  - exists (demo_account 226). split; [done|]. right. vm_compute. reflexivity.
  - apply (bool_decide_eq_false_1 _). vm_compute. reflexivity.
  - split; [vm_compute; discriminate|vm_compute; discriminate].
Qed.

(** The page of the stream of Chain.v, after a load. *)
Definition toy_loaded : Dash := run_updates dash_update
  (loadChain toy_chain (Some 1) (toy_rpc toy_chain (after toy_audit) 60 toy_blocks) toy_explorer).1 (initial_dash 0).

Lemma shown_terms_authentic_witness :
  ∃ s, d_stream toy_loaded = Some s ∧ o_commitment s = bytesToHex (word toy_commitment) ∧
    d_sealed toy_loaded = Some (js "0x0708").
Proof.
  assert (vrun toy_net toy_world toy_audit (after toy_audit)) as Hr by (apply toy_run; vm_compute; reflexivity).
  destruct (shown_terms_authentic (H:=plain_engine) toy_net toy_world toy_audit (after toy_audit) toy_chain 1 0 toy_loaded
    toy_fresh Hr) as [_ Hs].
  - vm_compute. discriminate.
  - apply ui_reachable_run; [by exists []|]. apply call_load. exists [], (after toy_audit), 60, toy_blocks.
    split; [constructor|exact toy_serves].
  - destruct (d_stream toy_loaded) as [s|] eqn:E; [|vm_compute in E; discriminate E].
    exists s. split; [reflexivity|]. destruct (Hs s eq_refl) as (_ & _ & _ & ->).
    split; vm_compute; reflexivity.
Defined.

(** The page of [demo_page] as it comes about: a load, an unlock by the recipient
    and a tick. *)
Definition demo_rpc : Rpc := {|
  rpc_streams _ _ := Ret (address_hex 225, address_hex 226, address_hex 5, demo_commitment, 500, 0, 1000, false);
  rpc_decimals _ := Ret 6; rpc_symbol _ := Ret (js "USD"); rpc_block_number := Ret 1; rpc_revealed _ _ _ _ := Ret [] |}.
Definition demo_log : RawLog := {|
  l_topics := [STREAM_CREATED_TOPIC; bytesToHex (word 1); bytesToHex (word 225); bytesToHex (word 226)];
  l_data := bytesToHex (word 5 ++ hex_bytes demo_commitment ++ word 1000 ++ word 128
    ++ word (Z.of_nat (length demo_cipher)) ++ pad32 demo_cipher);
  l_blockNumber := js "0x1" |}.
Definition demo_explorer : Explorer := λ _,
  Ret {| x_http := 200; x_status := js "1"; x_result := Some [demo_log] |}.
Definition demo_net : jsstr → jsstr → outcome FetchResponse :=
  match demo_server with
  | Ret srv => deliver srv demo_env None init_state
  | Throw e => λ _ _, Throw e
  end.
Definition demo_loaded : Dash :=
  run_updates dash_update (loadChain demo_chain (Some 1) demo_rpc demo_explorer).1 (initial_dash 1400000).
Definition demo_unlocked : Dash := run_updates dash_update
  (unlock demo_chain (Some 1) (Some (demo_wallet 226)) [] demo_net 1400000 1400000 demo_loaded).1 demo_loaded.
Definition demo_shown : Dash := run_updates dash_update [SetNow (clock 1500000)] demo_unlocked.

Lemma demo_clickable : can_unlock (Some (address_hex 226)) demo_loaded = true ∧ can_withdraw demo_shown = true.
Proof. split; vm_compute; reflexivity. Qed.

Section demo_reachable.
Context (rpc_ok : Rpc → Prop) (wallet_ok : WalletClient → Prop) (Hr : rpc_ok demo_rpc) (Hw : wallet_ok (demo_wallet 226)).
#[local] Notation reachable := (dash_reachable demo_chain (Some 1) rpc_ok wallet_ok 1400000).

Lemma demo_loaded_reachable : reachable demo_loaded.
Proof using Hr. unfold demo_loaded. apply ui_reachable_run; [by exists []|]. by apply call_load. Qed.

Lemma demo_unlocked_reachable : reachable demo_unlocked.
Proof using Hr Hw.
  unfold demo_unlocked. apply ui_reachable_run; [exact demo_loaded_reachable|].
  apply call_unlock with (Some (address_hex 226)); [exact (proj1 demo_clickable)|exact Hw].
Qed.

Lemma demo_shown_reachable : reachable demo_shown.
Proof using Hr Hw.
  unfold demo_shown. apply ui_reachable_run; [exact demo_unlocked_reachable|]. apply call_tick.
Qed.
End demo_reachable.

Lemma page_never_withdraws_witness :
  d_withdrawTx demo_shown = None ∧
  ∃ m, d_failure (run_updates dash_update (withdraw demo_chain (Some 1) (Some (demo_wallet 226))
    (Some (λ _, Throw (PlainError []))) demo_rpc demo_explorer demo_shown).1 demo_shown) = Some (Rejected m).
Proof.
  assert (wallet_encodes (demo_wallet 226)) as Hw by (intros c _; by eexists).
  destruct (page_never_withdraws (H:=plain_engine) demo_chain (Some 1) 1400000 demo_shown (demo_wallet 226)
    (λ _, Throw (PlainError [])) demo_rpc demo_explorer Hw
    (demo_shown_reachable (λ _, True) wallet_encodes I Hw)) as [Htx Hclick].
  split; [exact Htx|]. destruct (Hclick (proj2 demo_clickable)) as [Hm _]; [discriminate|exact Hm].
Defined.
