(* ===== verification/AuditPages.v ===== *)
(** * The audit pages ([frontend/app/page.tsx], [frontend/app/verify/[id]/page.tsx])

    The landing page, which reloads the demo stream and its revealed terms and checks
    them, and the public audit record, which checks terms that are given in the link,
    revealed on chain or pasted.  Both read only the chain; the endpoint is an
    argument of each load.  [isHex] is viem's.

    Lemmas: a load keeps what was revealed; the verdict is the comparison with the
    vault's commitment.  Theorem: terms with the verdict "match" are the ones every
    payout of the stream is computed from.  What the pages render is in LandingView.v
    and RecordView.v. *)

From S2P Require Import Prelude JsString JsNumber Utf8 Json JsonFacts Encoding Wire Framework Abi Instances Protocol StreamHandlers StreamProps Handlers Server EnclaveClient Vault VaultFacts VaultProps EndToEnd Chain Pages.
#[local] Open Scope act_scope.

(** ** The landing page *)

Record Loaded := {
  ld_stream : OnChainStream;
  ld_terms : option StreamTerms;
  ld_commitmentVerified : bool;
  ld_decimals : Z;
  ld_symbol : jsstr;
}.

Record Landing := { la_data : option Loaded; la_error : option jsstr; la_now : Z }.

Inductive LandingUpdate : Type :=
| SetData (v : option Loaded)
| SetLandingError (v : option jsstr)
| SetLandingNow (v : Z).

Definition landing_update (u : LandingUpdate) (s : Landing) : Landing := {|
  la_data := match u with SetData v => v | _ => la_data s end;
  la_error := match u with SetLandingError v => v | _ => la_error s end;
  la_now := match u with SetLandingNow v => v | _ => la_now s end;
|}.

Definition initial_landing (ms : Z) : Landing := {| la_data := None; la_error := None; la_now := clock ms |}.

Section audit.
Context `{JsEngine, Viem} (cfg : ChainConfig).

(** The check of revealed terms: whether they match, and what they decode to. *)
Definition check_terms (stream : OnChainStream) (termsHex : option jsstr) : outcome (bool * option StreamTerms) :=
  match env_truthy termsHex with
  | None => Ret (false, None)
  | Some h =>
      k ← keccak256 h;
      if same_text k (o_commitment stream) then t ← decodeTerms h; Ret (true, Some t)
      else Ret (false, None)
  end.

(** [Promise.all] of the two reads: rejected when either is. *)
Definition load (rpc : Rpc) : act LandingUpdate unit :=
  act_catch
    (do! stream := await (readStream cfg rpc (DEMO_STREAM_ID cfg)) in
     do! meta := await (readTokenMeta rpc (o_token stream)) in
     do! termsHex := await (readRevealedTerms cfg rpc (DEMO_STREAM_ID cfg)) in
     do! checked := await (check_terms stream termsHex) in
     set! SetData (Some {| ld_stream := stream; ld_terms := checked.2; ld_commitmentVerified := checked.1;
       ld_decimals := meta.1; ld_symbol := meta.2 |}) in
     set_state (SetLandingError None))
    (λ e, set_state (SetLandingError (Some (error_text e)))).

Definition landing_accrued (s : Landing) : option Z :=
  d ← la_data s; t ← ld_terms d; Some (accruedAt t (la_now s)).

(** ** The audit record *)

Inductive Verdict : Type := match_ | mismatch | absent.

#[export] Instance Verdict_eq_dec : EqDecision Verdict.
Proof. solve_decision. Defined.

Record Verify := {
  v_stream : option OnChainStream;
  v_meta : option (Z * jsstr);
  v_termsHex : jsstr;
  v_error : option jsstr;
  v_loading : bool;
}.

Definition initial_verify : Verify :=
  {| v_stream := None; v_meta := None; v_termsHex := []; v_error := None; v_loading := true |}.

Inductive VerifyUpdate : Type :=
| SetVStream (v : option OnChainStream)
| SetVMeta (v : option (Z * jsstr))
| SetTermsHex (v : jsstr)
| SetVError (v : option jsstr)
| SetLoading (v : bool).

Definition verify_update (u : VerifyUpdate) (s : Verify) : Verify := {|
  v_stream := match u with SetVStream v => v | _ => v_stream s end;
  v_meta := match u with SetVMeta v => v | _ => v_meta s end;
  v_termsHex := match u with SetTermsHex v => v | _ => v_termsHex s end;
  v_error := match u with SetVError v => v | _ => v_error s end;
  v_loading := match u with SetLoading v => v | _ => v_loading s end;
|}.

(** The first effect: the record on chain. *)
Definition load_record (streamId : option Z) (rpc : Rpc) : act VerifyUpdate unit :=
  match streamId with
  | None => set! SetVError (Some (js "Not a valid stream id.")) in set_state (SetLoading false)
  | Some id =>
      act_finally (act_catch
        (do! s := await (readStream cfg rpc id) in
         if str_eqb (o_employer s) ZERO_ADDRESS then
           set! SetVError (Some (js "Stream #" ++ bigint_to_string id ++ js " does not exist in this vault.")) in
           set_state (SetVStream None)
         else
           set! SetVStream (Some s) in
           do! m := await (readTokenMeta rpc (o_token s)) in
           set_state (SetVMeta (Some m)))
        (λ e, set_state (SetVError (Some (error_text e))))) (SetLoading false)
  end.

(** The second effect: the terms of the link ([fromUrl]), else the pinned reveal. *)
Definition seed_terms (streamId : option Z) (fromUrl : option jsstr) (rpc : Rpc) : act VerifyUpdate unit :=
  match env_truthy fromUrl with
  | Some t => set_state (SetTermsHex t)
  | None =>
      match streamId with
      | Some id =>
          if id =? DEMO_STREAM_ID cfg then
            do! t := await (readRevealedTerms cfg rpc id) in
            match env_truthy t with Some h => set_state (SetTermsHex h) | None => done_with tt end
          else done_with tt
      | None => done_with tt
      end
  end.

Section verdict.
Context (isHex : jsstr → bool).

Definition trimmed (s : Verify) : jsstr := trim (v_termsHex s).
Definition termsValid (s : Verify) : bool := (2 <? str_length (trimmed s)) && isHex (trimmed s).

Definition computed (s : Verify) : option jsstr :=
  if termsValid s then
    match keccak256 (trimmed s) with Ret k => Some k | Throw _ => None end
  else None.

Definition verdict (s : Verify) : Verdict :=
  match env_truthy (computed s) with
  | None => absent
  | Some k =>
      match v_stream s with
      | Some stream => if same_text k (o_commitment stream) then match_ else mismatch
      | None => mismatch
      end
  end.

Definition decoded (s : Verify) : option StreamTerms :=
  if decide (verdict s = match_) then
    match decodeTerms (trimmed s) with Ret t => Some t | Throw _ => None end
  else None.
End verdict.
End audit.

(** ** Lemmas *)

Section facts.
Context `{JsEngine, EvmLaws, Viem, !ViemLaws, Erc20, !Erc20Laws, Ecies, !EciesLaws}.

Lemma hex_truthy b : env_truthy (Some (bytesToHex b)) = Some (bytesToHex b).
Proof. by rewrite bytesToHex_digits. Qed.

Lemma same_text_refl x : same_text x x = true.
Proof. apply str_eqb_refl. Qed.

(** Comparing the hash of [p] with a commitment of the chain. *)
Lemma same_text_hash p z : uint_range 256 z →
  same_text (bytesToHex (keccak p)) (bytesToHex (word z)) = bool_decide (be_value (keccak p) = z).
Proof.
  intros Hz. unfold same_text. rewrite !bytesToHex_to_lower by (apply keccak_bytes || apply word_bytes).
  case_bool_decide as Hd.
  - apply str_eqb_true. by rewrite <- Hd, hash_word.
  - apply str_eqb_false. intros E. apply Hd. apply bytesToHex_inj in E; [|apply keccak_bytes|apply word_bytes].
    by rewrite E, word_value.
Qed.

(** *** White space around pasted terms *)

Lemma drop_while_app f s t : Forall (λ c, f c = true) s → drop_while f (s ++ t) = drop_while f t.
Proof. induction 1 as [|c s Hc _ IH]; [done|]. cbn. by rewrite Hc. Qed.

Lemma trim_spaced s p q : Forall (λ c, is_js_space c = true) p → Forall (λ c, is_js_space c = true) q →
  Forall (λ c, is_js_space c = false) s → trim (p ++ s ++ q) = s.
Proof.
  intros Hp Hq Hs. destruct (decide (s = [])) as [->|Hne].
  - unfold trim. cbn [app]. rewrite drop_while_app by done. rewrite <- (app_nil_r q), drop_while_app by done. done.
  - unfold trim. rewrite drop_while_app by done.
    destruct s as [|c s]; [done|]. apply Forall_cons in Hs as [Hc Hs]. cbn [app drop_while]. rewrite Hc.
    unfold trim_end. rewrite app_comm_cons, reverse_app, drop_while_app by by apply Forall_reverse.
    assert (Forall (λ c, is_js_space c = false) (reverse (c :: s))) as Hr.
    { apply Forall_reverse. by constructor. }
    destruct (reverse (c :: s)) as [|d r] eqn:E; [by apply (f_equal length) in E; rewrite length_reverse in E|].
    cbn [drop_while]. apply Forall_cons in Hr as [-> _]. by rewrite <- E, reverse_involutive.
Qed.

Lemma hex_no_space b : is_bytes b → Forall (λ c, is_js_space c = false) (bytesToHex b).
Proof.
  intros (_ & Hc & _)%hex_digits_facts. rewrite bytesToHex_digits. repeat constructor.
  eapply Forall_impl; [exact Hc|]. intros c [? _]. by apply hex_digit_not_space.
Qed.

(** viem's [isHex]: [0x] and hex digits. *)
Definition isHex_spec (isHex : jsstr → bool) : Prop :=
  ∀ s, isHex s = starts_with s (js "0x") && forallb is_hex_digit (drop 2 s).

Lemma isHex_bytes isHex b : isHex_spec isHex → is_bytes b → isHex (bytesToHex b) = true.
Proof.
  intros Hi Hb. rewrite Hi. pose proof (hex_shape_hex b Hb) as Hs. unfold hex_shape in Hs.
  apply andb_prop in Hs as [Hs ->]. by apply andb_prop in Hs as [-> _].
Qed.

(** The verdict on the hex of [p], with any white space around it. *)
Lemma verdict_on isHex s p before after z : isHex_spec isHex → is_bytes p → p ≠ [] →
  Forall (λ c, is_js_space c = true) before → Forall (λ c, is_js_space c = true) after →
  v_termsHex s = before ++ bytesToHex p ++ after →
  (∃ os, v_stream s = Some os ∧ o_commitment os = bytesToHex (word z)) → uint_range 256 z →
  trimmed s = bytesToHex p ∧
  verdict isHex s = (if decide (be_value (keccak p) = z) then match_ else mismatch).
Proof.
  intros Hi Hp Hne Hb Ha Ht (os & Hos & Hcm) Hz.
  assert (trimmed s = bytesToHex p) as Et.
  { unfold trimmed. rewrite Ht. apply trim_spaced; [done|done|by apply hex_no_space]. }
  split; [done|]. unfold verdict, computed, termsValid. rewrite Et, isHex_bytes by done.
  assert (2 <? str_length (bytesToHex p) = true) as ->.
  { unfold str_length. rewrite bytesToHex_length by done. apply Z.ltb_lt. destruct p; [done|]. cbn [length]. lia. }
  cbn [andb]. rewrite keccak256_hex by done. rewrite hex_truthy, Hos, Hcm, same_text_hash by done.
  by case_bool_decide; case_decide.
Qed.
Lemma verdict_absent isHex s : Forall (λ c, is_js_space c = true) (v_termsHex s) → verdict isHex s = absent.
Proof.
  intros Hs. pose proof (trim_spaced [] (v_termsHex s) [] Hs ltac:(constructor) ltac:(constructor)) as E.
  rewrite !app_nil_r in E. unfold verdict, computed, termsValid, trimmed. by rewrite E.
Qed.
End facts.

(** ** Properties *)

(** The verdict on terms given as hex, with any white space around: it is the vault's
    own check, and bytes that match decode to the terms they encode. *)
Lemma verdict_correct `{JsEngine, EvmLaws, Viem, !ViemLaws} isHex s p before after w id :
  isHex_spec isHex → is_bytes p → p ≠ [] →
  Forall (λ c, is_js_space c = true) before → Forall (λ c, is_js_space c = true) after →
  v_termsHex s = before ++ bytesToHex p ++ after →
  let st := stream_at (vault w) id in
  s_employer st ≠ 0 → uint_range 256 (s_commitment st) →
  (∃ os, v_stream s = Some os ∧ o_commitment os = bytesToHex (word (s_commitment st))) →
  (verdict isHex s = match_ ↔ returns (revealTerms id p w)) ∧
  (verdict isHex s = mismatch ↔ throws (revealTerms id p w)) ∧
  (∀ t, terms_ok t → p = abi_encode (terms_words t) → verdict isHex s = match_ → decoded isHex s = Some (canonical t)).
Proof.
  intros Hi Hp Hne Hb Ha Ht st He Hz Hos.
  destruct (verdict_on isHex s p before after (s_commitment st) Hi Hp Hne Hb Ha Ht Hos Hz) as [Et Hv].
  assert (revealTerms id p w = if decide (be_value (keccak p) = s_commitment st)
    then Ret (emit (TermsRevealed id p) w) else revert (js "terms do not match commitment")) as ->.
  { unfold revealTerms. fold st. rewrite (proj2 (Z.eqb_neq _ _)) by done. cbn [negb].
    by destruct (Z.eqb_spec (be_value (keccak p)) (s_commitment st)), (decide _). }
  rewrite Hv. split; [|split].
  - case_decide; split; try done; [by eexists|by intros [? ?]].
  - case_decide; split; try done; [by intros [? ?]|by eexists].
  - intros t Hok -> E. unfold decoded. rewrite Hv, Et, decide_True by done. by rewrite decode_terms_words.
Qed.

(** C5: the employer cannot show one set of terms and enforce another: when the
    audit record says "match" for terms [t] of a stream, every withdrawal and every
    settlement of it that ever succeeds pays by the accrual of exactly these terms,
    at a moment at most 600 seconds before the transaction, granted by the enclave
    to one of their parties.  Assumed of the hash: the audited bytes clash with none
    that a granted call opened, and the words that the vault checks with none that a
    granted call signed.  As in [payouts_backed], the enclave's key is assumed to
    have signed this digest only in [authorize]. *)
Theorem audited_terms_enforced `{JsEngine, EvmLaws, Viem, !ViemLaws, Ecies, !EciesLaws, Erc20, !Erc20Laws}
    isHex s p t log net w0 cs w m tagw c w' id acc dl sig :
  isHex_spec isHex → is_bytes p → p ≠ [] → v_termsHex s = bytesToHex p →
  uint_range 256 (s_commitment (stream_at (vault w) id)) →
  (∃ os, v_stream s = Some os ∧ o_commitment os = bytesToHex (word (s_commitment (stream_at (vault w) id)))) →
  verdict isHex s = match_ → decoded isHex s = Some t →
  fresh net w0 → vrun net w0 cs w → call_ok c →
  (tagw, c) ∈ [(WITHDRAW_TAG_word, CWithdraw id acc dl sig); (SETTLE_TAG_word, CCancelStream id acc dl sig)] →
  exec net m c w = Ret w' →
  let ws := vault_words net tagw id (s_commitment (stream_at (vault w) id)) acc dl in
  Forall (λ z, uint_range 256 z) ws →
  (signed_by_tee net (vault w) tagw id (s_commitment (stream_at (vault w) id)) acc dl sig →
     enclave_signed log (keccak (abi_encode ws))) →
  (∀ vs, signed_words log vs → no_clash (abi_encode vs) (abi_encode ws)) →
  (∀ tag q terms now, granted_to_party log tag q terms now → no_clash p q) →
  ∃ tag now, hex_value tag = tagw ∧ op_tag tag ∧ granted_to_party log tag p t now ∧
    acc = accruedAt t now ∧ timestamp m ≤ now + 600 ∧
    s_withdrawn (stream_at (vault w') id) ≤ Z.max (s_withdrawn (stream_at (vault w) id)) (accruedAt t now).
Proof.
  intros Hi Hp Hne Ht Hz Hos Hv Hd Hf Hr Hc Hin E ws Hws Hgen Hnc Hnp.
  destruct (verdict_on isHex s p [] [] _ Hi Hp Hne ltac:(constructor) ltac:(constructor)
    ltac:(by rewrite app_nil_r) Hos Hz) as [Et Hv'].
  rewrite Hv in Hv'. case_decide as Hcm; [clear Hv'|done].
  assert (decodeTerms (bytesToHex p) = Ret t) as Hdt.
  { unfold decoded in Hd. rewrite decide_True, Et in Hd by done. by destruct (decodeTerms _); [injection Hd as <-|]. }
  destruct (payout_signed net w0 cs w m tagw c w' id acc dl sig Hf Hr Hc Hin E) as (Hsig & Hts & Hpaid).
  destruct (enclave_signed_words log ws (Hgen Hsig) Hws Hnc)
    as (tag & q & terms & now & Htag & Hgp & ch & v & st & E').
  unfold ws, vault_words in E'. injection E' as -> _ _ _ Hq -> ->.
  assert (p = q) as <- by (apply (Hnp _ _ _ _ Hgp), hash_value_inj; congruence).
  exists tag, now. assert (terms = t) as -> by (pose proof (gp_terms _ _ _ _ _ Hgp); congruence). done.
Qed.

(** The load of the landing page on an endpoint that serves a reachable vault. *)
Lemma landing_loads `{JsEngine, EvmLaws, Viem, !ViemLaws, Erc20, !Erc20Laws}
    net w0 cs w cfg head blocks rpc t decimals symbol s :
  fresh net w0 → vrun net w0 cs w → serves cfg w head blocks rpc →
  terms_ok t → s_commitment (stream_at (vault w) (DEMO_STREAM_ID cfg)) = be_value (keccak (abi_encode (terms_words t))) →
  (DEMO_REVEAL_BLOCK cfg, TermsRevealed (DEMO_STREAM_ID cfg) (abi_encode (terms_words t))) ∈ blocks →
  0 < DEMO_REVEAL_BLOCK cfg ≤ head →
  (∀ a, rpc_decimals rpc a = Ret decimals) → (∀ a, rpc_symbol rpc a = Ret symbol) →
  (∀ ts, TermsRevealed (DEMO_STREAM_ID cfg) ts ∈ events w → no_clash ts (abi_encode (terms_words t))) →
  let s' := run_updates landing_update (load cfg rpc).1 s in
  la_error s' = None ∧
   ∃ d, la_data s' = Some d ∧ ld_commitmentVerified d = true ∧ ld_terms d = Some (canonical t) ∧
     o_commitment (ld_stream d) = bytesToHex (keccak (abi_encode (terms_words t))) ∧
     o_funded (ld_stream d) = s_funded (stream_at (vault w) (DEMO_STREAM_ID cfg)) ∧
     o_withdrawn (ld_stream d) = s_withdrawn (stream_at (vault w) (DEMO_STREAM_ID cfg)) ∧
     ld_decimals d = decimals ∧ ld_symbol d = symbol.
Proof.
  intros Hf Hr Hs Hok Hcm Hrev Hb Hdec Hsym Hnc. set (id := DEMO_STREAM_ID cfg) in *.
  set (p := abi_encode (terms_words t)) in *.
  destruct (revealed_terms_read net w0 cs w cfg head blocks rpc id Hf Hr Hs) as (r & Er & Hh & Hfound).
  specialize (Hfound p Hrev Hb).
  destruct r as [h|]; [|done]. destruct (Hh h eq_refl) as (ts & -> & Hts & Hin & Hkts).
  assert (ts = p) as -> by (apply (Hnc _ Hin), hash_value_inj; congruence).
  cbn zeta. unfold load, act_catch, act_bind, await, set_state, readStream, readTokenMeta.
  fold id. rewrite (sv_streams _ _ _ _ _ Hs id). cbn [mbind outcome_bind fst snd].
  rewrite Hdec, Hsym. cbn [mbind outcome_bind fst snd]. rewrite Er. cbn [fst snd].
  unfold check_terms. rewrite hex_truthy, keccak256_hex by done. cbn [mbind outcome_bind o_commitment].
  rewrite Hcm, hash_word, same_text_refl. pose proof (decode_terms_words t Hok) as Hdt. fold p in Hdt.
  rewrite Hdt.
  cbn [mbind outcome_bind fst snd]. split; [done|]. by eexists.
Qed.

(** Whatever the endpoint answers, terms are kept only with a commitment that they
    hash to. *)
Lemma load_checked `{JsEngine, Viem} cfg rpc d t' :
  (load cfg rpc).1 = [SetData (Some d); SetLandingError None] → ld_terms d = Some t' →
  ld_commitmentVerified d = true ∧
  ∃ h k, decodeTerms h = Ret t' ∧ keccak256 h = Ret k ∧ to_lower k = to_lower (o_commitment (ld_stream d)).
Proof.
  intros E Ht'. unfold load, act_catch, act_bind, await, set_state in E.
  destruct (readStream cfg rpc _) as [st|e]; [|done]. cbn [fst snd] in E.
  destruct (readTokenMeta rpc _) as [mt|e]; [|done]. cbn [fst snd] in E.
  destruct (readRevealedTerms cfg rpc _) as [th|e]; [|done]. cbn [fst snd] in E.
  unfold check_terms in E. destruct (env_truthy th) as [h|]; [|cbn in E; injection E as <-; done].
  destruct (keccak256 h) as [k|e] eqn:Ek; [|done]. cbn [mbind outcome_bind] in E.
  destruct (same_text k _) eqn:Es; [|cbn in E; injection E as <-; done].
  destruct (decodeTerms h) as [t''|e] eqn:Ed; [|done]. cbn [mbind outcome_bind fst snd app] in E.
  injection E as <-. cbn in Ht' |- *. injection Ht' as <-. split; [done|]. exists h, k.
  split; [done|]. split; [done|]. by apply str_eqb_true.
Qed.

(** ** Concrete pages

    The stream of EndToEnd.v, with its terms revealed in block 40 of 60. *)

#[local] Existing Instance plain_engine.

Definition demo_revealed : list (Msg * Call) := demo_opening ++ [(by_recipient 1002, CRevealTerms 1 demo_plain)].
Definition demo_blocks : list (Z * Event) := zip [30; 31; 40] (events (after demo_revealed)).
Definition demo_endpoint : Rpc := toy_rpc toy_chain (after demo_revealed) 60 demo_blocks.

Lemma demo_revealed_run : vrun toy_net toy_world demo_revealed (after demo_revealed).
Proof. apply toy_run; vm_compute; reflexivity. Qed.

Lemma demo_revealed_events : events (after demo_revealed) =
  [StreamCreated 1 225 226 5 (be_value (keccak demo_plain)) 1000 []; StreamFunded 1 500; TermsRevealed 1 demo_plain].
Proof. vm_compute. reflexivity. Qed.

Lemma demo_serves : serves toy_chain (after demo_revealed) 60 demo_blocks demo_endpoint.
Proof.
  apply toy_rpc_serves; [|rewrite demo_revealed_events|lia].
  - unfold demo_blocks. by rewrite demo_revealed_events.
  - apply List.Forall_cons; [cbn; split; [lia|split; [lia|constructor]]|].
    apply List.Forall_cons; [done|]. apply List.Forall_cons; [apply abi_encode_bytes|constructor].
Qed.

(** viem's [isHex], concretely. *)
Definition toy_isHex (s : jsstr) : bool := starts_with s (js "0x") && forallb is_hex_digit (drop 2 s).

Lemma toy_isHex_ok : isHex_spec toy_isHex.
Proof. intros s. reflexivity. Qed.

(** The audit record of that stream with pasted bytes, between a space and a line feed. *)
Definition demo_record (text : jsstr) : Verify := {|
  v_stream := Some {| o_employer := address_hex 225; o_recipient := address_hex 226; o_token := address_hex 5;
    o_commitment := demo_commitment; o_funded := 500; o_withdrawn := 0; o_startTime := 1000; o_cancelled := false |};
  v_meta := Some (6, js "USD"); v_termsHex := text; v_error := None; v_loading := false |}.

Lemma is_ret_returns {A} (o : outcome A) : is_ret o = true → returns o.
Proof. destruct o; [by eexists|done]. Qed.

Lemma audited_terms_enforced_witness :
  let s := demo_record (bytesToHex demo_plain) in
  ∃ tag now, hex_value tag = WITHDRAW_TAG_word ∧
    granted_to_party [(demo_env, WITHDRAW_TAG, demo_msg 226 WITHDRAW_TAG)] tag demo_plain demo_opened now ∧
    57870 = accruedAt demo_opened now.
Proof.
  pose proof (run_snoc demo_opening demo_withdraw demo_paid) as E.
  pose proof (honest_signed _ _ _ _ _ _ _ _ demo_honest) as Hs.
  destruct (audited_terms_enforced (H:=plain_engine) toy_isHex (demo_record (bytesToHex demo_plain)) demo_plain demo_opened
    [(demo_env, WITHDRAW_TAG, demo_msg 226 WITHDRAW_TAG)] toy_net toy_world demo_opening (after demo_opening)
    (by_recipient 1600) WITHDRAW_TAG_word (CWithdraw 1 57870 2100 demo_signature)
    (after (demo_opening ++ [demo_withdraw])) 1 57870 2100 demo_signature)
    as (tag & now & H1 & _ & H2 & H3 & _).
  - exact toy_isHex_ok.
  - apply abi_encode_bytes.
  - vm_compute. discriminate.
  - reflexivity.
  - vm_compute. split; [discriminate|reflexivity].
  - eexists. split; [reflexivity|]. vm_compute. reflexivity.
  - vm_compute. reflexivity.
  - vm_compute. reflexivity.
  - exact toy_fresh.
  - exact demo_run.
  - cbn. lia.
  - left.
  - exact E.
  - apply words_check. vm_compute. reflexivity.
  - intros _. exact Hs.
  - exact demo_no_clash.
  - intros tag q terms now Hg _. symmetry. exact (honest_bytes _ _ _ _ _ _ _ _ _ _ _ _ demo_honest Hg).
  - exists tag, now. split; [exact H1|]. split; [exact H2|exact H3].
Defined.
