(* ===== verification/Employer.v ===== *)
(** * The employer's page ([frontend/app/app/page.tsx])

    The form, the draft of the terms and its commitment as the page computes them on
    every rendering, and [submit]: seal the terms to the enclave's key, create the
    stream, approve and fund.  Calls of the wallet are recorded in the trace of the
    handler ([Called]).  [parseUnits] is viem's; the clock, the random number and
    what [encrypt] draws are arguments.

    Lemmas: what the page sends, and what the transaction does; the page's own ABIs
    keep it from ever opening a stream; and inputs that the form accepts but viem
    refuses make the rendering throw.  What the page renders is in EmployerView.v. *)

From S2P Require Import Prelude JsString JsNumber Utf8 Json JsonFacts Encoding Wire Framework Abi Instances Protocol StreamHandlers StreamProps Handlers Server EnclaveClient Vault VaultFacts VaultProps EndToEnd Chain Pages.
#[local] Open Scope act_scope.

(** ** The form *)

Definition TEE_ECIES_PUBKEY (env : jsstr → option jsstr) : jsstr :=
  default (js "0307d72d503f4f09a323aeccd1740715537af9e471d9f4d172524d6f6cc431c2e1")
    (env (js "NEXT_PUBLIC_TEE_ECIES_PUBKEY")).

Definition TOKENS : list (jsstr * jsstr) := [
  (js "FXRP", js "0x0b6a3645c240605887a5532109323a3e12273dc7");
  (js "USDT0", js "0xc1a5b41512496b80903d1f32d6dea3a73212e71f")].

Inductive Phase : Type := idle | sealing | creating | approving | funding | done_ | error_.

#[export] Instance Phase_eq_dec : EqDecision Phase.
Proof. solve_decision. Defined.

Record Form := {
  f_recipient : jsstr;
  f_token : jsstr;
  f_perDay : jsstr;
  f_totalCap : jsstr;
  f_fundAmount : jsstr;
  f_phase : Phase;
  f_message : option jsstr;
  f_result : option (jsstr * jsstr);
}.

Definition decimals : Z := 6.

Definition initial_form : Form :=
  {| f_recipient := []; f_token := default [] (TOKENS.*2 !! 1%nat); f_perDay := js "0.25"; f_totalCap := js "100";
     f_fundAmount := js "8"; f_phase := idle; f_message := None; f_result := None |}.

Inductive FormUpdate : Type :=
| SetRecipient (v : jsstr)
| SetToken (v : jsstr)
| SetPerDay (v : jsstr)
| SetTotalCap (v : jsstr)
| SetFundAmount (v : jsstr)
| SetPhase (v : Phase)
| SetMessage (v : option jsstr)
| SetResult (v : option (jsstr * jsstr))
(** No setter: a call of the wallet, for the record. *)
| Called (c : WriteCall).

Definition form_update (u : FormUpdate) (f : Form) : Form := {|
  f_recipient := match u with SetRecipient v => v | _ => f_recipient f end;
  f_token := match u with SetToken v => v | _ => f_token f end;
  f_perDay := match u with SetPerDay v => v | _ => f_perDay f end;
  f_totalCap := match u with SetTotalCap v => v | _ => f_totalCap f end;
  f_fundAmount := match u with SetFundAmount v => v | _ => f_fundAmount f end;
  f_phase := match u with SetPhase v => v | _ => f_phase f end;
  f_message := match u with SetMessage v => v | _ => f_message f end;
  f_result := match u with SetResult v => v | _ => f_result f end;
|}.

Section employer.
Context `{JsEngine, Viem, Ecies}.
Context (cfg : ChainConfig) (pubkey : jsstr) (parseUnits : jsstr → Z → outcome Z).

(** ** The draft *)

(** The salt, made once, when the page is opened. *)
Definition make_salt (ms : Z) (random : jsnum) : jsstr :=
  keccak256_bytes (toBytes (js "sw-" ++ bigint_to_string ms ++ js "-" ++ num_to_string random)).

Definition recipientValid (f : Form) : bool := hex_shape 40 (trim (f_recipient f)).

(** [useMemo]: the terms of the form at the last change, [ms] the clock then. *)
Definition draft (address : option jsstr) (salt : jsstr) (ms : Z) (f : Form) : option StreamTerms :=
  match env_truthy address with
  | Some a =>
      if recipientValid f then
        match (rate ← parseUnits (str_or (f_perDay f) (js "0")) decimals;
               total ← parseUnits (str_or (f_totalCap f) (js "0")) decimals;
               Ret (rate, total)) with
        | Ret (rate, total) => Some {| employer := a; recipient := trim (f_recipient f); token := f_token f;
            ratePerSecond := ratePerDayToScaled rate; total := total; startTime := clock ms; salt := salt |}
        | Throw _ => None
        end
      else None
  | None => None
  end.

(** The commitment; an exception here is one of the rendering. *)
Definition commitment_of (d : option StreamTerms) : outcome (option jsstr) :=
  match d with Some t => c ← commitTo t; Ret (Some c) | None => Ret None end.

(** ** Submitting *)

(** [Array.from(sealed, b => b.toString(16).padStart(2, "0")).join("")]. *)
Definition sealed_hex (sealed : bytes) : jsstr := js "0x" ++ mjoin (byte_hex <$> sealed).

(** The id in the first log of the vault with an id that parses. *)
Fixpoint created_stream_id (logs : list ReceiptLog) : jsstr :=
  match logs with
  | [] => []
  | log :: rest =>
      match rl_topics log with
      | (_ :: _) :: t1 :: _ =>
          if same_text (rl_address log) (VAULT_ADDRESS cfg) then
            match BigInt t1 with Ret n => bigint_to_string n | Throw _ => created_stream_id rest end
          else created_stream_id rest
      | _ => created_stream_id rest
      end
  end.

Definition call_wallet (wl : WalletClient) (c : WriteCall) : act FormUpdate jsstr :=
  ([Called c], writeContract wl c).

Definition ellipsis (s : jsstr) : option jsstr := Some (s ++ [0x2026]).

Definition createStream_call (t : StreamTerms) (commitment encryptedTerms : jsstr) : WriteCall :=
  {| wc_address := VAULT_ADDRESS cfg; wc_abi := VAULT_ABI; wc_functionName := js "createStream";
     wc_args := [AAddr (recipient t); AAddr (token t); AHex commitment; AInt (startTime t); AHex encryptedTerms] |}.

Definition fund_stream (wl : WalletClient) (wait : jsstr → outcome Receipt) (t : StreamTerms)
    (streamId : jsstr) (fund : Z) : act FormUpdate unit :=
  if (0 <? fund) && negb (str_eqb streamId []) then
    set! SetPhase approving in
    set! SetMessage (ellipsis (js "Approving the vault to move your tokens")) in
    do! approveHash := call_wallet wl {| wc_address := token t; wc_abi := ERC20_ABI; wc_functionName := js "approve";
      wc_args := [AAddr (VAULT_ADDRESS cfg); AInt fund] |} in
    do! r1 := await (wait approveHash) in
    set! SetPhase funding in
    set! SetMessage (ellipsis (js "Funding the stream")) in
    do! id := await (BigInt streamId) in
    do! fundHash := call_wallet wl {| wc_address := VAULT_ADDRESS cfg; wc_abi := VAULT_ABI; wc_functionName := js "fund";
      wc_args := [AInt id; AInt fund] |} in
    do! r2 := await (wait fundHash) in
    done_with tt
  else done_with tt.

(** From the receipt of the creation on. *)
Definition after_creation (wl : WalletClient) (wait : jsstr → outcome Receipt) (t : StreamTerms) (f : Form)
    (createHash : jsstr) : act FormUpdate unit :=
  do! rcpt := await (wait createHash) in
  do! ok := await (if str_eqb (rc_status rcpt) (js "success") then Ret tt
                   else Throw (PlainError (js "createStream reverted"))) in
  let streamId := created_stream_id (rc_logs rcpt) in
  do! fund := await (parseUnits (str_or (f_fundAmount f) (js "0")) decimals) in
  do! funded := fund_stream wl wait t streamId fund in
  set! SetPhase done_ in
  set! SetMessage None in
  set_state (SetResult (Some (streamId, createHash))).

Definition submit (walletClient : option WalletClient) (receipt : option (jsstr → outcome Receipt))
    (d : option StreamTerms) (commitment : option jsstr) (rnd : bytes) (f : Form) : act FormUpdate unit :=
  match d, walletClient, receipt, env_truthy commitment with
  | Some t, Some wl, Some wait, Some cm =>
      set! SetResult None in
      act_catch
        (set! SetPhase sealing in
         set! SetMessage (ellipsis (js "Sealing terms to the enclave key")) in
         do! termsHex := await (encodeTerms t) in
         do! plain := await (from_pairs termsHex) in
         do! sealed := await (encrypt pubkey rnd plain) in
         let encryptedTerms := sealed_hex sealed in
         set! SetPhase creating in
         set! SetMessage (ellipsis (js "Publishing the commitment")) in
         do! createHash := call_wallet wl (createStream_call t cm encryptedTerms) in
         after_creation wl wait t f createHash)
        (λ e, set! SetPhase error_ in set_state (SetMessage (Some (first_line (error_text e)))))
  | _, _, _, _ => done_with tt
  end.

(** ** The button *)

Definition submitting (f : Form) : bool := bool_decide (f_phase f ∈ [sealing; creating; approving; funding]).
Definition wrongChain (isConnected : bool) (chainId : option Z) : bool :=
  isConnected && negb (bool_decide (chainId = Some (CHAIN_ID cfg))).
Definition can_submit (isConnected : bool) (chainId : option Z) (d : option StreamTerms) (f : Form) : bool :=
  negb (negb isConnected || negb (bool_decide (is_Some d)) || submitting f || wrongChain isConnected chainId).
End employer.

(** ** Lemmas *)

Lemma bind_updates {U A B} (m : act U A) (k : A → act U B) :
  (act_bind m k).1 = m.1 ++ match m.2 with Ret a => (k a).1 | Throw _ => [] end.
Proof. unfold act_bind. destruct m as [us [a|e]]; cbn; [done|by rewrite app_nil_r]. Qed.

Lemma catch_updates {U A} (m : act U A) h :
  (act_catch m h).1 = m.1 ++ match m.2 with Ret _ => [] | Throw e => (h e).1 end.
Proof. unfold act_catch. destruct m as [us [a|e]]; cbn; [by rewrite app_nil_r|done]. Qed.

Lemma sealed_hex_bytes b : sealed_hex b = bytesToHex b.
Proof. by rewrite bytesToHex_digits. Qed.

Definition creates (u : FormUpdate) : Prop :=
  match u with Called c => wc_functionName c = js "createStream" | _ => False end.

Section facts.
Context `{JsEngine, EvmLaws, Viem, !ViemLaws, Ecies, !EciesLaws}.
Context (cfg : ChainConfig) (parseUnits : jsstr → Z → outcome Z).

Lemma other_function f : bool_decide (f = js "createStream") = false → f ≠ js "createStream".
Proof. apply bool_decide_eq_false_1. Qed.

Lemma fund_stream_creates_none wl wait t id n :
  all_updates (λ u, ¬ creates u) (fund_stream cfg wl wait t id n).
Proof.
  unfold fund_stream. destruct (_ && _); updates_step; cbn; try tauto;
    (apply List.Forall_cons; [|constructor]); apply other_function; vm_compute; reflexivity.
Qed.

(** The plaintext that is sealed. *)
Lemma sealed_plain t : terms_ok t →
  encodeTerms t = Ret (bytesToHex (abi_encode (terms_words t))) ∧
  from_pairs (bytesToHex (abi_encode (terms_words t))) = Ret (abi_encode (terms_words t)).
Proof.
  intros Ht. split; [by apply terms_abi_words|]. apply from_pairs_hex; [apply abi_encode_bytes|].
  intros E%(f_equal length). by rewrite abi_encode_length in E.
Qed.

Lemma after_creation_creates_none wl wait t f hash :
  all_updates (λ u, ¬ creates u) (after_creation cfg parseUnits wl wait t f hash).
Proof. unfold after_creation. updates_step; cbn; try tauto. apply fund_stream_creates_none. Qed.

(** The trace of a submission up to the creation of the stream, and after. *)
Lemma submit_trace pubkey wl wait t cm rnd c f : terms_ok t → cm ≠ [] →
  encrypt pubkey rnd (abi_encode (terms_words t)) = Ret c →
  let call := createStream_call cfg t cm (bytesToHex c) in
  (submit cfg pubkey parseUnits (Some wl) (Some wait) (Some t) (Some cm) rnd f).1 =
    [SetResult None; SetPhase sealing; SetMessage (ellipsis (js "Sealing terms to the enclave key"));
     SetPhase creating; SetMessage (ellipsis (js "Publishing the commitment")); Called call] ++
    (act_catch (do! hash := await (writeContract wl call) in after_creation cfg parseUnits wl wait t f hash)
      (λ e, set! SetPhase error_ in set_state (SetMessage (Some (first_line (error_text e)))))).1.
Proof.
  intros Ht Hcm Henc call. destruct (sealed_plain t Ht) as [He Hp]. unfold submit.
  assert (env_truthy (Some cm) = Some cm) as -> by by destruct cm.
  rewrite bind_updates, !catch_updates, bind_updates. cbn [set_state await fst snd app].
  unfold act_bind, set_state, await, call_wallet. rewrite He. cbn [fst snd]. rewrite Hp. cbn [fst snd].
  rewrite Henc. cbn [fst snd app]. rewrite sealed_hex_bytes. fold call.
  destruct (writeContract wl call) as [hash|e]; [|done]. cbn [fst snd]. done.
Qed.

Lemma submit_rest_creates_none wl wait t call f : Forall (λ u, ¬ creates u)
  (act_catch (do! hash := await (writeContract wl call) in after_creation cfg parseUnits wl wait t f hash)
    (λ e, set! SetPhase error_ in set_state (SetMessage (Some (first_line (error_text e)))))).1.
Proof.
  change (all_updates (λ u, ¬ creates u) (act_catch (do! hash := await (writeContract wl call) in
    after_creation cfg parseUnits wl wait t f hash)
    (λ e, set! SetPhase error_ in set_state (SetMessage (Some (first_line (error_text e))))))).
  updates_step; cbn; try tauto. apply after_creation_creates_none.
Qed.
(** The enclave opens what was sealed. *)
Lemma sealed_unseals ke rnd c t req : terms_ok t →
  encrypt (ecies_public ke) rnd (abi_encode (terms_words t)) = Ret c →
  encryptedTerms req = bytesToHex c → commitment req = bytesToHex (keccak (abi_encode (terms_words t))) →
  unseal ke req = Ret (inr (bytesToHex (abi_encode (terms_words t)), canonical t)).
Proof.
  intros Ht Henc He Hc. pose proof (encrypt_bytes _ _ _ _ Henc) as Hcb. apply decrypt_encrypt in Henc.
  unfold unseal. rewrite He. cbn [hexToBytes]. rewrite hexToBytes_bytesToHex_str by done.
  cbn [mbind outcome_bind]. rewrite Henc. cbn [mbind outcome_bind attempt step_bind].
  rewrite keccak256_hex by apply abi_encode_bytes. cbn [call mbind outcome_bind step_bind].
  rewrite Hc, bytesToHex_to_lower, str_eqb_refl by apply keccak_bytes.
  by rewrite decode_terms_words.
Qed.

Lemma commitment_shown t cm : terms_ok t → commitment_of (Some t) = Ret (Some cm) →
  cm = bytesToHex (keccak (abi_encode (terms_words t))).
Proof.
  intros Ht E. unfold commitment_of, commitTo in E. rewrite terms_abi_words in E by done.
  cbn [mbind outcome_bind] in E. rewrite keccak256_hex in E by apply abi_encode_bytes. by injection E as <-.
Qed.

(** The draft of a form whose fields viem accepts. *)
Lemma draft_terms_ok address ms0 random ms f r tot : isAddress address = true →
  isAddress (trim (f_recipient f)) = true → isAddress (f_token f) = true →
  parseUnits (str_or (f_perDay f) (js "0")) decimals = Ret r →
  parseUnits (str_or (f_totalCap f) (js "0")) decimals = Ret tot →
  0 ≤ r < 2 ^ 128 → uint_range 256 tot → date_ok ms →
  ∃ t, draft parseUnits (Some address) (make_salt ms0 random) ms f = Some t ∧ terms_ok t ∧
    ratePerSecond t = ratePerDayToScaled r ∧ total t = tot ∧ startTime t = clock ms ∧
    recipient t = trim (f_recipient f).
Proof.
  intros Ha Hr Ht Er Et Rr Rt Hms. unfold draft. pose proof (isAddress_shape _ Ha) as Hsa.
  assert (env_truthy (Some address) = Some address) as -> by (destruct address; [discriminate Hsa|done]).
  unfold recipientValid. rewrite (isAddress_shape _ Hr), Er, Et. cbn [mbind outcome_bind].
  eexists. split; [reflexivity|]. split; [|done]. unfold terms_ok. cbn [employer recipient token ratePerSecond total startTime salt].
  split; [done|]. split; [done|]. split; [done|]. split.
  { unfold ratePerDayToScaled, RATE_SCALE. rewrite Z.quot_div_nonneg by lia.
    split; [apply Z.div_pos; lia|apply Z.div_lt_upper_bound; lia]. }
  split; [exact Rt|]. split.
  { unfold clock. unfold date_ok in Hms. split; [apply Z.div_pos; lia|apply Z.div_lt_upper_bound; lia]. }
  unfold make_salt. rewrite keccak256_bytes_hex. split.
  - apply (hex_shape_of 64); [apply keccak_bytes|]. by rewrite keccak_length.
  - apply bytesToHex_ascii_lower, keccak_bytes.
Qed.
End facts.

(** ** Properties *)

(** The page asks exactly once for a stream to be created, with the commitment that
    it displays and the sealed terms. *)
Lemma sends_once `{JsEngine, EvmLaws, Viem, !ViemLaws, Ecies, !EciesLaws} ke cfg parseUnits wl wait t cm rnd c f :
  terms_ok t → commitment_of (Some t) = Ret (Some cm) →
  encrypt (ecies_public ke) rnd (abi_encode (terms_words t)) = Ret c →
  let call := createStream_call cfg t cm (bytesToHex c) in
  let trace := (submit cfg (ecies_public ke) parseUnits (Some wl) (Some wait) (Some t) (Some cm) rnd f).1 in
  ∃ before rest, trace = before ++ Called call :: rest ∧ Forall (λ u, ¬ creates u) (before ++ rest).
Proof.
  intros Ht Hcm Henc call trace. pose proof (commitment_shown t cm Ht Hcm) as Ecm.
  assert (cm ≠ []) as Hne by (rewrite Ecm, bytesToHex_digits; done).
  unfold trace. rewrite (submit_trace cfg parseUnits (ecies_public ke) wl wait t cm rnd c f Ht Hne Henc). fold call.
  exists [SetResult None; SetPhase sealing; SetMessage (ellipsis (js "Sealing terms to the enclave key"));
   SetPhase creating; SetMessage (ellipsis (js "Publishing the commitment"))]. eexists. split; [reflexivity|].
  apply Forall_app. split; [repeat (apply List.Forall_cons; [by intros []|]); constructor|].
  apply submit_rest_creates_none.
Qed.

(** The call under another ABI. *)
Definition under_abi (abi : list abi_item) (c : WriteCall) : WriteCall :=
  {| wc_address := wc_address c; wc_abi := abi; wc_functionName := wc_functionName c; wc_args := wc_args c |}.

(** The page's own ABI of the vault has no [createStream]. *)
Lemma own_abi_lacks cfg t cm h : call_of (createStream_call cfg t cm h) = None.
Proof. unfold call_of. by rewrite bool_decide_eq_false_2 by (apply (bool_decide_eq_false_1 _); vm_compute; reflexivity). Qed.

(** The transaction that this call is encoded as under an ABI that declares
    [createStream], when it succeeds. *)
Lemma creates_as_shown `{JsEngine, EvmLaws, Viem, !ViemLaws, Ecies, !EciesLaws, Erc20} cfg t cm c abi :
  terms_ok t → commitment_of (Some t) = Ret (Some cm) → is_bytes c → AFunction (js "createStream") ∈ abi →
  ∃ tx, call_of (under_abi abi (createStream_call cfg t cm (bytesToHex c))) = Some tx ∧
   ∀ net m w w', sender m ≠ 0 → exec net m tx w = Ret w' →
     let id := nextStreamId (vault w) in
     events w' = events w ++ [StreamCreated id (sender m) (hex_value (recipient t)) (hex_value (token t))
       (hex_value cm) (startTime t) c] ∧
     bytesToHex (word (s_commitment (stream_at (vault w') id))) = cm ∧
     returns (revealTerms id (abi_encode (terms_words t)) w').
Proof.
  intros Ht Hcm Hc Hf. pose proof (commitment_shown t cm Ht Hcm) as ->.
  rewrite call_of_encoded by exact Hf. eexists. split; [reflexivity|]. intros net m w w' Hm E id. cbn [exec] in E.
  rewrite hex_bytes_hex in E by done. unfold createStream in E. inv_require.
  match goal with H : checked _ _ = Ret _ |- _ => apply checked_Ret in H as [? ->] end.
  cbn [events vault]. rewrite !hex_value_hex by apply keccak_bytes. split; [done|].
  set (v' := {| owner := _ |}). assert (stream_at v' id = {| s_employer := sender m;
    s_recipient := hex_value (recipient t); s_token := hex_value (token t);
    s_commitment := be_value (keccak (abi_encode (terms_words t))); s_funded := 0; s_withdrawn := 0;
    s_startTime := startTime t; s_cancelled := false |}) as Es.
  { unfold stream_at, v', id. cbn [streams]. by rewrite lookup_insert_eq. }
  rewrite Es. cbn [s_commitment]. split; [apply hash_word|].
  eexists. unfold revealTerms. cbn [vault]. fold v'. rewrite Es. cbn [s_employer s_commitment].
  rewrite (proj2 (Z.eqb_neq _ _)), Z.eqb_refl by done. reflexivity.
Qed.

(** no stream is opened from this page: its ABI of the vault has no
    [createStream], so with a wallet that encodes calls by the ABI it is given,
    every submission of a draft ends in the phase "error" with a message and without
    a result, whatever the terms, the seal and the chain. *)
Theorem page_never_opens `{JsEngine, Viem, Ecies} cfg pubkey parseUnits wl wait t cm rnd f :
  wallet_encodes wl → cm ≠ [] →
  let f' := run_updates form_update
    (submit cfg pubkey parseUnits (Some wl) (Some wait) (Some t) (Some cm) rnd f).1 f in
  f_phase f' = error_ ∧ f_result f' = None ∧ is_Some (f_message f') ∧
  f_recipient f' = f_recipient f ∧ f_perDay f' = f_perDay f ∧ f_totalCap f' = f_totalCap f.
Proof.
  intros Hwl Hcm f'.
  assert (∃ us e, (submit cfg pubkey parseUnits (Some wl) (Some wait) (Some t) (Some cm) rnd f).1 =
    SetResult None :: us ++ [SetPhase error_; SetMessage (Some e)] ∧
    Forall (λ u, match u with SetPhase _ | SetMessage _ | Called _ => True | _ => False end) us) as (us & e & E & Hus).
  { unfold submit. assert (env_truthy (Some cm) = Some cm) as -> by by destruct cm.
    rewrite bind_updates, catch_updates. unfold act_bind, set_state, await, call_wallet. cbn [fst snd app].
    destruct (encodeTerms t) as [h|e]; cbn [fst snd app]; [|by eexists [_; _], _; split; [done|repeat constructor]].
    destruct (from_pairs h) as [p|e]; cbn [fst snd app]; [|by eexists [_; _], _; split; [done|repeat constructor]].
    destruct (encrypt pubkey rnd p) as [c|e]; cbn [fst snd app]; [|by eexists [_; _], _; split; [done|repeat constructor]].
    destruct (Hwl (createStream_call cfg t cm (sealed_hex c))) as [e ->];
      [apply (bool_decide_eq_true_1 _); vm_compute; reflexivity|].
    cbn [fst snd app]. by eexists [_; _; _; _; _], _; split; [done|repeat constructor]. }
  unfold f'. rewrite E. unfold run_updates. cbn [foldl]. rewrite foldl_app. cbn [foldl].
  assert (∀ g, let g' := foldl (λ s u, form_update u s) g us in f_result g' = f_result g ∧
    f_recipient g' = f_recipient g ∧ f_perDay g' = f_perDay g ∧ f_totalCap g' = f_totalCap g) as Hk.
  { clear E f'. induction Hus as [|u us Hu _ IH]; intros g; [done|]. cbn [foldl].
    destruct (IH (form_update u g)) as (-> & -> & -> & ->). by destruct u. }
  destruct (Hk (form_update (SetResult None) f)) as (R1 & R2 & R3 & R4). cbn. rewrite R1, R2, R3, R4.
  cbn. by eauto 10.
Qed.

(** an input that passes the form can break the page: with a recipient that has
    the shape of an address but that viem does not take for one (a letter in the
    wrong case), or with a negative rate or cap, there is a draft, and computing its
    commitment, which no handler guards, throws during the rendering. *)
Theorem rendering_throws `{JsEngine, EvmLaws, Viem, !ViemLaws} parseUnits address salt ms f r tot :
  address ≠ [] → recipientValid f = true →
  parseUnits (str_or (f_perDay f) (js "0")) decimals = Ret r →
  parseUnits (str_or (f_totalCap f) (js "0")) decimals = Ret tot →
  isAddress (trim (f_recipient f)) = false ∨ r < 0 ∨ tot < 0 →
  ∃ t, draft parseUnits (Some address) salt ms f = Some t ∧ throws (commitment_of (Some t)).
Proof.
  intros Ha Hr Er Et Hbad. unfold draft.
  assert (env_truthy (Some address) = Some address) as -> by by destruct address.
  rewrite Hr, Er, Et. cbn [mbind outcome_bind]. eexists. split; [reflexivity|].
  set (t := {| employer := _ |}). unfold commitment_of, commitTo.
  cut (throws (encodeTerms t)); [intros [e ->]; by eexists|]. unfold encodeTerms.
  assert (∀ z, z < 0 → negb ((0 <=? z) && (z <? 2 ^ 256)) = true) as Hneg.
  { intros z Hz. by rewrite (proj2 (Z.leb_gt 0 z)) by lia. }
  destruct Hbad as [Hb|[Hb|Hb]].
  - eapply (encode_refused _ _ TAddress); [done|right; left|]. cbn. by rewrite Hb.
  - eapply (encode_refused _ _ (TUint 256)); [done|right; right; right; left|]. apply Hneg.
    cbn. unfold ratePerDayToScaled, RATE_SCALE.
    rewrite <- (Z.opp_involutive (r * 10 ^ 12)), Z.quot_opp_l, Z.quot_div_nonneg by lia.
    assert (1 ≤ - (r * 10 ^ 12) / 86400) by (apply Z.div_le_lower_bound; lia). lia.
  - eapply (encode_refused _ _ (TUint 256)); [done|right; right; right; right; left|]. by apply Hneg.
Qed.

(** ** A concrete form *)

#[local] Existing Instance plain_engine.

(** viem's [parseUnits] on decimals with no more digits than the token has. *)
Definition toy_parseUnits (s : jsstr) (d : Z) : outcome Z :=
  let '(sign, u) := match expect 45 s with Some u => (-1, u) | None => (1, s) end in
  let parts := split_on 46 u in
  let ds := default [] (parts !! 0%nat) ++ take (Z.to_nat d) (default [] (parts !! 1%nat) ++ str_repeat (js "0") (Z.to_nat d)) in
  if forallb is_digit ds then Ret (sign * digits_value 10 ds) else Throw (PlainError (js "InvalidDecimalNumberError")).

Definition refusing_wallet : WalletClient :=
  {| wallet_sign _ := Throw (PlainError []); writeContract _ := Throw (PlainError (js "AbiFunctionNotFoundError")) |}.

Lemma refusing_encodes : wallet_encodes refusing_wallet.
Proof. intros c _. by eexists. Qed.

(** The form as it opens, with a recipient. *)
Definition demo_form (rate : jsstr) : Form := {|
  f_recipient := js " " ++ address_hex 226; f_token := address_hex 5; f_perDay := rate; f_totalCap := js "100";
  f_fundAmount := js "8"; f_phase := idle; f_message := None; f_result := None |}.
Definition demo_salt : jsstr := make_salt 1700000000000 (num_of_Z 0).
Definition demo_draft (rate : jsstr) : option StreamTerms :=
  draft toy_parseUnits (Some (address_hex 225)) demo_salt 1700000000000 (demo_form rate).

Lemma demo_draft_ok : ∃ t, demo_draft (js "0.25") = Some t ∧ terms_ok t ∧ perDay t = 250000 ∧ total t = 100000000.
Proof.
  destruct (draft_terms_ok toy_parseUnits (address_hex 225) 1700000000000 (num_of_Z 0) 1700000000000
    (demo_form (js "0.25")) 250000 100000000) as (t & Et & Hok & Hr & Htot & _).
  1-5: vm_compute; reflexivity.
  1,2: clear; lia.
  - clear. unfold date_ok. lia.
  - exists t. split; [exact Et|]. split; [exact Hok|]. split; [|exact Htot].
    unfold perDay. rewrite Hr. vm_compute. reflexivity.
Qed.

Lemma demo_shown_commitment : commitment_of (Some demo_terms) = Ret (Some demo_commitment).
Proof. vm_compute. reflexivity. Qed.

Lemma demo_sealed : encrypt (ecies_public demo_key) [] (abi_encode (terms_words demo_terms)) = Ret demo_cipher.
Proof. vm_compute. reflexivity. Qed.

Lemma page_never_opens_witness :
  f_phase (run_updates form_update (submit toy_chain (ecies_public demo_key) toy_parseUnits (Some refusing_wallet)
    (Some (λ _, Throw (PlainError []))) (Some demo_terms) (Some demo_commitment) [] (demo_form (js "0.25"))).1
    (demo_form (js "0.25"))) = error_.
Proof.
  apply (page_never_opens (H:=plain_engine) toy_chain (ecies_public demo_key) toy_parseUnits refusing_wallet
    (λ _, Throw (PlainError [])) demo_terms demo_commitment [] (demo_form (js "0.25")) refusing_encodes). vm_compute. discriminate.
Defined.

Lemma rendering_throws_witness :
  ∃ t, demo_draft (js "-0.25") = Some t ∧ throws (commitment_of (Some t)).
Proof.
  apply (rendering_throws toy_parseUnits (address_hex 225) demo_salt 1700000000000 (demo_form (js "-0.25")) (-250000) 100000000).
  - vm_compute. discriminate.
  - vm_compute. reflexivity.
  - vm_compute. reflexivity.
  - vm_compute. reflexivity.
  - right. left. lia.
Defined.
