(* ===== verification/Views.v ===== *)
(** * What the pages render

    The elements a page returns: texts, elements with the attributes that carry
    content, buttons with what a click calls, and inputs with what an edit calls.  A
    child that is [null], [undefined] or a boolean renders nothing.  Left out are
    [type], [key], [target], [rel], [spellCheck] and the class names, of which only
    those that depend on the state are kept.

    Then what can be read off a rendering: its text, its pairs of a term and a
    definition, its links and the buttons that react to a click; and the formatting
    of amounts, rates and dates that the pages share.  viem's [formatUnits] is a
    parameter, known by the number that its result denotes. *)

From S2P Require Import Prelude JsString JsNumber Utf8 Json JsMath JsonFacts Encoding Wire Framework Abi Instances Protocol StreamHandlers Chain Pages.

Inductive view (H : Type) : Type :=
| Txt (s : jsstr)
| El (tag : string) (attrs : list (string * jsstr)) (body : list (view H))
| Button (attrs : list (string * jsstr)) (disabled : bool) (onClick : H) (body : list (view H))
| Edit (tag : string) (attrs : list (string * jsstr)) (value : jsstr) (onChange : jsstr → H).
Arguments Txt {H} _.
Arguments El {H} _ _ _.
Arguments Button {H} _ _ _ _.
Arguments Edit {H} _ _ _ _.

(** ** Building *)

(** A literal text of the source, which is UTF-8. *)
Definition txt (s : string) : jsstr := utf8_decode (js s).
Arguments txt _%_string_scope : simpl never.

(** A text written over several lines: JSX joins them by a space. *)
Fixpoint jsx (ls : list string) : jsstr :=
  match ls with
  | [] => []
  | [l] => txt l
  | l :: ls => txt l ++ 32 :: jsx ls
  end.

Section build.
Context {H : Type}.

Definition T (s : string) : view H := Txt (txt s).
Definition P (ls : list string) : view H := Txt (jsx ls).
Definition el (tag : string) (body : list (view H)) : view H := El tag [] body.

(** [{cond && children}] and [{s}] for an [undefined] or [null] that renders nothing. *)
Definition when (cond : bool) (children : list (view H)) : list (view H) := if cond then children else [].
Definition shown (s : option jsstr) : list (view H) := match s with Some s => [Txt s] | None => [] end.

(** [{s && children}] for a string that may be [null]. *)
Definition when_text (s : option jsstr) (children : jsstr → list (view H)) : list (view H) :=
  match env_truthy s with Some s => children s | None => [] end.

Definition link (href : jsstr) (body : list (view H)) : view H := El "a" [("href", href)] body.

Definition button (disabled : bool) (onClick : H) (body : list (view H)) : view H := Button [] disabled onClick body.

(** [{connectors.slice(0, 1).map((c) => <button …>Connect wallet</button>)}] *)
Definition connect_buttons (connect : jsstr → H) (connectors : list jsstr) : list (view H) :=
  (λ c, button false (connect c) [T "Connect wallet"]) <$> take 1 connectors.

Definition Field (label : string) (children : list (view H)) : view H :=
  el "div" [el "dt" [T label]; el "dd" children].

Definition Mono (children : list (view H)) : view H := el "span" children.
End build.

(** ** Reading *)

Section read.
Context {H : Type}.

(** [Node.textContent]. *)
Fixpoint text (v : view H) : jsstr :=
  match v with
  | Txt s => s
  | El _ _ body | Button _ _ _ body => List.flat_map text body
  | Edit _ _ _ _ => []
  end.
Definition texts (vs : list (view H)) : jsstr := List.flat_map text vs.

(** The pairs of a [dt] and the [dd] after it. *)
Fixpoint dl_pairs (vs : list (view H)) : list (jsstr * jsstr) :=
  match vs with
  | v :: r =>
      match v, r with
      | El dt _ l, El dd _ d :: _ =>
          if String.eqb dt "dt" && String.eqb dd "dd" then (texts l, texts d) :: dl_pairs r else dl_pairs r
      | _, _ => dl_pairs r
      end
  | [] => []
  end.
Fixpoint fields (v : view H) : list (jsstr * jsstr) :=
  match v with
  | El _ _ body => dl_pairs body ++ List.flat_map fields body
  | _ => []
  end.
Definition page_fields (vs : list (view H)) : list (jsstr * jsstr) := List.flat_map fields vs.

(** The sections: their heading and the text below it. *)
Fixpoint sections (v : view H) : list (jsstr * jsstr) :=
  match v with
  | El tag _ body =>
      match body with
      | El h _ title :: rest =>
          if String.eqb tag "section" && String.eqb h "h2" then [(texts title, texts rest)] else List.flat_map sections body
      | _ => List.flat_map sections body
      end
  | _ => []
  end.

(** The buttons that can be clicked: their label and what a click calls. *)
Fixpoint clickable (v : view H) : list (jsstr * H) :=
  match v with
  | Button _ disabled h body => if disabled then [] else [(texts body, h)]
  | El _ _ body => List.flat_map clickable body
  | _ => []
  end.
Definition page_clickable (vs : list (view H)) : list (jsstr * H) := List.flat_map clickable vs.

(** The addresses that are linked to. *)
Fixpoint links (v : view H) : list jsstr :=
  match v with
  | El _ attrs body => List.flat_map (λ kv, if String.eqb kv.1 "href" then [kv.2] else []) attrs ++ List.flat_map links body
  | _ => []
  end.
Definition page_links (vs : list (view H)) : list jsstr := List.flat_map links vs.

Lemma texts_app vs ws : texts (vs ++ ws) = texts vs ++ texts ws.
Proof. apply List.flat_map_app. Qed.
Lemma page_fields_app vs ws : page_fields (vs ++ ws) = page_fields vs ++ page_fields ws.
Proof. apply List.flat_map_app. Qed.
Lemma page_clickable_app vs ws : page_clickable (vs ++ ws) = page_clickable vs ++ page_clickable ws.
Proof. apply List.flat_map_app. Qed.

Lemma page_clickable_when b vs : page_clickable (when b vs) = if b then page_clickable vs else [].
Proof. by destruct b. Qed.
Lemma page_fields_when b vs : page_fields (when b vs) = if b then page_fields vs else [].
Proof. by destruct b. Qed.
End read.

(** ** Amounts *)

(** viem's [formatUnits]: the decimal notation of [v / 10 ^ d]. *)
Definition formats_units (formatUnits : Z → Z → jsstr) : Prop := ∀ v d, 0 ≤ d →
  Number (formatUnits v d) = Some (num_of_decimal (v <? 0) (Z.abs v) (- d)).

Section format.
Context (formatUnits : Z → Z → jsstr).

(** [fmt]: what stands for an amount, given the decimals of the token. *)
Definition fmt (decimals : option Z) (v : option Z) (dp : nat) : jsstr :=
  match v, decimals with
  | Some v, Some d => to_fixed dp (Number (formatUnits v d))
  | _, _ => txt "—"
  end.

(** The rate per day, unrounded. *)
Definition perDay_text (decimals : Z) (t : StreamTerms) : jsstr := formatUnits (perDay t) decimals.
End format.

(** [new Date(Number(startTime) * 1000).toISOString().slice(0, 16).replace("T", " ")]. *)
Definition replace_first (c d : Z) (s : jsstr) : jsstr :=
  match split_on c s with
  | p :: q :: r => p ++ [d] ++ q ++ mjoin (cons c <$> r)
  | _ => s
  end.
Definition started (startTime : Z) : outcome jsstr :=
  iso ← date_iso (num_mul (num_of_Z startTime) (num_of_Z 1000));
  Ret (replace_first 84 32 (slice iso 0 16)).

(** ** Lemmas *)

(** Compute what is read off a rendering. *)
Ltac read_view :=
  cbn [page_fields page_clickable page_links texts fields clickable links text dl_pairs when el Field Mono link button
    T P shown List.flat_map app String.eqb Ascii.eqb Bool.eqb andb negb fst snd];
  rewrite ?app_nil_r.

(** Only a [dt] begins a pair. *)
Definition plain {H} (v : view H) : bool := match v with El tag _ _ => negb (String.eqb tag "dt") | _ => true end.

Lemma dl_pairs_plain {H} (vs : list (view H)) : forallb plain vs = true → dl_pairs vs = [].
Proof.
  induction vs as [|v vs IH]; [done|]. cbn [forallb dl_pairs]. intros [Hv Hvs]%andb_prop.
  destruct v as [s|tag a b|a c h b|tag a s h]; try by apply IH.
  destruct vs as [|w ws]; [done|]. destruct w; try by apply IH.
  cbn [plain] in Hv. apply negb_true_iff in Hv. rewrite Hv. by apply IH.
Qed.

(** Parts that are shown for a text that may be missing. *)
Section when_text.
Context {E : Type} (s : option jsstr) (k : jsstr → list (view E)).

Lemma text_clickable : (∀ x, page_clickable (k x) = []) → page_clickable (when_text s k) = [].
Proof. unfold when_text. by destruct (env_truthy s). Qed.
Lemma text_fields : (∀ x, page_fields (k x) = []) → page_fields (when_text s k) = [].
Proof. unfold when_text. by destruct (env_truthy s). Qed.
Lemma text_plain : (∀ x, forallb plain (k x) = true) → forallb plain (when_text s k) = true.
Proof. unfold when_text. by destruct (env_truthy s). Qed.
End when_text.

Lemma connect_buttons_clickable {H} (connect : jsstr → H) cs :
  List.flat_map clickable (connect_buttons connect cs) = (λ c, (txt "Connect wallet", connect c)) <$> take 1 cs.
Proof. destruct cs as [|c cs]; [done|]. cbn. by rewrite app_nil_r. Qed.

Lemma connect_buttons_fields {H} (connect : jsstr → H) cs : List.flat_map fields (connect_buttons connect cs) = [].
Proof. by destruct cs as [|c cs]. Qed.

Section amounts.
Context (formatUnits : Z → Z → jsstr) (Hf : formats_units formatUnits).

(** [v] units of the last place that is shown, of a token that has [k] more. *)
Lemma fmt_whole v (dp k : nat) : 0 ≤ v < 2 ^ 52 → (0 < dp)%nat → (dp + k ≤ 40)%nat →
  fmt formatUnits (Some (Z.of_nat (dp + k))) (Some (v * 10 ^ Z.of_nat k)) dp = amount_text v dp.
Proof using Hf.
  intros Hv Hd Hk. assert (0 < 10 ^ Z.of_nat k) by (apply Z.pow_pos_nonneg; lia). unfold fmt. rewrite Hf by lia.
  rewrite (proj2 (Z.ltb_ge _ _)), Z.abs_eq by nia. by apply to_fixed_whole.
Qed.

(** Six places of a token with six decimals: every unit. *)
Lemma fmt_six v : 0 ≤ v < 2 ^ 52 → fmt formatUnits (Some 6) (Some v) 6 = amount_text v 6.
Proof using Hf.
  intros Hv. pose proof (fmt_whole v 6 0 Hv ltac:(lia) ltac:(lia)) as E. by rewrite Z.pow_0_r, Z.mul_1_r in E.
Qed.

(** Two places: hundredths. *)
Lemma fmt_two v : 0 ≤ v < 2 ^ 52 → fmt formatUnits (Some 6) (Some (v * 10000)) 2 = amount_text v 2.
Proof using Hf. intros Hv. apply (fmt_whole v 2 4 Hv ltac:(lia) ltac:(lia)). Qed.
End amounts.

(** The start of terms: rendered up to the last date there is. *)
Lemma started_spec t : 0 ≤ t < 2 ^ 180 → started t =
  if t <=? MAX_DATE then Ret (replace_first 84 32 (slice (iso_string (t * 1000)) 0 16))
  else Throw (Error (js "RangeError") (js "Invalid time value")).
Proof. intros Ht. unfold started. rewrite date_iso_seconds by done. by destruct (t <=? MAX_DATE). Qed.

Example started_example : started 1700000000 = Ret (js "2023-11-14 22:13").
Proof. vm_compute. reflexivity. Qed.

(** ** A notation of amounts *)

(** The digits with the point before the last [d]. *)
Definition plain_units (v d : Z) : jsstr :=
  (if v <? 0 then [45] else []) ++ amount_text (Z.abs v) (Z.to_nat d).

Lemma decimal_point neg a b : Forall (λ c, is_digit c = true) a → a ≠ [] → Forall (λ c, is_digit c = true) b →
  decimal_literal neg (a ++ 46 :: b) = Some (num_of_decimal neg (digits_value 10 (a ++ b)) (- Z.of_nat (length b))).
Proof.
  intros Ha Hne Hb. unfold decimal_literal.
  destruct (str_eqb (a ++ 46 :: b) (js "Infinity")) eqn:Ei.
  { destruct a as [|c a]; [done|]. apply str_eqb_true in Ei. injection Ei as -> _. by apply Forall_cons in Ha as [? _]. }
  destruct (take_while_app is_digit a (46 :: b) Ha eq_refl) as [-> ->].
  destruct (take_while_app is_digit b [] Hb I) as [E1 E2]. rewrite app_nil_r in E1, E2.
  cbn [expect]. change (46 =? 46) with true. cbv iota. rewrite E1, E2, bool_decide_eq_false_2 by by destruct a.
  cbn [parse_exp]. done.
Qed.

Lemma plain_units_formats : formats_units plain_units.
Proof.
  intros v d Hd. unfold plain_units, amount_text. set (n := Z.to_nat d).
  set (ds := pad_start (to_radix 10 (Z.abs v)) (S n) 48).
  assert (Forall (λ c, is_digit c = true) ds) as Hds.
  { apply Forall_app. split; [by apply Forall_replicate|apply decimal_digits; lia]. }
  assert (S n ≤ length ds)%nat as Hl by (unfold ds, pad_start; rewrite length_app, length_replicate; lia).
  assert (digits_value 10 ds = Z.abs v) as Hval.
  { unfold ds, pad_start. rewrite digits_value_app, digits_value_zeros, to_radix_value by lia. lia. }
  pose proof (take_drop (length ds - n) ds) as Etd.
  assert (length (drop (length ds - n) ds) = n) as Hlb by (rewrite length_drop; lia).
  destruct (take (length ds - n) ds) as [|c a] eqn:Ea; [apply (f_equal length) in Ea; rewrite length_take in Ea; cbn [length] in Ea; lia|].
  set (b := drop (length ds - n) ds) in *. rewrite <- Etd in Hds.
  apply Forall_app in Hds as [Ha Hb]. change ([46] ++ b) with (46 :: b).
  assert (∀ neg, decimal_literal neg ((c :: a) ++ 46 :: b) = Some (num_of_decimal neg (Z.abs v) (- d))) as Hlit.
  { intros neg. rewrite decimal_point by done. rewrite Etd, Hval, Hlb. by replace (Z.of_nat n) with d by (unfold n; lia). }
  assert (Forall (λ c, is_js_space c = false) ((c :: a) ++ 46 :: b)) as Hsp.
  { apply Forall_app. split; [|constructor; [done|]]; eapply Forall_impl; try done; intros x; apply digit_not_space. }
  pose proof (proj1 (proj1 (Forall_cons _ _ _) Ha)) as Hc. unfold is_digit in Hc. reflect_Z.
  unfold Number. destruct (v <? 0); cbn [app] in *.
  - rewrite trim_digits by (by constructor). cbn [radix_prefix]. change (negb (45 =? 48)) with true.
    change (45 =? 45) with true. cbv iota. apply Hlit.
  - rewrite trim_digits by done. rewrite (proj2 (Z.eqb_neq c 45)), (proj2 (Z.eqb_neq c 43)) by lia.
    assert (radix_prefix (c :: a ++ 46 :: b) = None) as ->; [|apply Hlit].
    destruct a as [|p a]; cbn [app radix_prefix]; destruct (negb (c =? 48)); try done.
    apply Forall_cons in Ha as [_ [Hp _]%Forall_cons]. unfold is_digit in Hp. reflect_Z.
    by rewrite !(proj2 (Z.eqb_neq p _)) by lia.
Qed.
