(* ===== verification/LandingView.v ===== *)
(** * What the landing page renders ([frontend/app/page.tsx])

    The whole page as a function of its state; it has no buttons, so its events are
    the empty type.  Rendering fails when the start of the terms is no date. *)

From S2P Require Import Prelude JsString JsNumber Utf8 Json JsMath Encoding Wire Framework Abi Instances Protocol StreamHandlers StreamProps Handlers Server EnclaveClient Vault VaultFacts VaultProps EndToEnd Chain Pages AuditPages Views.

Definition FAUCET : jsstr := js "https://faucet.flare.network/coston2".
Definition WITHDRAW_TX : jsstr := js "0x347bc3183a47f1f8fbea30f3bc5257bd0181d0f40be308e4bead1ea97a9e4ccb".

Abbreviation page := (view Empty_set).

(** ** Parts *)

Definition Num (children : list page) : page := el "span" children.
Definition Unit (children : list page) : page := el "span" children.
Definition CodeMono (children : list page) : page := el "code" children.

Definition Redacted : page :=
  El "span" [("aria-label", js "not on chain"); ("title", js "not stored on chain")] [T "██████████"].

Definition Step (n : string) (children : list page) : page :=
  el "li" [el "span" [T n]; el "span" children].

Definition Ref (href : jsstr) (children : list page) : page := el "li" [link href children].

Section landing.
Context (cfg : ChainConfig) (formatUnits : Z → Z → jsstr).

Definition landing_fmt (s : Landing) (v : option Z) (dp : nat) : jsstr :=
  fmt formatUnits (ld_decimals <$> la_data s) v dp.

Definition landing_perDay (s : Landing) : option jsstr :=
  d ← la_data s; t ← ld_terms d; Some (perDay_text formatUnits (ld_decimals d) t).

Definition symbol_of (s : Landing) : option jsstr := ld_symbol <$> la_data s.

Definition masthead (s : Landing) : page :=
  el "header" [
    el "div" [T "Flare Confidential Compute · Coston2"];
    el "h1" [T "Private payroll on Flare."];
    el "p" [P ["Stream salaries where the chain proves the payment but never reveals";
      "the amount. Terms are sealed to a confidential compute enclave; only a";
      "commitment reaches the explorer."]];
    el "p" [T "We call this "; el "span" [T "selective transparency"]; P [".";
      "Confidentiality is the default; disclosure is a deliberate choice."]];
    el "dl" ((λ kv, el "div" [el "dt" [Txt kv.1]; el "dd" [Txt kv.2]]) <$> [
      (js "network", js "Coston2");
      (js "chain", bigint_to_string (CHAIN_ID cfg));
      (js "enclave", js "FCC (simulated)");
      (js "asset", default (txt "…") (symbol_of s))])].

Definition chain_sees (s : Landing) : page :=
  el "div" [
    el "h3" [T "What the chain sees"; el "span" [T "· public"]];
    el "dl" [
      Field "commitment" [el "span" [Txt (default (txt "…") (o_commitment ∘ ld_stream <$> la_data s))]];
      Field "funded" [Num [Txt (landing_fmt s (o_funded ∘ ld_stream <$> la_data s) 2)]; T " "; Unit (shown (symbol_of s))];
      Field "withdrawn" [Num [Txt (landing_fmt s (o_withdrawn ∘ ld_stream <$> la_data s) 6)]; T " "; Unit (shown (symbol_of s))];
      Field "recipient" [el "span" [Txt
        match la_data s with Some d => short (o_recipient (ld_stream d)) 6 | None => txt "…" end]];
      Field "rate" [Redacted];
      Field "salary" [Redacted]]].

(** [proof]: what is said of the terms. *)
Definition proof_field (s : Landing) : page :=
  match la_data s with
  | Some d =>
      if ld_commitmentVerified d then el "span" [T "keccak256(terms) == commitment ✓"]
      else el "span" [T "terms not revealed"]
  | None => el "span" [T "…"]
  end.

(** [start] is the rendered date. *)
Definition recipient_sees (s : Landing) (start : jsstr) : page :=
  el "div" [
    el "h3" [T "What the recipient sees"; el "span" [T "· revealed"]];
    el "dl" [
      Field "rate" [Num [Txt (default (txt "…") (landing_perDay s))]; T " "; Unit (shown (symbol_of s) ++ [T "/day"])];
      Field "accrued" [el "span" [Txt (landing_fmt s (landing_accrued s) 6)]; T " "; Unit (shown (symbol_of s))];
      Field "total cap" [Num [Txt (landing_fmt s (total <$> (d ← la_data s; ld_terms d)) 2)]; T " "; Unit (shown (symbol_of s))];
      Field "started" [el "span" [Txt start]];
      Field "proof" [proof_field s]]].

Definition split_panel (s : Landing) (start : jsstr) : page :=
  el "section" (
    [el "div" [
      el "h2" [T "The same stream, two views"];
      el "span" [el "span" []; T "live · stream #"; Txt (bigint_to_string (DEMO_STREAM_ID cfg))]]]
    ++ when_text (la_error s) (λ error, [el "p" [T "Could not reach Coston2 — "; Txt error]])
    ++ [el "div" [chain_sees s; recipient_sees s start];
    el "p" [P ["Both columns read live from Coston2. The right-hand terms are public";
      "only because this employer chose to publish them — your browser";
      "re-hashes that plaintext against the on-chain commitment on the left.";
      "The accrued figure advances locally using the same function the";
      "enclave signs with."]]]).

Definition entry_points : page :=
  el "section" [
    el "h2" [T "Use it"];
    el "p" [P ["Everything above is read-only and needs no wallet. The two screens";
      "below do — they sign transactions on Coston2 (chain "]; Txt (bigint_to_string (CHAIN_ID cfg)); T ")."];
    el "div" [
      link (js "/app") [T "Open a stream →"; el "span" [T "employer"]];
      link (js "/stream/" ++ bigint_to_string (DEMO_STREAM_ID cfg)) [T "Withdraw →"; el "span" [T "recipient"]];
      link (js "/verify/" ++ bigint_to_string (DEMO_STREAM_ID cfg)) [T "Audit this stream →"; el "span" [T "no wallet"]]];
    el "p" [P ["Withdrawing also needs the confidential compute extension to be";
      "reachable. If it is offline the recipient screen says so plainly, and";
      "nothing else on this site is affected."]]].

Definition references : page :=
  el "section" [
    el "h2" [T "References"];
    el "ul" [
      Ref (EXPLORER cfg ++ js "/address/" ++ VAULT_ADDRESS cfg) [T "StreamVault — "; Txt (short (VAULT_ADDRESS cfg) 6)];
      Ref (EXPLORER cfg ++ js "/tx/" ++ WITHDRAW_TX) [T "A real confidential withdrawal"];
      Ref FAUCET [T "Coston2 faucet — test tokens"]]].

Definition how_it_works : page :=
  el "section" [
    el "h2" [T "How it works"];
    el "ol" [
      Step "01" [P ["The employer's browser seals the stream terms to the";
        "enclave's public key. Plaintext never leaves the device."]];
      Step "02" [CodeMono [T "createStream"]; P [" stores only keccak256(terms). The rate and";
        "the salary appear nowhere on chain."]];
      Step "03" [P ["To withdraw, the recipient signs a challenge. The confidential";
        "compute extension decrypts the terms, checks them against the";
        "commitment, computes accrual, and signs an authorization."]];
      Step "04" [T "The vault verifies that signature with "; CodeMono [T "ecrecover"]; P [" and";
        "releases exactly what accrued. Remove the enclave and nothing can be";
        "withdrawn."]]]].

Definition limitations : page :=
  el "section" [
    el "h2" [T "What this does not hide"];
    el "ul" [
      el "li" [P ["Withdrawal amounts and timing are public. Frequent, regular";
        "withdrawals leak the rate over time; irregular ones preserve more."]];
      el "li" [P ["The counterparty graph is visible — employer, recipient and token";
        "are on chain. What stays hidden is the rate, the total, and";
        "therefore the salary."]];
      el "li" [P ["This runs on a simulated TEE. Flare Confidential Compute is";
        "pre-production; the production path is Confidential Space";
        "attestation with enclave-held keys."]]]].

(** The page. *)
Definition Landing_render (s : Landing) : outcome page :=
  start ← match (d ← la_data s; ld_terms d) with
          | Some t => started (startTime t)
          | None => Ret (txt "…")
          end;
  Ret (el "main" [
    masthead s;
    split_panel s start;
    entry_points;
    references;
    how_it_works;
    limitations;
    el "footer" [T "StealthWage · Flare Coston2 · chain "; Txt (bigint_to_string (CHAIN_ID cfg))]]).
End landing.

(** ** Lemmas *)

Section facts.
Context (cfg : ChainConfig) (formatUnits : Z → Z → jsstr).

Definition start_text (s : Landing) : outcome jsstr :=
  match (d ← la_data s; ld_terms d) with Some t => started (startTime t) | None => Ret (txt "…") end.

Lemma landing_renders s : match start_text s with
  | Ret start => ∃ q, Landing_render cfg formatUnits s = Ret q ∧
      ∀ f, f ∈ fields (chain_sees formatUnits s) ∨ f ∈ fields (recipient_sees formatUnits s start) → f ∈ fields q
  | Throw _ => throws (Landing_render cfg formatUnits s)
  end.
Proof.
  unfold Landing_render. fold (start_text s). destruct (start_text s) as [start|e]; [|by eexists].
  eexists. split; [reflexivity|]. intros f Hf. cbn [fields el]. apply elem_of_app. right. cbn [List.flat_map].
  rewrite !elem_of_app. right; left. unfold split_panel. cbn [fields el]. apply elem_of_app. right.
  cbn [app List.flat_map]. rewrite !elem_of_app. right. rewrite List.flat_map_app, elem_of_app. right.
  cbn [List.flat_map]. rewrite !elem_of_app. left. cbn [fields el]. apply elem_of_app. right.
  cbn [List.flat_map]. rewrite app_nil_r, elem_of_app. exact Hf.
Qed.

Lemma recipient_fields s d t start : la_data s = Some d → ld_terms d = Some t → ld_commitmentVerified d = true →
  fields (recipient_sees formatUnits s start) = [
    (txt "rate", perDay_text formatUnits (ld_decimals d) t ++ txt " " ++ ld_symbol d ++ txt "/day");
    (txt "accrued", landing_fmt formatUnits s (Some (accruedAt t (la_now s))) 6 ++ txt " " ++ ld_symbol d);
    (txt "total cap", landing_fmt formatUnits s (Some (total t)) 2 ++ txt " " ++ ld_symbol d);
    (txt "started", start);
    (txt "proof", txt "keccak256(terms) == commitment ✓")].
Proof.
  intros Hd Ht Hv. unfold recipient_sees, symbol_of, landing_perDay, proof_field, landing_accrued.
  rewrite Hd. cbn [mbind option_bind]. rewrite Ht, Hv. cbn [fmap option_fmap option_map default mbind option_bind].
  unfold Num, Unit. by read_view.
Qed.

Lemma chain_fields s d : la_data s = Some d → fields (chain_sees formatUnits s) = [
    (txt "commitment", o_commitment (ld_stream d));
    (txt "funded", landing_fmt formatUnits s (Some (o_funded (ld_stream d))) 2 ++ txt " " ++ ld_symbol d);
    (txt "withdrawn", landing_fmt formatUnits s (Some (o_withdrawn (ld_stream d))) 6 ++ txt " " ++ ld_symbol d);
    (txt "recipient", short (o_recipient (ld_stream d)) 6);
    (txt "rate", txt "██████████"); (txt "salary", txt "██████████")].
Proof.
  intros Hd. unfold chain_sees, symbol_of. rewrite Hd. cbn [fmap option_fmap option_map default]. unfold Num, Unit, Redacted.
  by read_view.
Qed.
End facts.

(** ** Properties *)

(** C37: the landing page shows what was revealed: on an endpoint that serves a
    reachable vault, whose demo stream has had its terms [t] revealed in the
    configured block, a load ends with no error, and at every later tick the page
    renders: on the left the commitment and the amount withdrawn as the vault holds
    them, on the right what has accrued by then to the last unit, the rate, and the
    sign that the terms hash to the commitment.  This is for a token with six
    decimals, a salary and a withdrawn amount below 2^52 raw units (above it the
    doubles of the page round), and no bytes revealed for the stream that clash with
    those of [t] under the hash.
    When the terms start beyond the last date of JavaScript, the page throws.  And
    whatever an endpoint answers, the page holds terms only next to a commitment
    that they hash to. *)
Theorem landing_shows_revealed `{JsEngine, EvmLaws, Viem, !ViemLaws, Erc20, !Erc20Laws}
    net w0 cs w cfg head blocks rpc t symbol s formatUnits ms :
  fresh net w0 → vrun net w0 cs w → serves cfg w head blocks rpc →
  let sd := stream_at (vault w) (DEMO_STREAM_ID cfg) in
  terms_ok t → s_commitment sd = be_value (keccak (abi_encode (terms_words t))) →
  (DEMO_REVEAL_BLOCK cfg, TermsRevealed (DEMO_STREAM_ID cfg) (abi_encode (terms_words t))) ∈ blocks →
  0 < DEMO_REVEAL_BLOCK cfg ≤ head → formats_units formatUnits →
  (∀ a, rpc_decimals rpc a = Ret 6) → (∀ a, rpc_symbol rpc a = Ret symbol) →
  total t < 2 ^ 52 → 0 ≤ s_withdrawn sd < 2 ^ 52 →
  (∀ ts, TermsRevealed (DEMO_STREAM_ID cfg) ts ∈ events w → no_clash ts (abi_encode (terms_words t))) →
  let s' := landing_update (SetLandingNow (clock ms)) (run_updates landing_update (load cfg rpc).1 s) in
  (la_error s' = None ∧
   if startTime t <=? MAX_DATE then
     ∃ q, Landing_render cfg formatUnits s' = Ret q ∧
       [(txt "commitment", bytesToHex (keccak (abi_encode (terms_words t))));
        (txt "withdrawn", amount_text (s_withdrawn sd) 6 ++ txt " " ++ symbol);
        (txt "rate", formatUnits (perDay t) 6 ++ txt " " ++ symbol ++ txt "/day");
        (txt "accrued", amount_text (accruedAt t (clock ms)) 6 ++ txt " " ++ symbol);
        (txt "proof", txt "keccak256(terms) == commitment ✓")] ⊆ fields q
   else throws (Landing_render cfg formatUnits s')) ∧
  (∀ rpc' d t', (load cfg rpc').1 = [SetData (Some d); SetLandingError None] → ld_terms d = Some t' →
     ld_commitmentVerified d = true ∧
     ∃ h k, decodeTerms h = Ret t' ∧ keccak256 h = Ret k ∧ to_lower k = to_lower (o_commitment (ld_stream d))).
Proof.
  intros Hf Hr Hs sd Hok Hcm Hrev Hb Hfu Hdec Hsym Htot Hw Hnc s'. split; [|intros rpc' d t'; apply load_checked].
  destruct (landing_loads net w0 cs w cfg head blocks rpc t 6 symbol s Hf Hr Hs Hok Hcm Hrev Hb Hdec Hsym Hnc)
    as (He & d & Hd & Hv & Ht & Ecm & _ & Ew & Edec & Esym). split; [exact He|].
  assert (la_data s' = Some d) as Hd' by exact Hd.
  pose proof (landing_renders cfg formatUnits s') as Hq. unfold start_text in Hq. rewrite Hd' in Hq.
  cbn [mbind option_bind] in Hq. rewrite Ht in Hq. cbn [startTime canonical] in Hq.
  destruct Hok as (_ & _ & _ & Hrr & Htt & Hst & _). rewrite started_spec in Hq by lia.
  destruct (startTime t <=? MAX_DATE); [|exact Hq]. destruct Hq as (q & Eq & Hfs). exists q. split; [done|].
  rewrite (chain_fields _ _ d Hd'), (recipient_fields _ _ d (canonical t) _ Hd' Ht Hv), Ecm, Ew, Esym, Edec in Hfs.
  unfold landing_fmt in Hfs. rewrite Hd' in Hfs. cbn [fmap option_fmap option_map] in Hfs. rewrite Edec in Hfs.
  pose proof (accruedAt_bounds t (clock ms) ltac:(lia) ltac:(lia)) as Hacc.
  change (la_now s') with (clock ms) in Hfs. rewrite accruedAt_canonical, !fmt_six in Hfs by (done || lia).
  intros f Hf'. apply Hfs. rewrite !elem_of_cons, elem_of_nil in Hf'. destruct Hf' as [->|[->|[->|[->|[->|[]]]]]].
  - left. left.
  - left. do 2 right. left.
  - right. left.
  - right. right. left.
  - right. do 4 right. left.
Qed.

(** ** A concrete page *)

#[local] Existing Instance plain_engine.

Lemma landing_shows_revealed_witness :
  let s' := landing_update (SetLandingNow (clock 1500000))
    (run_updates landing_update (load toy_chain demo_endpoint).1 (initial_landing 0)) in
  ∃ q, Landing_render toy_chain plain_units s' = Ret q ∧ (txt "accrued", js "0.057870 USD") ∈ fields q.
Proof.
  destruct (landing_shows_revealed (H:=plain_engine) toy_net toy_world demo_revealed (after demo_revealed) toy_chain 60 demo_blocks
    demo_endpoint demo_terms (js "USD") (initial_landing 0) plain_units 1500000 toy_fresh demo_revealed_run demo_serves demo_terms_ok)
    as [[_ (q & Eq & Hq)] _].
  - vm_compute. reflexivity.
  - unfold demo_blocks. rewrite demo_revealed_events. right; right; left.
  - cbn. lia.
  - exact plain_units_formats.
  - done.
  - done.
  - vm_compute. reflexivity.
  - vm_compute. split; [discriminate|reflexivity].
  - intros ts Hts _. rewrite demo_revealed_events, !elem_of_cons, elem_of_nil in Hts.
    destruct Hts as [Hts|[Hts|[Hts|[]]]]; [discriminate Hts..|]. exact (f_equal (λ e, match e with TermsRevealed _ b => b | _ => [] end) Hts).
  - exists q. split; [exact Eq|]. apply Hq.
    replace (amount_text (accruedAt demo_terms (clock 1500000)) 6 ++ txt " " ++ js "USD") with (js "0.057870 USD")
      by (vm_compute; reflexivity).
    do 3 right. left.
Defined.
