(* ===== verification/DashboardView.v ===== *)
(** * What the recipient's page renders ([frontend/app/stream/[id]/page.tsx])

    The whole page as a function of its state, of the wallet's address and of the
    connectors that wagmi offers; wagmi's [isConnected] says that there is an
    address.  The endpoint's address is an argument.  Rendering fails when the
    authorization's amount is no integer. *)

From S2P Require Import Prelude JsString JsNumber Utf8 Json JsMath Encoding Wire Framework Abi Instances Protocol StreamHandlers StreamProps Handlers Server EnclaveClient Vault VaultFacts VaultProps EndToEnd Chain Pages Dashboard Views.

Inductive DashEvent : Type :=
| Connect (connector : jsstr)
| Unlock
| Withdraw.

Abbreviation page := (view DashEvent).

Section dashboard.
Context `{JsEngine} (cfg : ChainConfig) (formatUnits : Z → Z → jsstr) (ENCLAVE_URL : jsstr).
Context (params_id : jsstr) (connectors : list jsstr) (address : option jsstr).

Definition isConnected : bool := is_some address.

Definition dash_fmt (d : Dash) (v : option Z) (dp : nat) : jsstr := fmt formatUnits (fst <$> d_meta d) v dp.

Definition header : page :=
  el "header" [el "div" (
    [el "div" [el "div" [T "StealthWage · recipient"]; el "h1" [T "Stream #"; Txt params_id]]]
    ++ when (negb isConnected) (connect_buttons Connect connectors)
    ++ match address with Some a => [el "div" [Txt (short a 6)]] | None => [] end)].

(** [s] and [m] are the stream and the token's metadata, when both are there. *)
Definition public_record (d : Dash) (s : OnChainStream) (m : Z * jsstr) : page :=
  el "section" [
    el "h2" [T "Public record"];
    el "dl" [
      Field "employer" [Mono [Txt (short (o_employer s) 6)]];
      Field "recipient" [Mono [Txt (short (o_recipient s) 6)]];
      Field "funded" [Mono [Txt (dash_fmt d (Some (o_funded s)) 2); T " "; Txt m.2]];
      Field "withdrawn" [Mono [Txt (dash_fmt d (Some (o_withdrawn s)) 6); T " "; Txt m.2]]]].

Definition unlock_disabled (d : Dash) : bool :=
  negb isConnected || negb (isParty address d) || d_busy d || negb (is_some (env_truthy (d_sealed d))).

Definition locked (d : Dash) : page :=
  el "div" (
    [el "p" [P ["The rate is sealed to the enclave — not even you can decrypt it";
      "locally. Sign a challenge to prove you are a party to this";
      "stream, and the enclave will return your terms along with a";
      "withdrawal authorization."]];
     button (unlock_disabled d) Unlock [if d_busy d then T "working…" else T "Sign to unlock"]]
    ++ when (isConnected && negb (isParty address d))
      [el "p" [P ["This wallet is neither the employer nor the recipient. The";
        "enclave will refuse — that is the point."]]]
    ++ when (negb (is_some (env_truthy (d_sealed d))) && negb (is_some (env_truthy (d_chainError d))))
      [el "p" [T "locating sealed terms…"]]).

Definition unlocked (d : Dash) (m : Z * jsstr) (t : StreamTerms) : page :=
  el "dl" [
    Field "rate" [Mono [Txt (perDay_text formatUnits m.1 t); T " "; Txt m.2; T "/day"]];
    Field "accrued" [el "span" [Txt (dash_fmt d (accrued d) 6)]; T " "; el "span" [Txt m.2]];
    Field "available now" [Mono [Txt (dash_fmt d (available d) 6); T " "; Txt m.2]];
    Field "total cap" [Mono [Txt (dash_fmt d (Some (total t)) 2); T " "; Txt m.2]]].

Definition your_terms (d : Dash) (m : Z * jsstr) : page :=
  el "section" [el "h2" [T "Your terms"];
    match d_terms d with None => locked d | Some t => unlocked d m t end].

Definition withdraw_disabled (d : Dash) : bool :=
  negb (is_some (auth_held d)) || d_busy d || (default 0 (available d) <=? 0).

Definition withdraw_label (d : Dash) : page :=
  if d_busy d then T "working…"
  else if is_some (auth_held d) then T "Withdraw" else T "Sign again for a fresh authorization".

(** [signed] is the amount of the authorization. *)
Definition withdraw_section (d : Dash) (m : Z * jsstr) (signed : option Z) : page :=
  el "section" [
    el "h2" [T "Withdraw"];
    el "p" [T "The enclave signed for "; el "span" [Txt (dash_fmt d signed 6); T " "; Txt m.2]; T " ";
      P ["cumulative. The vault pays the difference against what you have";
        "already taken, so replaying this authorization is harmless."]];
    button (withdraw_disabled d) Withdraw [withdraw_label d]].

Definition failure_box (f : EnclaveFailure) : page :=
  let unreachable := match f with Unreachable _ => true | Rejected _ => false end in
  el "div" (
    [el "p" [if unreachable then T "The confidential compute extension is unreachable."
             else T "The enclave refused this request."];
     el "p" [Txt match f with Unreachable m | Rejected m => m end]]
    ++ when unreachable [el "p" [
      P ["Withdrawals need the enclave; the rest of StealthWage does not."; "The"]; T " ";
      link (js "/") [T "landing page"]; T " "; T "and"; T " ";
      link (js "/verify/" ++ params_id) [T "audit record"]; T " ";
      T "read only from the chain and are unaffected.";
      el "span" [T "endpoint: "; Txt ENCLAVE_URL]]]).

Definition confirmed (tx : jsstr) : page :=
  el "p" [T "Withdrawal confirmed."; T " ";
    link (EXPLORER cfg ++ js "/tx/" ++ tx) [T "view transaction"]].

Definition footer : page :=
  el "footer" [link (js "/") [T "← StealthWage"]; T " "; T "· ";
    link (js "/verify/" ++ params_id) [T "audit record"]; T " "; T "· Coston2"].

(** What is shown once the record is loaded. *)
Definition loaded (d : Dash) (s : OnChainStream) (m : Z * jsstr) : outcome (list page) :=
  withdraw ← match d_terms d with
             | Some _ =>
                 signed ← match auth_held d with
                          | Some a => v ← prop a (js "cumulativeAccrued"); n ← bigint_of_json v; Ret (Some n)
                          | None => Ret None
                          end;
                 Ret [withdraw_section d m signed]
             | None => Ret []
             end;
  Ret ([public_record d s m; your_terms d m] ++ withdraw
    ++ when_text (d_status d) (λ status, [el "p" [Txt status]])
    ++ match d_failure d with Some f => [failure_box f] | None => [] end
    ++ when_text (d_withdrawTx d) (λ tx, [confirmed tx])).

(** The page. *)
Definition RecipientDashboard_render (d : Dash) : outcome page :=
  body ← match d_stream d, d_meta d with
         | Some s, Some m => loaded d s m
         | _, _ => Ret []
         end;
  Ret (el "main" ([header] ++ when_text (d_chainError d) (λ e, [el "p" [Txt e]]) ++ body ++ [footer])).
End dashboard.

(** ** Lemmas *)

Section facts.
Context `{JsEngine} (cfg : ChainConfig) (formatUnits : Z → Z → jsstr) (ENCLAVE_URL : jsstr).
Context (params_id : jsstr) (connectors : list jsstr) (address : option jsstr).
#[local] Notation render := (RecipientDashboard_render cfg formatUnits ENCLAVE_URL params_id connectors address).

(** What is shown of the authorization. *)
Definition auth_amount (d : Dash) : outcome (option Z) :=
  match auth_held d with
  | Some a => v ← prop a (js "cumulativeAccrued"); n ← bigint_of_json v; Ret (Some n)
  | None => Ret None
  end.

(** The page once the record is loaded: the part that depends on the terms. *)
Definition terms_part (d : Dash) (m : Z * jsstr) (signed : option Z) : list page :=
  match d_terms d with Some _ => [withdraw_section formatUnits d m signed] | None => [] end.

Lemma render_loaded d s m p : d_stream d = Some s → d_meta d = Some m → render d = Ret p →
  ∃ signed, p = el "main" ([header params_id connectors address]
    ++ when_text (d_chainError d) (λ e, [el "p" [Txt e]])
    ++ ([public_record formatUnits d s m; your_terms formatUnits address d m] ++ terms_part d m signed
      ++ when_text (d_status d) (λ status, [el "p" [Txt status]])
      ++ match d_failure d with Some f => [failure_box ENCLAVE_URL params_id f] | None => [] end
      ++ when_text (d_withdrawTx d) (λ tx, [confirmed cfg tx]))
    ++ [footer params_id]) ∧ (is_some (d_terms d) = true → auth_amount d = Ret signed).
Proof.
  intros Hs Hm. unfold RecipientDashboard_render, loaded, terms_part. rewrite Hs, Hm. fold (auth_amount d).
  destruct (d_terms d) as [t|].
  - destruct (auth_amount d) as [signed|e] eqn:Ea; [|done]. cbn [mbind outcome_bind].
    intros [= <-]. by exists signed.
  - intros [= <-]. by exists None.
Qed.

Lemma header_clickable : clickable (header params_id connectors address) =
  if is_some address then [] else (λ c, (txt "Connect wallet", Connect c)) <$> take 1 connectors.
Proof.
  unfold header, isConnected. destruct address as [a|]; [done|]. cbn [is_some negb].
  cbn [el clickable when List.flat_map T app]. rewrite !app_nil_r. apply connect_buttons_clickable.
Qed.

Lemma failure_clickable f : clickable (failure_box ENCLAVE_URL params_id f) = [].
Proof. by destruct f. Qed.

Lemma your_terms_clickable d m : clickable (your_terms formatUnits address d m) =
  if negb (is_some (d_terms d)) && negb (unlock_disabled address d) then [(txt "Sign to unlock", Unlock)] else [].
Proof.
  unfold your_terms. destruct (d_terms d) as [t|]; [done|]. unfold locked. cbn [is_some negb andb].
  destruct (unlock_disabled address d) eqn:Ed; cbn [negb].
  - destruct (_ && _), (negb _ && negb _); done.
  - assert (d_busy d = false) as -> by (unfold unlock_disabled in Ed; by repeat apply orb_false_elim in Ed as [Ed ?]).
    destruct (_ && _), (negb _ && negb _); done.
Qed.

Lemma terms_part_clickable d m signed : List.flat_map clickable (terms_part d m signed) =
  if is_some (d_terms d) && negb (withdraw_disabled d) then [(txt "Withdraw", Withdraw)] else [].
Proof.
  unfold terms_part. destruct (d_terms d) as [t|]; [|done]. cbn [is_some andb].
  destruct (withdraw_disabled d) eqn:Ed; [by cbn [List.flat_map withdraw_section el clickable T button app]; rewrite Ed|].
  unfold withdraw_disabled in Ed. apply orb_false_elim in Ed as [[Ea Eb]%orb_false_elim Ec].
  unfold withdraw_section, withdraw_disabled, withdraw_label. rewrite Ea, Eb, Ec.
  apply negb_false_iff in Ea. by rewrite Ea.
Qed.

Lemma bare_clickable d p : record_shown d = false → render d = Ret p →
  clickable p = if is_some address then [] else (λ c, (txt "Connect wallet", Connect c)) <$> take 1 connectors.
Proof.
  intros Er E. assert (match d_stream d, d_meta d with
    Some s, Some m => loaded cfg formatUnits ENCLAVE_URL params_id address d s m | _, _ => Ret [] end = Ret []) as Eb.
  { unfold record_shown in Er. by destruct (d_stream d), (d_meta d). }
  unfold RecipientDashboard_render in E. rewrite Eb in E. injection E as <-.
  change (header params_id connectors address :: ?l) with ([header params_id connectors address] ++ l). cbn [clickable el].
  change (List.flat_map clickable ?l) with (page_clickable l). rewrite !page_clickable_app, text_clickable by done.
  unfold page_clickable. cbn [List.flat_map]. rewrite header_clickable.
  change (clickable (footer params_id)) with (@nil (jsstr * DashEvent)). by rewrite !app_nil_r.
Qed.

Definition buttons (d : Dash) : list (jsstr * DashEvent) :=
  (if is_some address then [] else (λ c, (txt "Connect wallet", Connect c)) <$> take 1 connectors) ++
  (if can_unlock address d then [(txt "Sign to unlock", Unlock)] else []) ++
  (if can_withdraw d then [(txt "Withdraw", Withdraw)] else []).

Lemma clickable_buttons d p : render d = Ret p → clickable p = buttons d.
Proof.
  intros E. unfold buttons.
  unfold can_unlock, can_withdraw.
  destruct (record_shown d) eqn:Er; cbn [andb]; [|by rewrite (bare_clickable _ _ Er E), app_nil_r].
  unfold record_shown in Er. destruct (d_stream d) as [s|] eqn:Es, (d_meta d) as [m|] eqn:Em; try done.
  destruct (render_loaded d s m p Es Em E) as (signed & -> & _).
  cbn [clickable el]. change (List.flat_map clickable ?l) with (page_clickable l).
  rewrite !page_clickable_app, !text_clickable by done. unfold page_clickable. cbn [List.flat_map].
  rewrite header_clickable, your_terms_clickable, terms_part_clickable.
  change (clickable (footer params_id)) with (@nil (jsstr * DashEvent)).
  change (clickable (public_record formatUnits d s m)) with (@nil (jsstr * DashEvent)).
  destruct (d_failure d) as [f|]; cbn [List.flat_map]; rewrite ?failure_clickable; cbn [app];
    by rewrite !app_nil_r.
Qed.

Lemma withdraw_clickable d p : render d = Ret p → (txt "Withdraw", Withdraw) ∈ clickable p ↔ can_withdraw d = true.
Proof.
  intros E. rewrite (clickable_buttons d p E). unfold buttons. rewrite !elem_of_app. split.
  - intros [Hc|[Hc|Hc]].
    + destruct (is_some address); [by apply elem_of_nil in Hc|]. by apply list_elem_of_fmap in Hc as (c & ? & _).
    + destruct (can_unlock address d); [|by apply elem_of_nil in Hc]. by apply list_elem_of_singleton in Hc.
    + by destruct (can_withdraw d); [|apply elem_of_nil in Hc].
  - intros ->. right; right. by apply list_elem_of_singleton.
Qed.

Lemma render_returns d s m signed : d_stream d = Some s → d_meta d = Some m → auth_amount d = Ret signed →
  ∃ p, render d = Ret p.
Proof.
  intros Hs Hm Ha. unfold RecipientDashboard_render, loaded. rewrite Hs, Hm. fold (auth_amount d). rewrite Ha.
  destruct (d_terms d); by eexists.
Qed.

(** An amount that is no integer breaks the page. *)
Lemma bad_amount_throws d s m t e : d_stream d = Some s → d_meta d = Some m → d_terms d = Some t →
  auth_amount d = Throw e → throws (render d).
Proof.
  intros Hs Hm Ht Ha. unfold RecipientDashboard_render, loaded. rewrite Hs, Hm, Ht. fold (auth_amount d). rewrite Ha.
  by eexists.
Qed.
End facts.

(** ** After a withdrawal

    The terms stay and the authorization is gone: neither button reacts any more. *)

Section stuck.
Context `{JsEngine, Viem} (cfg : ChainConfig) (id : option Z).

Definition spent (d : Dash) : Prop := is_some (d_terms d) = true ∧ d_auth d = None.
Definition keeps_spent (u : Update) : Prop :=
  match u with SetTerms None | SetAuth (Some _) => False | _ => True end.

Lemma spent_disabled address d : spent d → can_unlock address d = false ∧ can_withdraw d = false.
Proof.
  intros [Ht Ha]. unfold can_unlock, can_withdraw, auth_held. rewrite Ht, Ha. cbn [negb is_some mbind option_bind orb].
  by rewrite !andb_false_r.
Qed.

Lemma loadChain_keeps_spent rpc explorer : all_updates keeps_spent (loadChain cfg id rpc explorer).
Proof. unfold loadChain. destruct id; [|constructor]. updates_step; try done. destruct (str_eqb _ _); updates_step; done. Qed.

Lemma spent_forever rpc_ok wallet_ok d d' : spent d →
  ui_reachable dash_update (dash_call cfg id rpc_ok wallet_ok) d d' → spent d'.
Proof.
  intros Hd. apply (ui_invariant dash_update _ keeps_spent spent); [done| |].
  - intros u e Hu [Ht Ha]. split; destruct u as [| | | |[]|[]| | | | |]; done.
  - intros e us He Hc. destruct Hc as [ms|rpc ex _|a wl url fetch ms ms' Hu _|wl rc rpc ex Hw _ _].
    + by repeat constructor.
    + apply loadChain_keeps_spent.
    + by rewrite (proj1 (spent_disabled a e He)) in Hu.
    + by rewrite (proj2 (spent_disabled None e He)) in Hw.
Qed.
End stuck.

(** ** What is read off the page *)

Section fields.
Context `{JsEngine} (cfg : ChainConfig) (formatUnits : Z → Z → jsstr) (ENCLAVE_URL : jsstr).
Context (params_id : jsstr) (connectors : list jsstr) (address : option jsstr).

Definition public_fields (d : Dash) (s : OnChainStream) (sym : jsstr) : list (jsstr * jsstr) :=
  [(txt "employer", short (o_employer s) 6); (txt "recipient", short (o_recipient s) 6);
   (txt "funded", dash_fmt formatUnits d (Some (o_funded s)) 2 ++ txt " " ++ sym);
   (txt "withdrawn", dash_fmt formatUnits d (Some (o_withdrawn s)) 6 ++ txt " " ++ sym)].

Definition terms_fields (d : Dash) (m : Z * jsstr) (t : StreamTerms) : list (jsstr * jsstr) :=
  [(txt "rate", perDay_text formatUnits m.1 t ++ txt " " ++ m.2 ++ txt "/day");
   (txt "accrued", dash_fmt formatUnits d (accrued d) 6 ++ txt " " ++ m.2);
   (txt "available now", dash_fmt formatUnits d (available d) 6 ++ txt " " ++ m.2);
   (txt "total cap", dash_fmt formatUnits d (Some (total t)) 2 ++ txt " " ++ m.2)].

Lemma public_record_fields d s m : fields (public_record formatUnits d s m) = public_fields d s m.2.
Proof. unfold public_record. by read_view. Qed.

Lemma your_terms_fields d m : fields (your_terms formatUnits address d m) =
  match d_terms d with Some t => terms_fields d m t | None => [] end.
Proof.
  unfold your_terms. destruct (d_terms d) as [t|]; [unfold unlocked; by read_view|].
  unfold locked. by destruct (isConnected address && _), (negb _ && negb _).
Qed.

Lemma header_fields : fields (header params_id connectors address) = [].
Proof.
  unfold header, isConnected. destruct address as [a|]; [done|]. by destruct connectors.
Qed.

Lemma failure_fields f : fields (failure_box ENCLAVE_URL params_id f) = [].
Proof. by destruct f. Qed.

Lemma page_fields_loaded d s m p : d_stream d = Some s → d_meta d = Some m →
  RecipientDashboard_render cfg formatUnits ENCLAVE_URL params_id connectors address d = Ret p →
  fields p = public_fields d s m.2 ++ match d_terms d with Some t => terms_fields d m t | None => [] end.
Proof.
  intros Hs Hm E.
  destruct (render_loaded cfg formatUnits ENCLAVE_URL params_id connectors address d s m p Hs Hm E) as (signed & -> & _).
  cbn [fields el]. rewrite dl_pairs_plain.
  - change (List.flat_map fields ?l) with (page_fields l). rewrite !page_fields_app, !text_fields by done. unfold page_fields.
    cbn [List.flat_map]. rewrite header_fields, public_record_fields, your_terms_fields.
    change (fields (footer params_id)) with (@nil (jsstr * jsstr)).
    assert (List.flat_map fields (terms_part formatUnits d m signed) = []) as ->
      by (unfold terms_part; by destruct (d_terms d)).
    destruct (d_failure d) as [f|]; cbn [List.flat_map]; rewrite ?failure_fields, ?app_nil_r; done.
  - rewrite !forallb_app, !text_plain by done. unfold terms_part. by destruct (d_terms d), (d_failure d).
Qed.
End fields.

(** ** Properties *)

(** C21: the buttons are what they say: in every state, the page that is rendered
    has exactly these buttons that react to a click: "Connect wallet" without a
    wallet; "Sign to unlock" when [can_unlock]; "Withdraw" when [can_withdraw].  The
    button "Sign again for a fresh authorization" is never among them; and once a
    withdrawal has spent the authorization, no handler, endpoint or passing time
    ever enables a button of this page again. *)
Theorem buttons_correct `{JsEngine, Viem} cfg formatUnits url params_id connectors address d p :
  RecipientDashboard_render cfg formatUnits url params_id connectors address d = Ret p →
  clickable p = buttons connectors address d ∧
  (∀ id rpc_ok wallet_ok d', spent d → ui_reachable dash_update (dash_call cfg id rpc_ok wallet_ok) d d' →
    can_unlock address d' = false ∧ can_withdraw d' = false).
Proof.
  intros E. split; [|intros id rpc_ok wallet_ok d' Hd Hr; by apply spent_disabled, (spent_forever cfg id rpc_ok wallet_ok d)].
  by apply clickable_buttons in E.
Qed.

(** C6: a party gets to see its terms: on a page whose record and ciphertext are
    loaded, with the wallet of the employer or the recipient, a clock within 300
    seconds of the enclave's and the enclave's own server at the other end, "Sign to
    unlock" ends with the stream's terms and an authorization kept whose signature
    is the enclave's for what had accrued, good for 600 seconds.  At every later
    tick the page, with the token's data loaded, renders and shows the rate per day
    as viem writes it and a "Withdraw" button that reacts exactly when there is
    something to withdraw; and, for a token with six decimals and terms whose total
    is below 2^52 raw units (above it the doubles of the page round), the amount
    accrued by then to the last unit. *)
Theorem unlock_shows_terms `{JsEngine, EvmLaws, Viem, !ViemLaws, Ecies, !EciesLaws}
    srv env origin st url cfg t tee id signed_ms asked_ms wl d formatUnits params_id connectors address :
  main_server = Ret srv → unlockable cfg env t tee id signed_ms wl d → date_ok asked_ms →
  formats_units formatUnits →
  let d' := run_updates dash_update
    (unlock cfg (Some id) (Some wl) url (deliver srv env origin st) signed_ms asked_ms d).1 d in
  ∃ req sg s, d_terms d' = Some (canonical t) ∧ d_auth d' = Some (authorization req t (now_sec env) sg) ∧
    d_failure d' = None ∧ d_status d' = None ∧ d_busy d' = false ∧ d_stream d = Some s ∧
    signed_by tee [hex_value WITHDRAW_TAG; CHAIN_ID cfg; hex_value (VAULT_ADDRESS cfg); id;
      be_value (keccak (abi_encode (terms_words t))); accruedAt t (now_sec env); now_sec env + 600] sg ∧
    ∀ ms dec sym, d_meta d = Some (dec, sym) →
      ∃ p, RecipientDashboard_render cfg formatUnits url params_id connectors address
        (dash_update (SetNow (clock ms)) d') = Ret p ∧
      (txt "rate", formatUnits (perDay t) dec ++ txt " " ++ sym ++ txt "/day") ∈ fields p ∧
      ((txt "Withdraw", Withdraw) ∈ clickable p ↔ o_withdrawn s < accruedAt t (clock ms) `min` o_funded s) ∧
      (dec = 6 → total t < 2 ^ 52 →
       (txt "accrued", amount_text (accruedAt t (clock ms)) 6 ++ txt " " ++ sym) ∈ fields p).
Proof.
  intros Hm Hu Hn Hf d'. pose proof (un_terms _ _ _ _ _ _ _ _ Hu) as Ht.
  destruct (un_stream _ _ _ _ _ _ _ _ Hu) as (s & Hs & _).
  destruct (unlock_result srv env origin st url cfg t tee id signed_ms asked_ms wl d Hm Hu Hn)
    as (req & sg & Et & Ea & Ef & Est & Eb & Es & Em & Hacc & Hsg). fold d' in Et, Ea, Ef, Est, Eb, Es, Em, Hacc.
  exists req, sg, s. do 6 (split; [done|]). split; [exact Hsg|]. intros ms dec sym Hmeta.
  specialize (Hacc ms). set (d2 := dash_update (SetNow (clock ms)) d') in *.
  assert (auth_amount d2 = Ret (Some (accruedAt t (now_sec env)))) as Hsigned.
  { unfold auth_amount, auth_held. change (d_auth d2) with (d_auth d'). rewrite Ea.
    cbn [mbind option_bind truthy authorization].
    change (prop _ (js "cumulativeAccrued")) with (Ret (Some (JStr (bigint_to_string (accruedAt t (now_sec env)))))).
    cbn [mbind outcome_bind bigint_of_json]. by rewrite BigInt_to_string. }
  assert (d_stream d2 = Some s) as Hs2 by (change (d_stream d2) with (d_stream d'); congruence).
  assert (d_meta d2 = Some (dec, sym)) as Hm2 by (change (d_meta d2) with (d_meta d'); congruence).
  assert (d_terms d2 = Some (canonical t)) as Ht2 by done.
  destruct (render_returns cfg formatUnits url params_id connectors address d2 s _ _ Hs2 Hm2 Hsigned) as [p Ep].
  exists p. split; [done|]. rewrite (page_fields_loaded _ _ _ _ _ _ _ _ _ _ Hs2 Hm2 Ep), Ht2.
  split; [|split].
  - apply elem_of_app. right. left.
  - rewrite (withdraw_clickable _ _ _ _ _ _ _ _ Ep). unfold can_withdraw, record_shown, available, auth_held.
    rewrite Hs2, Hm2, Ht2, Hacc. change (d_auth d2) with (d_auth d'). change (d_busy d2) with (d_busy d'). rewrite Ea, Eb.
    cbn [is_some andb negb mbind option_bind truthy authorization orb default]. rewrite negb_true_iff, Z.leb_gt, Z.gtb_ltb.
    destruct (Z.ltb_spec (o_funded s) (accruedAt t (clock ms))); cbv [Datatypes.id]; lia.
  - intros -> Htot. destruct Ht as (_ & _ & _ & Hr & Ht' & _).
    pose proof (accruedAt_bounds t (clock ms) (proj1 Hr) (proj1 Ht')) as Hb.
    apply elem_of_app. right. right. unfold dash_fmt. rewrite Hm2, Hacc. cbn [fmap option_fmap option_map fst snd].
    rewrite fmt_six by (done || lia). left.
Qed.

(** ** A concrete page *)

#[local] Existing Instance plain_engine.

Lemma unlock_shows_terms_witness :
  ∃ srv d' p, demo_server = Ret srv ∧
    d' = run_updates dash_update (unlock demo_chain (Some 1) (Some (demo_wallet 226)) (js "http://127.0.0.1:18080")
      (deliver srv demo_env None init_state) 1400000 1400000 demo_page).1 demo_page ∧
    RecipientDashboard_render demo_chain plain_units (js "http://127.0.0.1:18080") (js "1") [] (Some (address_hex 226))
      (dash_update (SetNow (clock 1500000)) d') = Ret p ∧
    (txt "accrued", js "0.057870 USD") ∈ fields p.
Proof.
  destruct demo_server as [srv|e] eqn:Hm; [|discriminate Hm].
  destruct (unlock_shows_terms (H:=plain_engine) srv demo_env None init_state (js "http://127.0.0.1:18080") demo_chain demo_terms
    (demo_account 238) 1 1400000 1400000 (demo_wallet 226) demo_page plain_units (js "1") [] (Some (address_hex 226))
    Hm demo_unlockable ltac:(unfold date_ok; lia) plain_units_formats)
    as (req & sg & s & _ & _ & _ & _ & _ & _ & _ & Hp).
  destruct (Hp 1500000 6 (js "USD") eq_refl) as (p & Ep & _ & _ & Hacc).
  specialize (Hacc eq_refl ltac:(vm_compute; reflexivity)). eexists srv, _, p.
  split; [reflexivity|]. split; [reflexivity|]. split; [exact Ep|].
  revert Hacc. replace (amount_text (accruedAt demo_terms (clock 1500000)) 6 ++ txt " " ++ js "USD") with (js "0.057870 USD");
    [done|]. vm_compute. reflexivity.
Defined.

(** The page of [demo_page] without a wallet. *)
Lemma buttons_correct_witness :
  ∃ p, RecipientDashboard_render demo_chain plain_units [] (js "1") [js "injected"] None demo_page = Ret p ∧
    clickable p = [(txt "Connect wallet", Connect (js "injected"))].
Proof.
  eexists. split; [reflexivity|].
  rewrite (proj1 (buttons_correct (H:=plain_engine) demo_chain plain_units [] (js "1") [js "injected"] None demo_page _ eq_refl)).
  vm_compute. reflexivity.
Defined.
