(* ===== verification/RecordView.v ===== *)
(** * What the audit record renders ([frontend/app/verify/[id]/page.tsx])

    The whole page as a function of its state, of the clock in milliseconds and of
    its location; [isHex] is viem's.  Rendering fails when the start of the decoded
    terms is no date.  The location is a URL whose query the page reads and extends
    through the browser's interface: [searchParams.set] and [searchParams.get], and
    [new URL] of a text. *)

From S2P Require Import Prelude JsString JsNumber Utf8 Json JsMath Encoding Wire Framework Abi Instances Protocol StreamHandlers StreamProps Handlers Server EnclaveClient Vault VaultFacts VaultProps EndToEnd Chain Pages AuditPages Views.

Inductive RecordEvent : Type :=
| EditTerms (v : jsstr)
| CopyLink.

Abbreviation page := (view RecordEvent).

(** A location: its text and what a text is opened as, and its query parameters read
    and set.  The text of a URL opens as that URL, and ASCII parameters are read as
    they were set. *)
Class Location := {
  url : Type;
  href : url → jsstr;
  parse_url : jsstr → option url;
  url_set : url → jsstr → jsstr → url;
  url_get : url → jsstr → option jsstr;
}.
Class LocationLaws `{Location} := {
  parse_href u : parse_url (href u) = Some u;
  url_get_set u k v : Forall (λ c, is_ascii c = true) k → Forall (λ c, is_ascii c = true) v →
    url_get (url_set u k v) k = Some v;
}.

Definition Shell (children : list page) : page := el "main" children.

Section record.
Context `{JsEngine, Viem} (cfg : ChainConfig) (isHex : jsstr → bool) (formatUnits : Z → Z → jsstr).
Context (params_id : jsstr) (ms : Z).

(** The location after [u.searchParams.set("terms", trimmed)]. *)
Definition shared_url `{Location} (here : url) (s : Verify) : url := url_set here (js "terms") (trimmed s).
Definition shareUrl `{Location} (here : url) (s : Verify) : jsstr :=
  if negb (termsValid isHex s) then [] else href (shared_url here s).

Definition record_fmt (s : Verify) (v : Z) (dp : nat) : jsstr := fmt formatUnits (fst <$> v_meta s) (Some v) dp.

Definition record_header : page :=
  el "header" [
    el "div" [T "StealthWage · audit record"];
    el "h1" [T "Verify stream #"; Txt params_id];
    el "p" [P ["Check a set of stream terms against the commitment stored on Flare.";
      "Everything below is computed in your browser from public chain data —";
      "no wallet, no server, nothing to trust here."]]].

Definition verdict_section (s : Verify) : page :=
  el "section" [
    el "h2" [T "Verdict"];
    el "div" [
      match verdict isHex s with
      | match_ => el "p" [
          el "span" [T "Terms match the on-chain commitment."];
          el "span" [T "keccak256(terms) == commitment"]]
      | mismatch => el "p" [
          el "span" [T "These terms do NOT match this stream."];
          el "span" [P ["The published terms have been altered, or they belong to a"; "different stream."]]]
      | absent => el "p" [P ["No terms supplied yet. Paste them below, or open a link that"; "carries them."]]
      end]].

Definition comparison (s : Verify) (os : OnChainStream) : page :=
  el "section" [
    el "h2" [T "The comparison"];
    el "dl" [
      Field "commitment stored on chain" [Txt (o_commitment os)];
      el "div" [el "dt" [T "keccak256 of the supplied terms"];
        El "dd" [("className", match verdict isHex s with
          | match_ => js "text-success" | mismatch => js "text-danger" | absent => js "text-ink-subtle" end)]
          [Txt (default (txt "—") (computed isHex s))]]]].

(** [start] is the rendered date. *)
Definition decoded_section (s : Verify) (os : OnChainStream) (m : Z * jsstr) (t : StreamTerms) (start : jsstr) : page :=
  el "section" [
    el "h2" [T "Terms, decoded"];
    el "dl" [
      Field "employer" [Mono [Txt (short (employer t) 6)]];
      Field "recipient" [Mono [Txt (short (recipient t) 6)]];
      Field "rate" [Mono [Txt (perDay_text formatUnits m.1 t); T " "; Txt m.2; T "/day"]];
      Field "total cap" [Mono [Txt (record_fmt s (total t) 2); T " "; Txt m.2]];
      Field "started" [Mono [Txt start]];
      Field "accrued to date" [Mono [Txt (record_fmt s (accruedAt t (clock ms)) 6); T " "; Txt m.2]];
      Field "funded on chain" [Mono [Txt (record_fmt s (o_funded os) 2); T " "; Txt m.2]];
      Field "withdrawn on chain" [Mono [Txt (record_fmt s (o_withdrawn os) 6); T " "; Txt m.2]]]].

Definition input_section (s : Verify) : page :=
  el "section" (
    [el "h2" [T "Terms (ABI-encoded hex)"];
     Edit "textarea" [("placeholder", txt "0x…")] (v_termsHex s) EditTerms]
    ++ when ((2 <? str_length (trimmed s)) && negb (termsValid isHex s))
      [el "p" [T "Not valid hex — terms should start with 0x."]]
    ++ when (termsValid isHex s) [button false CopyLink [T "Copy shareable verification link"]]).

Definition scope_section : page :=
  el "section" [
    el "h2" [T "What this does and does not prove"];
    el "ul" [
      el "li" [P ["It proves these exact terms produced the commitment this vault"; "stores for stream #"]; Txt params_id;
        P [". The employer cannot show one set"; "of terms here and have enforced another."]];
      el "li" [P ["It does not prove the employer funded the stream adequately, nor";
        "that they have not cancelled it. Those are separate on-chain";
        "facts, shown above as funded and withdrawn."]];
      el "li" [P ["Revealing terms is voluntary. A stream with no published terms is";
        "not suspicious — confidentiality is the default, and disclosure";
        "is the exception the employer chooses."]]]].

Definition record_footer : page :=
  el "footer" [link (EXPLORER cfg ++ js "/address/" ++ VAULT_ADDRESS cfg)
    [T "StreamVault "; Txt (short (VAULT_ADDRESS cfg) 6)]; T " "; T "· Flare Coston2"].

Definition record_body (s : Verify) (os : OnChainStream) : outcome (list page) :=
  terms ← match decoded isHex s, v_meta s with
          | Some t, Some m => start ← started (startTime t); Ret [decoded_section s os m t start]
          | _, _ => Ret []
          end;
  Ret ([verdict_section s; comparison s os] ++ terms ++ [input_section s; scope_section; record_footer]).

(** The page. *)
Definition Verify_render (s : Verify) : outcome page :=
  body ← match v_stream s with Some os => record_body s os | None => Ret [] end;
  Ret (Shell ([record_header]
    ++ when (v_loading s) [el "p" [T "reading Coston2…"]]
    ++ when_text (v_error s) (λ e, [el "p" [Txt e]])
    ++ body)).

(** What a user's action does: edits the terms, or copies the link. *)
Definition on_event `{Location} (here : url) (e : RecordEvent) (s : Verify) : list VerifyUpdate * option jsstr :=
  match e with
  | EditTerms v => ([SetTermsHex v], None)
  | CopyLink => ([], Some (shareUrl here s))
  end.
End record.

(** ** Lemmas *)

(** What the verdict's section says. *)
Definition verdict_text (v : Verdict) : jsstr :=
  match v with
  | match_ => txt "Terms match the on-chain commitment." ++ txt "keccak256(terms) == commitment"
  | mismatch => txt "These terms do NOT match this stream." ++
      jsx ["The published terms have been altered, or they belong to a"; "different stream."]
  | absent => jsx ["No terms supplied yet. Paste them below, or open a link that"; "carries them."]
  end.

Lemma verdict_text_inj v v' : verdict_text v = verdict_text v' → v = v'.
Proof. destruct v, v'; try done; intros E; vm_compute in E; discriminate E. Qed.

Section facts.
Context `{JsEngine, Viem} (cfg : ChainConfig) (isHex : jsstr → bool) (formatUnits : Z → Z → jsstr).
Context (params_id : jsstr) (ms : Z).
#[local] Notation render := (Verify_render cfg isHex formatUnits params_id ms).

Lemma text_sections {E} (s : option jsstr) (k : jsstr → list (view E)) :
  (∀ x, List.flat_map sections (k x) = []) → List.flat_map sections (when_text s k) = [].
Proof. unfold when_text. by destruct (env_truthy s). Qed.

(** The sections before the terms. *)
Lemma verdict_section_says s : sections (verdict_section isHex s) = [(txt "Verdict", verdict_text (verdict isHex s))].
Proof. unfold verdict_section. by destruct (verdict isHex s). Qed.

Definition decoded_part (s : Verify) (os : OnChainStream) : outcome (list page) :=
  match decoded isHex s, v_meta s with
  | Some t, Some m => start ← started (startTime t); Ret [decoded_section formatUnits ms s os m t start]
  | _, _ => Ret []
  end.

Lemma render_record s os : v_stream s = Some os →
  render s = (terms ← decoded_part s os;
    Ret (el "main" ([record_header params_id]
      ++ when (v_loading s) [el "p" [T "reading Coston2…"]]
      ++ when_text (v_error s) (λ e, [el "p" [Txt e]])
      ++ ([verdict_section isHex s; comparison isHex s os] ++ terms
          ++ [input_section isHex s; scope_section params_id; record_footer cfg])))).
Proof.
  intros Hs. unfold Verify_render, record_body. rewrite Hs. fold (decoded_part s os).
  by destruct (decoded_part s os).
Qed.

Lemma render_verdict s os p : v_stream s = Some os → render s = Ret p →
  head (sections p) = Some (txt "Verdict", verdict_text (verdict isHex s)).
Proof.
  intros Hs. rewrite (render_record s os Hs). destruct (decoded_part s os) as [terms|e]; [|done].
  intros [= <-]. cbn [sections el]. unfold record_header at 1. cbn [el String.eqb Ascii.eqb Bool.eqb andb].
  cbn [List.flat_map]. rewrite !List.flat_map_app, text_sections by done.
  cbn [List.flat_map]. rewrite verdict_section_says. by destruct (v_loading s).
Qed.

Lemma render_fields s os m t start p : v_stream s = Some os → v_meta s = Some m → decoded isHex s = Some t →
  started (startTime t) = Ret start → render s = Ret p →
  ∀ f, f ∈ fields (decoded_section formatUnits ms s os m t start) → f ∈ fields p.
Proof.
  intros Hs Hm Hd Hst. rewrite (render_record s os Hs). unfold decoded_part. rewrite Hd, Hm, Hst.
  cbn [mbind outcome_bind]. intros [= <-] f Hf. cbn [fields el]. apply elem_of_app. right.
  cbn [List.flat_map]. rewrite !List.flat_map_app. cbn [List.flat_map]. rewrite !elem_of_app. tauto.
Qed.

Lemma render_terms s os m t : v_stream s = Some os → v_meta s = Some m → decoded isHex s = Some t →
  match started (startTime t) with
  | Ret start => ∃ p, render s = Ret p ∧ ∀ f, f ∈ fields (decoded_section formatUnits ms s os m t start) → f ∈ fields p
  | Throw _ => throws (render s)
  end.
Proof.
  intros Hs Hm Hd. destruct (started (startTime t)) as [start|e] eqn:Est.
  - assert (∃ p, render s = Ret p) as [p Ep].
    { rewrite (render_record s os Hs). unfold decoded_part. rewrite Hd, Hm, Est. by eexists. }
    exists p. split; [done|]. by apply (render_fields s os m t start p).
  - rewrite (render_record s os Hs). unfold decoded_part. rewrite Hd, Hm, Est. by eexists.
Qed.
End facts.

(** Valid terms are [0x] and hex digits: there is no space to trim, and it is ASCII. *)
Lemma valid_digits isHex `{JsEngine, Viem} s : isHex_spec isHex → termsValid isHex s = true →
  ∃ l, trimmed s = 48 :: 120 :: l ∧ Forall (λ c, is_hex_digit c = true) l.
Proof.
  intros Hi. unfold termsValid. intros [_ Hh]%andb_prop. rewrite Hi in Hh. apply andb_prop in Hh as [Hp Hd].
  change (js "0x") with [48; 120] in Hp.
  destruct (trimmed s) as [|a [|b l]]; [done|by cbn in Hp; rewrite andb_false_r in Hp|].
  cbn [starts_with drop] in Hp, Hd. apply andb_prop in Hp as [Ea [Eb _]%andb_prop].
  apply Z.eqb_eq in Ea as <-. apply Z.eqb_eq in Eb as <-. exists l. split; [done|by apply forallb_Forall].
Qed.

Lemma valid_no_space isHex `{JsEngine, Viem} s : isHex_spec isHex → termsValid isHex s = true → trim (trimmed s) = trimmed s.
Proof.
  intros Hi Hv. destruct (valid_digits isHex s Hi Hv) as (l & -> & Hd). apply trim_digits.
  constructor; [done|]. constructor; [done|].
  eapply Forall_impl; [exact Hd|]. intros c Hc. by apply hex_digit_not_space.
Qed.

Lemma valid_ascii isHex `{JsEngine, Viem} s : isHex_spec isHex → termsValid isHex s = true →
  Forall (λ c, is_ascii c = true) (trimmed s).
Proof.
  intros Hi Hv. destruct (valid_digits isHex s Hi Hv) as (l & -> & Hd).
  constructor; [done|]. constructor; [done|].
  eapply Forall_impl; [exact Hd|]. intros c. unfold is_hex_digit, is_digit, is_ascii. clear. Zbool.
Qed.

(** ** Properties *)

(** C35: the audit record says what the vault would: for terms pasted as hex, with
    any white space around, the rendered page's verdict is "Terms match" exactly
    when [revealTerms] would accept these bytes for the stream, and "do NOT match"
    exactly when it would revert.  When they match, the token's data are loaded and
    they encode terms whose start is a date, the page renders and shows the rate per
    day as viem writes it and, for a token with six decimals and a total below 2^52
    raw units (above it the doubles of the page round), what has accrued to the last
    unit; when the start lies beyond the last date of JavaScript, which the contract
    and the enclave allow, the page that should say "match" throws instead. *)
Theorem record_shows_verdict `{JsEngine, EvmLaws, Viem, !ViemLaws} cfg isHex formatUnits params_id ms
    s p before after w id os :
  isHex_spec isHex → formats_units formatUnits → is_bytes p → p ≠ [] →
  Forall (λ c, is_js_space c = true) before → Forall (λ c, is_js_space c = true) after →
  v_termsHex s = before ++ bytesToHex p ++ after →
  let st := stream_at (vault w) id in
  s_employer st ≠ 0 → uint_range 256 (s_commitment st) →
  v_stream s = Some os → o_commitment os = bytesToHex (word (s_commitment st)) →
  (∀ q, Verify_render cfg isHex formatUnits params_id ms s = Ret q →
    (head (sections q) = Some (txt "Verdict", verdict_text match_) ↔ returns (revealTerms id p w)) ∧
    (head (sections q) = Some (txt "Verdict", verdict_text mismatch) ↔ throws (revealTerms id p w))) ∧
  (∀ t dec sym, terms_ok t → p = abi_encode (terms_words t) → returns (revealTerms id p w) →
    v_meta s = Some (dec, sym) →
    if startTime t <=? MAX_DATE then
      ∃ q, Verify_render cfg isHex formatUnits params_id ms s = Ret q ∧
        (txt "rate", formatUnits (perDay t) dec ++ txt " " ++ sym ++ txt "/day") ∈ fields q ∧
        (dec = 6 → total t < 2 ^ 52 →
         (txt "accrued to date", amount_text (accruedAt t (clock ms)) 6 ++ txt " " ++ sym) ∈ fields q)
    else throws (Verify_render cfg isHex formatUnits params_id ms s)).
Proof.
  intros Hi Hf Hp Hne Hb Ha Ht st He Hz Hs Hcm.
  destruct (verdict_correct isHex s p before after w id Hi Hp Hne Hb Ha Ht He Hz ltac:(by exists os)) as (V1 & V2 & V3).
  split.
  - intros q Eq. rewrite (render_verdict _ _ _ _ _ s os q Hs Eq), <- V1, <- V2.
    by split; (split; [|by intros ->]); intros [_ E%verdict_text_inj]%(inj Some)%pair_eq.
  - intros t dec sym Hok Hpt Hret Hm. pose proof (V3 t Hok Hpt (proj2 V1 Hret)) as Hd.
    destruct Hok as (_ & _ & _ & Hr & Htt & Hst & _).
    pose proof (render_terms cfg isHex formatUnits params_id ms s os (dec, sym) (canonical t) Hs Hm Hd) as Hq.
    cbn [startTime canonical] in Hq. rewrite started_spec in Hq by lia.
    destruct (startTime t <=? MAX_DATE); [|exact Hq]. destruct Hq as (q & Eq & Hfs). exists q. split; [done|].
    split; [|intros -> Htot]; apply Hfs; unfold decoded_section; read_view.
    + do 2 right. left.
    + pose proof (accruedAt_bounds t (clock ms) ltac:(lia) ltac:(lia)) as Hacc.
      unfold record_fmt. rewrite Hm, accruedAt_canonical. cbn [fmap option_fmap option_map fst snd].
      rewrite fmt_six by (done || lia). do 5 right. left.
Qed.

(** C36: the link that the page offers to copy carries the whole verdict: its text,
    opened anywhere as a URL, seeds exactly the terms that were checked, whatever
    white space was typed around them and whether or not the stream has a revealed
    copy, so that for the same record the new page has the same verdict, the same
    hash and the same decoded terms. *)
Theorem shared_link_same_verdict `{JsEngine, Viem, Location, !LocationLaws} cfg isHex here s s' streamId rpc :
  isHex_spec isHex → termsValid isHex s = true → v_stream s' = v_stream s →
  ∃ text opened, on_event isHex here CopyLink s = ([], Some text) ∧ parse_url text = Some opened ∧
    let s2 := run_updates verify_update (seed_terms cfg streamId (url_get opened (js "terms")) rpc).1 s' in
    v_termsHex s2 = trimmed s ∧ verdict isHex s2 = verdict isHex s ∧ computed isHex s2 = computed isHex s ∧
    decoded isHex s2 = decoded isHex s.
Proof.
  intros Hi Hv Hs. exists (href (shared_url here s)), (shared_url here s).
  split; [unfold on_event, shareUrl; by rewrite Hv|]. split; [apply parse_href|]. intros s2.
  assert (s2 = verify_update (SetTermsHex (trimmed s)) s') as E2.
  { unfold s2, seed_terms, shared_url. rewrite url_get_set;
      [|exact (proj1 (forallb_Forall is_ascii (js "terms")) eq_refl)|by apply (valid_ascii isHex)].
    assert (env_truthy (Some (trimmed s)) = Some (trimmed s)) as ->; [|done].
    unfold termsValid in Hv. by destruct (trimmed s). }
  assert (trimmed s2 = trimmed s) as Et by (rewrite E2; by apply (valid_no_space isHex)).
  assert (v_stream s2 = v_stream s) as Es by (rewrite E2; exact Hs).
  assert (termsValid isHex s2 = termsValid isHex s) as Ev by (unfold termsValid; by rewrite Et).
  assert (computed isHex s2 = computed isHex s) as Ec by (unfold computed; by rewrite Ev, Et).
  assert (verdict isHex s2 = verdict isHex s) as Ed by (unfold verdict; by rewrite Ec, Es).
  split; [by rewrite E2|]. split; [done|]. split; [done|]. unfold decoded. by rewrite Ed, Et.
Qed.

(** ** Concrete pages *)

#[local] Existing Instance plain_engine.

Lemma record_shows_verdict_witness :
  (∃ q, Verify_render toy_chain toy_isHex plain_units (js "1") 1500000
      (demo_record (js " " ++ bytesToHex demo_plain ++ [10])) = Ret q ∧
    (txt "accrued to date", js "0.057870 USD") ∈ fields q ∧
    head (sections q) = Some (txt "Verdict", verdict_text match_)).
Proof.
  destruct (record_shows_verdict (H:=plain_engine) toy_chain toy_isHex plain_units (js "1") 1500000
    (demo_record (js " " ++ bytesToHex demo_plain ++ [10])) demo_plain (js " ") [10] (after demo_revealed) 1
    {| o_employer := address_hex 225; o_recipient := address_hex 226; o_token := address_hex 5;
       o_commitment := demo_commitment; o_funded := 500; o_withdrawn := 0; o_startTime := 1000; o_cancelled := false |}) as [Hv Ht].
  - exact toy_isHex_ok.
  - exact plain_units_formats.
  - apply abi_encode_bytes.
  - vm_compute. discriminate.
  - by repeat constructor.
  - by repeat constructor.
  - reflexivity.
  - vm_compute. discriminate.
  - vm_compute. split; [discriminate|reflexivity].
  - reflexivity.
  - vm_compute. reflexivity.
  - assert (returns (revealTerms 1 demo_plain (after demo_revealed))) as Hret.
    { apply is_ret_returns. vm_compute. reflexivity. }
    destruct (Ht demo_terms 6 (js "USD") demo_terms_ok eq_refl Hret eq_refl) as (q & Eq & _ & Hacc).
    specialize (Hacc eq_refl ltac:(vm_compute; reflexivity)).
    exists q. split; [exact Eq|]. split.
    + revert Hacc. replace (amount_text (accruedAt demo_terms (clock 1500000)) 6 ++ txt " " ++ js "USD") with (js "0.057870 USD");
        [done|]. vm_compute. reflexivity.
    + by apply Hv.
Defined.

(** A location of one parameter; its text has the length of the name, the name and the
    value. *)
#[local] Instance toy_location : Location :=
  {| url := jsstr * jsstr; href u := Z.of_nat (length u.1) :: u.1 ++ u.2;
     parse_url s := match s with n :: t => Some (take (Z.to_nat n) t, drop (Z.to_nat n) t) | [] => None end;
     url_set _ k v := (k, v); url_get u k := if str_eqb u.1 k then Some u.2 else None |}.

#[local] Instance toy_location_laws : LocationLaws.
Proof.
  split.
  - intros [k v]. cbn. by rewrite Nat2Z.id, take_app_length, drop_app_length.
  - intros u k v _ _. cbn. by rewrite str_eqb_refl.
Qed.

Definition toy_here : @url toy_location := (js "id", js "1").

Lemma shared_link_same_verdict_witness :
  ∃ text opened, on_event toy_isHex toy_here CopyLink (demo_record (js " " ++ bytesToHex demo_plain)) = ([], Some text) ∧
    parse_url text = Some opened ∧
    verdict toy_isHex (run_updates verify_update
      (seed_terms toy_chain (Some 1) (url_get opened (js "terms")) demo_endpoint).1 (demo_record [])) = match_.
Proof.
  destruct (shared_link_same_verdict (H:=plain_engine) toy_chain toy_isHex toy_here
    (demo_record (js " " ++ bytesToHex demo_plain)) (demo_record []) (Some 1) demo_endpoint toy_isHex_ok)
    as (text & opened & Et & Eo & _ & E & _).
  - vm_compute. reflexivity.
  - reflexivity.
  - exists text, opened. split; [exact Et|]. split; [exact Eo|]. rewrite E. vm_compute. reflexivity.
Defined.
