(* ===== verification/EmployerView.v ===== *)
(** * What the employer's page renders ([frontend/app/app/page.tsx])

    The whole page as a function of the form, the wallet and the draft of the terms,
    which the page computes before it renders: the preview of what will be published
    and what will not, the form's inputs and the button that submits.  Rendering
    fails when the draft has no commitment. *)

From S2P Require Import Prelude JsString JsNumber Utf8 Json JsMath Encoding Wire Framework Abi Instances Protocol StreamHandlers StreamProps Handlers Server EnclaveClient Vault VaultFacts VaultProps EndToEnd Chain Pages Employer Views.

Inductive FormEvent : Type :=
| ConnectWallet (connector : jsstr)
| Disconnect
| Set_ (u : FormUpdate)
| Submit.

Abbreviation page := (view FormEvent).

(** ** Parts *)

Definition Input (label : string) (value : jsstr) (onChange : jsstr → FormUpdate)
    (placeholder : option jsstr) (hint : option jsstr) (invalid : bool) : page :=
  el "div" (
    [el "label" [T label];
     Edit "input"
       ([("className", if invalid then js "border-danger" else js "border-rule")]
        ++ match placeholder with Some p => [("placeholder", p)] | None => [] end)
       value (λ v, Set_ (onChange v))]
    ++ when_text hint (λ h,
      [El "p" [("className", if invalid then js "text-danger" else js "text-ink-subtle")] [Txt h]])).

Definition Redacted (children : list page) : page :=
  el "span" [el "span" children; el "span" [T "sealed"]].

Section employer.
Context `{JsEngine, Viem} (cfg : ChainConfig).
Context (connectors : list jsstr) (address : option jsstr) (chainId : option Z).

Definition isConnected : bool := bool_decide (is_Some address).

Definition header : page :=
  el "header" (
    [el "div" [
      el "div" [el "div" [T "StealthWage · employer"]; el "h1" [T "Open a confidential stream"]];
      el "div" match address with
        | Some a => [el "div" [Txt (short a 6)]; button false Disconnect [T "disconnect"]]
        | None => connect_buttons ConnectWallet connectors
        end]]
    ++ when (wrongChain cfg isConnected chainId)
      [el "p" [T "Wrong network — switch your wallet to Coston2 (chain "; Txt (bigint_to_string (CHAIN_ID cfg)); T ")."]]).

Definition recipient_invalid (f : Form) : bool := bool_decide (f_recipient f ≠ []) && negb (recipientValid f).

Definition token_button (f : Form) (t : jsstr * jsstr) : page :=
  Button [("className", if str_eqb (f_token f) t.2 then js "border-accent text-accent"
                           else js "border-rule text-ink-muted hover:border-accent")]
    false (Set_ (SetToken t.2)) [Txt t.1].

Definition form_section (f : Form) : page :=
  el "section" [
    el "h2" [T "Stream terms"];
    el "div" [
      Input "recipient address" (f_recipient f) SetRecipient (Some (txt "0x…"))
        (if recipient_invalid f then Some (js "Must be a 20-byte address") else None) (recipient_invalid f);
      el "div" [el "label" [T "token"]; el "div" (token_button f <$> TOKENS)];
      Input "rate per day" (f_perDay f) SetPerDay None None false;
      Input "total cap" (f_totalCap f) SetTotalCap None None false;
      Input "fund now" (f_fundAmount f) SetFundAmount None
        (Some (js "Transferred to the vault. Can be topped up later.")) false]].

(** [TOKENS.find((t) => t.address === token)?.label] *)
Definition token_label (f : Form) : option jsstr := fst <$> List.find (λ t, str_eqb t.2 (f_token f)) TOKENS.

Definition published (f : Form) (commitment : option jsstr) : page :=
  el "div" [
    el "h3" [T "Published on chain"];
    el "dl" [
      Field "commitment" [el "span" [match commitment with
        | Some c => Txt c
        | None => el "span" [T "fill the form…"] end]];
      Field "recipient" [Mono [Txt (if recipientValid f then short (trim (f_recipient f)) 6 else txt "—")]];
      Field "token" [Mono (shown (token_label f))];
      Field "amount funded" [Mono [Txt (str_or (f_fundAmount f) (js "0"))]];
      Field "sealed terms" [Mono [T "~321 bytes of ciphertext"]]]].

(** [(Number(perDay) * 30).toFixed(2)] *)
Definition implied_salary (f : Form) : jsstr :=
  if bool_decide (f_perDay f = []) then txt "—"
  else to_fixed 2 (n ← Number (f_perDay f); num_mul n (num_of_Z 30)) ++ js " / month".

Definition never_published (f : Form) : page :=
  el "div" [
    el "h3" [T "Never published"];
    el "dl" [
      Field "rate" [Redacted [Txt (f_perDay f); T " / day"]];
      Field "total cap" [Redacted [Txt (f_totalCap f)]];
      Field "implied salary" [Redacted [Txt (implied_salary f)]]];
    el "p" [P ["These values are sealed to the enclave's public key in your";
      "browser. They are recoverable only by the enclave — and later, if";
      "you choose, by publishing them yourself through Audit Mode."]]].

Definition preview (f : Form) (commitment : option jsstr) : page :=
  el "section" [el "h2" [T "Before you sign"]; published f commitment; never_published f].

Definition submit_disabled (draft : option StreamTerms) (f : Form) : bool :=
  negb isConnected || negb (bool_decide (is_Some draft)) || submitting f || wrongChain cfg isConnected chainId.

Definition opened (r : jsstr * jsstr) : page :=
  el "div" [
    el "p" [T "Stream #"; Txt r.1; T " is open."];
    el "ul" [
      el "li" [link (EXPLORER cfg ++ js "/tx/" ++ r.2) [T "creation transaction"]];
      el "li" [link (js "/verify/" ++ r.1) [T "public audit record"]]]].

Definition submit_section (draft : option StreamTerms) (f : Form) : page :=
  el "section" (
    [button (submit_disabled draft f) Submit [if submitting f then T "working…" else T "Seal terms and open stream"]]
    ++ when (negb isConnected) [el "p" [T "Connect a wallet to continue."]]
    ++ when_text (f_message f) (λ m,
      [El "p" [("className", if decide (f_phase f = error_) then js "border-danger text-danger"
                                     else js "border-accent text-ink-muted")] [Txt m]])
    ++ match f_result f with Some r => [opened r] | None => [] end).

Definition footer : page :=
  el "footer" [link (js "/") [T "← StealthWage"]; T " "; T "· vault "; Txt (short (VAULT_ADDRESS cfg) 6); T " · Coston2"].

(** The page, for a draft of the terms. *)
Definition EmployerPage_render (draft : option StreamTerms) (f : Form) : outcome page :=
  commitment ← commitment_of draft;
  Ret (el "main" [header; el "div" [form_section f; preview f commitment]; submit_section draft f; footer]).
End employer.

(** ** Lemmas *)

Section facts.
Context `{JsEngine, Viem} (cfg : ChainConfig) (connectors : list jsstr) (address : option jsstr) (chainId : option Z).
#[local] Notation render := (EmployerPage_render cfg connectors address chainId).

Lemma published_fields f cm : recipientValid f = true → fields (published f (Some cm)) = [
  (txt "commitment", cm); (txt "recipient", short (trim (f_recipient f)) 6); (txt "token", default [] (token_label f));
  (txt "amount funded", str_or (f_fundAmount f) (js "0")); (txt "sealed terms", txt "~321 bytes of ciphertext")].
Proof.
  intros Hr. unfold published. rewrite Hr. destruct (token_label f) as [l|]; by read_view.
Qed.

Lemma never_published_fields f : fields (never_published f) = [
  (txt "rate", f_perDay f ++ txt " / day" ++ txt "sealed"); (txt "total cap", f_totalCap f ++ txt "sealed");
  (txt "implied salary", implied_salary f ++ txt "sealed")].
Proof. unfold never_published, Redacted. read_view. by rewrite <- app_assoc. Qed.

Lemma top_clickable : clickable (header cfg connectors address chainId) =
  match address with
  | Some _ => [(txt "disconnect", Disconnect)]
  | None => (λ c, (txt "Connect wallet", ConnectWallet c)) <$> take 1 connectors
  end.
Proof.
  unfold header. destruct address as [a|], (wrongChain _ _ _); try done; by destruct connectors as [|c cs].
Qed.

Lemma form_clickable f : clickable (form_section f) = (λ t, (t.1, Set_ (SetToken t.2))) <$> TOKENS.
Proof. unfold form_section. by destruct (recipient_invalid f). Qed.

Lemma preview_clickable f cm : clickable (preview f cm) = [].
Proof. unfold preview, published. by destruct cm, (token_label f). Qed.

Lemma submit_clickable dr f : clickable (submit_section cfg address chainId dr f) =
  if can_submit cfg (isConnected address) chainId dr f then [(txt "Seal terms and open stream", Submit)] else [].
Proof.
  unfold submit_section. cbn [clickable el].
  change (List.flat_map clickable ?l) with (page_clickable l). rewrite !page_clickable_app, page_clickable_when, text_clickable by done.
  change (page_clickable [el "p" [T "Connect a wallet to continue."]]) with (@nil (jsstr * FormEvent)).
  assert (page_clickable match f_result f with Some r => [opened cfg r] | None => [] end = []) as ->
    by by destruct (f_result f) as [[]|].
  rewrite !app_nil_r. unfold page_clickable, can_submit, submit_disabled. cbn [List.flat_map button clickable].
  destruct (submitting f), (isConnected address); rewrite ?orb_true_r; cbn [negb orb]; try done;
    by destruct (_ || wrongChain _ _ _).
Qed.

(** The draft is made of the form. *)
Lemma draft_fields parseUnits salt ms f t : draft parseUnits address salt ms f = Some t →
  recipientValid f = true ∧ recipient t = trim (f_recipient f) ∧ token t = f_token f.
Proof.
  unfold draft. destruct (env_truthy address); [|done]. destruct (recipientValid f); [|done].
  destruct (rate ← _; _) as [[rate tot]|e]; [|done]. by intros [= <-].
Qed.

Lemma token_label_of f label : (label, f_token f) ∈ TOKENS → token_label f = Some label.
Proof.
  unfold TOKENS, token_label. rewrite !elem_of_cons. intros [E|[E|E%elem_of_nil]]; [..|done];
    apply pair_eq in E as [-> ->]; vm_compute; reflexivity.
Qed.

(** The page renders exactly when the draft has a commitment, and shows the preview. *)
Lemma employer_renders dr f : match commitment_of dr with
  | Ret cm => ∃ q, render dr f = Ret q ∧
      (∀ x, x ∈ fields (published f cm) ∨ x ∈ fields (never_published f) → x ∈ fields q) ∧
      ((txt "Seal terms and open stream", Submit) ∈ clickable q ↔ can_submit cfg (isConnected address) chainId dr f = true)
  | Throw _ => throws (render dr f)
  end.
Proof.
  unfold EmployerPage_render. destruct (commitment_of dr) as [cm|e]; [|by eexists].
  eexists. split; [reflexivity|]. split.
  - intros x Hx. cbn [fields el]. apply elem_of_app. right. cbn [List.flat_map]. rewrite !elem_of_app. right; left.
    cbn [fields el]. apply elem_of_app. right. cbn [List.flat_map]. rewrite !elem_of_app. right; left.
    unfold preview. cbn [fields el]. apply elem_of_app. right. cbn [List.flat_map].
    rewrite app_nil_r, !elem_of_app. by right.
  - cbn [clickable el List.flat_map]. rewrite !app_nil_r, !elem_of_app, submit_clickable.
    split; [|by intros ->; right; right; left].
    intros [Hc|[[Hc|Hc]|Hc]].
    + rewrite top_clickable in Hc. destruct address; [by apply list_elem_of_singleton in Hc|].
      by apply list_elem_of_fmap in Hc as (c & ? & _).
    + rewrite form_clickable in Hc. by apply list_elem_of_fmap in Hc as (c & ? & _).
    + rewrite preview_clickable in Hc. by apply elem_of_nil in Hc.
    + destruct (can_submit _ _ _ _ _); [done|by apply elem_of_nil in Hc].
Qed.
End facts.

(** ** Properties *)

(** C7: what you see is what you sign: for the draft that the page made of the
    form and whose terms can be encoded ([terms_ok]: addresses that viem accepts,
    amounts and times within their widths; with a wrong checksum or a negative
    amount the render throws instead), the preview shows the commitment and the
    recipient, and the label of the chosen token, and submitting
    asks the wallet for exactly these, and exactly once: a stream with the draft's
    recipient and token, the commitment on display and the sealed terms.  The
    enclave that holds the key opens this ciphertext under this commitment to the
    terms of the draft.  The page's own ABI lacks the function, so a wallet that
    encodes by it sends nothing and the submission ends in the phase "error"; under
    any ABI that declares it, when the transaction that this call is encoded as
    succeeds, the stream it creates is for that recipient and token, has the
    displayed commitment, logs the ciphertext, accepts these terms, and nothing else
    was published. *)
Theorem sends_what_it_shows `{JsEngine, EvmLaws, Viem, !ViemLaws, Ecies, !EciesLaws, Erc20}
    ke cfg connectors address chainId parseUnits salt ms wl wait t rnd c f :
  draft parseUnits address salt ms f = Some t → terms_ok t →
  encrypt (ecies_public ke) rnd (abi_encode (terms_words t)) = Ret c →
  ∃ cm q, commitment_of (Some t) = Ret (Some cm) ∧
    EmployerPage_render cfg connectors address chainId (Some t) f = Ret q ∧
    (txt "commitment", cm) ∈ fields q ∧ (txt "recipient", short (recipient t) 6) ∈ fields q ∧
    (∀ label, (label, token t) ∈ TOKENS → (txt "token", label) ∈ fields q) ∧
    (txt "rate", f_perDay f ++ txt " / day" ++ txt "sealed") ∈ fields q ∧
    let call := createStream_call cfg t cm (bytesToHex c) in
    let trace := (submit cfg (ecies_public ke) parseUnits (Some wl) (Some wait) (Some t) (Some cm) rnd f).1 in
    (∃ before rest, trace = before ++ Called call :: rest ∧ Forall (λ u, ¬ creates u) (before ++ rest)) ∧
    (∀ req, encryptedTerms req = bytesToHex c → commitment req = cm →
       unseal ke req = Ret (inr (bytesToHex (abi_encode (terms_words t)), canonical t))) ∧
    call_of call = None ∧
    (wallet_encodes wl → f_phase (run_updates form_update trace f) = error_) ∧
    (∀ abi, AFunction (js "createStream") ∈ abi → ∃ tx, call_of (under_abi abi call) = Some tx ∧
      ∀ net m w w', sender m ≠ 0 → exec net m tx w = Ret w' →
       let id := nextStreamId (vault w) in
       events w' = events w ++ [StreamCreated id (sender m) (hex_value (recipient t)) (hex_value (token t))
         (hex_value cm) (startTime t) c] ∧
       bytesToHex (word (s_commitment (stream_at (vault w') id))) = cm ∧
       returns (revealTerms id (abi_encode (terms_words t)) w')).
Proof.
  intros Hd Ht Henc. destruct (draft_fields _ _ _ _ _ _ Hd) as (Hrv & Er & Etk).
  assert (∃ cm, commitment_of (Some t) = Ret (Some cm)) as [cm Hcm].
  { unfold commitment_of. rewrite commitTo_hash by done. by eexists. }
  pose proof (employer_renders cfg connectors address chainId (Some t) f) as Hq. rewrite Hcm in Hq.
  destruct Hq as (q & Eq & Hfs & _). exists cm, q. split; [done|]. split; [done|].
  rewrite (published_fields f cm Hrv), never_published_fields, <- Er in Hfs.
  split; [apply Hfs; left; left|]. split; [apply Hfs; left; right; left|]. split.
  { intros label Hl. apply Hfs. left. do 2 right. rewrite (token_label_of f label) by (by rewrite <- Etk). left. }
  split; [apply Hfs; right; left|]. split; [by apply sends_once|]. split.
  - intros req Hreq Hreqc. apply (sealed_unseals ke rnd c t req Ht Henc Hreq). by rewrite Hreqc, (commitment_shown t cm Ht Hcm).
  - split; [apply own_abi_lacks|]. split.
    + intros Hwl. apply page_never_opens; [done|]. rewrite (commitment_shown t cm Ht Hcm), bytesToHex_digits. done.
    + intros abi Hf. apply creates_as_shown; [done|done|by eapply encrypt_bytes|done].
Qed.

(** ** A concrete page *)

#[local] Existing Instance plain_engine.

(** A form whose draft is opened, with the token that is chosen at first. *)
Definition usdt_form : Form := {|
  f_recipient := address_hex 226; f_token := default [] (TOKENS.*2 !! 1%nat); f_perDay := js "0.25"; f_totalCap := js "100";
  f_fundAmount := js "8"; f_phase := idle; f_message := None; f_result := None |}.
Definition usdt_draft : option StreamTerms :=
  draft toy_parseUnits (Some (address_hex 225)) demo_salt 1700000000000 usdt_form.

Lemma sends_what_it_shows_witness :
  ∃ t cm q, usdt_draft = Some t ∧
    EmployerPage_render toy_chain [] (Some (address_hex 225)) (Some 114) (Some t) usdt_form = Ret q ∧
    (txt "commitment", cm) ∈ fields q ∧ (txt "token", js "USDT0") ∈ fields q.
Proof.
  destruct (draft_terms_ok toy_parseUnits (address_hex 225) 1700000000000 (num_of_Z 0) 1700000000000 usdt_form 250000 100000000)
    as (t & Et & Hok & _).
  1-5: vm_compute; reflexivity.
  1,2: clear; lia.
  { clear. unfold date_ok. lia. }
  assert (∃ c, encrypt (ecies_public demo_key) [] (abi_encode (terms_words t)) = Ret c) as [c Henc].
  { cbn [encrypt toy_ecies]. rewrite (proj2 (all_bytes _)); [by eexists|].
    apply Forall_app. split; [|apply abi_encode_bytes]. apply (bool_decide_eq_true_1 _). vm_compute. reflexivity. }
  destruct (sends_what_it_shows (H:=plain_engine) demo_key toy_chain [] (Some (address_hex 225)) (Some 114) toy_parseUnits
    demo_salt 1700000000000 refusing_wallet (λ _, Throw (PlainError [])) t [] c usdt_form Et Hok Henc)
    as (cm & q & _ & Eq & Hcm & _ & Htok & _).
  exists t, cm, q. split; [exact Et|]. split; [exact Eq|]. split; [exact Hcm|]. apply Htok.
  assert (token t = f_token usdt_form) as ->.
  { exact (proj2 (proj2 (draft_fields _ _ _ _ _ _ Et))). }
  right. left.
Defined.
