(* ===== verification/ScriptMains.v ===== *)
(** * The scripts that drive the deployed system ([typescript/scripts])

    [test-settle.ts], [create-demo-stream.ts] and [e2e-coston2.ts], and the offline
    check [verify-browser-ciphertext.ts].  A script runs against a world it reads and
    changes through [Ops]: the chain's RPC and the wallet (viem), the enclave (HTTP)
    and the clock.  A [must] that fails ends the program.  What is printed is left
    out, except where computing it can throw.

    The theorems about them are in Rehearsal.v. *)

From S2P Require Import Prelude JsString JsNumber Utf8 Json JsMath JsonFacts Encoding Wire Framework Abi Instances Protocol StreamHandlers StreamProps Handlers Server EnclaveClient Main Scripts Vault Chain Pages.

(** ** Programs *)

(** A program that ends normally, throws, or calls [process.exit]. *)
Inductive ending (A : Type) : Type :=
| Done (a : A)
| Threw (e : js_error)
| Quit (code : Z) (said : jsstr).
Arguments Done {A} _.
Arguments Threw {A} _.
Arguments Quit {A} _ _.

Definition script (W A : Type) : Type := W → ending A * W.

Definition sbind {W A B} (m : script W A) (k : A → script W B) : script W B := λ w,
  match m w with
  | (Done a, w') => k a w'
  | (Threw e, w') => (Threw e, w')
  | (Quit c s, w') => (Quit c s, w')
  end.

Definition lift {W A} (o : outcome A) : script W A := λ w,
  (match o with Ret a => Done a | Throw e => Threw e end, w).
Definition reading {W A} (f : W → outcome A) : script W A := λ w, lift (f w) w.
Definition calling {W A} (f : W → outcome A * W) : script W A := λ w, lift (f w).1 (f w).2.
Definition sret {W A} (a : A) : script W A := lift (Ret a).

(** [console.error(...); process.exit(1)] unless [c]. *)
Definition must {W} (c : bool) (m : jsstr) : script W unit := λ w, (if c then Done tt else Quit 1 m, w).

(** [main().catch(... process.exit(1))]. *)
Definition exit_code {A} (e : ending A) : Z := match e with Done _ => 0 | Threw _ => 1 | Quit c _ => c end.

Declare Scope script_scope.
Delimit Scope script_scope with script.
Notation "'run!' x := m 'in' k" := (sbind m (λ x, k))
  (at level 10, x name, m at level 100, k at level 200) : script_scope.
Notation "'must!' c 'else' s 'in' k" := (sbind (must c s) (λ _, k))
  (at level 10, c at level 100, s at level 100, k at level 200) : script_scope.
#[local] Open Scope script_scope.

(** Running one step. *)
Lemma run_lift {W A B} (o : outcome A) (k : A → script W B) a w : o = Ret a → sbind (lift o) k w = k a w.
Proof. by intros ->. Qed.
Lemma run_reading {W A B} (f : W → outcome A) (k : A → script W B) a w : f w = Ret a → sbind (reading f) k w = k a w.
Proof. intros E. unfold sbind, reading. by rewrite E. Qed.
Lemma run_calling {W A B} (f : W → outcome A * W) (k : A → script W B) a w w' :
  f w = (Ret a, w') → sbind (calling f) k w = k a w'.
Proof. intros E. unfold sbind, calling. by rewrite E. Qed.
Lemma run_must {W A} c m (k : unit → script W A) w : c = true → sbind (must c m) k w = k tt w.
Proof. by intros ->. Qed.
Lemma run_step {W A B} (m : script W A) (k : A → script W B) a w w' : m w = (Done a, w') → sbind m k w = k a w'.
Proof. unfold sbind. by intros ->. Qed.

(** ** The world *)

(** A receipt; its logs as viem's [decodeEventLog] gives them: the event's name and
    its [streamId], [None] when it throws. *)
Record TxReceipt := { tx_status : jsstr; tx_logs : list (option (jsstr * Z)) }.

Record Ops (W : Type) := {
  op_decimals : jsstr → W → outcome Z;
  op_symbol : jsstr → W → outcome jsstr;
  op_balance : jsstr → jsstr → W → outcome Z;
  (** The commitment and the cancelled flag of [streams(id)]. *)
  op_stream : jsstr → Z → W → outcome (jsstr * bool);
  op_write : WriteCall → W → outcome jsstr * W;
  op_receipt : jsstr → W → outcome TxReceipt;
  op_post : jsstr → jsstr → W → outcome FetchResponse * W;
  op_now : W → Z;
  op_sleep : Z → W → W;
}.
Arguments op_decimals {W} _ _ _.
Arguments op_symbol {W} _ _ _.
Arguments op_balance {W} _ _ _ _.
Arguments op_stream {W} _ _ _ _.
Arguments op_write {W} _ _ _.
Arguments op_receipt {W} _ _ _.
Arguments op_post {W} _ _ _ _.
Arguments op_now {W} _ _.
Arguments op_sleep {W} _ _ _.

(** ** Values *)

(** [Buffer.from(s, "hex")]: the pairs before the first that is not hexadecimal. *)
Fixpoint buffer_from_hex (s : jsstr) : bytes :=
  match s with
  | h :: l :: s' => if is_hex_digit h && is_hex_digit l then digits_value 16 [h; l] :: buffer_from_hex s' else []
  | _ => []
  end.

(** The id in the last log that is a StreamCreated. *)
Definition stream_id_of (logs : list (option (jsstr * Z))) : Z :=
  fold_left (λ id log, match log with
    | Some (name, n) => if str_eqb name (js "StreamCreated") then n else id
    | None => id end) logs 0.

(** The hexadecimal sealed terms: [encrypt] to the key's public half. *)
Definition seal_terms `{Ecies} (eciesPriv : jsstr) (rnd : bytes) (termsHex : jsstr) : outcome jsstr :=
  c ← encrypt (ecies_public eciesPriv) rnd (buffer_from_hex (slice_from termsHex 2));
  Ret (js "0x" ++ buffer_hex c).

(** ** Configuration *)

Definition script_vault (env : Environment) : jsstr :=
  default (js "0xd235B90dc929f7B061EAefdE0C8f020B3Cff47D7") (env (js "STREAMVAULT_ADDRESS")).
Definition RPC (env : Environment) : jsstr :=
  default (js "https://coston2-api.flare.network/ext/C/rpc") (env (js "CHAIN_URL")).
Definition script_chain (env : Environment) : option jsnum :=
  match env (js "CHAIN_ID") with Some s => Number s | None => Some (num_of_Z 114) end.
Definition DEMO_RECIPIENT_KEY `{Viem} : jsstr := keccak256_bytes (toBytes (js "stealthwage-demo-alice-v1")).

(** ** What the scripts share *)

Section shared.
Context {W : Type} (ops : Ops W) (vault_hex : jsstr) (abi erc20 : list abi_item).

(** [createStream], its receipt, and the id in its logs. *)
Definition create_stream (recipient token commitment : jsstr) (startTime : Z) (sealed : jsstr)
    (reverted : jsstr → jsstr) (notfound : jsstr) : script W Z :=
  run! hash := calling (op_write ops {| wc_address := vault_hex; wc_abi := abi; wc_functionName := js "createStream";
    wc_args := [AAddr recipient; AAddr token; AHex commitment; AInt startTime; AHex sealed] |}) in
  run! rcpt := reading (op_receipt ops hash) in
  must! str_eqb (tx_status rcpt) (js "success") else reverted hash in
  let streamId := stream_id_of (tx_logs rcpt) in
  must! 0 <? streamId else notfound in
  sret streamId.

(** [approve] and [fund]; the receipt of the approval is awaited, not looked at. *)
Definition approve_and_fund (token : jsstr) (streamId amount : Z) (reverted : jsstr) : script W unit :=
  run! h1 := calling (op_write ops {| wc_address := token; wc_abi := erc20;
    wc_functionName := js "approve"; wc_args := [AAddr vault_hex; AInt amount] |}) in
  run! r1 := reading (op_receipt ops h1) in
  run! h2 := calling (op_write ops {| wc_address := vault_hex; wc_abi := abi; wc_functionName := js "fund";
    wc_args := [AInt streamId; AInt amount] |}) in
  run! r2 := reading (op_receipt ops h2) in
  must (str_eqb (tx_status r2) (js "success")) reverted.

(** A call of the vault that must succeed; [reverted] is of the hash. *)
Definition vault_call (f : jsstr) (args : list abi_value) (reverted : jsstr → jsstr) : script W jsstr :=
  run! h := calling (op_write ops {| wc_address := vault_hex; wc_abi := abi; wc_functionName := f; wc_args := args |}) in
  run! r := reading (op_receipt ops h) in
  must! str_eqb (tx_status r) (js "success") else reverted h in
  sret h.
End shared.

(** The answer of the enclave: its object, when the status is 1; [reason] names
    the field of the message. *)
Definition read_signed {W} `{JsEngine} (res : FetchResponse) (check_http : bool) (reason : jsstr) (refused : jsstr) :
    script W json :=
  run! body := lift (res_json res) in
  must! negb check_http || res_ok res else js "extension HTTP " ++ bigint_to_string (res_status res) in
  run! status := lift (prop body (js "status")) in
  run! why := lift (r ← prop body reason; template (Some (nullish r (JStr (js "unknown"))))) in
  must! bool_decide (status = Some (JNum (num_of_Z 1))) else refused ++ why in
  run! data := lift (v ← prop body (js "data"); as_string (js "slice") v) in
  lift (JSON_parse (utf8_decode (buffer_from_hex (slice_from data 2)))).

Definition now_s {W} (ops : Ops W) : script W Z := reading (λ w, Ret (op_now ops w / 1000)).
Definition now_ms_of {W} (ops : Ops W) : script W Z := reading (λ w, Ret (op_now ops w)).

(** The private keys of the environment, or the end. *)
Definition with_env {W A} (env : Environment) (name missing : jsstr) (k : jsstr → script W A) : script W A :=
  match env_truthy (env name) with
  | Some v => k v
  | None => λ w, (Quit 1 missing, w)
  end.

(** ** test-settle.ts *)

Module Settle.

Definition FXRP : jsstr := js "0x0b6a3645c240605887a5532109323a3e12273dc7".
Definition ENCLAVE (env : Environment) : jsstr := default (js "http://127.0.0.1:18080") (env (js "ENCLAVE_URL")).
Definition SETTLE_AFTER_SECONDS : Z := 45.
Definition ERC20 : list abi_item :=
  [AFunction (js "approve"); AFunction (js "balanceOf"); AFunction (js "decimals")].

(** [unit] is one token; the salt is of the time [ms]. *)
Definition terms `{Viem} (employer recipient : jsstr) (unit startTime ms : Z) : StreamTerms :=
  {| Protocol.employer := employer; Protocol.recipient := recipient; token := FXRP;
     ratePerSecond := ratePerDayToScaled (Z.quot unit 10); total := 100 * unit; startTime := startTime;
     salt := keccak256_bytes (toBytes (js "settle-test-" ++ bigint_to_string ms)) |}.

Section settle.
Context `{JsEngine, Viem, Ecies} {W : Type} (ops : Ops W) (env : Environment).
(** The JSON file of the compiled vault, and what [encrypt] draws. *)
Context (artifact : outcome (list abi_item)) (rnd : bytes).

Definition request (streamId : Z) (commitment sealed : jsstr) (issuedAt : Z) (sig : jsstr) : AuthRequest :=
  {| StreamHandlers.streamId := bigint_to_string streamId; StreamHandlers.vault := script_vault env;
     chainId := number_text (script_chain env); StreamHandlers.commitment := commitment;
     encryptedTerms := sealed; StreamHandlers.issuedAt := bigint_to_string issuedAt; callerSignature := sig |}.

(** Step 2: the challenge, its signature and the question. *)
Definition ask (employer : account) (streamId : Z) (commitment sealed : jsstr) : script W json :=
  run! issuedAt := now_s ops in
  run! chain := lift (bigint_of_number (script_chain env)) in
  run! raw := lift (buildCallerChallenge {| cp_chainId := chain; cp_vault := script_vault env; cp_streamId := streamId;
    cp_commitment := commitment; cp_purpose := SETTLE_TAG; cp_issuedAt := issuedAt |}) in
  run! sig := lift (signMessage employer raw) in
  run! ms := now_ms_of ops in
  run! res := calling (op_post ops (ENCLAVE env ++ js "/action") (settle_actionBody (js "AUTH_SETTLE")
    (JObj (request_fields (request streamId commitment sealed issuedAt sig))) ms)) in
  read_signed res false (js "log") (js "enclave refused settle: ").

(** Step 3: the cancellation and the balances around it. *)
Definition settle_with (abi : list abi_item) (employer recipient : jsstr) (streamId fund : Z)
    (empBefore recBefore : Z) (auth : json) : script W unit :=
  run! said := lift (a ← prop auth (js "cumulativeAccrued"); template a) in
  run! acc := lift (a ← prop auth (js "cumulativeAccrued"); bigint_of_json a) in
  run! dl := lift (a ← prop auth (js "deadline"); bigint_of_json a) in
  run! sg := lift (a ← prop auth (js "signature"); as_string (js "signature") a) in
  run! cancelled := vault_call ops (script_vault env) abi (js "cancelStream")
    [AInt streamId; AInt acc; AInt dl; AHex sg] (λ cx, js "cancelStream reverted (" ++ cx ++ js ")") in
  run! empAfter := reading (op_balance ops FXRP employer) in
  run! recAfter := reading (op_balance ops FXRP recipient) in
  let refunded := empAfter - empBefore in
  let paid := recAfter - recBefore in
  must! refunded + paid =? fund else js "split does not reconstruct the funded 1 FXRP" in
  must! paid =? acc else js "recipient payment != enclave-signed accrual" in
  run! st := reading (op_stream ops (script_vault env) streamId) in
  must st.2 (js "stream not marked cancelled").

Definition main : script W unit :=
  with_env env (js "DEPLOYMENT_PRIVATE_KEY") (js "DEPLOYMENT_PRIVATE_KEY not set (set -a; . ./.env; set +a)") (λ key,
  with_env env (js "TEE_ECIES_PRIVKEY") (js "TEE_ECIES_PRIVKEY not set") (λ eciesPriv,
  run! employer := lift (privateKeyToAccount key) in
  run! alice := lift (privateKeyToAccount DEMO_RECIPIENT_KEY) in
  let recipient := account_address alice in
  run! abi := lift artifact in
  run! dec := reading (op_decimals ops FXRP) in
  let unit := 10 ^ dec in
  let fund := unit in
  run! startTime := now_s ops in
  run! ms := now_ms_of ops in
  let terms := terms (account_address employer) recipient unit startTime ms in
  run! termsHex := lift (encodeTerms terms) in
  run! commitment := lift (commitTo terms) in
  run! sealed := lift (seal_terms eciesPriv rnd termsHex) in
  run! streamId := create_stream ops (script_vault env) abi recipient FXRP commitment startTime sealed
    (λ _, js "createStream reverted") (js "StreamCreated not found") in
  run! funded := approve_and_fund ops (script_vault env) abi ERC20 FXRP streamId fund (js "fund reverted") in
  run! empBefore := reading (op_balance ops FXRP (account_address employer)) in
  run! recBefore := reading (op_balance ops FXRP recipient) in
  run! slept := (λ w, (Done tt, op_sleep ops (SETTLE_AFTER_SECONDS * 1000) w)) in
  run! auth := ask employer streamId commitment sealed in
  settle_with abi (account_address employer) recipient streamId fund empBefore recBefore auth)).
End settle.
End Settle.

(** ** create-demo-stream.ts *)

Module Demo.

Definition PER_DAY_WHOLE : jsstr := js "0.25".
Definition FUND_WHOLE : Z := 8.
Definition TOTAL_WHOLE : Z := 100.
Definition BACKDATE_DAYS : Z := 3.
Definition ERC20 : list abi_item :=
  [AFunction (js "approve"); AFunction (js "balanceOf"); AFunction (js "decimals"); AFunction (js "symbol")].
Definition TOKEN (env : Environment) : jsstr :=
  default (js "0xc1a5b41512496b80903d1f32d6dea3a73212e71f") (env (js "DEMO_TOKEN_ADDRESS")).

(** [BigInt(Math.round(Number(PER_DAY_WHOLE) * Number(unit)))]. *)
Definition per_day_raw (unit : Z) : outcome Z :=
  bigint_of_number (math_round <$> (n ← Number PER_DAY_WHOLE; num_mul n (num_of_Z unit))).

(** The start, from the clock in seconds. *)
Definition start_of (now : Z) : Z := now - BACKDATE_DAYS * 86400.

Definition terms `{Viem} (env : Environment) (employer recipient : jsstr) (unit perDayRaw startTime ms : Z) : StreamTerms :=
  {| Protocol.employer := employer; Protocol.recipient := recipient; token := TOKEN env;
     ratePerSecond := ratePerDayToScaled perDayRaw; total := TOTAL_WHOLE * unit; startTime := startTime;
     salt := keccak256_bytes (toBytes (js "stealthwage-demo-" ++ bigint_to_string ms)) |}.

Section demo.
Context `{JsEngine, Viem, Ecies} {W : Type} (ops : Ops W) (env : Environment).
Context (artifact : outcome (list abi_item)) (rnd : bytes) (formatUnits : Z → Z → jsstr).

Definition main : script W unit :=
  with_env env (js "DEPLOYMENT_PRIVATE_KEY") (js "DEPLOYMENT_PRIVATE_KEY not set (source .env)") (λ deployKey,
  with_env env (js "TEE_ECIES_PRIVKEY") (js "TEE_ECIES_PRIVKEY not set (run: npm run tee-keys)") (λ eciesPriv,
  run! employer := lift (privateKeyToAccount deployKey) in
  run! alice := lift (privateKeyToAccount DEMO_RECIPIENT_KEY) in
  let recipient := account_address alice in
  run! abi := lift artifact in
  run! dec := reading (op_decimals ops (TOKEN env)) in
  run! symbol := reading (op_symbol ops (TOKEN env)) in
  let unit := 10 ^ dec in
  let fundAmount := FUND_WHOLE * unit in
  run! balance := reading (op_balance ops (TOKEN env) (account_address employer)) in
  must! fundAmount <=? balance else js "need " ++ formatUnits fundAmount dec ++ js " " ++ symbol
    ++ js ", have " ++ formatUnits balance dec in
  run! perDayRaw := lift (per_day_raw unit) in
  run! now := now_s ops in
  let startTime := start_of now in
  run! ms := now_ms_of ops in
  let terms := terms env (account_address employer) recipient unit perDayRaw startTime ms in
  run! termsHex := lift (encodeTerms terms) in
  run! commitment := lift (commitTo terms) in
  run! sealed := lift (seal_terms eciesPriv rnd termsHex) in
  run! streamId := create_stream ops (script_vault env) abi recipient (TOKEN env) commitment startTime sealed
    (λ _, js "createStream reverted") (js "StreamCreated not found") in
  run! funded := approve_and_fund ops (script_vault env) abi ERC20 (TOKEN env) streamId fundAmount (js "fund reverted") in
  run! revealed := vault_call ops (script_vault env) abi (js "revealTerms") [AInt streamId; AHex termsHex]
    (λ _, js "revealTerms reverted") in
  sret tt)).
End demo.
End Demo.

(** ** e2e-coston2.ts *)

Module E2e.

Definition EXT_PORT : Z := 18080.
Definition TOKEN (env : Environment) : jsstr :=
  default (js "0x0b6a3645c240605887a5532109323a3e12273dc7") (env (js "FXRP_ADDRESS")).

(** [toScaledRate((Number(perDay) / 86_400).toFixed(12))]. *)
Definition rate_of (perDay : Z) : outcome Z :=
  toScaledRate (to_fixed 12 (num_div (num_of_Z perDay) (num_of_Z 86400))).

Section e2e.
Context `{JsEngine, Viem, Ecies} {W : Type} (ops : Ops W) (env : Environment).
(** The key drawn for the recipient, the salt's random number, and starting and
    stopping the server in this process. *)
Context (artifact : outcome (list abi_item)) (rnd : bytes) (fresh_key : jsstr) (random : jsnum).
Context (listen stop : W → outcome unit * W).

Definition request (streamId : Z) (commitment sealed : jsstr) (issuedAt : Z) (sig : jsstr) : AuthRequest :=
  {| StreamHandlers.streamId := bigint_to_string streamId; StreamHandlers.vault := script_vault env;
     chainId := number_text (script_chain env); StreamHandlers.commitment := commitment;
     encryptedTerms := sealed; StreamHandlers.issuedAt := bigint_to_string issuedAt; callerSignature := sig |}.

(** [try { m } finally { stop() }]; an exit ends the program at once. *)
Definition finally_stop {A} (m : script W A) : script W A := λ w,
  match m w with
  | (Quit c s, w') => (Quit c s, w')
  | (r, w') =>
      match stop w' with
      | (Ret _, w'') => (r, w'')
      | (Throw e, w'') => (Threw e, w'')
      end
  end.

(** Step 4: the challenge and the question to the server of this process. *)
Definition ask (employer : account) (streamId : Z) (commitment sealed : jsstr) : script W json :=
  run! issuedAt := now_s ops in
  run! chain := lift (bigint_of_number (script_chain env)) in
  run! raw := lift (buildCallerChallenge {| cp_chainId := chain; cp_vault := script_vault env; cp_streamId := streamId;
    cp_commitment := commitment; cp_purpose := WITHDRAW_TAG; cp_issuedAt := issuedAt |}) in
  run! sig := lift (signMessage employer raw) in
  run! listening := calling listen in
  finally_stop (
    run! ms := now_ms_of ops in
    run! body := lift (e2e_buildActionBody (js "STREAM") (js "AUTH_WITHDRAW")
      (JObj (request_fields (request streamId commitment sealed issuedAt sig))) ms) in
    run! res := calling (op_post ops (js "http://127.0.0.1:18080/action") body) in
    read_signed res true (js "errorMessage") (js "extension returned error: ")).

(** Steps 5 and 6. *)
Definition withdraw_with (abi : list abi_item) (recipient : jsstr) (streamId : Z) (terms : jsstr) (auth : json) :
    script W unit :=
  run! accrued := lift (a ← prop auth (js "cumulativeAccrued"); bigint_of_json a) in
  run! shown := lift (a ← prop auth (js "signature"); as_string (js "slice") a) in
  run! before := reading (op_balance ops (TOKEN env) recipient) in
  must! before =? 0 else js "fresh recipient should start at zero" in
  run! dl := lift (a ← prop auth (js "deadline"); bigint_of_json a) in
  run! wHash := vault_call ops (script_vault env) abi (js "withdraw")
    [AInt streamId; AInt accrued; AInt dl; AHex shown] (λ h, js "withdraw reverted (" ++ h ++ js ")") in
  run! after := reading (op_balance ops (TOKEN env) recipient) in
  must! after =? accrued else js "expected " ++ bigint_to_string accrued ++ js " got " ++ bigint_to_string after in
  run! revealed := vault_call ops (script_vault env) abi (js "revealTerms") [AInt streamId; AHex terms]
    (λ _, js "revealTerms reverted") in
  sret tt.

Definition main : script W unit :=
  with_env env (js "DEPLOYMENT_PRIVATE_KEY") (js "DEPLOYMENT_PRIVATE_KEY not set (source .env)") (λ deployKey,
  with_env env (js "TEE_ECIES_PRIVKEY") (js "TEE_ECIES_PRIVKEY not set (run: npm run tee-keys)") (λ eciesPriv,
  run! employer := lift (privateKeyToAccount deployKey) in
  run! someone := lift (privateKeyToAccount fresh_key) in
  let recipient := account_address someone in
  run! abi := lift artifact in
  run! dec := reading (op_decimals ops (TOKEN env)) in
  run! symbol := reading (op_symbol ops (TOKEN env)) in
  let perDay := 10 * 10 ^ dec in
  run! rate := lift (rate_of perDay) in
  let total := perDay * 30 in
  let fundAmount := 5 * 10 ^ dec in
  run! now := now_s ops in
  let startTime := now - 3600 in
  run! ms := now_ms_of ops in
  let salt := keccak256_bytes (toBytes (js "salt-" ++ bigint_to_string ms ++ js "-" ++ num_to_string random)) in
  run! terms := lift (encodeAbiParameters TERMS_ABI [AAddr (account_address employer); AAddr recipient;
    AAddr (TOKEN env); AInt rate; AInt total; AInt startTime; AHex salt]) in
  run! commitment := lift (keccak256 terms) in
  run! sealed := lift (seal_terms eciesPriv rnd terms) in
  run! streamId := create_stream ops (script_vault env) abi recipient (TOKEN env) commitment startTime sealed
    (λ h, js "createStream reverted (" ++ h ++ js ")") (js "StreamCreated event not found") in
  run! stored := reading (op_stream ops (script_vault env) streamId) in
  must! same_text stored.1 commitment else js "on-chain commitment mismatch" in
  run! funded := approve_and_fund ops (script_vault env) abi Demo.ERC20 (TOKEN env) streamId fundAmount (js "fund reverted") in
  run! auth := ask employer streamId commitment sealed in
  withdraw_with abi recipient streamId terms auth)).
End e2e.
End E2e.

(** ** verify-browser-ciphertext.ts *)

Module VerifyCt.

(** The program with its two arguments: its exit code and the commitment it
    printed. *)
Definition main `{JsEngine, Viem, Ecies} (env : Environment) (ciphertextHex expectedCommitment : option jsstr) :
    Z * option jsstr :=
  match env_truthy ciphertextHex, env_truthy (env (js "TEE_ECIES_PRIVKEY")) with
  | Some hex, Some eciesPriv =>
      let clean := if starts_with hex (js "0x") then slice_from hex 2 else hex in
      match decrypt eciesPriv (buffer_from_hex clean) with
      | Ret plaintext =>
          let termsHex := js "0x" ++ buffer_hex plaintext in
          match keccak256 termsHex with
          | Ret commitment =>
              match decodeAbiParameters TERMS_ABI termsHex, env_truthy expectedCommitment with
              | Throw _, _ => (1, Some commitment)
              | Ret _, Some expected => (if same_text commitment expected then 0 else 1, Some commitment)
              | Ret _, None => (0, Some commitment)
              end
          | Throw _ => (1, None)
          end
      | Throw _ => (1, None)
      end
  | _, _ => (1, None)
  end.
End VerifyCt.
