(* ===== verification/Live.v ===== *)
(** * A world for the scripts: the vault, a token, a wallet and the enclave

    [live_ops] gives the operations of ScriptMains.v their meaning in the models of
    the other files: a transaction runs the vault of Vault.v, a post the server of
    Server.v with the enclave's keys, and every transaction and post takes [lat]
    milliseconds.  viem's part is what it documents: it encodes a call that its ABI
    declares, throws when the call would revert, and decodes the logs of a receipt.
    Tokens keep allowances as ERC-20 says: [approve] sets what a spender may take
    from the caller, and the vault's [fund] takes from it and reverts beyond it. *)

From S2P Require Import Prelude JsString JsNumber Utf8 Json JsMath JsonFacts Encoding Wire Framework Abi Instances Protocol StreamHandlers StreamProps Handlers Server EnclaveClient Main Scripts Vault VaultFacts VaultProps EndToEnd Chain Pages ScriptMains.

Record Live := {
  lv_world : World;
  lv_ms : Z;
  lv_app : AppState;
  lv_receipts : list TxReceipt;
  lv_allowance : Z → Z → Z;
}.

(** The allowances are those of the account that runs the script, by token and
    spender. *)
Definition with_allowance (al : Z → Z → Z) (L : Live) : Live :=
  {| lv_world := lv_world L; lv_ms := lv_ms L; lv_app := lv_app L; lv_receipts := lv_receipts L; lv_allowance := al |}.
Definition set_allowance (token spender n : Z) (L : Live) : Live :=
  with_allowance (λ t s, if decide (t = token ∧ s = spender) then n else lv_allowance L t s) L.

(** What [decodeEventLog] makes of the vault's log of an event. *)
Definition event_log (e : Event) : option (jsstr * Z) :=
  match e with
  | TeeSignerUpdated _ => Some (js "TeeSignerUpdated", 0)
  | StreamCreated id _ _ _ _ _ _ => Some (js "StreamCreated", id)
  | StreamFunded id _ => Some (js "StreamFunded", id)
  | Withdrawn id _ _ => Some (js "Withdrawn", id)
  | StreamCancelled id _ => Some (js "StreamCancelled", id)
  | TermsRevealed id _ => Some (js "TermsRevealed", id)
  end.

(** Amounts fit the types of the ABI. *)
Definition call_fits (c : Call) : bool :=
  match c with
  | CFund _ n => (0 <=? n) && (n <? 2 ^ 128)
  | CWithdraw _ n _ _ | CCancelStream _ n _ _ => (0 <=? n) && (n <? 2 ^ 256)
  | _ => true
  end.

Definition tx_hash (L : Live) : jsstr := bigint_to_string (Z.of_nat (length (lv_receipts L))).

Section live.
Context `{JsEngine, Evm, Viem, Ecies, Erc20} (net : Net) (me : Z) (srv : Server) (enclave : Environment).
Context (lat : Z) (token_decimals : Z).

(** The state after a transaction, mined [lat] milliseconds later. *)
Definition mined (w : World) (logs : list Event) (L : Live) : Live :=
  {| lv_world := w; lv_ms := lv_ms L + lat; lv_app := lv_app L;
     lv_receipts := lv_receipts L ++ [{| tx_status := js "success"; tx_logs := event_log <$> logs |}];
     lv_allowance := lv_allowance L |}.

(** What a call takes of an allowance to the vault; [None] when that is too little. *)
Definition take_allowance (c : Call) (L : Live) : option Live :=
  match c with
  | CFund id n =>
      let token := s_token (stream_at (vault (lv_world L)) id) in
      let a := lv_allowance L token (this net) in
      if n <=? a then Some (set_allowance token (this net) (a - n) L) else None
  | _ => Some L
  end.

Definition live_write (c : WriteCall) (L : Live) : outcome jsstr * Live :=
  let m := {| sender := me; timestamp := (lv_ms L + lat) / 1000 |} in
  if negb (bool_decide (AFunction (wc_functionName c) ∈ wc_abi c)) then
    (Throw (Error (js "AbiFunctionNotFoundError") (wc_functionName c)), L)
  else if str_eqb (wc_functionName c) (js "approve") then
    match wc_args c with
    | [AAddr spender; AInt n] =>
        if (0 <=? n) && (n <? 2 ^ 256) then
          (Ret (tx_hash L), mined (lv_world L) [] (set_allowance (hex_value (wc_address c)) (hex_value spender) n L))
        else (Throw (PlainError (js "invalid arguments")), L)
    | _ => (Throw (PlainError (js "invalid arguments")), L)
    end
  else
    match call_of c with
    | Some call =>
        if bool_decide (hex_value (wc_address c) = this net) && call_fits call then
          match take_allowance call L with
          | Some L' =>
              match exec net m call (lv_world L) with
              | Ret w => (Ret (tx_hash L), mined w (drop (length (events (lv_world L))) (events w)) L')
              | Throw e => (Throw e, L)
              end
          | None => (Throw (PlainError (js "insufficient allowance")), L)
          end
        else (Throw (PlainError (js "no such contract or invalid arguments")), L)
    | None => (Throw (PlainError (js "invalid arguments")), L)
    end.

Definition live_receipt (hash : jsstr) (L : Live) : outcome TxReceipt :=
  n ← BigInt hash;
  match lv_receipts L !! Z.to_nat n with
  | Some r => Ret r
  | None => Throw (PlainError (js "TransactionReceiptNotFoundError"))
  end.

(** The enclave answers [lat] milliseconds after the post. *)
Definition live_post (url body : jsstr) (L : Live) : outcome FetchResponse * Live :=
  let env := env_at enclave (lv_ms L + lat) in
  (deliver srv env None (lv_app L) url body,
   {| lv_world := lv_world L; lv_ms := lv_ms L + lat;
      lv_app := (serve srv env None (posted_to url body) (lv_app L)).2;
      lv_receipts := lv_receipts L; lv_allowance := lv_allowance L |}).

Definition live_ops : Ops Live := {|
  op_decimals _ _ := Ret token_decimals;
  op_symbol _ _ := Ret (js "TOKEN");
  op_balance t who L := Ret (balances (lv_world L) (hex_value t) (hex_value who));
  op_stream _ id L :=
    let s := stream_at (vault (lv_world L)) id in Ret (bytesToHex (word (s_commitment s)), s_cancelled s);
  op_write := live_write;
  op_receipt := live_receipt;
  op_post := live_post;
  op_now L := lv_ms L;
  op_sleep ms L := {| lv_world := lv_world L; lv_ms := lv_ms L + ms; lv_app := lv_app L;
    lv_receipts := lv_receipts L; lv_allowance := lv_allowance L |};
|}.

(** ** Steps *)

(** The receipt of the transaction just mined. *)
Lemma mined_receipt w logs L L' : lv_receipts L' = lv_receipts L → live_receipt (tx_hash L) (mined w logs L') =
  Ret {| tx_status := js "success"; tx_logs := event_log <$> logs |}.
Proof.
  intros E. unfold live_receipt, tx_hash. rewrite BigInt_to_string. cbn [mbind outcome_bind mined lv_receipts].
  rewrite E, Nat2Z.id, lookup_app_r, Nat.sub_diag by done. done.
Qed.

Lemma live_write_exec c call w logs L L' : AFunction (wc_functionName c) ∈ wc_abi c →
  wc_functionName c ≠ js "approve" → encoded_call (wc_functionName c) (wc_args c) = Some call →
  hex_value (wc_address c) = this net → call_fits call = true → take_allowance call L = Some L' →
  exec net {| sender := me; timestamp := (lv_ms L + lat) / 1000 |} call (lv_world L) = Ret w →
  events w = events (lv_world L) ++ logs →
  live_write c L = (Ret (tx_hash L), mined w logs L').
Proof.
  intros Hf Hna Hc Ha Hfit Hal E Hev. unfold live_write. rewrite (bool_decide_eq_true_2 _ Hf). cbn [negb].
  rewrite (proj2 (str_eqb_false _ _) Hna), (call_of_encoded _ Hf), Hc, (bool_decide_eq_true_2 _ Ha), Hfit, Hal, E.
  cbn [andb]. by rewrite Hev, drop_app_length.
Qed.

Lemma live_write_approve c spender n L : AFunction (wc_functionName c) ∈ wc_abi c → wc_functionName c = js "approve" →
  wc_args c = [AAddr spender; AInt n] → uint_range 256 n →
  live_write c L = (Ret (tx_hash L),
    mined (lv_world L) [] (set_allowance (hex_value (wc_address c)) (hex_value spender) n L)).
Proof.
  intros Hf Ha Hargs Hn. unfold live_write. rewrite (bool_decide_eq_true_2 _ Hf), Ha, str_eqb_refl, Hargs. cbn [negb].
  by rewrite (proj2 (Z.leb_le _ _)), (proj2 (Z.ltb_lt _ _)) by lia.
Qed.

#[local] Abbreviation ops := live_ops.

(** The stream and the world that [createStream] makes. *)
Definition created_stream (m : Msg) (r k cm st : Z) : Stream :=
  {| s_employer := sender m; s_recipient := r; s_token := k; s_commitment := cm; s_funded := 0;
     s_withdrawn := 0; s_startTime := st; s_cancelled := false |}.
Definition created (m : Msg) (r k cm st : Z) (et : bytes) (w : World) : World :=
  let v := vault w in
  {| vault := {| owner := owner v; teeSigner := teeSigner v; nextStreamId := nextStreamId v + 1;
                 streams := <[nextStreamId v := created_stream m r k cm st]> (streams v); entered := entered v |};
     balances := balances w;
     events := events w ++ [StreamCreated (nextStreamId v) (sender m) r k cm st et] |}.

Lemma createStream_returns m r k cm st et w : r ≠ 0 → k ≠ 0 → cm ≠ 0 →
  nextStreamId (vault w) + 1 < 2 ^ 256 → createStream m r k cm st et w = Ret (created m r k cm st et w).
Proof.
  intros Hr Hk Hc Hn. unfold createStream, checked.
  rewrite !(proj2 (Z.eqb_neq _ _)) by done. cbn [negb]. by rewrite (proj2 (Z.ltb_lt _ _)) by done.
Qed.

Lemma created_at m r k cm st et w :
  stream_at (vault (created m r k cm st et w)) (nextStreamId (vault w)) = created_stream m r k cm st.
Proof. unfold stream_at. cbn [vault created streams]. by rewrite lookup_insert_eq. Qed.

#[local] Abbreviation msg_at L := {| sender := me; timestamp := (lv_ms L + lat) / 1000 |}.

Lemma live_create vh abi r tk cm st sealed e1 e2 L :
  let id := nextStreamId (vault (lv_world L)) in
  AFunction (js "createStream") ∈ abi → hex_value vh = this net → hex_value r ≠ 0 → hex_value tk ≠ 0 →
  hex_value cm ≠ 0 → 0 < id → id + 1 < 2 ^ 256 →
  create_stream ops vh abi r tk cm st sealed e1 e2 L =
    (Done id, mined (created (msg_at L) (hex_value r) (hex_value tk) (hex_value cm) st (hex_bytes sealed) (lv_world L))
      [StreamCreated id me (hex_value r) (hex_value tk) (hex_value cm) st (hex_bytes sealed)] L).
Proof.
  intros id Hf Hv Hr Ht Hc Hid Hn. unfold create_stream.
  erewrite run_calling; [|cbn [op_write live_ops]; eapply live_write_exec; [exact Hf|discriminate|reflexivity|exact Hv|
    reflexivity|reflexivity|cbn [exec]; by apply createStream_returns|reflexivity]].
  erewrite run_reading; [|cbn [op_receipt live_ops]; by apply mined_receipt].
  rewrite run_must by done. 
  change (stream_id_of _) with id. cbn zeta.
  rewrite run_must by (by apply Z.ltb_lt). done.
Qed.

(** The approval is exactly what [fund] takes. *)
Lemma live_fund vh abi erc20 tk id n e L w :
  AFunction (js "approve") ∈ erc20 → AFunction (js "fund") ∈ abi → hex_value vh = this net → uint_range 128 n →
  s_token (stream_at (vault (lv_world L)) id) = hex_value tk →
  fund net {| sender := me; timestamp := (lv_ms L + lat + lat) / 1000 |} id n (lv_world L) = Ret w →
  events w = events (lv_world L) ++ [StreamFunded id n] →
  approve_and_fund ops vh abi erc20 tk id n e L =
    (Done tt, mined w [StreamFunded id n] (set_allowance (hex_value tk) (this net) 0
      (mined (lv_world L) [] (set_allowance (hex_value tk) (this net) n L)))).
Proof.
  intros Ha Hf Hv Hn Htk E Hev. unfold approve_and_fund.
  erewrite run_calling; [|cbn [op_write live_ops]; apply (live_write_approve _ vh n); try done; lia].
  cbn [wc_address]. rewrite Hv.
  erewrite run_reading; [|cbn [op_receipt live_ops]; by apply mined_receipt].
  erewrite run_calling; [|cbn [op_write live_ops]; eapply (live_write_exec _ _ _ _ _ (set_allowance (hex_value tk) (this net) 0
      (mined (lv_world L) [] (set_allowance (hex_value tk) (this net) n L)))); [exact Hf|discriminate|reflexivity|exact Hv| | |
    cbn [exec]; exact E|exact Hev]].
  - erewrite run_reading; [|cbn [op_receipt live_ops]; by apply mined_receipt]. reflexivity.
  - cbn [call_fits]. apply andb_true_iff. rewrite Z.leb_le, Z.ltb_lt. done.
  - cbn [take_allowance mined lv_world lv_allowance set_allowance with_allowance]. rewrite Htk, decide_True by done.
    by rewrite Z.leb_refl, Z.sub_diag.
Qed.

Lemma live_call vh abi f args reverted call L w e :
  AFunction f ∈ abi → f ≠ js "approve" → hex_value vh = this net →
  encoded_call f args = Some call →
  call_fits call = true → take_allowance call L = Some L →
  exec net (msg_at L) call (lv_world L) = Ret w → events w = events (lv_world L) ++ [e] →
  vault_call ops vh abi f args reverted L = (Done (tx_hash L), mined w [e] L).
Proof.
  intros Hf Hna Hv Hc Hfit Hal E Hev. unfold vault_call.
  erewrite run_calling; [|cbn [op_write live_ops]; by eapply live_write_exec].
  erewrite run_reading; [|cbn [op_receipt live_ops]; by apply mined_receipt]. rewrite run_must by done. done.
Qed.
End live.

(** ** The enclave's answer *)

Lemma buffer_from_hex_digits b : is_bytes b → buffer_from_hex (hex_digits b) = b.
Proof.
  induction 1 as [|x b Hx _ IH]; [done|]. rewrite hex_digits_cons.
  destruct (byte_digits x Hx) as (h & l & E & Hh & Hl & Ex). rewrite E. cbn [app buffer_from_hex].
  rewrite !digit_char_hex by done. cbn [andb]. rewrite IH. f_equal. rewrite Ex.
  unfold digits_value. cbn [fold_left]. rewrite !digit_val_char by done. lia.
Qed.

Lemma buffer_from_hex_bytes b : is_bytes b → buffer_from_hex (slice_from (bytesToHex b) 2) = b.
Proof.
  intros Hb. rewrite bytesToHex_digits, slice_from_drop by lia.
  change (drop (Z.to_nat 2) (48 :: 120 :: hex_digits b)) with (hex_digits b). by apply buffer_from_hex_digits.
Qed.

(** The two fields that the scripts look for a reason in. *)
Definition reason_field (k : jsstr) : Prop := k = js "log" ∨ k = js "errorMessage".

Lemma read_granted `{JsEngine} {W} command ver log resp check_http reason refused (w : W) :
  json_ok resp = true → reason_field reason →
  json_ok (JObj (client_result command ver log (json_to_hex resp) 1)) = true →
  read_signed {| res_status := 200; res_body := Some (utf8_encode (JSON_stringify
      (JObj (client_result command ver log (json_to_hex resp) 1)))) |} check_http reason refused w = (Done resp, w).
Proof.
  intros Hr Hreason Hok. unfold read_signed.
  erewrite run_lift by (apply res_json_ok; [exact Hok|by eexists]).
  rewrite run_must by (by destruct check_http). set (b := JObj _).
  erewrite run_lift by reflexivity.
  assert (∃ why, (r ← prop b reason; template (Some (nullish r (JStr (js "unknown"))))) = Ret why) as [why Hwhy]
    by (destruct Hreason as [->| ->]; eexists; reflexivity).
  erewrite run_lift by exact Hwhy. rewrite run_must by (by apply bool_decide_eq_true_2).
  erewrite run_lift by reflexivity. unfold json_to_hex. 
  rewrite buffer_from_hex_bytes by (apply utf8_encode_bytes; by destruct (stringify_wf resp Hr)).
  rewrite JSON_utf8_roundtrip by done. done.
Qed.

#[local] Hint Resolve str_ok num_ok js_is_units toBytes32Hex_units : sw.

Lemma granted_result_ok command resp : is_units command → is_units (json_to_hex resp) →
  json_ok (JObj (client_result command (js "0.1.0") (action_log 1 None) (json_to_hex resp) 1)) = true.
Proof. intros Hc Hu. json_fields. Qed.

Section enclave.
Context `{JsEngine, EvmLaws, Viem, !ViemLaws, Ecies, !EciesLaws}.

(** An honest request, posted, is signed, and the script reads the authorization. *)
Lemma granted_delivered srv env s url command tag req t tee ch st now :
  main_server = Ret srv → stream_op command tag → request_units req → date_ok now →
  honest env tag (payload (JObj (request_fields req))) req t tee ch st →
  ∃ sg res, let auth := authorization req t (now_sec env) sg in
    signed_by tee [hex_value tag; ch; hex_value (StreamHandlers.vault req); st;
      be_value (keccak (abi_encode (terms_words t))); accruedAt t (now_sec env); now_sec env + 600] sg ∧
    deliver srv env None s (url ++ js "/action") (buildActionBody OP_TYPE_STREAM command (JObj (request_fields req)) now) = Ret res ∧
    ∀ W check_http reason refused (w : W), reason_field reason →
      read_signed res check_http reason refused w = (Done auth, w).
Proof.
  intros Hm Hop Hu Hn Hh. pose proof (stream_op_tag _ _ Hop) as Htag.
  destruct (honest_granted _ _ _ _ _ _ _ _ Hh) as (sg & Hsteps & Hsg). exists sg. eexists. cbn zeta.
  split; [exact Hsg|].
  destruct (proj1 (authorize_steps_inr _ _ _ _) Hsteps) as (req' & p & terms & Hreq' & Hg).
  pose proof (granted_response_ok _ _ _ _ _ _ _ Htag (h_env _ _ _ _ _ _ _ _ Hh) Hreq' Hg) as Hrok.
  assert (authorize env tag (payload (JObj (request_fields req))) (authCount s)
    = (Ret (Some (json_to_hex (authorization req t (now_sec env) sg)), 1, None), num_incr (authCount s))) as Ea
    by (unfold authorize, json_to_hex; by rewrite Hsteps).
  split.
  { rewrite (serve_client srv env None s url command tag _ now _ _ Hm Hop (request_fields_ok _ Hu) Hn Ea).
    reflexivity. }
  intros W check_http reason refused w Hreason. cbn [fst snd default from_option id].
  apply read_granted; [done|done|]. pose proof (json_to_hex_units _ Hrok).
  assert (is_units command) as Hcu by (destruct Hop as [[-> _]|[-> _]]; apply js_is_units).
  by apply granted_result_ok.
Qed.
End enclave.
