(* ===== verification/Rehearsal.v ===== *)
(** * The scripts run to their end (theorems on ScriptMains.v)

    The scripts are rehearsed in the world of Live.v: a vault in any reachable state,
    a token that moves what it is asked to, the enclave's server with the keys that
    the vault and the script expect, and a network that takes up to a minute for
    every transaction and post.  There every [must] of a script holds. *)

From S2P Require Import Prelude JsString JsNumber Utf8 Json JsMath JsonFacts Encoding Wire Framework Abi Instances Protocol StreamHandlers StreamProps Handlers Server EnclaveClient Main Scripts Vault VaultFacts VaultProps EndToEnd Chain Pages ScriptMains Live.
#[local] Open Scope script_scope.

(** ** Amounts and texts *)

Lemma bigint_of_number_Z z : Z.abs z ≤ 2 ^ 53 → bigint_of_number (Some (num_of_Z z)) = Ret z.
Proof.
  intros Hz. unfold num_of_Z. rewrite (proj2 (Z.leb_le _ _) Hz).
  destruct (Z.eq_dec z 0) as [->|Hne]; [done|]. unfold num_exact.
  destruct (Z.abs z) as [|p|p] eqn:Ep; [lia| |lia].
  pose proof (strip_pos_value p 0 ltac:(lia)) as Hs. destruct (strip_pos p 0) as [p' e'].
  destruct Hs as [He Hv]. rewrite Z.pow_0_r, Z.mul_1_r in Hv. cbn [bigint_of_number].
  rewrite (proj2 (Z.leb_le 0 e') He). f_equal. unfold signed.
  destruct (Z.ltb_spec z 0); lia.
Qed.

(** Hashes that serve as salts. *)
Lemma hash_salt `{EvmLaws, Viem, !ViemLaws} b : hex_shape 64 (keccak256_bytes b) = true ∧
  ascii_lower <$> keccak256_bytes b = keccak256_bytes b.
Proof.
  rewrite keccak256_bytes_hex. split.
  - apply (hex_shape_of 64); [apply keccak_bytes|]. by rewrite keccak_length.
  - apply bytesToHex_ascii_lower, keccak_bytes.
Qed.

(** The accrual of a daily rate, for at most [days] days. *)
Lemma accrual_of_day t x n days : 0 ≤ x → 0 ≤ days → ratePerSecond t = ratePerDayToScaled x → 0 ≤ total t →
  n - startTime t ≤ days * 86400 → 0 ≤ accruedAt t n ≤ x * days.
Proof.
  intros Hx Hd Hr Ht Hn. assert (0 ≤ ratePerSecond t ∧ ratePerSecond t * 86400 ≤ x * 10 ^ 12) as [Hr0 Hr1].
  { rewrite Hr. unfold ratePerDayToScaled, RATE_SCALE. rewrite Z.quot_div_nonneg by lia. split.
    - apply Z.div_pos; lia.
    - rewrite Z.mul_comm. apply Z.mul_div_le. lia. }
  pose proof (accruedAt_bounds t n Hr0 Ht) as [Ha _]. split; [done|].
  rewrite accruedAt_min by done. unfold RATE_SCALE.
  transitivity (ratePerSecond t * Z.max 0 (n - startTime t) / 10 ^ 12); [lia|].
  apply Z.div_le_upper_bound; [lia|].
  assert (ratePerSecond t * Z.max 0 (n - startTime t) ≤ ratePerSecond t * (days * 86400))
    by (apply Z.mul_le_mono_nonneg_l; lia). nia.
Qed.

(** A token that moves what it is asked to. *)
Definition plain_token `{Erc20} : Prop :=
  ∀ t from to n b, 0 ≤ n ≤ b t from → token_transfer t from to n b = Some (move t from to n b).

Definition paid_to (t from to n : Z) (b b' : Balances) : Prop :=
  ∀ h, b' t h = b t h - (if decide (h = from) then n else 0) + (if decide (h = to) then n else 0).

Lemma plain_move `{Erc20} t from to n b : plain_token → 0 ≤ n ≤ b t from →
  ∃ b', token_transfer t from to n b = Some b' ∧ paid_to t from to n b b'.
Proof.
  intros Hp Hn. exists (move t from to n b). split; [by apply Hp|].
  intros h. unfold move. by rewrite decide_True.
Qed.

Lemma plain_positive `{Erc20} t from to n b : plain_token → 0 ≤ n ≤ b t from →
  ∃ b', transfer_positive t from to n b = Some b' ∧ paid_to t from to n b b'.
Proof.
  intros Hp Hn. unfold transfer_positive. destruct (Z.ltb_spec 0 n); [by apply plain_move|].
  exists b. split; [done|]. intros h. replace n with 0 by lia. repeat case_decide; lia.
Qed.

(** ** The stage *)

(** The world before a script: who holds which keys, and what is deployed. *)
Record stage `{JsEngine, Evm, Viem, Ecies, Erc20} (env enclave : Environment) (net : Net) (lat dec : Z)
    (abi : list abi_item) (srv : Server) (emp tee : account) (ke : jsstr) (L : Live) : Prop := {
  sg_program : main_server = Ret srv;
  sg_employer : ∃ key, env_truthy (env (js "DEPLOYMENT_PRIVATE_KEY")) = Some key ∧ privateKeyToAccount key = Ret emp;
  sg_ecies : env_truthy (env (js "TEE_ECIES_PRIVKEY")) = Some ke ∧
    env_truthy (enclave (js "TEE_ECIES_PRIVKEY")) = Some ke;
  sg_signer : ∃ ks, env_truthy (enclave (js "TEE_SIGNER_PRIVKEY")) = Some ks ∧ privateKeyToAccount ks = Ret tee;
  sg_vault : isAddress (script_vault env) = true ∧ hex_value (script_vault env) = this net;
  sg_chain : script_chain env = Some (num_of_Z (chainid net)) ∧ 0 ≤ chainid net ≤ 2 ^ 53;
  sg_world : ∃ w0 cs, fresh net w0 ∧ vrun net w0 cs (lv_world L);
  sg_teeSigner : teeSigner (vault (lv_world L)) = hex_value (account_address tee) ∧
    teeSigner (vault (lv_world L)) ≠ 0;
  sg_ids : nextStreamId (vault (lv_world L)) + 1 < 2 ^ 256;
  sg_clock : 0 ≤ lat ≤ 60000 ∧ 0 ≤ lv_ms L ≤ 8630000000000000;
  sg_me : hex_value (account_address emp) ≠ 0 ∧ hex_value (account_address emp) ≠ this net;
  sg_token : plain_token ∧ 0 ≤ dec ≤ 36;
  sg_balances : ∀ t h, 0 ≤ balances (lv_world L) t h;
  sg_abi : ∀ f, f ∈ [js "createStream"; js "fund"; js "withdraw"; js "cancelStream"; js "revealTerms"] → AFunction f ∈ abi;
}.

Section facts.
Context `{JsEngine, EvmLaws, Viem, !ViemLaws, Ecies, !EciesLaws, Erc20, !Erc20Laws}.
Context (env enclave : Environment) (net : Net) (lat dec : Z) (abi : list abi_item) (srv : Server)
  (emp tee : account) (ke : jsstr) (L : Live).
Context (Hst : stage env enclave net lat dec abi srv emp tee ke L).

Let me := hex_value (account_address emp).
#[local] Abbreviation ops := (live_ops net me srv enclave lat dec).

Lemma unit_range : 0 < 10 ^ dec ≤ 10 ^ 36.
Proof using Hst.
  destruct (sg_token _ _ _ _ _ _ _ _ _ _ _ Hst) as [_ Hd]. split; [apply Z.pow_pos_nonneg; lia|].
  apply Z.pow_le_mono_r; lia.
Qed.

Lemma stage_vault : world_ok net (lv_world L) ∧ entered (vault (lv_world L)) = 1 ∧ 0 < nextStreamId (vault (lv_world L)).
Proof using All.
  destruct (sg_world _ _ _ _ _ _ _ _ _ _ _ Hst) as (w0 & cs & Hf & Hr).
  pose proof (fresh_run_ok net w0 cs _ Hf Hr) as Hw. split; [done|].
  destruct Hw as [(He & Hn & _) _]. split; [done|lia].
Qed.

(** What a script seals, the enclave can open. *)
Lemma seals t rnd c : terms_ok t → encrypt (ecies_public ke) rnd (abi_encode (terms_words t)) = Ret c →
  seal_terms ke rnd (bytesToHex (abi_encode (terms_words t))) = Ret (bytesToHex c).
Proof using All.
  intros Ht Hc. unfold seal_terms. rewrite buffer_from_hex_bytes by apply abi_encode_bytes.
  rewrite Hc. cbn [mbind outcome_bind]. by rewrite buffer_hex_bytes.
Qed.

(** A stream created and funded by a script: its id, the time and the world then. *)
Definition opened (st : Z) (cm rcp tk amount : Z) (L' : Live) : Prop :=
  let id := nextStreamId (vault (lv_world L)) in
  lv_ms L' = lv_ms L + 3 * lat ∧ lv_app L' = lv_app L ∧
  entered (vault (lv_world L')) = 1 ∧ teeSigner (vault (lv_world L')) = teeSigner (vault (lv_world L)) ∧
  stream_at (vault (lv_world L')) id = {| s_employer := me; s_recipient := rcp; s_token := tk; s_commitment := cm;
    s_funded := amount; s_withdrawn := 0; s_startTime := st; s_cancelled := false |} ∧
  paid_to tk me (this net) amount (balances (lv_world L)) (balances (lv_world L')).

Lemma opens erc20 rcp tk p st c amount e1 e2 e3 :
  AFunction (js "approve") ∈ erc20 → hex_value rcp ≠ 0 → hex_value tk ≠ 0 → be_value (keccak p) ≠ 0 →
  0 < amount < 2 ^ 128 → amount ≤ balances (lv_world L) (hex_value tk) me →
  let id := nextStreamId (vault (lv_world L)) in
  let cm := bytesToHex (keccak p) in
  ∃ L1 L2, create_stream ops (script_vault env) abi rcp tk cm st (bytesToHex c) e1 e2 L = (Done id, L1) ∧
    approve_and_fund ops (script_vault env) abi erc20 tk id amount e3 L1 = (Done tt, L2) ∧
    opened st (be_value (keccak p)) (hex_value rcp) (hex_value tk) amount L2 ∧
    stream_at (vault (lv_world L1)) id = created_stream {| sender := me; timestamp := (lv_ms L + lat) / 1000 |}
      (hex_value rcp) (hex_value tk) (be_value (keccak p)) st.
Proof using All.
  intros Ha Hr Hk Hc Hn Hb id cm.
  destruct stage_vault as (_ & He & Hid). destruct (sg_vault _ _ _ _ _ _ _ _ _ _ _ Hst) as [_ Hv].
  pose proof (sg_abi _ _ _ _ _ _ _ _ _ _ _ Hst) as Habi.
  destruct (sg_me _ _ _ _ _ _ _ _ _ _ _ Hst) as [Hme _]. fold me in Hme.
  assert (hex_value cm = be_value (keccak p)) as Ecm by (unfold cm; by rewrite hex_value_hex by apply keccak_bytes).
  set (m := {| sender := me; timestamp := (lv_ms L + lat) / 1000 |}).
  set (w1 := created m (hex_value rcp) (hex_value tk) (hex_value cm) st (hex_bytes (bytesToHex c)) (lv_world L)).
  set (L1 := mined lat w1 [StreamCreated id me (hex_value rcp) (hex_value tk) (hex_value cm) st (hex_bytes (bytesToHex c))] L).
  assert (stream_at (vault w1) id = created_stream m (hex_value rcp) (hex_value tk) (be_value (keccak p)) st) as Es
    by (unfold w1; rewrite created_at, Ecm; done).
  destruct (sg_token _ _ _ _ _ _ _ _ _ _ _ Hst) as [Hplain _].
  destruct (plain_move (hex_value tk) me (this net) amount (balances w1) Hplain ltac:(cbn; lia)) as (b & Hb1 & Hb2).
  set (w2 := {| vault := set_stream (vault w1) id (add_funds (stream_at (vault w1) id) amount); balances := b;
                events := events w1 ++ [StreamFunded id amount] |}).
  exists L1, (mined lat w2 [StreamFunded id amount] (set_allowance (hex_value tk) (this net) 0
    (mined lat w1 [] (set_allowance (hex_value tk) (this net) amount L1)))). split; [|split; [|split]].
  - apply live_create; try done; [apply Habi; set_solver|by rewrite Ecm|]. apply (sg_ids _ _ _ _ _ _ _ _ _ _ _ Hst).
  - apply live_fund; [done|apply Habi; set_solver|done|lia|cbn [L1 mined lv_world]; by rewrite Es| |done].
    apply fund_Ret. cbn zeta. cbn [L1 mined lv_world]. rewrite Es. cbn [created_stream s_employer s_cancelled s_funded s_token sender].
    split; [done|]. split; [done|]. split; [done|]. split; [lia|]. split; [lia|]. exists b. split; [exact Hb1|].
    unfold w2. by rewrite Es.
  - unfold opened. cbn [L1 mined set_allowance with_allowance lv_ms lv_app lv_world]. split; [lia|]. split; [done|].
    split; [done|]. split; [done|]. split; [|exact Hb2].
    unfold w2. cbn [vault]. rewrite stream_at_set, decide_True by done. rewrite Es. done.
  - exact Es.
Qed.

Lemma stage_chain : bigint_of_number (script_chain env) = Ret (chainid net) ∧
  number_text (script_chain env) = bigint_to_string (chainid net) ∧ uint_range 256 (chainid net).
Proof using Hst.
  destruct (sg_chain _ _ _ _ _ _ _ _ _ _ _ Hst) as [-> Hc].
  split; [apply bigint_of_number_Z; lia|]. split; [apply num_to_string_of_Z; lia|]. lia.
Qed.

(** The employer's question, posted at some moment, is answered with a signature. *)
Lemma answered tag command t rnd c id iss L' :
  stream_op command tag → terms_ok t → employer t = account_address emp →
  encrypt (ecies_public ke) rnd (abi_encode (terms_words t)) = Ret c → uint_range 256 id →
  iss = lv_ms L' / 1000 → 0 ≤ lv_ms L' ≤ 8640000000000000 - lat →
  let cm := bytesToHex (keccak (abi_encode (terms_words t))) in
  let now := (lv_ms L' + lat) / 1000 in
  ∃ raw sig, buildCallerChallenge {| cp_chainId := chainid net; cp_vault := script_vault env; cp_streamId := id;
      cp_commitment := cm; cp_purpose := tag; cp_issuedAt := iss |} = Ret raw ∧
    signMessage emp raw = Ret sig ∧
    let req := party_request id (script_vault env) (bigint_to_string (chainid net)) cm (bytesToHex c) iss sig in
    request_units req ∧ ∀ base, ∃ res sg app,
      op_post ops (base ++ js "/action") (buildActionBody OP_TYPE_STREAM command (JObj (request_fields req)) (lv_ms L')) L' =
        (Ret res, {| lv_world := lv_world L'; lv_ms := lv_ms L' + lat; lv_app := app; lv_receipts := lv_receipts L';
      lv_allowance := lv_allowance L' |}) ∧
      (∀ W check_http reason refused (w : W), reason_field reason →
         read_signed res check_http reason refused w = (Done (authorization req t now sg), w)) ∧
      signed_by tee [hex_value tag; chainid net; this net; id; be_value (keccak (abi_encode (terms_words t)));
        accruedAt t now; now + 600] sg.
Proof using All.
  intros Hop Ht Hemp Henc Hid Hiss Hms cm now. unfold cm.
  destruct (sg_clock _ _ _ _ _ _ _ _ _ _ _ Hst) as [Hlat _].
  destruct (sg_vault _ _ _ _ _ _ _ _ _ _ _ Hst) as [Hva Hv].
  destruct (sg_ecies _ _ _ _ _ _ _ _ _ _ _ Hst) as [_ Hke].
  destruct (sg_signer _ _ _ _ _ _ _ _ _ _ _ Hst) as (ks & Hks & Htee).
  destruct stage_chain as (_ & _ & Hch).
  pose proof (sg_program _ _ _ _ _ _ _ _ _ _ _ Hst) as Hm.
  set (e := env_at enclave (lv_ms L' + lat)).
  assert (env_ok e) as He.
  { split; [unfold e; cbn [now_ms env_at]; lia|]. intros k Hk. change (env_truthy (enclave (js "TEE_SIGNER_PRIVKEY")) = Some k) in Hk.
    rewrite Hks in Hk. injection Hk as <-. by eexists. }
  assert (0 ≤ iss ∧ Z.abs (iss - now_sec e) ≤ 300) as [Hi0 Hskew].
  { change (now_sec e) with ((lv_ms L' + lat) / 1000). rewrite Hiss. split; [apply Z.div_pos; lia|].
    pose proof (Z.div_mod (lv_ms L') 1000 ltac:(lia)). pose proof (Z.mod_pos_bound (lv_ms L') 1000 ltac:(lia)).
    pose proof (Z.div_mod (lv_ms L' + lat) 1000 ltac:(lia)). pose proof (Z.mod_pos_bound (lv_ms L' + lat) 1000 ltac:(lia)). lia. }
  destruct (challenge_honest e tag t tee emp (script_vault env) (bigint_to_string (chainid net)) (chainid net) id iss
    ke ks rnd c (stream_op_tag _ _ Hop) He Ht Hke Hks Htee Henc Hva (bigint_units _) (BigInt_to_string _) Hch Hid Hi0 Hskew
    ltac:(left; by rewrite Hemp)) as (raw & sig & Hraw & Hsig & Hu & Hh).
  exists raw, sig. split; [exact Hraw|]. split; [exact Hsig|]. cbn zeta in *.
  split; [exact Hu|]. intros base.
  assert (date_ok (lv_ms L')) as Hd by (unfold date_ok; lia).
  destruct (granted_delivered srv e (lv_app L') base command tag _ t tee _ _ (lv_ms L') Hm Hop Hu Hd Hh)
    as (sg & res & Hsg & Hdel & Hread).
  exists res, sg. eexists. cbn [live_ops op_post]. unfold live_post. fold e. split; [rewrite Hdel; reflexivity|].
  split; [exact Hread|]. change (StreamHandlers.vault (party_request _ _ _ _ _ _ _)) with (script_vault env) in Hsg.
  rewrite Hv in Hsg. exact Hsg.
Qed.

(** The disclosure of terms by the employer. *)
Lemma reveals id p L1 :
  s_employer (stream_at (vault (lv_world L1)) id) = me → me ≠ 0 → is_bytes p →
  s_commitment (stream_at (vault (lv_world L1)) id) = be_value (keccak p) →
  vault_call ops (script_vault env) abi (js "revealTerms") [AInt id; AHex (bytesToHex p)] (λ _, js "revealTerms reverted") L1 =
    (Done (tx_hash L1), mined lat (emit (TermsRevealed id p) (lv_world L1)) [TermsRevealed id p] L1).
Proof using All.
  intros Hemp Hme Hp Hcm. destruct (sg_vault _ _ _ _ _ _ _ _ _ _ _ Hst) as [_ Hv].
  assert (revealTerms id p (lv_world L1) = Ret (emit (TermsRevealed id p) (lv_world L1))) as E2.
  { unfold revealTerms. rewrite Hemp, Hcm. by rewrite (proj2 (Z.eqb_neq _ _) Hme), Z.eqb_refl. }
  pose proof (live_call net me srv enclave lat dec (script_vault env) abi (js "revealTerms")
    [AInt id; AHex (bytesToHex p)] (λ _, js "revealTerms reverted") (CRevealTerms id (hex_bytes (bytesToHex p)))
    L1 (emit (TermsRevealed id p) (lv_world L1)) (TermsRevealed id p)) as Hcall.
  cbn [exec call_fits] in Hcall. rewrite hex_bytes_hex in Hcall by done.
  apply Hcall; [apply (sg_abi _ _ _ _ _ _ _ _ _ _ _ Hst); set_solver|discriminate|exact Hv| |reflexivity|reflexivity|exact E2|reflexivity].
  cbn [encoded_call]. rewrite hex_bytes_hex by done. reflexivity.
Qed.

(** ** test-settle.ts *)

Section settle.
Context (alice : account).
Let t := Settle.terms (account_address emp) (account_address alice) (10 ^ dec) (lv_ms L / 1000) (lv_ms L).
Let fxrp := hex_value Settle.FXRP.

Lemma settle_terms_ok : terms_ok t.
Proof using All.
  pose proof unit_range as Hu. destruct (sg_clock _ _ _ _ _ _ _ _ _ _ _ Hst) as [_ Hms].
  unfold t, terms_ok, Settle.terms. cbn [employer recipient token ratePerSecond total startTime salt].
  split; [apply account_shape|]. split; [apply account_shape|]. split; [apply isAddress_lower; reflexivity|]. split.
  { unfold ratePerDayToScaled, RATE_SCALE. rewrite (Z.quot_div_nonneg (10 ^ dec)) by lia.
    assert (0 ≤ 10 ^ dec / 10 ≤ 10 ^ 36) by (split; [apply Z.div_pos; lia|apply Z.div_le_upper_bound; lia]).
    rewrite Z.quot_div_nonneg by lia.
    split; [apply Z.div_pos; lia|apply Z.div_lt_upper_bound; lia]. }
  split; [lia|]. split; [split; [apply Z.div_pos; lia|apply Z.div_lt_upper_bound; lia]|apply hash_salt].
Qed.

Lemma settle_accrual n : n - lv_ms L / 1000 ≤ 86400 → 0 ≤ accruedAt t n ≤ 10 ^ dec.
Proof using All.
  intros Hn. pose proof unit_range as Hu.
  assert (0 ≤ Z.quot (10 ^ dec) 10 ≤ 10 ^ dec) as Hq
    by (rewrite Z.quot_div_nonneg by lia; split; [apply Z.div_pos; lia|apply Z.div_le_upper_bound; lia]).
  pose proof (accrual_of_day t (Z.quot (10 ^ dec) 10) n 1 ltac:(lia) ltac:(lia) eq_refl) as Ha.
  change (total t) with (100 * 10 ^ dec) in Ha. change (startTime t) with (lv_ms L / 1000) in Ha.
  specialize (Ha ltac:(lia) ltac:(lia)). lia.
Qed.

(** The employer's question, in a world with the stream open. *)
Lemma settle_asks rnd c id L' :
  encrypt (ecies_public ke) rnd (abi_encode (terms_words t)) = Ret c → uint_range 256 id →
  0 ≤ lv_ms L' ≤ 8640000000000000 - lat →
  let now := (lv_ms L' + lat) / 1000 in
  ∃ req sg app, Settle.ask ops env emp id (bytesToHex (keccak (abi_encode (terms_words t)))) (bytesToHex c) L' =
      (Done (authorization req t now sg),
       {| lv_world := lv_world L'; lv_ms := lv_ms L' + lat; lv_app := app; lv_receipts := lv_receipts L';
      lv_allowance := lv_allowance L' |}) ∧
    signed_by tee [hex_value SETTLE_TAG; chainid net; this net; id; be_value (keccak (abi_encode (terms_words t)));
      accruedAt t now; now + 600] sg.
Proof using All.
  intros Hc Hid Hms now. destruct stage_chain as (Hch & Hcht & _).
  destruct (answered SETTLE_TAG OP_COMMAND_AUTH_SETTLE t rnd c id (lv_ms L' / 1000) L' ltac:(by right) settle_terms_ok
    eq_refl Hc Hid eq_refl Hms) as (raw & sig & Hraw & Hsig & Hu & Hpost).
  destruct (Hpost (Settle.ENCLAVE env)) as (res & sg & app & Hop & Hread & Hsg).
  eexists _, sg, app. split; [|exact Hsg]. unfold Settle.ask, now_s, now_ms_of.
  erewrite run_reading by reflexivity. erewrite run_lift by exact Hch. erewrite run_lift by exact Hraw.
  erewrite run_lift by exact Hsig. erewrite run_reading by reflexivity.
  unfold Settle.request. rewrite Hcht. cbn [op_now live_ops].
  change {| StreamHandlers.streamId := bigint_to_string id |} with
    (party_request id (script_vault env) (bigint_to_string (chainid net))
      (bytesToHex (keccak (abi_encode (terms_words t)))) (bytesToHex c) (lv_ms L' / 1000) sig).
  rewrite settle_envelope; [|apply js_is_units|by apply request_fields_ok|unfold date_ok; destruct (sg_clock _ _ _ _ _ _ _ _ _ _ _ Hst); lia].
  erewrite run_calling; [|exact Hop]. rewrite Hread by by left. reflexivity.
Qed.

(** The world after the settlement for [acc], with the balances [b]. *)
Definition settled (id acc : Z) (b : Z → Z → Z) (w : World) : World := {|
  vault := set_stream (vault w) id (set_withdrawn (stream_at (vault w) id) acc true); balances := b;
  events := events w ++ [StreamCancelled id (10 ^ dec - acc)] |}.

(** The cancellation of the open stream, for what was signed. *)
Lemma cancels sg T st L' :
  let id := nextStreamId (vault (lv_world L)) in
  let cm := be_value (keccak (abi_encode (terms_words t))) in
  let acc := accruedAt t T in
  hex_value (account_address alice) ≠ this net → 0 ≤ acc ≤ 10 ^ dec → 0 ≤ T ≤ 2 ^ 64 →
  opened st cm (hex_value (account_address alice)) fxrp (10 ^ dec)
    {| lv_world := lv_world L'; lv_ms := lv_ms L + 3 * lat; lv_app := lv_app L; lv_receipts := [];
      lv_allowance := λ _ _, 0 |} →
  (lv_ms L' + lat) / 1000 ≤ T + 600 →
  signed_by tee [hex_value SETTLE_TAG; chainid net; this net; id; cm; acc; T + 600] sg →
  ∃ b1 b2, paid_to fxrp (this net) (hex_value (account_address alice)) acc (balances (lv_world L')) b1 ∧
    paid_to fxrp (this net) me (10 ^ dec - acc) b1 b2 ∧
    cancelStream net {| sender := me; timestamp := (lv_ms L' + lat) / 1000 |} id acc (T + 600) sg (lv_world L')
      = Ret (settled id acc b2 (lv_world L')) ∧
    let s := stream_at (vault (settled id acc b2 (lv_world L'))) id in
    s_cancelled s = true ∧ s_funded s = 10 ^ dec ∧ s_withdrawn s = acc.
Proof using All.
  intros id cm acc Ha2 Hacc HT (_ & _ & Hent & Htee & Hs & Hbal) Hlate Hsg.
  cbn [lv_world] in *. fold id in Hs.
  destruct (sg_me _ _ _ _ _ _ _ _ _ _ _ Hst) as [Hme Hme']. fold me in Hme, Hme'.
  destruct (sg_token _ _ _ _ _ _ _ _ _ _ _ Hst) as [Hplain _]. pose proof unit_range as Hu.
  pose proof (Hbal (this net)) as Hb0. rewrite decide_False, decide_True in Hb0 by done.
  pose proof (sg_balances _ _ _ _ _ _ _ _ _ _ _ Hst fxrp (this net)) as Hn0.
  destruct (plain_positive fxrp (this net) (hex_value (account_address alice)) acc (balances (lv_world L')) Hplain
    ltac:(lia)) as (b1 & Hb1 & Hp1).
  pose proof (Hp1 (this net)) as Hb1'. rewrite decide_True, decide_False in Hb1' by (done || congruence).
  destruct (plain_positive fxrp (this net) me (10 ^ dec - acc) b1 Hplain ltac:(lia)) as (b2 & Hb2 & Hp2).
  exists b1, b2. split; [exact Hp1|]. split; [exact Hp2|]. unfold settled. set (s := stream_at (vault (lv_world L')) id) in *.
  split.
  2:{ cbn [vault]. rewrite stream_at_set, decide_True by done. by rewrite Hs. }
  destruct (sg_teeSigner _ _ _ _ _ _ _ _ _ _ _ Hst) as [Ht1 Ht2].
  apply cancelStream_Ret; fold s; rewrite ?Hs; cbn [s_funded s_withdrawn s_employer s_cancelled s_commitment s_token s_recipient sender timestamp];
    [lia|lia|lia|]. cbn zeta. replace (Z.max 0 (Z.min acc (10 ^ dec))) with acc by lia. rewrite Z.sub_0_r.
  do 4 (split; [done|]). split.
  - apply signature_accepted with tee; [by rewrite Htee|by rewrite Htee|]. unfold vault_words.
    rewrite <- settle_tag_word. exact Hsg.
  - exists b1, b2. split; [exact Hb1|]. split; [exact Hb2|]. by rewrite <- Hs.
Qed.

(** The settlement of what was signed. *)
Lemma settles sg T st L' :
  let id := nextStreamId (vault (lv_world L)) in
  let cm := be_value (keccak (abi_encode (terms_words t))) in
  let acc := accruedAt t T in
  hex_value (account_address alice) ≠ me → hex_value (account_address alice) ≠ this net →
  opened st cm (hex_value (account_address alice)) fxrp (10 ^ dec)
    {| lv_world := lv_world L'; lv_ms := lv_ms L + 3 * lat; lv_app := lv_app L; lv_receipts := [];
      lv_allowance := λ _ _, 0 |} →
  0 ≤ T ≤ 2 ^ 64 → T - lv_ms L / 1000 ≤ 86400 → (lv_ms L' + lat) / 1000 ≤ T + 600 →
  signed_by tee [hex_value SETTLE_TAG; chainid net; this net; id; cm; acc; T + 600] sg →
  ∃ b, let w2 := settled id acc b (lv_world L') in
  vault_call ops (script_vault env) abi (js "cancelStream") [AInt id; AInt acc; AInt (T + 600); AHex (bytesToHex sg)]
    (λ cx, js "cancelStream reverted (" ++ cx ++ js ")") L' = (Done (tx_hash L'), mined lat w2 [StreamCancelled id (10 ^ dec - acc)] L') ∧
  (let s := stream_at (vault w2) id in s_cancelled s = true ∧ s_funded s = 10 ^ dec ∧ s_withdrawn s = acc) ∧
  b fxrp (hex_value (account_address alice)) = balances (lv_world L') fxrp (hex_value (account_address alice)) + acc ∧
  b fxrp me = balances (lv_world L') fxrp me + (10 ^ dec - acc) ∧
  balances (lv_world L') fxrp me = balances (lv_world L) fxrp me - 10 ^ dec ∧
  balances (lv_world L') fxrp (hex_value (account_address alice))
    = balances (lv_world L) fxrp (hex_value (account_address alice)) ∧
  b fxrp (this net) = balances (lv_world L) fxrp (this net).
Proof using All.
  intros id cm acc Ha1 Ha2 Hopen HT Hday Hlate Hsg.
  pose proof (settle_accrual T Hday) as Hacc. fold acc in Hacc. pose proof unit_range as Hu.
  destruct (cancels sg T st L' Ha2 Hacc HT Hopen Hlate Hsg) as (b1 & b2 & Hp1 & Hp2 & E & Hs').
  fold id acc in Hp1, Hp2, E, Hs'. destruct Hopen as (_ & _ & Hent & Htee & Hs & Hbal). cbn [lv_world] in *.
  destruct (sg_vault _ _ _ _ _ _ _ _ _ _ _ Hst) as [_ Hv].
  destruct (sg_me _ _ _ _ _ _ _ _ _ _ _ Hst) as [Hme Hme']. fold me in Hme, Hme'.
  set (w2 := settled id acc b2 (lv_world L')) in *. pose proof Hsg as (Hsgb & _).
  pose proof (live_call net me srv enclave lat dec (script_vault env) abi (js "cancelStream")
    [AInt id; AInt acc; AInt (T + 600); AHex (bytesToHex sg)] (λ cx, js "cancelStream reverted (" ++ cx ++ js ")")
    (CCancelStream id acc (T + 600) (hex_bytes (bytesToHex sg))) L' w2 (StreamCancelled id (10 ^ dec - acc))) as Hcall.
  cbn [exec call_fits] in Hcall. rewrite hex_bytes_hex in Hcall by done.
  specialize (Hcall ltac:(apply (sg_abi _ _ _ _ _ _ _ _ _ _ _ Hst); set_solver) ltac:(discriminate) Hv).
  specialize (Hcall ltac:(cbn [encoded_call]; rewrite hex_bytes_hex by done; reflexivity)
    ltac:(apply andb_true_iff; rewrite Z.leb_le, Z.ltb_lt; lia) eq_refl E eq_refl).
  pose proof (Hp1 (hex_value (account_address alice))) as A1. pose proof (Hp2 (hex_value (account_address alice))) as A2.
  pose proof (Hp1 me) as E1. pose proof (Hp2 me) as E2. pose proof (Hp2 (this net)) as N2.
  pose proof (Hp1 (this net)) as N1. pose proof (Hbal (this net)) as N0.
  pose proof (Hbal me) as E0. pose proof (Hbal (hex_value (account_address alice))) as A0.
  repeat match goal with
  | H : context [decide ?P] |- _ =>
      first [rewrite (decide_True (P:=P)) in H by done | rewrite (decide_False (P:=P)) in H by congruence]
  end.
  exists b2. split; [exact Hcall|]. split; [exact Hs'|].
  split_and!; lia.
Qed.

(** The cancellation pays out what the enclave signed. *)
Lemma settle_pays req sg T st L' :
  let id := nextStreamId (vault (lv_world L)) in
  let cm := be_value (keccak (abi_encode (terms_words t))) in
  let acc := accruedAt t T in
  hex_value (account_address alice) ≠ me → hex_value (account_address alice) ≠ this net →
  opened st cm (hex_value (account_address alice)) fxrp (10 ^ dec)
    {| lv_world := lv_world L'; lv_ms := lv_ms L + 3 * lat; lv_app := lv_app L; lv_receipts := [];
      lv_allowance := λ _ _, 0 |} →
  0 ≤ T ≤ 2 ^ 64 → T - lv_ms L / 1000 ≤ 86400 → (lv_ms L' + lat) / 1000 ≤ T + 600 →
  signed_by tee [hex_value SETTLE_TAG; chainid net; this net; id; cm; acc; T + 600] sg →
  ∃ L2, Settle.settle_with ops env abi (account_address emp) (account_address alice) id (10 ^ dec)
      (balances (lv_world L') fxrp me) (balances (lv_world L') fxrp (hex_value (account_address alice)))
      (authorization req t T sg) L' = (Done tt, L2) ∧
    let s := stream_at (vault (lv_world L2)) id in
    s_cancelled s = true ∧ s_funded s = 10 ^ dec ∧ s_withdrawn s = acc ∧
    balances (lv_world L2) fxrp (hex_value (account_address alice))
      = balances (lv_world L) fxrp (hex_value (account_address alice)) + acc ∧
    balances (lv_world L2) fxrp me = balances (lv_world L) fxrp me - acc ∧
    balances (lv_world L2) fxrp (this net) = balances (lv_world L) fxrp (this net).
Proof using All.
  intros id cm acc Ha1 Ha2 Hopen HT Hday Hlate Hsg.
  destruct (settles sg T st L' Ha1 Ha2 Hopen HT Hday Hlate Hsg) as (b & Hcall & Hs & A1 & E1 & E0 & A0 & N).
  fold id acc in Hcall, Hs, A1, E1. set (w2 := settled id acc b (lv_world L')) in *.
  exists (mined lat w2 [StreamCancelled id (10 ^ dec - acc)] L'). split.
  - unfold Settle.settle_with. erewrite run_lift by reflexivity.
    erewrite run_lift by apply BigInt_to_string. erewrite run_lift by apply BigInt_to_string.
    erewrite run_lift by reflexivity. erewrite run_step by exact Hcall.
    erewrite run_reading by reflexivity. erewrite run_reading by reflexivity. cbn [mined lv_world].
    change (balances w2) with b. fold fxrp me.
    rewrite run_must by (apply Z.eqb_eq; lia). rewrite run_must by (apply Z.eqb_eq; lia).
    erewrite run_reading by reflexivity. cbn [mined lv_world]. by rewrite (proj1 Hs).
  - cbn zeta. cbn [mined lv_world]. change (balances w2) with b. destruct Hs as (S1 & S2 & S3).
    do 3 (split; [done|]). split_and!; lia.
Qed.

(** The program, when every step answers as expected. *)
Lemma settle_main_runs rnd c key id L1 L2 L4 L5 auth :
  let p := abi_encode (terms_words t) in
  let slept := op_sleep ops (Settle.SETTLE_AFTER_SECONDS * 1000) L2 in
  env_truthy (env (js "DEPLOYMENT_PRIVATE_KEY")) = Some key → privateKeyToAccount key = Ret emp →
  env_truthy (env (js "TEE_ECIES_PRIVKEY")) = Some ke → privateKeyToAccount DEMO_RECIPIENT_KEY = Ret alice →
  encrypt (ecies_public ke) rnd p = Ret c →
  create_stream ops (script_vault env) abi (account_address alice) Settle.FXRP (bytesToHex (keccak p))
    (lv_ms L / 1000) (bytesToHex c) (λ _, js "createStream reverted") (js "StreamCreated not found") L = (Done id, L1) →
  approve_and_fund ops (script_vault env) abi Settle.ERC20 Settle.FXRP id (10 ^ dec) (js "fund reverted") L1
    = (Done tt, L2) →
  Settle.ask ops env emp id (bytesToHex (keccak p)) (bytesToHex c) slept = (Done auth, L4) →
  Settle.settle_with ops env abi (account_address emp) (account_address alice) id (10 ^ dec)
    (balances (lv_world L2) fxrp me) (balances (lv_world L2) fxrp (hex_value (account_address alice))) auth L4
    = (Done tt, L5) →
  Settle.main ops env (Ret abi) rnd L = (Done tt, L5).
Proof using All.
  intros p slept Ekey Eemp Eke Halice Hc Hcreate Hfund Hask Hrun. pose proof settle_terms_ok as Ht.
  unfold Settle.main, with_env. rewrite Ekey, Eke.
  erewrite run_lift by exact Eemp. erewrite run_lift by exact Halice. erewrite run_lift by reflexivity.
  erewrite run_reading by reflexivity. unfold now_s, now_ms_of. erewrite run_reading by reflexivity.
  erewrite run_reading by reflexivity. cbn [op_now live_ops]. fold t.
  erewrite run_lift by by apply terms_abi_words. erewrite run_lift by by apply commitTo_hash. fold p.
  erewrite run_lift by exact (seals t rnd c Ht Hc).
  erewrite run_step by exact Hcreate. erewrite run_step by exact Hfund.
  erewrite run_reading by reflexivity. erewrite run_reading by reflexivity.
  erewrite run_step by reflexivity. fold slept. erewrite run_step by exact Hask. exact Hrun.
Qed.
End settle.
End facts.

(** ** create-demo-stream.ts *)

Lemma demo_per_day d : 2 ≤ d ≤ 22 → Demo.per_day_raw (10 ^ d) = Ret (10 ^ d / 4).
Proof.
  assert (forallb (λ d, bool_decide (Demo.per_day_raw (10 ^ d) = Ret (10 ^ d / 4))) (seqZ 2 21) = true) as Hd
    by (vm_compute; reflexivity).
  intros Hr. rewrite forallb_Forall, Forall_forall in Hd. apply (bool_decide_eq_true_1 _), Hd, elem_of_seqZ. lia.
Qed.

Lemma quarter d : 2 ≤ d → 10 ^ d = 4 * (10 ^ d / 4) ∧ 25 * 10 ^ (d - 2) = 10 ^ d / 4.
Proof.
  intros Hd. assert (10 ^ d = 4 * (25 * 10 ^ (d - 2))) as E.
  { replace d with (2 + (d - 2)) at 1 by lia. rewrite Z.pow_add_r by lia. lia. }
  rewrite E. rewrite (Z.mul_comm 4), Z.div_mul by lia. lia.
Qed.

(** A rate of at least one raw unit per second shows a larger amount every second,
    until the cap. *)
Lemma accrual_strict t n m : RATE_SCALE ≤ ratePerSecond t → startTime t ≤ n < m →
  accruedAt t m < total t → accruedAt t n < accruedAt t m.
Proof.
  unfold RATE_SCALE. intros Hr Hn Hm. rewrite !accruedAt_min in * by lia. unfold RATE_SCALE in *.
  rewrite !Z.max_r in * by lia.
  assert (ratePerSecond t * (n - startTime t) / 10 ^ 12 + 1 ≤ ratePerSecond t * (m - startTime t) / 10 ^ 12); [|lia].
  rewrite <- Z.div_add by lia. apply Z.div_le_mono; [lia|].
  assert (m = n + (m - n)) as Em by lia. set (k := m - n) in *. rewrite Em.
  replace (ratePerSecond t * (n + k - startTime t)) with (ratePerSecond t * (n - startTime t) + ratePerSecond t * k) by ring.
  assert (10 ^ 12 * 1 ≤ ratePerSecond t * k) by (apply Z.mul_le_mono_nonneg; lia). lia.
Qed.

(** The demo stream: a quarter of a token per day, eight tokens, a cap of a hundred. *)
Lemma demo_rate_lasts t d : 6 ≤ d → ratePerSecond t = ratePerDayToScaled (10 ^ d / 4) → total t = 100 * 10 ^ d →
  (∀ n, n ≤ startTime t + 32 * 86400 → 0 ≤ accruedAt t n ≤ 8 * 10 ^ d) ∧
  (∀ n m, startTime t ≤ n < m → m ≤ startTime t + 399 * 86400 → accruedAt t n < accruedAt t m).
Proof.
  intros Hd Hr Ht. destruct (quarter d ltac:(lia)) as [Eq Eq2].
  assert (10 ^ 4 ≤ 10 ^ (d - 2)) by (apply Z.pow_le_mono_r; lia). set (x := 10 ^ d / 4) in *.
  assert (RATE_SCALE ≤ ratePerSecond t) as Hscale.
  { rewrite Hr. unfold ratePerDayToScaled, RATE_SCALE. rewrite Z.quot_div_nonneg by lia.
    apply Z.div_le_lower_bound; lia. }
  split.
  - intros n Hn. pose proof (accrual_of_day t x n 32 ltac:(lia) ltac:(lia) Hr ltac:(lia) ltac:(lia)). lia.
  - intros n m Hn Hm. apply accrual_strict; [done|done|].
    pose proof (accrual_of_day t x m 399 ltac:(lia) ltac:(lia) Hr ltac:(lia) ltac:(lia)). lia.
Qed.

Lemma demo_terms_ok_of `{EvmLaws, Viem, !ViemLaws} env a b unit per_day now ms :
  isAddress (Demo.TOKEN env) = true → 0 ≤ per_day < 10 ^ 36 → 0 ≤ unit ≤ 10 ^ 36 → 3 * 86400 ≤ now < 2 ^ 63 →
  terms_ok (Demo.terms env (account_address a) (account_address b) unit per_day (Demo.start_of now) ms).
Proof.
  intros Htok Hx Hu Hnow. unfold terms_ok, Demo.terms. cbn [employer recipient token ratePerSecond total startTime salt].
  split; [apply account_shape|]. split; [apply account_shape|]. split; [done|]. split.
  { unfold ratePerDayToScaled, RATE_SCALE. rewrite Z.quot_div_nonneg by lia.
    split; [apply Z.div_pos; lia|apply Z.div_lt_upper_bound; lia]. }
  split; [unfold Demo.TOTAL_WHOLE; lia|]. split; [|apply hash_salt]. unfold Demo.start_of, Demo.BACKDATE_DAYS. lia.
Qed.

(** ** Properties *)

(** C18: the settlement test passes on a correct deployment.  From any reachable
    state of the vault, for an employer with one token and a network that takes up
    to a minute per step, [test-settle.ts] runs to its end: all of its checks hold.
    The stream it opened is then cancelled, with exactly what the enclave computed
    paid to the recipient: the accrual of a tenth of a token per day between the
    creation and the enclave's answer, at most the funding.  The rest is back with
    the employer, and the vault holds what it held before. *)
Theorem settle_test_passes `{JsEngine, EvmLaws, Viem, !ViemLaws, Ecies, !EciesLaws, Erc20, !Erc20Laws}
    env enclave net lat dec abi srv emp tee ke L alice rnd c :
  stage env enclave net lat dec abi srv emp tee ke L →
  privateKeyToAccount DEMO_RECIPIENT_KEY = Ret alice →
  let me := hex_value (account_address emp) in
  let him := hex_value (account_address alice) in
  let fxrp := hex_value Settle.FXRP in
  him ≠ 0 → him ≠ me → him ≠ this net → 10 ^ dec ≤ balances (lv_world L) fxrp me →
  let t := Settle.terms (account_address emp) (account_address alice) (10 ^ dec) (lv_ms L / 1000) (lv_ms L) in
  be_value (keccak (abi_encode (terms_words t))) ≠ 0 →
  encrypt (ecies_public ke) rnd (abi_encode (terms_words t)) = Ret c →
  let T := (lv_ms L + 45000 + 4 * lat) / 1000 in
  ∃ L', Settle.main (live_ops net me srv enclave lat dec) env (Ret abi) rnd L = (Done tt, L') ∧
    let s := stream_at (vault (lv_world L')) (nextStreamId (vault (lv_world L))) in
    s_cancelled s = true ∧ s_funded s = 10 ^ dec ∧ s_withdrawn s = accruedAt t T ∧
    0 ≤ accruedAt t T ≤ 10 ^ dec ∧
    balances (lv_world L') fxrp him = balances (lv_world L) fxrp him + accruedAt t T ∧
    balances (lv_world L') fxrp me = balances (lv_world L) fxrp me - accruedAt t T ∧
    balances (lv_world L') fxrp (this net) = balances (lv_world L) fxrp (this net).
Proof.
  intros Hst Halice me him fxrp H1' H2' H3' Hbal t Hcm Hc T.
  pose proof (settle_terms_ok env enclave net lat dec abi srv emp tee ke L Hst alice) as Ht. fold t in Ht.
  pose proof (unit_range env enclave net lat dec abi srv emp tee ke L Hst) as Hu.
  destruct (stage_vault env enclave net lat dec abi srv emp tee ke L Hst) as (_ & _ & Hid).
  destruct (sg_employer _ _ _ _ _ _ _ _ _ _ _ Hst) as (key & Ekey & Eemp).
  destruct (sg_ecies _ _ _ _ _ _ _ _ _ _ _ Hst) as [Eke _].
  destruct (sg_clock _ _ _ _ _ _ _ _ _ _ _ Hst) as [Hlat Hms].
  pose proof (sg_ids _ _ _ _ _ _ _ _ _ _ _ Hst) as Hids.
  set (id := nextStreamId (vault (lv_world L))) in *.
  set (p := abi_encode (terms_words t)) in *.
  destruct (opens env enclave net lat dec abi srv emp tee ke L Hst Settle.ERC20 (account_address alice) Settle.FXRP p
    (lv_ms L / 1000) c (10 ^ dec) (λ _, js "createStream reverted") (js "StreamCreated not found") (js "fund reverted")
    ltac:(by left) H1' ltac:(by vm_compute) Hcm ltac:(lia) Hbal)
    as (L1 & L2 & Hcreate & Hfund & Hopen & _). fold id in Hcreate, Hfund.
  pose proof Hopen as (Hms2 & Happ2 & _).
  set (L3 := {| lv_world := lv_world L2; lv_ms := lv_ms L2 + 45000; lv_app := lv_app L2; lv_receipts := lv_receipts L2;
      lv_allowance := lv_allowance L2 |}).
  assert (lv_ms L3 = lv_ms L + 3 * lat + 45000) as Hms3 by (cbn [L3 lv_ms]; lia).
  destruct (settle_asks env enclave net lat dec abi srv emp tee ke L Hst alice rnd c id L3 Hc ltac:(lia) ltac:(lia))
    as (req & sg & app & Hask & Hsg). fold t in Hask, Hsg. fold p in Hask, Hsg.
  replace ((lv_ms L3 + lat) / 1000) with T in Hask, Hsg by (unfold T; f_equal; lia).
  set (L4 := {| lv_world := lv_world L3; lv_ms := lv_ms L3 + lat; lv_app := app; lv_receipts := lv_receipts L3;
      lv_allowance := lv_allowance L3 |}) in *.
  pose proof (Z.div_mod (lv_ms L) 1000 ltac:(lia)). pose proof (Z.mod_pos_bound (lv_ms L) 1000 ltac:(lia)).
  pose proof (Z.div_mod (lv_ms L + 45000 + 4 * lat) 1000 ltac:(lia)) as DT. fold T in DT.
  pose proof (Z.mod_pos_bound (lv_ms L + 45000 + 4 * lat) 1000 ltac:(lia)).
  assert ((lv_ms L4 + lat) / 1000 ≤ T + 600) as Hlate
    by (apply Z.div_le_upper_bound; [lia|]; cbn [L4 lv_ms]; lia).
  destruct (settle_pays env enclave net lat dec abi srv emp tee ke L Hst alice req sg T (lv_ms L / 1000) L4 H2' H3')
    as (L5 & Hrun & Hres).
  { destruct Hopen as (_ & _ & Hrest). split; [reflexivity|]. split; [reflexivity|]. exact Hrest. }
  { lia. } { lia. } { exact Hlate. } { exact Hsg. }
  exists L5. fold id in Hrun, Hres. split.
  - eapply (settle_main_runs env enclave net lat dec abi srv emp tee ke L Hst alice);
      [exact Ekey|exact Eemp|exact Eke|exact Halice|exact Hc|exact Hcreate|exact Hfund|exact Hask|exact Hrun].
  - cbn zeta in *. destruct Hres as (R1 & R2 & R3 & R4 & R5 & R6). do 3 (split; [done|]).
    split; [|done]. apply (settle_accrual env enclave net lat dec abi srv emp tee ke L Hst alice). lia.
Qed.

(** C19: the demo stream lasts.  For a token of 6 to 22 decimals, from any
    reachable state of the vault and for an employer with eight tokens,
    [create-demo-stream.ts] runs to its end; the stream is then open with eight
    tokens, and its terms, which hash to its commitment, are in the log.  And the
    promises of the script's header hold: what has accrued never exceeds the funding
    for 29 days from the creation (32 from the start, which is set three days back),
    so no payout is cut; and the amount shown grows with every second, for 399 days. *)
Theorem demo_stream_lasts `{JsEngine, EvmLaws, Viem, !ViemLaws, Ecies, !EciesLaws, Erc20, !Erc20Laws}
    env enclave net lat dec abi srv emp tee ke L alice rnd c formatUnits :
  stage env enclave net lat dec abi srv emp tee ke L →
  privateKeyToAccount DEMO_RECIPIENT_KEY = Ret alice → hex_value (account_address alice) ≠ 0 →
  6 ≤ dec ≤ 22 → isAddress (Demo.TOKEN env) = true → hex_value (Demo.TOKEN env) ≠ 0 →
  8 * 10 ^ dec ≤ balances (lv_world L) (hex_value (Demo.TOKEN env)) (hex_value (account_address emp)) →
  let now := lv_ms L / 1000 in
  let t := Demo.terms env (account_address emp) (account_address alice) (10 ^ dec) (10 ^ dec / 4)
    (Demo.start_of now) (lv_ms L) in
  let p := abi_encode (terms_words t) in
  3 * 86400 ≤ now → be_value (keccak p) ≠ 0 → encrypt (ecies_public ke) rnd p = Ret c →
  ∃ L', Demo.main (live_ops net (hex_value (account_address emp)) srv enclave lat dec) env (Ret abi) rnd formatUnits L
      = (Done tt, L') ∧
    let id := nextStreamId (vault (lv_world L)) in
    let s := stream_at (vault (lv_world L')) id in
    s_funded s = 8 * 10 ^ dec ∧ s_withdrawn s = 0 ∧ s_cancelled s = false ∧ s_commitment s = be_value (keccak p) ∧
    last (events (lv_world L')) = Some (TermsRevealed id p) ∧
    (∀ n, n ≤ now + 29 * 86400 → 0 ≤ accruedAt t n ≤ s_funded s) ∧
    (∀ n m, now ≤ n < m → m ≤ startTime t + 399 * 86400 → accruedAt t n < accruedAt t m).
Proof.
  intros Hst Halice Hr Hdec Htok Hk Hbal now t p Hnow Hcm Hc.
  pose proof (unit_range env enclave net lat dec abi srv emp tee ke L Hst) as Hu.
  destruct (quarter dec ltac:(lia)) as [Hq _].
  destruct (sg_employer _ _ _ _ _ _ _ _ _ _ _ Hst) as (key & Ekey & Eemp).
  destruct (sg_ecies _ _ _ _ _ _ _ _ _ _ _ Hst) as [Eke _].
  destruct (sg_vault _ _ _ _ _ _ _ _ _ _ _ Hst) as [_ Hv].
  destruct (sg_clock _ _ _ _ _ _ _ _ _ _ _ Hst) as [Hlat Hms].
  set (x := 10 ^ dec / 4) in *.
  assert (terms_ok t) as Ht by (apply demo_terms_ok_of; try done; try lia;
    split; [lia|apply Z.div_lt_upper_bound; lia]).
  destruct (opens env enclave net lat dec abi srv emp tee ke L Hst Demo.ERC20 (account_address alice) (Demo.TOKEN env) p
    (Demo.start_of now) c (8 * 10 ^ dec) (λ _, js "createStream reverted") (js "StreamCreated not found") (js "fund reverted")
    ltac:(by left) Hr Hk Hcm ltac:(lia) Hbal) as (L1 & L2 & Hcreate & Hfund & Hopen & _).
  set (id := nextStreamId (vault (lv_world L))) in *.
  destruct Hopen as (_ & _ & _ & _ & Hs & _). fold id in Hs.
  destruct (sg_me _ _ _ _ _ _ _ _ _ _ _ Hst) as [Hme _].
  pose proof (reveals env enclave net lat dec abi srv emp tee ke L Hst id p L2) as Hcall. rewrite Hs in Hcall.
  specialize (Hcall eq_refl Hme (abi_encode_bytes _) eq_refl).
  eexists. split.
  - unfold Demo.main, with_env. rewrite Ekey, Eke.
    erewrite run_lift by exact Eemp. erewrite run_lift by exact Halice. erewrite run_lift by reflexivity.
    erewrite run_reading by reflexivity. erewrite run_reading by reflexivity. erewrite run_reading by reflexivity.
    rewrite run_must by (by apply Z.leb_le). erewrite run_lift by (apply demo_per_day; lia).
    unfold now_s, now_ms_of. erewrite run_reading by reflexivity. erewrite run_reading by reflexivity.
    cbn [op_now live_ops]. fold x. fold now. fold t.
    erewrite run_lift by by apply terms_abi_words. erewrite run_lift by by apply commitTo_hash. fold p.
    erewrite run_lift by exact (seals env enclave net lat dec abi srv emp tee ke L Hst t rnd c Ht Hc).
    erewrite run_step by exact Hcreate. erewrite run_step by exact Hfund. erewrite run_step by exact Hcall. reflexivity.
  - cbn zeta. cbn [mined lv_world emit vault events]. rewrite Hs. cbn [s_funded s_withdrawn s_cancelled s_commitment].
    do 4 (split; [done|]). split; [by rewrite last_snoc|].
    destruct (demo_rate_lasts t dec ltac:(lia) eq_refl eq_refl) as [H1' H2'].
    change (startTime t) with (now - 3 * 86400) in *. split.
    + intros n Hn. apply H1'. lia.
    + intros n m Hn Hm. apply H2'; lia.
Qed.

(** ** A concrete stage *)

#[local] Existing Instance plain_engine.

Definition demo_employer_key : jsstr := js "0x00000000000000000000000000000000000000000000000000000000000000e1".
Definition stage_env : Environment := λ k,
  if str_eqb k (js "DEPLOYMENT_PRIVATE_KEY") then Some demo_employer_key
  else if str_eqb k (js "TEE_ECIES_PRIVKEY") then Some demo_key
  else if str_eqb k (js "TEE_SIGNER_PRIVKEY") then Some demo_signer
  else if str_eqb k (js "STREAMVAULT_ADDRESS") then Some demo_vault else None.
Definition stage_abi : list abi_item :=
  [AFunction (js "createStream"); AFunction (js "fund"); AFunction (js "withdraw"); AFunction (js "cancelStream");
   AFunction (js "revealTerms")].

(** A vault without streams, and an employer rich in every token. *)
Definition stage_world : World := deployed 1 238 (λ _ h, if decide (h = 225) then 10 ^ 9 else 0).
Definition stage_live : Live :=
  {| lv_world := stage_world; lv_ms := 1700000000000; lv_app := init_state; lv_receipts := [];
     lv_allowance := λ _ _, 0 |}.

Lemma demo_stage srv : demo_server = Ret srv →
  stage stage_env stage_env toy_net 2000 6 stage_abi srv (demo_account 225) (demo_account 238) demo_key stage_live.
Proof.
  intros Hm. split.
  - exact Hm.
  - exists demo_employer_key. split; reflexivity.
  - split; reflexivity.
  - exists demo_signer. split; reflexivity.
  - split; [reflexivity|vm_compute; reflexivity].
  - split; [reflexivity|]. cbn. lia.
  - exists stage_world, []. split; [|constructor]. exists 1, 238. eexists. split; [reflexivity|]. intros k. cbn. by case_decide.
  - split; [vm_compute; reflexivity|]. cbn. lia.
  - cbn. lia.
  - cbn. lia.
  - split; vm_compute; discriminate.
  - split; [|lia]. intros k from to n b Hn. apply toy_transfer. apply andb_true_iff. by rewrite !Z.leb_le.
  - intros k h. cbn. case_decide; lia.
  - intros f Hf. rewrite !elem_of_cons in Hf.
    destruct Hf as [->|[->|[->|[->|[->|Hf]]]]]; [apply (bool_decide_eq_true_1 _); vm_compute; reflexivity..|].
    by apply not_elem_of_nil in Hf.
Qed.

Definition demo_alice : @account toy_viem := ret_or 0 (@privateKeyToAccount toy_viem DEMO_RECIPIENT_KEY).

Lemma settle_test_passes_witness :
  ∃ srv, demo_server = Ret srv ∧ ∃ L', Settle.main (live_ops toy_net 225 srv stage_env 2000 6) stage_env (Ret stage_abi) []
    stage_live = (Done tt, L') ∧ s_withdrawn (stream_at (vault (lv_world L')) 1) = 61.
Proof.
  destruct demo_server as [srv|e] eqn:Hm; [|discriminate Hm]. exists srv. split; [reflexivity|].
  destruct (encrypt (ecies_public demo_key) [] (abi_encode (terms_words (Settle.terms (account_address (demo_account 225))
    (account_address demo_alice) (10 ^ 6) (lv_ms stage_live / 1000) (lv_ms stage_live))))) as [c|e] eqn:Ec;
    [|vm_compute in Ec; discriminate Ec].
  destruct (settle_test_passes stage_env stage_env toy_net 2000 6 stage_abi srv (demo_account 225) (demo_account 238)
    demo_key stage_live demo_alice [] c (demo_stage srv Hm)) as (L' & Hrun & _ & _ & Hw & _).
  - vm_compute. reflexivity.
  - vm_compute. discriminate.
  - vm_compute. discriminate.
  - vm_compute. discriminate.
  - vm_compute. discriminate.
  - vm_compute. discriminate.
  - exact Ec.
  - exists L'. split; [exact Hrun|]. etransitivity; [exact Hw|]. vm_compute. reflexivity.
Defined.

Lemma demo_stream_lasts_witness :
  ∃ srv, demo_server = Ret srv ∧ ∃ L', Demo.main (live_ops toy_net 225 srv stage_env 2000 6) stage_env (Ret stage_abi) []
    (λ _ _, []) stage_live = (Done tt, L') ∧ s_funded (stream_at (vault (lv_world L')) 1) = 8000000.
Proof.
  destruct demo_server as [srv|e] eqn:Hm; [|discriminate Hm]. exists srv. split; [reflexivity|].
  destruct (encrypt (ecies_public demo_key) [] (abi_encode (terms_words (Demo.terms stage_env (account_address (demo_account 225))
    (account_address demo_alice) (10 ^ 6) (10 ^ 6 / 4) (Demo.start_of (lv_ms stage_live / 1000)) (lv_ms stage_live))))) as [c|e] eqn:Ec;
    [|vm_compute in Ec; discriminate Ec].
  destruct (demo_stream_lasts stage_env stage_env toy_net 2000 6 stage_abi srv (demo_account 225) (demo_account 238)
    demo_key stage_live demo_alice [] c (λ _ _, []) (demo_stage srv Hm)) as (L' & Hrun & Hf & _).
  - vm_compute. reflexivity.
  - vm_compute. discriminate.
  - lia.
  - vm_compute. reflexivity.
  - vm_compute. discriminate.
  - vm_compute. discriminate.
  - vm_compute. discriminate.
  - vm_compute. discriminate.
  - exact Ec.
  - exists L'. split; [exact Hrun|]. etransitivity; [exact Hf|]. vm_compute. reflexivity.
Defined.
