(* ===== verification/E2eRun.v ===== *)
(** * The end-to-end script runs to its end (theorem on ScriptMains.v)

    [e2e-coston2.ts] on the stage of Rehearsal.v; the server runs in the script's own
    process, with the script's environment. *)

From S2P Require Import Prelude JsString JsNumber Utf8 Json JsMath JsonFacts Encoding Wire Framework Abi Instances Protocol StreamHandlers StreamProps Handlers Server EnclaveClient Main Scripts Vault VaultFacts VaultProps EndToEnd Chain Pages ScriptMains Live Rehearsal.
#[local] Open Scope script_scope.

(** ** The rate *)

(** The rate through doubles is within a thousandth of ten tokens per day. *)
Definition rate_close (d r : Z) : bool :=
  (r * 86400 * 1000 <=? 10 ^ (d + 13) * 1001) && (10 ^ (d + 13) * 999 <=? r * 86400 * 1000).

Lemma e2e_rate d : 1 ≤ d ≤ 18 → ∃ r, E2e.rate_of (10 * 10 ^ d) = Ret r ∧
  10 ^ d * 9990000000000 ≤ r * 86400 ≤ 10 ^ d * 10010000000000.
Proof.
  assert (forallb (λ d, match E2e.rate_of (10 * 10 ^ d) with Ret r => rate_close d r | _ => false end) (seqZ 1 18) = true)
    as Hd by (vm_compute; reflexivity).
  intros Hr. rewrite forallb_Forall, Forall_forall in Hd. specialize (Hd d ltac:(apply elem_of_seqZ; lia)). cbn beta in Hd.
  destruct (E2e.rate_of (10 * 10 ^ d)) as [r|e]; [|done]. exists r. split; [done|]. unfold rate_close in Hd. reflect_Z.
  rewrite Z.pow_add_r in * by lia. change (10 ^ 13) with 10000000000000 in *. lia.
Qed.

(** What accrues in about an hour: something, and less than the funding. *)
Lemma e2e_accrual t d n : 1 ≤ d → 10 ^ d * 9990000000000 ≤ ratePerSecond t * 86400 ≤ 10 ^ d * 10010000000000 →
  total t = 10 * 10 ^ d * 30 → startTime t + 3600 ≤ n ≤ startTime t + 4000 → 0 < accruedAt t n ≤ 5 * 10 ^ d.
Proof.
  intros Hd Hr Ht Hn. assert (10 ^ 1 ≤ 10 ^ d) by (apply Z.pow_le_mono_r; lia).
  rewrite accruedAt_min by lia. unfold RATE_SCALE. rewrite Z.max_r by lia. set (u := 10 ^ d) in *.
  set (q := ratePerSecond t * (n - startTime t) / 10 ^ 12).
  assert (1 ≤ q ∧ q ≤ 5 * u); [|lia]. unfold q. split.
  - apply Z.div_le_lower_bound; [lia|].
    assert (ratePerSecond t * 3600 ≤ ratePerSecond t * (n - startTime t)) by (apply Z.mul_le_mono_nonneg_l; lia). lia.
  - apply Z.div_le_upper_bound; [lia|].
    assert (ratePerSecond t * (n - startTime t) ≤ ratePerSecond t * 4000) by (apply Z.mul_le_mono_nonneg_l; lia). lia.
Qed.

(** ** The run *)

Section facts.
Context `{JsEngine, EvmLaws, Viem, !ViemLaws, Ecies, !EciesLaws, Erc20, !Erc20Laws}.
Context (env : Environment) (net : Net) (lat dec : Z) (abi : list abi_item) (srv : Server)
  (emp tee : account) (ke : jsstr) (L : Live).
Context (Hst : stage env env net lat dec abi srv emp tee ke L).
Context (someone : account) (rate : Z) (salt_text : jsstr).

Let me := hex_value (account_address emp).
Let him := hex_value (account_address someone).
Let tk := hex_value (E2e.TOKEN env).
#[local] Abbreviation ops := (live_ops net me srv env lat dec).
Let t : StreamTerms := {| employer := account_address emp; recipient := account_address someone; token := E2e.TOKEN env;
  ratePerSecond := rate; total := 10 * 10 ^ dec * 30; startTime := lv_ms L / 1000 - 3600;
  salt := keccak256_bytes (toBytes salt_text) |}.

Lemma e2e_terms_ok : isAddress (E2e.TOKEN env) = true → 0 ≤ rate < 2 ^ 256 → 3600 ≤ lv_ms L / 1000 → terms_ok t.
Proof using All.
  intros Hk Hr Hms. pose proof (unit_range env env net lat dec abi srv emp tee ke L Hst) as Hu.
  destruct (sg_clock _ _ _ _ _ _ _ _ _ _ _ Hst) as [_ Hc].
  unfold t, terms_ok. cbn [employer recipient token ratePerSecond total startTime salt].
  split; [apply account_shape|]. split; [apply account_shape|]. do 2 (split; [done|]). split; [lia|].
  split; [|apply hash_salt]. assert (lv_ms L / 1000 < 2 ^ 63) by (apply Z.div_lt_upper_bound; lia). lia.
Qed.

(** The question to the server of the process. *)
Lemma e2e_asks rnd c id L' :
  terms_ok t → encrypt (ecies_public ke) rnd (abi_encode (terms_words t)) = Ret c → uint_range 256 id →
  0 ≤ lv_ms L' ≤ 8640000000000000 - lat →
  let now := (lv_ms L' + lat) / 1000 in
  ∃ req sg app, E2e.ask ops env (λ w, (Ret tt, w)) (λ w, (Ret tt, w)) emp id
      (bytesToHex (keccak (abi_encode (terms_words t)))) (bytesToHex c) L' =
      (Done (authorization req t now sg),
       {| lv_world := lv_world L'; lv_ms := lv_ms L' + lat; lv_app := app; lv_receipts := lv_receipts L';
      lv_allowance := lv_allowance L' |}) ∧
    signed_by tee [hex_value WITHDRAW_TAG; chainid net; this net; id; be_value (keccak (abi_encode (terms_words t)));
      accruedAt t now; now + 600] sg.
Proof using All.
  intros Ht Hc Hid Hms now.
  destruct (stage_chain env env net lat dec abi srv emp tee ke L Hst) as (Hch & Hcht & _).
  destruct (answered env env net lat dec abi srv emp tee ke L Hst WITHDRAW_TAG OP_COMMAND_AUTH_WITHDRAW t rnd c id
    (lv_ms L' / 1000) L' ltac:(by left) Ht eq_refl Hc Hid eq_refl Hms) as (raw & sig & Hraw & Hsig & Hu & Hpost).
  destruct (Hpost (js "http://127.0.0.1:18080")) as (res & sg & app & Hop & Hread & Hsg).
  eexists _, sg, app. split; [|exact Hsg]. unfold E2e.ask, now_s, now_ms_of.
  erewrite run_reading by reflexivity. erewrite run_lift by exact Hch. erewrite run_lift by exact Hraw.
  erewrite run_lift by exact Hsig. erewrite run_calling by reflexivity. unfold E2e.finally_stop.
  erewrite run_reading by reflexivity. unfold E2e.request. rewrite Hcht. cbn [op_now live_ops].
  change {| StreamHandlers.streamId := bigint_to_string id |} with
    (party_request id (script_vault env) (bigint_to_string (chainid net))
      (bytesToHex (keccak (abi_encode (terms_words t)))) (bytesToHex c) (lv_ms L' / 1000) sig).
  assert (date_ok (lv_ms L')) as Hd by (unfold date_ok; destruct (sg_clock _ _ _ _ _ _ _ _ _ _ _ Hst); lia).
  erewrite run_lift; [|apply e2e_envelope; [apply js_is_units|apply js_is_units|by apply request_fields_ok|exact Hd| |];
    vm_compute; lia].
  erewrite run_calling; [|exact Hop]. rewrite Hread by by right. reflexivity.
Qed.

(** The stream when [acc] of it is withdrawn, and the world after that. *)
Definition e2e_stream (cm acc : Z) : Stream := {|
  s_employer := me; s_recipient := him; s_token := tk; s_commitment := cm; s_funded := 5 * 10 ^ dec;
  s_withdrawn := acc; s_startTime := startTime t; s_cancelled := false |}.
Definition e2e_paid (id acc : Z) (b : Z → Z → Z) (w : World) : World := {|
  vault := set_stream (vault w) id (set_withdrawn (stream_at (vault w) id) acc false); balances := b;
  events := events w ++ [Withdrawn id him acc] |}.

(** The withdrawal of what was signed. *)
Lemma e2e_withdraws sg T L' :
  let id := nextStreamId (vault (lv_world L)) in
  let p := abi_encode (terms_words t) in
  let acc := accruedAt t T in
  him ≠ me → him ≠ this net → balances (lv_world L) tk him = 0 →
  opened net lat emp L (startTime t) (be_value (keccak p)) him tk (5 * 10 ^ dec)
    {| lv_world := lv_world L'; lv_ms := lv_ms L + 3 * lat; lv_app := lv_app L; lv_receipts := [];
      lv_allowance := λ _ _, 0 |} →
  0 < acc ≤ 5 * 10 ^ dec → 0 ≤ T ≤ 2 ^ 64 → (lv_ms L' + lat) / 1000 ≤ T + 600 →
  signed_by tee [hex_value WITHDRAW_TAG; chainid net; this net; id; be_value (keccak p); acc; T + 600] sg →
  ∃ b, let w1 := e2e_paid id acc b (lv_world L') in
  vault_call ops (script_vault env) abi (js "withdraw") [AInt id; AInt acc; AInt (T + 600); AHex (bytesToHex sg)]
    (λ h, js "withdraw reverted (" ++ h ++ js ")") L' = (Done (tx_hash L'), mined lat w1 [Withdrawn id him acc] L') ∧
  b tk him = acc ∧ me ≠ 0 ∧ stream_at (vault w1) id = e2e_stream (be_value (keccak p)) acc.
Proof using All.
  intros id p acc Ha1 Ha2 Hzero (_ & _ & Hent & Htee & Hs & Hbal) Hacc HT Hlate Hsg.
  cbn [lv_world] in *. fold id in Hs.
  pose proof (unit_range env env net lat dec abi srv emp tee ke L Hst) as Hu.
  destruct (sg_me _ _ _ _ _ _ _ _ _ _ _ Hst) as [Hme Hme']. fold me in Hme, Hme'.
  destruct (sg_vault _ _ _ _ _ _ _ _ _ _ _ Hst) as [_ Hv].
  destruct (sg_token _ _ _ _ _ _ _ _ _ _ _ Hst) as [Hplain _].
  pose proof (sg_balances _ _ _ _ _ _ _ _ _ _ _ Hst tk (this net)) as Hn0.
  fold me in Hbal. pose proof (Hbal (this net)) as Hb0. rewrite decide_False, decide_True in Hb0 by done.
  pose proof (Hbal him) as Hh0. rewrite !decide_False in Hh0 by done.
  destruct (plain_move tk (this net) him acc (balances (lv_world L')) Hplain ltac:(lia)) as (b & Hb & Hp).
  pose proof (Hp him) as Hh1. rewrite decide_False, decide_True in Hh1 by done.
  set (s := stream_at (vault (lv_world L')) id) in *.
  set (w1 := {| vault := set_stream (vault (lv_world L')) id (set_withdrawn s acc false); balances := b;
                events := events (lv_world L') ++ [Withdrawn id him acc] |}).
  destruct (sg_teeSigner _ _ _ _ _ _ _ _ _ _ _ Hst) as [Ht1 Ht2].
  pose proof Hsg as (Hsgb & _).
  assert (withdraw net {| sender := me; timestamp := (lv_ms L' + lat) / 1000 |} id acc (T + 600) sg (lv_world L') = Ret w1) as E.
  { apply withdraw_Ret; fold s; rewrite ?Hs; cbn [s_funded s_withdrawn s_employer s_cancelled s_commitment s_token s_recipient sender timestamp];
      [lia|lia|lia|]. cbn zeta. replace (Z.min acc (5 * 10 ^ dec)) with acc by lia. rewrite Z.sub_0_r.
    do 4 (split; [done|]). split.
    - apply signature_accepted with tee; [by rewrite Htee|by rewrite Htee|]. unfold vault_words.
      rewrite <- withdraw_tag_word. exact Hsg.
    - split; [lia|]. exists b. split; [exact Hb|]. unfold w1. by rewrite Hs. }
  exists b. change (e2e_paid id acc b (lv_world L')) with w1. split; [|split; [lia|]].
  2:{ split; [exact Hme|]. cbn [w1 vault]. by rewrite stream_at_set, decide_True, Hs. }
  pose proof (live_call net me srv env lat dec (script_vault env) abi (js "withdraw")
    [AInt id; AInt acc; AInt (T + 600); AHex (bytesToHex sg)] (λ h, js "withdraw reverted (" ++ h ++ js ")")
    (CWithdraw id acc (T + 600) (hex_bytes (bytesToHex sg))) L' w1 (Withdrawn id him acc)) as Hcall.
  cbn [exec call_fits] in Hcall. rewrite hex_bytes_hex in Hcall by done.
  specialize (Hcall ltac:(apply (sg_abi _ _ _ _ _ _ _ _ _ _ _ Hst); set_solver) ltac:(discriminate) Hv).
  specialize (Hcall ltac:(cbn [encoded_call]; rewrite hex_bytes_hex by done; reflexivity)
    ltac:(apply andb_true_iff; rewrite Z.leb_le, Z.ltb_lt; lia) eq_refl E eq_refl).
  exact Hcall.
Qed.

(** The withdrawal and the disclosure. *)
Lemma e2e_pays req sg T L' :
  let id := nextStreamId (vault (lv_world L)) in
  let p := abi_encode (terms_words t) in
  let acc := accruedAt t T in
  him ≠ me → him ≠ this net → balances (lv_world L) tk him = 0 →
  opened net lat emp L (startTime t) (be_value (keccak p)) him tk (5 * 10 ^ dec)
    {| lv_world := lv_world L'; lv_ms := lv_ms L + 3 * lat; lv_app := lv_app L; lv_receipts := [];
      lv_allowance := λ _ _, 0 |} →
  0 < acc ≤ 5 * 10 ^ dec → 0 ≤ T ≤ 2 ^ 64 → (lv_ms L' + lat) / 1000 ≤ T + 600 →
  signed_by tee [hex_value WITHDRAW_TAG; chainid net; this net; id; be_value (keccak p); acc; T + 600] sg →
  ∃ L2, E2e.withdraw_with ops env abi (account_address someone) id (bytesToHex p)
      (authorization req t T sg) L' = (Done tt, L2) ∧
    let s := stream_at (vault (lv_world L2)) id in
    s_cancelled s = false ∧ s_funded s = 5 * 10 ^ dec ∧ s_withdrawn s = acc ∧
    balances (lv_world L2) tk him = acc ∧ last (events (lv_world L2)) = Some (TermsRevealed id p).
Proof using All.
  intros id p acc Ha1 Ha2 Hzero Hopen Hacc HT Hlate Hsg.
  destruct (e2e_withdraws sg T L' Ha1 Ha2 Hzero Hopen Hacc HT Hlate Hsg) as (b & Hcall & Hb & Hme & Es).
  fold id p acc in Hcall, Hb, Es. set (w1 := e2e_paid id acc b (lv_world L')) in *.
  destruct Hopen as (_ & _ & _ & _ & _ & Hbal). cbn [lv_world] in Hbal.
  pose proof (Hbal him) as Hh0. fold me in Hh0. rewrite !decide_False in Hh0 by done.
  pose proof (reveals env env net lat dec abi srv emp tee ke L Hst id p (mined lat w1 [Withdrawn id him acc] L')) as Hcall2.
  cbn [mined lv_world] in Hcall2. rewrite Es in Hcall2. specialize (Hcall2 eq_refl Hme (abi_encode_bytes _) eq_refl).
  eexists. split.
  - unfold E2e.withdraw_with. erewrite run_lift by apply BigInt_to_string. erewrite run_lift by reflexivity.
    erewrite run_reading by reflexivity. rewrite run_must by (apply Z.eqb_eq; fold him tk; lia).
    erewrite run_lift by apply BigInt_to_string. erewrite run_step by exact Hcall.
    erewrite run_reading by reflexivity.
    rewrite run_must by (apply Z.eqb_eq; fold him tk; cbn [mined lv_world w1 e2e_paid balances]; lia).
    erewrite run_step by exact Hcall2. reflexivity.
  - cbn zeta. cbn [mined lv_world emit vault events balances]. rewrite Es. do 3 (split; [done|]).
    split; [exact Hb|]. by rewrite last_snoc.
Qed.

(** The program, when every step answers as expected. *)
Lemma e2e_main_runs fresh_key random rnd c key id L1 L2 L3 L4 auth :
  let p := abi_encode (terms_words t) in
  env_truthy (env (js "DEPLOYMENT_PRIVATE_KEY")) = Some key → privateKeyToAccount key = Ret emp →
  env_truthy (env (js "TEE_ECIES_PRIVKEY")) = Some ke → privateKeyToAccount fresh_key = Ret someone →
  salt_text = js "salt-" ++ bigint_to_string (lv_ms L) ++ js "-" ++ num_to_string random →
  E2e.rate_of (10 * 10 ^ dec) = Ret rate → terms_ok t → encrypt (ecies_public ke) rnd p = Ret c →
  create_stream ops (script_vault env) abi (account_address someone) (E2e.TOKEN env) (bytesToHex (keccak p))
    (startTime t) (bytesToHex c) (λ h, js "createStream reverted (" ++ h ++ js ")")
    (js "StreamCreated event not found") L = (Done id, L1) →
  s_commitment (stream_at (vault (lv_world L1)) id) = be_value (keccak p) →
  approve_and_fund ops (script_vault env) abi Demo.ERC20 (E2e.TOKEN env) id (5 * 10 ^ dec) (js "fund reverted") L1
    = (Done tt, L2) →
  E2e.ask ops env (λ w, (Ret tt, w)) (λ w, (Ret tt, w)) emp id (bytesToHex (keccak p)) (bytesToHex c) L2
    = (Done auth, L3) →
  E2e.withdraw_with ops env abi (account_address someone) id (bytesToHex p) auth L3 = (Done tt, L4) →
  E2e.main ops env (Ret abi) rnd fresh_key random (λ w, (Ret tt, w)) (λ w, (Ret tt, w)) L = (Done tt, L4).
Proof using All.
  intros p Ekey Eemp Eke Hkey -> Erate Ht Hc Hcreate Hcm Hfund Hask Hrun. unfold E2e.main, with_env. rewrite Ekey, Eke.
  erewrite run_lift by exact Eemp. erewrite run_lift by exact Hkey. erewrite run_lift by reflexivity.
  erewrite run_reading by reflexivity. erewrite run_reading by reflexivity.
  erewrite run_lift by exact Erate. unfold now_s, now_ms_of. erewrite run_reading by reflexivity.
  erewrite run_reading by reflexivity. cbn [op_now live_ops].
  erewrite run_lift by exact (terms_abi_words _ Ht). fold p.
  erewrite run_lift by (apply keccak256_hex, abi_encode_bytes).
  erewrite run_lift by exact (seals env env net lat dec abi srv emp tee ke L Hst _ rnd c Ht Hc).
  erewrite run_step by exact Hcreate. erewrite run_reading by reflexivity.
  rewrite run_must by (cbn [fst]; rewrite Hcm, hash_word; unfold same_text; apply str_eqb_refl).
  erewrite run_step by exact Hfund. erewrite run_step by exact Hask. exact Hrun.
Qed.
End facts.

(** ** Properties *)

(** C3: the end-to-end script passes on a correct deployment.  From any reachable
    state of the vault, for an employer with five tokens of 1 to 18 decimals, a
    recipient that holds none, and a network that takes up to a minute per step,
    [e2e-coston2.ts] runs to its end: all of its checks hold.  The rate it computes
    through doubles is within a thousandth of ten tokens per day; the recipient has
    received exactly what the enclave computed, which is positive and at most
    the funding; the stream stays open with the rest, and its terms are disclosed. *)
Theorem e2e_passes `{JsEngine, EvmLaws, Viem, !ViemLaws, Ecies, !EciesLaws, Erc20, !Erc20Laws}
    env net lat dec abi srv emp tee ke L someone fresh_key random rnd :
  stage env env net lat dec abi srv emp tee ke L → 1 ≤ dec ≤ 18 →
  privateKeyToAccount fresh_key = Ret someone → isAddress (E2e.TOKEN env) = true →
  let me := hex_value (account_address emp) in
  let him := hex_value (account_address someone) in
  let tk := hex_value (E2e.TOKEN env) in
  him ≠ 0 → him ≠ me → him ≠ this net → tk ≠ 0 →
  balances (lv_world L) tk him = 0 → 5 * 10 ^ dec ≤ balances (lv_world L) tk me → 3600 ≤ lv_ms L / 1000 →
  let salt_text := js "salt-" ++ bigint_to_string (lv_ms L) ++ js "-" ++ num_to_string random in
  let terms rate := {| employer := account_address emp; recipient := account_address someone; token := E2e.TOKEN env;
    ratePerSecond := rate; total := 10 * 10 ^ dec * 30; startTime := lv_ms L / 1000 - 3600;
    salt := keccak256_bytes (toBytes salt_text) |} in
  (∀ rate, E2e.rate_of (10 * 10 ^ dec) = Ret rate → be_value (keccak (abi_encode (terms_words (terms rate)))) ≠ 0 ∧
     returns (encrypt (ecies_public ke) rnd (abi_encode (terms_words (terms rate))))) →
  let T := (lv_ms L + 4 * lat) / 1000 in
  ∃ rate L', 10 ^ dec * 9990000000000 ≤ rate * 86400 ≤ 10 ^ dec * 10010000000000 ∧
    E2e.main (live_ops net me srv env lat dec) env (Ret abi) rnd fresh_key random (λ w, (Ret tt, w)) (λ w, (Ret tt, w)) L
      = (Done tt, L') ∧
    let s := stream_at (vault (lv_world L')) (nextStreamId (vault (lv_world L))) in
    0 < accruedAt (terms rate) T ≤ s_funded s ∧ s_funded s = 5 * 10 ^ dec ∧ s_cancelled s = false ∧
    s_withdrawn s = accruedAt (terms rate) T ∧ balances (lv_world L') tk him = accruedAt (terms rate) T ∧
    last (events (lv_world L')) =
      Some (TermsRevealed (nextStreamId (vault (lv_world L))) (abi_encode (terms_words (terms rate)))).
Proof.
  intros Hst Hdec Hkey Htok me him tk H1' H2' H3' H4' Hz Hbal Hms0 salt_text terms Hhash T.
  destruct (e2e_rate dec Hdec) as (rate & Erate & Hrate). exists rate.
  pose proof (unit_range env env net lat dec abi srv emp tee ke L Hst) as Hu.
  destruct (Hhash rate Erate) as [Hcm [c Hc]]. set (t := terms rate) in *.
  pose proof (e2e_terms_ok env net lat dec abi srv emp tee ke L Hst someone rate salt_text Htok ltac:(lia) Hms0) as Ht.
  change (terms_ok t) in Ht. set (p := abi_encode (terms_words t)) in *.
  destruct (stage_vault env env net lat dec abi srv emp tee ke L Hst) as (_ & _ & Hid).
  destruct (sg_employer _ _ _ _ _ _ _ _ _ _ _ Hst) as (key & Ekey & Eemp).
  destruct (sg_ecies _ _ _ _ _ _ _ _ _ _ _ Hst) as [Eke _].
  destruct (sg_clock _ _ _ _ _ _ _ _ _ _ _ Hst) as [Hlat Hms].
  pose proof (sg_ids _ _ _ _ _ _ _ _ _ _ _ Hst) as Hids.
  set (id := nextStreamId (vault (lv_world L))) in *.
  destruct (opens env env net lat dec abi srv emp tee ke L Hst Demo.ERC20 (account_address someone) (E2e.TOKEN env) p
    (startTime t) c (5 * 10 ^ dec) (λ h, js "createStream reverted (" ++ h ++ js ")")
    (js "StreamCreated event not found") (js "fund reverted")
    ltac:(by left) H1' H4' Hcm ltac:(lia) Hbal) as (L1 & L2 & Hcreate & Hfund & Hopen & Hs1). fold id in Hcreate, Hfund, Hs1.
  pose proof Hopen as (Hms2 & _).
  destruct (e2e_asks env net lat dec abi srv emp tee ke L Hst someone rate salt_text rnd c id L2 Ht Hc ltac:(lia) ltac:(lia))
    as (req & sg & app & Hask & Hsg).
  replace ((lv_ms L2 + lat) / 1000) with T in Hask, Hsg by (unfold T; f_equal; lia).
  set (L4 := {| lv_world := lv_world L2; lv_ms := lv_ms L2 + lat; lv_app := app; lv_receipts := lv_receipts L2;
      lv_allowance := lv_allowance L2 |}) in *.
  pose proof (Z.div_mod (lv_ms L) 1000 ltac:(lia)). pose proof (Z.mod_pos_bound (lv_ms L) 1000 ltac:(lia)).
  pose proof (Z.div_mod (lv_ms L + 4 * lat) 1000 ltac:(lia)) as DT. fold T in DT.
  pose proof (Z.mod_pos_bound (lv_ms L + 4 * lat) 1000 ltac:(lia)).
  assert ((lv_ms L4 + lat) / 1000 ≤ T + 600) as Hlate
    by (apply Z.div_le_upper_bound; [lia|]; cbn [L4 lv_ms]; lia).
  pose proof (e2e_accrual t dec T ltac:(lia) Hrate eq_refl) as Hacc.
  change (startTime t) with (lv_ms L / 1000 - 3600) in Hacc. specialize (Hacc ltac:(lia)).
  destruct (e2e_pays env net lat dec abi srv emp tee ke L Hst someone rate salt_text req sg T L4 H2' H3' Hz)
    as (L5 & Hrun & Hres); [|exact Hacc|lia|exact Hlate|exact Hsg|].
  { destruct Hopen as (_ & _ & Hrest). split; [reflexivity|]. split; [reflexivity|]. exact Hrest. }
  exists L5. split; [exact Hrate|]. fold id in Hrun, Hres. split.
  - eapply (e2e_main_runs env net lat dec abi srv emp tee ke L Hst someone rate salt_text);
      [exact Ekey|exact Eemp|exact Eke|exact Hkey|reflexivity|exact Erate|exact Ht|exact Hc|exact Hcreate| |
       exact Hfund|exact Hask|exact Hrun].
    by rewrite Hs1.
  - cbn zeta in *. destruct Hres as (R1 & R2 & R3 & R4 & R5). rewrite R2. split; [exact Hacc|]. split; [done|].
    split; [exact R1|]. split; [exact R3|]. split; [exact R4|exact R5].
Qed.

#[local] Existing Instance plain_engine.

Definition e2e_key : jsstr := js "0x00000000000000000000000000000000000000000000000000000000000000e2".

Lemma e2e_passes_witness :
  ∃ srv, demo_server = Ret srv ∧ ∃ L', E2e.main (live_ops toy_net 225 srv stage_env 2000 6) stage_env (Ret stage_abi)
    [] e2e_key (num_of_Z 0) (λ w, (Ret tt, w)) (λ w, (Ret tt, w)) stage_live = (Done tt, L') ∧
    s_funded (stream_at (vault (lv_world L')) 1) = 5000000.
Proof.
  destruct demo_server as [srv|e] eqn:Hm; [|discriminate Hm]. exists srv. split; [reflexivity|].
  destruct (e2e_passes stage_env toy_net 2000 6 stage_abi srv (demo_account 225) (demo_account 238)
    demo_key stage_live (demo_account 226) e2e_key (num_of_Z 0) [] (demo_stage srv Hm))
    as (rate & L' & _ & Hrun & _ & Hf & _).
  - lia.
  - vm_compute. reflexivity.
  - vm_compute. reflexivity.
  - vm_compute. discriminate.
  - vm_compute. discriminate.
  - vm_compute. discriminate.
  - vm_compute. discriminate.
  - vm_compute. reflexivity.
  - vm_compute. discriminate.
  - vm_compute. discriminate.
  - intros rate Hr. destruct (E2e.rate_of (10 * 10 ^ 6)) as [q|e] eqn:Eq; [|discriminate Hr].
    injection Hr as <-. vm_compute in Eq. injection Eq as <-. split; [vm_compute; discriminate|].
    eexists. vm_compute. reflexivity.
  - exists L'. split; [exact Hrun|]. etransitivity; [exact Hf|]. vm_compute. reflexivity.
Defined.
