(* ===== verification/ClientCheck.v ===== *)
(** * The check of the frontend's client against the real enclave
      ([frontend/scripts/check-enclave-client.ts])

    The program as a script over the operations of ScriptMains.v, with the chain
    reads of Chain.v; and the theorem that it passes on a correct deployment: the
    recipient of the demo stream is served, a stranger is refused. *)

From S2P Require Import Prelude JsString JsNumber Utf8 Json JsMath JsonFacts Encoding Wire Framework Abi Instances Protocol StreamHandlers StreamProps Handlers Server EnclaveClient Main Scripts Vault VaultFacts VaultProps EndToEnd Chain Pages Dashboard ScriptMains Live Rehearsal.
#[local] Open Scope script_scope.

Module ClientCheck.

(** [fail]'s text for a refused request. *)
Definition failure_text (error : EnclaveFailure) : jsstr :=
  match error with
  | Unreachable detail => js "unreachable: " ++ detail ++ [10]
      ++ js "  (is the extension running?  cd typescript && npm run serve)"
  | Rejected detail => js "rejected: " ++ detail
  end.

Definition STRANGER_KEY `{Viem} : jsstr := keccak256_bytes (toBytes (js "not-a-party")).

Section check.
Context `{JsEngine, Viem, Ecies} {W : Type} (ops : Ops W) (cfg : ChainConfig) (ENCLAVE_URL : jsstr).
Context (rpc : W → Rpc) (explorer : W → Explorer).

(** The client of enclave.ts, its one [fetch] through [op_post]. *)
Definition asking (r : AuthRequest) : script W (EnclaveFailure + json) := λ w,
  let fields := JObj (request_fields r) in
  lift (requestAuthorization ENCLAVE_URL (λ url body, (op_post ops url body w).1) (op_now ops w) fields (js "AUTH_WITHDRAW"))
    (op_post ops (ENCLAVE_URL ++ js "/action")
      (buildActionBody (js "STREAM") (js "AUTH_WITHDRAW") fields (op_now ops w)) w).2.

(** The challenge for the stream, signed by an account. *)
Definition challenge (stream : OnChainStream) (issuedAt : Z) : outcome jsstr :=
  buildCallerChallenge {| cp_chainId := CHAIN_ID cfg; cp_vault := VAULT_ADDRESS cfg; cp_streamId := DEMO_STREAM_ID cfg;
    cp_commitment := o_commitment stream; cp_purpose := WITHDRAW_TAG; cp_issuedAt := issuedAt |}.

(** What is checked of the recipient's answer, and the stranger's attempt. *)
Definition judge (stream : OnChainStream) (sealed : jsstr) (issuedAt : Z) (auth : json) : script W unit :=
  run! said := lift (a ← prop auth (js "cumulativeAccrued"); template a) in
  run! shown := lift (a ← prop auth (js "signature"); as_string (js "slice") a) in
  run! h := lift (t ← auth_field auth (js "terms"); keccak256 t) in
  must! same_text h (o_commitment stream) else js "returned terms do not hash to the on-chain commitment" in
  run! terms := lift (t ← auth_field auth (js "terms"); decodeTerms t) in
  run! stranger := lift (privateKeyToAccount STRANGER_KEY) in
  run! raw := lift (challenge stream issuedAt) in
  run! strangerSig := lift (signMessage stranger raw) in
  run! denied := asking (unlock_request cfg stream sealed (DEMO_STREAM_ID cfg) issuedAt strangerSig) in
  must (match denied with inl _ => true | inr _ => false end)
    (js "a stranger was authorized " ++ [0x2014] ++ js " caller-auth is broken").

Definition main : script W unit :=
  run! alice := lift (privateKeyToAccount DEMO_RECIPIENT_KEY) in
  run! stream := reading (λ w, readStream cfg (rpc w) (DEMO_STREAM_ID cfg)) in
  must! same_text (o_recipient stream) (account_address alice)
    else js "demo recipient mismatch: chain says " ++ o_recipient stream ++ js ", derived " ++ account_address alice in
  run! found := reading (λ w, fetchEncryptedTerms cfg (explorer w) (DEMO_STREAM_ID cfg)) in
  match env_truthy found with
  | None => λ w, (Quit 1 (js "could not fetch sealed terms from the explorer API"), w)
  | Some sealed =>
      run! issuedAt := now_s ops in
      run! raw := lift (challenge stream issuedAt) in
      run! callerSignature := lift (signMessage alice raw) in
      run! res := asking (unlock_request cfg stream sealed (DEMO_STREAM_ID cfg) issuedAt callerSignature) in
      match res with
      | inl error => λ w, (Quit 1 (failure_text error), w)
      | inr auth => judge stream sealed issuedAt auth
      end
  end.
End check.
End ClientCheck.

(** ** A stranger's request *)

Section outsider.
Context `{JsEngine, EvmLaws, Viem, !ViemLaws, Ecies, !EciesLaws}.

(** A request with a challenge signed by no permitted party is refused, whatever
    else is right about it. *)
Lemma outsider_refused env tag t a vault_hex chain ch id iss ke ks rnd c raw sig :
  op_tag tag → terms_ok t → env_truthy (TEE_ECIES_PRIVKEY env) = Some ke →
  env_truthy (TEE_SIGNER_PRIVKEY env) = Some ks →
  encrypt (ecies_public ke) rnd (abi_encode (terms_words t)) = Ret c →
  BigInt chain = Ret ch → Z.abs (iss - now_sec env) ≤ 300 →
  let cm := bytesToHex (keccak (abi_encode (terms_words t))) in
  let req := party_request id vault_hex chain cm (bytesToHex c) iss sig in
  buildCallerChallenge {| cp_chainId := ch; cp_vault := vault_hex; cp_streamId := id;
    cp_commitment := cm; cp_purpose := tag; cp_issuedAt := iss |} = Ret raw →
  (∃ d, raw = bytesToHex d ∧ is_bytes d ∧ length d = 32%nat) → signMessage a raw = Ret sig → request_units req →
  ¬ (hex_value (account_address a) = hex_value (employer t) ∨
     (tag ≠ SETTLE_TAG ∧ hex_value (account_address a) = hex_value (recipient t))) →
  authorize_steps env (payload (JObj (request_fields req))) tag =
    Ret (inl (refuse (js "caller is not a party to this stream"))).
Proof.
  intros Htag Ht Hke Hks Henc Hch Hskew cm req Hraw (d & -> & Hd & Hdl) Hsig Hu Hno.
  pose proof (abi_encode_bytes (terms_words t)) as Hp.
  pose proof (encrypt_bytes _ _ _ _ Henc) as Hcb. apply decrypt_encrypt in Henc.
  destruct (sign_raw a d) as (cs & Hcs & _ & _ & _ & _ & Hrec); [done|done|].
  rewrite Hcs in Hsig. injection Hsig as Hsig.
  unfold authorize_steps. rewrite (decode_request_fields req Hu). cbn [step_bind]. rewrite Hke, Hks.
  unfold unseal. cbn [req party_request encryptedTerms commitment hexToBytes].
  rewrite hexToBytes_bytesToHex_str by done. cbn [mbind outcome_bind]. rewrite Henc.
  cbn [mbind outcome_bind attempt step_bind]. rewrite keccak256_hex by done.
  cbn [call mbind outcome_bind step_bind]. unfold cm at 1. rewrite bytesToHex_to_lower by apply keccak_bytes.
  rewrite str_eqb_refl. rewrite decode_terms_words by done. cbn [attempt step_bind fst snd].
  unfold authenticate. cbn [req party_request issuedAt chainId streamId StreamHandlers.vault commitment callerSignature].
  rewrite BigInt_to_string. cbn [attempt step_bind]. rewrite skew_abs, Z.gtb_ltb.
  unfold CALLER_AUTH_WINDOW_SECONDS. rewrite (proj2 (Z.ltb_ge _ _)) by lia. cbn [negb].
  rewrite Hch. cbn [mbind outcome_bind]. rewrite BigInt_to_string. cbn [mbind outcome_bind]. rewrite Hraw.
  cbn [mbind outcome_bind]. rewrite <- Hsig, Hrec. cbn [attempt step_bind].
  rewrite bool_decide_eq_false_2; [done|]. intros Hin. apply Hno.
  destruct (canonical_address_ok (employer t) (proj1 Ht)) as (He%isAddress_shape & V1 & _).
  destruct (canonical_address_ok (recipient t) (proj1 (proj2 Ht))) as (Hr%isAddress_shape & V2 & _).
  apply permitted_address in Hin; [|apply isAddress_shape, account_shape|exact He|exact Hr].
  cbn [employer recipient canonical] in Hin. by rewrite V1, V2 in Hin.
Qed.

(** The counter after an action of the client. *)
Lemma served_counter srv env s url command tag v now r n' :
  main_server = Ret srv → stream_op command tag → json_ok v = true → date_ok now →
  authorize env tag (payload v) (authCount s) = (r, n') →
  authCount (serve srv env None (posted_to (url ++ js "/action") (buildActionBody OP_TYPE_STREAM command v now)) s).2 = n'.
Proof.
  intros Hm Hop Hv Hn E. rewrite posted_to_action. unfold serve.
  rewrite bool_decide_eq_false_2 by discriminate. cbn [http_chunks readBody fmap option_fmap option_map].
  cbn [mjoin list_join]. rewrite app_nil_r. set (body := utf8_decode _).
  assert (handleRequest srv env (default [] (Some (js "POST"))) (default [] (Some (js "/action"))) body s
    = processAction srv env body s) as Hroute by reflexivity.
  cbn [http_method http_url]. rewrite Hroute. unfold processAction, body.
  rewrite (prepare_client srv command tag) by done. cbn [p_handler client_action p_msg].
  unfold on_authCount. rewrite E. reflexivity.
Qed.
End outsider.

(** ** The run *)

Section runs.
Context `{JsEngine, EvmLaws, Viem, !ViemLaws, Ecies, !EciesLaws, Erc20, !Erc20Laws}.
Context (net : Net) (me : Z) (srv : Server) (enclave : Environment) (lat dec : Z) (url : jsstr).

#[local] Abbreviation ops := (live_ops net me srv enclave lat dec).

(** The world after a question of the client. *)
Definition posted (r : AuthRequest) (L : Live) : Live :=
  {| lv_world := lv_world L; lv_ms := lv_ms L + lat; lv_receipts := lv_receipts L; lv_allowance := lv_allowance L;
     lv_app := (serve srv (env_at enclave (lv_ms L + lat)) None (posted_to (url ++ js "/action") (buildActionBody OP_TYPE_STREAM
       OP_COMMAND_AUTH_WITHDRAW (JObj (request_fields r)) (lv_ms L))) (lv_app L)).2 |}.

Lemma asking_live r L o :
  requestAuthorization url (deliver srv (env_at enclave (lv_ms L + lat)) None (lv_app L)) (lv_ms L)
    (JObj (request_fields r)) OP_COMMAND_AUTH_WITHDRAW = Ret o →
  ClientCheck.asking ops url r L = (Done o, posted r L).
Proof.
  intros E. unfold ClientCheck.asking, lift.
  change (λ u b, (op_post ops u b L).1) with (deliver srv (env_at enclave (lv_ms L + lat)) None (lv_app L)).
  change (js "AUTH_WITHDRAW") with OP_COMMAND_AUTH_WITHDRAW. cbn [op_now live_ops]. rewrite E. reflexivity.
Qed.

Context (Hm : main_server = Ret srv) (Hlat : 0 ≤ lat ≤ 60000).

(** A question that is granted, and one that is refused, with the counter. *)
Lemma asking_answered r L : request_units r → 0 ≤ lv_ms L ≤ 8640000000000000 - lat →
  env_ok (env_at enclave (lv_ms L + lat)) →
  match authorize_steps (env_at enclave (lv_ms L + lat)) (payload (JObj (request_fields r))) WITHDRAW_TAG with
  | Ret (inr resp) => ClientCheck.asking ops url r L = (Done (inr resp), posted r L) ∧
      authCount (lv_app (posted r L)) = num_incr (authCount (lv_app L))
  | Ret (inl _) => (∃ t, ClientCheck.asking ops url r L = (Done (inl (Rejected t)), posted r L)) ∧
      authCount (lv_app (posted r L)) = authCount (lv_app L)
  | Throw _ => True
  end.
Proof using All.
  intros Hu Hms Henv. assert (date_ok (lv_ms L)) as Hd by (unfold date_ok; lia).
  assert (stream_op OP_COMMAND_AUTH_WITHDRAW WITHDRAW_TAG) as Hop by by left.
  pose proof (request_fields_ok r Hu) as Hok.
  destruct (authorize_steps _ _ _) as [[x|resp]|e] eqn:Es; [| |done].
  - destruct (asked_refused srv _ None (lv_app L) url _ _ r (lv_ms L) Hm Hop Hu Hd x Es) as (t & _ & Ea & Hask).
    split; [exists t; by apply asking_live|].
    by apply (served_counter srv _ (lv_app L) url _ _ _ (lv_ms L) _ _ Hm Hop Hok Hd Ea).
  - destruct (asked_granted srv _ None (lv_app L) url _ _ r (lv_ms L) Hm Hop Henv Hu Hd resp Es) as [Ea Hask].
    split; [by apply asking_live|].
    by apply (served_counter srv _ (lv_app L) url _ _ _ (lv_ms L) _ _ Hm Hop Hok Hd Ea).
Qed.
End runs.

(** ** Properties *)

(** A deployment with the demo stream: the chain and the explorer serve a history
    of the vault in which the stream was created for the demo recipient with the
    terms sealed to the enclave's key; the stranger is no party. *)
Record demo_deployed `{JsEngine, Evm, Viem, Ecies, Erc20} (net : Net) (srv : Server) (enclave : Environment)
    (lat : Z) (cfg : ChainConfig) (rpc : Live → Rpc) (explorer : Live → Explorer) (L : Live)
    (t : StreamTerms) (alice stranger : account) : Prop := {
  dd_program : main_server = Ret srv;
  dd_history : ∃ w0 cs, fresh net w0 ∧ vrun net w0 cs (lv_world L);
  dd_rpc : ∃ head blocks, serves cfg (lv_world L) head blocks (rpc L);
  dd_explorer : indexes cfg (lv_world L) (explorer L);
  dd_config : isAddress (VAULT_ADDRESS cfg) = true ∧ uint_range 256 (CHAIN_ID cfg);
  dd_terms : terms_ok t;
  dd_keys : ∃ ke ks tee rnd c emp tok st, env_truthy (enclave (js "TEE_ECIES_PRIVKEY")) = Some ke ∧
    env_truthy (enclave (js "TEE_SIGNER_PRIVKEY")) = Some ks ∧ privateKeyToAccount ks = Ret tee ∧
    encrypt (ecies_public ke) rnd (abi_encode (terms_words t)) = Ret c ∧
    StreamCreated (DEMO_STREAM_ID cfg) emp (hex_value (recipient t)) tok
      (be_value (keccak (abi_encode (terms_words t)))) st c ∈ events (lv_world L);
  dd_alice : privateKeyToAccount DEMO_RECIPIENT_KEY = Ret alice ∧
    hex_value (account_address alice) = hex_value (recipient t);
  dd_stranger : privateKeyToAccount ClientCheck.STRANGER_KEY = Ret stranger ∧
    hex_value (account_address stranger) ≠ hex_value (employer t) ∧
    hex_value (account_address stranger) ≠ hex_value (recipient t);
  dd_tags : WITHDRAW_TAG ≠ SETTLE_TAG;
  dd_clock : 0 ≤ lat ≤ 60000 ∧ 0 ≤ lv_ms L ≤ 8630000000000000;
}.

Section facts.
Context `{JsEngine, EvmLaws, Viem, !ViemLaws, Ecies, !EciesLaws, Erc20, !Erc20Laws}.
Context (net : Net) (srv : Server) (enclave : Environment) (lat : Z) (cfg : ChainConfig)
  (rpc : Live → Rpc) (explorer : Live → Explorer) (L : Live) (t : StreamTerms) (alice stranger : account).
Context (Hd : demo_deployed net srv enclave lat cfg rpc explorer L t alice stranger).

Let cm := bytesToHex (keccak (abi_encode (terms_words t))).

(** Equal addresses, as the programs compare them. *)
Lemma checksum_same a b : isAddress a = true → hex_value a = hex_value b → isAddress b = true →
  same_text (checksumAddress (address_hex (hex_value a))) b = true.
Proof using All.
  intros Ha%isAddress_shape E Hb%isAddress_shape.
  rewrite E, (proj2 (hex_value_address_hex b Hb)).
  destruct (hex_shape_lower 20 b Hb) as [Hl _]. destruct (checksumAddress_ok _ Hl) as [Hc Hlow].
  unfold same_text. apply isAddress_shape in Hc. rewrite !(hex_shape_to_lower 40) by done.
  rewrite Hlow, <- list_fmap_compose, (list_fmap_ext _ ascii_lower b) by (intros; apply ascii_lower_idem).
  apply str_eqb_refl.
Qed.

(** The stream as the chain shows it, and its ciphertext. *)
Lemma demo_stream_read : ∃ s, readStream cfg (rpc L) (DEMO_STREAM_ID cfg) = Ret s ∧ o_commitment s = cm ∧
  same_text (o_recipient s) (account_address alice) = true.
Proof using All.
  destruct (dd_history _ _ _ _ _ _ _ _ _ _ _ Hd) as (w0 & cs & Hf & Hr).
  destruct (dd_rpc _ _ _ _ _ _ _ _ _ _ _ Hd) as (head & blocks & [_ _ _ _ Hs _]).
  destruct (dd_keys _ _ _ _ _ _ _ _ _ _ _ Hd) as (ke & ks & tee & rnd & c & emp & tok & st & _ & _ & _ & _ & Hev).
  destruct (dd_alice _ _ _ _ _ _ _ _ _ _ _ Hd) as [_ Ha].
  assert (records (lv_world L) (StreamCreated (DEMO_STREAM_ID cfg) emp (hex_value (recipient t)) tok
      (be_value (keccak (abi_encode (terms_words t)))) st c)) as (_ & _ & Erec & _ & Ecm).
  { apply (vrun_records net w0 cs _ _ (fresh_ok net w0 Hf) Hr); [|exact Hev].
    destruct Hf as (? & ? & ? & -> & _). apply not_elem_of_nil. }
  unfold readStream. rewrite Hs. cbn [mbind outcome_bind]. eexists. split; [reflexivity|].
  cbn [o_commitment o_recipient]. rewrite Erec, Ecm, hash_word, <- Ha. split; [done|].
  apply checksum_same; [apply account_shape|done|apply account_shape].
Qed.
End facts.

(** ** The parts of the run *)

Section parts.
Context `{JsEngine, EvmLaws, Viem, !ViemLaws, Ecies, !EciesLaws, Erc20, !Erc20Laws}.

(** The enclave within two minutes of the time at which a challenge is issued. *)
Lemma enclave_near enclave ms k ks tee : env_truthy (enclave (js "TEE_SIGNER_PRIVKEY")) = Some ks →
  privateKeyToAccount ks = Ret tee → 0 ≤ ms ≤ 8630000000000000 → 0 ≤ k ≤ 120000 →
  env_ok (env_at enclave (ms + k)) ∧ Z.abs (ms / 1000 - now_sec (env_at enclave (ms + k))) ≤ 300.
Proof using Type.
  intros Hks Htee Hms Hk. split; [split; [cbn [now_ms env_at]; lia|]|].
  - intros x Hx. change (env_truthy (enclave (js "TEE_SIGNER_PRIVKEY")) = Some x) in Hx.
    rewrite Hks in Hx. injection Hx as <-. by eexists.
  - change (now_sec _) with ((ms + k) / 1000).
    pose proof (Z.div_mod ms 1000 ltac:(lia)). pose proof (Z.mod_pos_bound ms 1000 ltac:(lia)).
    pose proof (Z.div_mod (ms + k) 1000 ltac:(lia)). pose proof (Z.mod_pos_bound (ms + k) 1000 ltac:(lia)). lia.
Qed.

(** A challenge for a digest is 32 bytes in hex. *)
Lemma challenge_digest ch v id d iss raw : isAddress v = true → uint_range 256 ch → uint_range 256 id →
  uint_range 256 iss → is_bytes d → length d = 32%nat →
  buildCallerChallenge {| cp_chainId := ch; cp_vault := v; cp_streamId := id;
    cp_commitment := bytesToHex d; cp_purpose := WITHDRAW_TAG; cp_issuedAt := iss |} = Ret raw →
  ∃ dg, raw = bytesToHex dg ∧ is_bytes dg ∧ length dg = 32%nat.
Proof using All.
  intros Hv Hch Hid Hi Hd Hl Hraw.
  rewrite (challenge_returns _ d) in Hraw; cbn [cp_purpose cp_commitment cp_chainId cp_vault cp_streamId cp_issuedAt];
    [|by left|done|done|by apply bytesToHex_to_lower|done|done|done|done].
  injection Hraw as <-. eexists. split; [reflexivity|]. split; [apply keccak_bytes|apply keccak_length].
Qed.

(** The stranger's question, on the challenge that the recipient signs. *)
Lemma stranger_refused net me srv enclave lat dec url cfg t stranger ke ks tee rnd c id iss raw L :
  main_server = Ret srv → 0 ≤ lat ≤ 60000 → 0 ≤ lv_ms L ≤ 8640000000000000 - lat →
  isAddress (VAULT_ADDRESS cfg) = true → uint_range 256 (CHAIN_ID cfg) → uint_range 256 id → uint_range 256 iss →
  env_ok (env_at enclave (lv_ms L + lat)) → Z.abs (iss - now_sec (env_at enclave (lv_ms L + lat))) ≤ 300 →
  env_truthy (enclave (js "TEE_ECIES_PRIVKEY")) = Some ke → env_truthy (enclave (js "TEE_SIGNER_PRIVKEY")) = Some ks →
  privateKeyToAccount ks = Ret tee → terms_ok t → encrypt (ecies_public ke) rnd (abi_encode (terms_words t)) = Ret c →
  hex_value (account_address stranger) ≠ hex_value (employer t) →
  hex_value (account_address stranger) ≠ hex_value (recipient t) →
  let cm := bytesToHex (keccak (abi_encode (terms_words t))) in
  buildCallerChallenge {| cp_chainId := CHAIN_ID cfg; cp_vault := VAULT_ADDRESS cfg; cp_streamId := id;
    cp_commitment := cm; cp_purpose := WITHDRAW_TAG; cp_issuedAt := iss |} = Ret raw →
  ∃ dg ss why, raw = bytesToHex dg ∧ signMessage stranger raw = Ret ss ∧
    let req := party_request id (VAULT_ADDRESS cfg) (bigint_to_string (CHAIN_ID cfg)) cm (bytesToHex c) iss ss in
    ClientCheck.asking (live_ops net me srv enclave lat dec) url req L
      = (Done (inl (Rejected why)), posted srv enclave lat url req L) ∧
    authCount (lv_app (posted srv enclave lat url req L)) = authCount (lv_app L).
Proof using All.
  intros Hm Hlat Hms Hv Hch Hid Hiss He Hk Hke Hks Htee Ht Henc Hne Hnr cm Hraw.
  destruct (challenge_digest _ _ _ (keccak (abi_encode (terms_words t))) _ _ Hv Hch Hid Hiss
    (keccak_bytes _) (keccak_length _) Hraw) as (dg & -> & Hdg & Hdgl).
  destruct (sign_raw stranger dg) as (ss & Hss & Hssb & _); [done|done|].
  set (req := party_request id (VAULT_ADDRESS cfg) (bigint_to_string (CHAIN_ID cfg)) cm (bytesToHex c) iss (bytesToHex ss)).
  assert (request_units req) as Hu
    by (apply party_request_units; [done|apply bigint_units|apply keccak_bytes|by eapply encrypt_bytes|done]).
  pose proof (outsider_refused (env_at enclave (lv_ms L + lat)) WITHDRAW_TAG t stranger (VAULT_ADDRESS cfg)
    (bigint_to_string (CHAIN_ID cfg)) (CHAIN_ID cfg) id iss ke ks rnd c (bytesToHex dg) (bytesToHex ss) ltac:(by left)
    Ht Hke Hks Henc (BigInt_to_string _) Hk Hraw ltac:(by eexists) Hss Hu ltac:(by intros [?|[_ ?]])) as Hsteps.
  change (party_request _ _ _ _ _ _ _) with req in Hsteps.
  pose proof (asking_answered net me srv enclave lat dec url Hm Hlat req L Hu Hms He) as Hask.
  rewrite Hsteps in Hask. destruct Hask as [[why Hask] Hn].
  exists dg, (bytesToHex ss), why. split; [done|]. split; [exact Hss|]. split; [exact Hask|exact Hn].
Qed.

(** The program, when every answer is the expected one. *)
Lemma main_run (ops : Ops Live) cfg url rpc explorer L L1 L2 s t c iss dg alice stranger sig ss req now sg why :
  privateKeyToAccount DEMO_RECIPIENT_KEY = Ret alice → privateKeyToAccount ClientCheck.STRANGER_KEY = Ret stranger →
  readStream cfg (rpc L) (DEMO_STREAM_ID cfg) = Ret s → o_commitment s = bytesToHex (keccak (abi_encode (terms_words t))) →
  same_text (o_recipient s) (account_address alice) = true → terms_ok t →
  fetchEncryptedTerms cfg (explorer L) (DEMO_STREAM_ID cfg) = Ret (Some (bytesToHex c)) → op_now ops L / 1000 = iss →
  ClientCheck.challenge cfg s iss = Ret (bytesToHex dg) →
  signMessage alice (bytesToHex dg) = Ret sig → signMessage stranger (bytesToHex dg) = Ret ss →
  ClientCheck.asking ops url (unlock_request cfg s (bytesToHex c) (DEMO_STREAM_ID cfg) iss sig) L =
    (Done (inr (authorization req t now sg)), L1) →
  ClientCheck.asking ops url (unlock_request cfg s (bytesToHex c) (DEMO_STREAM_ID cfg) iss ss) L1 =
    (Done (inl (Rejected why)), L2) →
  ClientCheck.main ops cfg url rpc explorer L = (Done tt, L2).
Proof using All.
  intros Hal Hstr Hs Hcm Hsame Ht Hfetch Hiss Hch Hsig Hss Hask1 Hask2.
  unfold ClientCheck.main. erewrite run_lift by exact Hal. erewrite run_reading by exact Hs.
  rewrite run_must by done. erewrite run_reading by exact Hfetch.
  assert (env_truthy (Some (bytesToHex c)) = Some (bytesToHex c)) as -> by (by rewrite bytesToHex_digits).
  unfold now_s. erewrite run_reading by reflexivity. rewrite Hiss.
  erewrite run_lift by exact Hch. erewrite run_lift by exact Hsig.
  erewrite run_step by exact Hask1. unfold ClientCheck.judge.
  erewrite run_lift by reflexivity. erewrite run_lift by reflexivity. rewrite authorization_terms. cbn [mbind outcome_bind].
  erewrite run_lift by (apply keccak256_hex, abi_encode_bytes).
  rewrite run_must by (rewrite Hcm; apply str_eqb_refl).
  erewrite run_lift by (by apply decode_terms_words). erewrite run_lift by exact Hstr.
  erewrite run_lift by exact Hch. erewrite run_lift by exact Hss.
  erewrite run_step by exact Hask2. reflexivity.
Qed.
End parts.

(** C8: the frontend's client works against the enclave, and only for a party: on
    a chain and an explorer that serve any history of the vault in which the demo
    stream was created for the demo recipient, [check-enclave-client.ts] runs to its
    end.  The recipient's question is granted and shows terms that hash to the
    commitment on chain; the stranger's, right in every other respect, is refused;
    so the enclave counts one authorization, and nothing changed on the chain. *)
Theorem client_check_passes `{JsEngine, EvmLaws, Viem, !ViemLaws, Ecies, !EciesLaws, Erc20, !Erc20Laws}
    net me srv enclave lat dec cfg url rpc explorer L t alice stranger :
  demo_deployed net srv enclave lat cfg rpc explorer L t alice stranger →
  ∃ L', ClientCheck.main (live_ops net me srv enclave lat dec) cfg url rpc explorer L = (Done tt, L') ∧
    authCount (lv_app L') = num_incr (authCount (lv_app L)) ∧
    lv_world L' = lv_world L ∧ lv_ms L' = lv_ms L + 2 * lat.
Proof.
  intros Hd. destruct (demo_stream_read _ _ _ _ _ _ _ _ _ _ _ Hd) as (s & Hs & Hcm & Hsame).
  destruct (dd_history _ _ _ _ _ _ _ _ _ _ _ Hd) as (w0 & cs & Hf & Hr).
  destruct (dd_keys _ _ _ _ _ _ _ _ _ _ _ Hd) as (ke & ks & tee & rnd & c & emp & tok & st & Hke & Hks & Htee & Henc & Hev).
  destruct (dd_alice _ _ _ _ _ _ _ _ _ _ _ Hd) as [Hal Hal'].
  destruct (dd_stranger _ _ _ _ _ _ _ _ _ _ _ Hd) as (Hstr & Hne & Hnr).
  destruct (dd_config _ _ _ _ _ _ _ _ _ _ _ Hd) as [Hv Hch].
  destruct (dd_clock _ _ _ _ _ _ _ _ _ _ _ Hd) as [Hlat Hms].
  pose proof (dd_program _ _ _ _ _ _ _ _ _ _ _ Hd) as Hm. pose proof (dd_terms _ _ _ _ _ _ _ _ _ _ _ Hd) as Ht.
  pose proof (dd_tags _ _ _ _ _ _ _ _ _ _ _ Hd) as Htags.
  set (id := DEMO_STREAM_ID cfg) in *. set (iss := lv_ms L / 1000).
  assert (uint_range 256 id) as Hid.
  { destruct (created_ids net w0 cs _ Hf Hr) as [_ Hids]. rewrite Forall_forall in Hids. by apply (Hids _ Hev). }
  destruct (enclave_near enclave (lv_ms L) lat ks tee Hks Htee Hms ltac:(lia)) as [He1 Hk1].
  destruct (enclave_near enclave (lv_ms L) (lat + lat) ks tee Hks Htee Hms ltac:(lia)) as [He2 Hk2].
  rewrite Z.add_assoc in He2, Hk2. fold iss in Hk1, Hk2.
  assert (0 ≤ iss) as Hi0 by (apply Z.div_pos; lia).
  destruct (challenge_honest _ WITHDRAW_TAG t tee alice (VAULT_ADDRESS cfg) (bigint_to_string (CHAIN_ID cfg))
    (CHAIN_ID cfg) id iss ke ks rnd c ltac:(by left) He1 Ht Hke Hks Htee Henc Hv (bigint_units _)
    (BigInt_to_string _) Hch Hid Hi0 Hk1 ltac:(right; done)) as (raw & sig & Hraw & Hsig & Hu & Hh).
  destruct (honest_granted _ _ _ _ _ _ _ _ Hh) as (sg & Hsteps & _).
  set (req := party_request _ _ _ _ _ _ _) in *.
  pose proof (asking_answered net me srv enclave lat dec url Hm Hlat req L Hu ltac:(lia) He1) as Hask1.
  rewrite Hsteps in Hask1. destruct Hask1 as [Hask1 Hn1]. set (L1 := posted srv enclave lat url req L) in *.
  set (d := keccak (abi_encode (terms_words t))) in *.
  assert (uint_range 256 iss) as Hiss.
  { pose proof (env_deadline _ He1) as Hdl. change AUTH_TTL_SECONDS with 600 in Hdl. lia. }
  destruct (stranger_refused net me srv enclave lat dec url cfg t stranger ke ks tee rnd c id iss raw L1)
    as (dg & ss & why & -> & Hss & Hask2 & Hn2); try done; [cbn [L1 posted lv_ms]; lia|].
  set (req2 := party_request _ _ _ _ _ _ ss) in *.
  exists (posted srv enclave lat url req2 L1). split.
  2:{ rewrite Hn2, Hn1. cbn [posted lv_world lv_ms L1]. split; [done|]. split; [done|lia]. }
  eapply main_run; [exact Hal|exact Hstr|exact Hs|exact Hcm|exact Hsame|exact Ht| |reflexivity| |exact Hsig|exact Hss| |].
  - eapply sealed_fetched; [exact Hf|exact Hr|by eapply dd_explorer|exact Hev].
  - unfold ClientCheck.challenge. rewrite Hcm. exact Hraw.
  - unfold unlock_request. rewrite Hcm. exact Hask1.
  - unfold unlock_request. rewrite Hcm. exact Hask2.
Qed.

(** ** A concrete deployment *)

#[local] Existing Instance plain_engine.

Definition check_terms_of : StreamTerms := {|
  employer := address_hex 225; recipient := account_address demo_alice; token := address_hex 5;
  ratePerSecond := 115740740740740; total := 10000000; startTime := 1000;
  salt := js "0x1111111111111111111111111111111111111111111111111111111111111111" |}.
Definition check_plain : bytes := abi_encode (terms_words check_terms_of).
Definition check_cipher : bytes := ret_or [] (encrypt (ecies_public demo_key) [] check_plain).
Definition check_recipient : Z := hex_value (account_address demo_alice).
Definition check_history : list (Msg * Call) :=
  [(by_employer 10, CCreateStream check_recipient 5 (be_value (keccak check_plain)) 10 check_cipher)].
Definition check_created : Event :=
  StreamCreated 1 225 check_recipient 5 (be_value (keccak check_plain)) 10 check_cipher.
Definition check_log : RawLog := {|
  l_topics := [STREAM_CREATED_TOPIC; bytesToHex (word 1); bytesToHex (word 225); bytesToHex (word check_recipient)];
  l_data := bytesToHex (word 5 ++ word (be_value (keccak check_plain)) ++ word 10 ++ word 128
    ++ word (Z.of_nat (length check_cipher)) ++ check_cipher
    ++ replicate (Z.to_nat (- Z.of_nat (length check_cipher) mod 32)) 0);
  l_blockNumber := js "0x1e" |}.
Definition check_live : Live :=
  {| lv_world := after check_history; lv_ms := 1400000; lv_app := init_state; lv_receipts := [];
     lv_allowance := λ _ _, 0 |}.
Definition check_rpc : Rpc := toy_rpc demo_chain (after check_history) 60 [(40, check_created)].
Definition check_explorer : Explorer :=
  one_log_explorer demo_chain (bytesToHex (word check_recipient)) check_log.
Definition check_stranger : @account toy_viem := ret_or 0 (@privateKeyToAccount toy_viem ClientCheck.STRANGER_KEY).

Lemma check_events : events (after check_history) = [check_created].
Proof. vm_compute. reflexivity. Qed.

Lemma check_typed : Forall event_typed (events (after check_history)).
Proof.
  rewrite check_events. constructor; [|constructor]. cbn [event_typed check_created].
  split; [lia|]. split; [vm_compute; by split|]. apply all_bytes. vm_compute. reflexivity.
Qed.

Lemma check_terms_ok : terms_ok check_terms_of.
Proof.
  unfold terms_ok. cbn [employer recipient token ratePerSecond total startTime salt check_terms_of].
  split; [reflexivity|]. split; [apply account_shape|]. split; [reflexivity|]. do 3 (split; [lia|]).
  apply demo_terms_ok.
Qed.

Lemma check_deployed srv : demo_server = Ret srv →
  demo_deployed toy_net srv stage_env 2000 demo_chain (λ _, check_rpc) (λ _, check_explorer) check_live check_terms_of
    demo_alice check_stranger.
Proof.
  intros Hm. split.
  - exact Hm.
  - exists toy_world, check_history. split; [exact toy_fresh|]. apply toy_run; vm_compute; reflexivity.
  - exists 60, [(40, check_created)]. apply toy_rpc_serves; [symmetry; exact check_events|exact check_typed|lia].
  - eapply one_log_indexes; [exact check_typed|exact check_events|reflexivity| |reflexivity].
    split; vm_compute; reflexivity.
  - split; [reflexivity|cbn; lia].
  - exact check_terms_ok.
  - exists demo_key, demo_signer, (demo_account 238), [], check_cipher, 225, 5, 10.
    do 3 (split; [reflexivity|]). split; [vm_compute; reflexivity|]. cbn [lv_world check_live]. rewrite check_events. left.
  - split; vm_compute; reflexivity.
  - split; [vm_compute; reflexivity|]. split; vm_compute; discriminate.
  - apply (bool_decide_eq_false_1 _). vm_compute. reflexivity.
  - cbn. lia.
Qed.

Lemma client_check_passes_witness :
  ∃ srv, demo_server = Ret srv ∧ ∃ L', ClientCheck.main (live_ops toy_net 225 srv stage_env 2000 6) demo_chain
    (js "http://127.0.0.1:18080") (λ _, check_rpc) (λ _, check_explorer) check_live = (Done tt, L').
Proof.
  destruct demo_server as [srv|e] eqn:Hm; [|discriminate Hm]. exists srv. split; [reflexivity|].
  destruct (client_check_passes toy_net 225 srv stage_env 2000 6 demo_chain (js "http://127.0.0.1:18080")
    (λ _, check_rpc) (λ _, check_explorer) check_live check_terms_of demo_alice check_stranger (check_deployed srv Hm))
    as (L' & Hrun & _).
  exists L'. exact Hrun.
Defined.
