(* ===== verification/OfflineChecks.v ===== *)
(** * The offline checks ([typescript/scripts])

    [gen-golden-vectors.ts], which pins the digest of the authorizations for the
    tests of the contract, with the theorem that the vault accepts what it prints;
    and the theorem that [verify-browser-ciphertext.ts] (ScriptMains.v) passes a
    ciphertext exactly when the enclave would open it. *)

From S2P Require Import Prelude JsString JsNumber Utf8 Json JsMath JsonFacts Encoding Wire Framework Abi Instances Protocol StreamHandlers StreamProps Handlers Server EnclaveClient Main Scripts Vault VaultFacts VaultProps EndToEnd Chain Pages ScriptMains Live.

(** ** gen-golden-vectors.ts *)

Module Golden.

Definition TEST_SIGNER_KEY : jsstr := js "0x59c6995e998f97a5a0044966f0945389dc9e86dae88c7a8412f4603b6b78690d".
Definition VAULT : jsstr := js "0x1111111111111111111111111111111111111111".
Definition CHAIN_ID : Z := 114.
Definition STREAM_ID : Z := 7.
Definition COMMITMENT : jsstr := js "0x2222222222222222222222222222222222222222222222222222222222222222".
Definition CUMULATIVE_ACCRUED : Z := 123456789000000000.
Definition DEADLINE : Z := 1893456000.

(** The three entries of an operation. *)
Definition vectors `{JsEngine, Viem} (acct : account) (name tag : jsstr) : outcome (list (jsstr * json)) :=
  digest ← buildAuthDigest {| ap_tag := tag; ap_chainId := CHAIN_ID; ap_vault := VAULT; ap_streamId := STREAM_ID;
    ap_commitment := COMMITMENT; ap_cumulativeAccrued := CUMULATIVE_ACCRUED; ap_deadline := DEADLINE |};
  sig ← signMessage acct digest;
  Ret [(name ++ js "Tag", JStr tag); (name ++ js "Digest", JStr digest); (name ++ js "Signature", JStr sig)].

(** The object that is printed. *)
Definition main `{JsEngine, Viem} : outcome json :=
  acct ← privateKeyToAccount TEST_SIGNER_KEY;
  w ← vectors acct (js "withdraw") WITHDRAW_TAG;
  s ← vectors acct (js "settle") SETTLE_TAG;
  Ret (JObj ([
    (js "signer", JStr (account_address acct));
    (js "vault", JStr VAULT);
    (js "chainId", JStr (bigint_to_string CHAIN_ID));
    (js "streamId", JStr (bigint_to_string STREAM_ID));
    (js "commitment", JStr COMMITMENT);
    (js "cumulativeAccrued", JStr (bigint_to_string CUMULATIVE_ACCRUED));
    (js "deadline", JStr (bigint_to_string DEADLINE))] ++ w ++ s)).
End Golden.

(** The operations and their tags, as the contract has them. *)
Definition golden_op `{JsEngine, Viem, Evm} (name tag : jsstr) (word : Z) : Prop :=
  (name = js "withdraw" ∧ tag = WITHDRAW_TAG ∧ word = WITHDRAW_TAG_word) ∨
  (name = js "settle" ∧ tag = SETTLE_TAG ∧ word = SETTLE_TAG_word).

Section facts.
Context `{JsEngine, EvmLaws, Viem, !ViemLaws}.

Lemma golden_op_word name tag word : golden_op name tag word → op_tag tag ∧ hex_value tag = word.
Proof.
  intros [(_ & -> & ->)|(_ & -> & ->)]; [split; [by left|apply withdraw_tag_word]|split; [by right|apply settle_tag_word]].
Qed.

(** What an operation's entries hold. *)
Lemma golden_vectors acct name tag word : golden_op name tag word →
  ∃ sg, let d := authorization_digest {| this := hex_value Golden.VAULT; chainid := Golden.CHAIN_ID |} word
      Golden.STREAM_ID (hex_value Golden.COMMITMENT) Golden.CUMULATIVE_ACCRUED Golden.DEADLINE in
    Golden.vectors acct name tag = Ret [(name ++ js "Tag", JStr tag); (name ++ js "Digest", JStr (bytesToHex d));
      (name ++ js "Signature", JStr (bytesToHex sg))] ∧
    is_bytes sg ∧ ∀ v, teeSigner v = hex_value (account_address acct) → teeSigner v ≠ 0 →
      signed_by_tee {| this := hex_value Golden.VAULT; chainid := Golden.CHAIN_ID |} v word Golden.STREAM_ID
        (hex_value Golden.COMMITMENT) Golden.CUMULATIVE_ACCRUED Golden.DEADLINE sg.
Proof.
  intros [Htag <-]%golden_op_word. unfold Golden.vectors.
  set (cm := hex_bytes Golden.COMMITMENT).
  assert (isAddress Golden.VAULT = true) as Hv by (apply isAddress_lower; reflexivity).
  assert (is_bytes cm) as Hcm by (apply all_bytes; vm_compute; reflexivity).
  rewrite (auth_digest_returns _ cm);
    [|done|done|reflexivity|vm_compute; reflexivity|cbn; unfold Golden.CHAIN_ID; lia|exact Hv
     |cbn; unfold Golden.STREAM_ID; lia|cbn; unfold Golden.CUMULATIVE_ACCRUED; lia|cbn; unfold Golden.DEADLINE; lia].
  cbn [ap_tag ap_chainId ap_vault ap_streamId ap_cumulativeAccrued ap_deadline mbind outcome_bind].
  set (d := keccak _). destruct (sign_raw acct d) as (sg & Hsg & Hsb & Hsl & Hsv & Hrec & _);
    [apply keccak_bytes|apply keccak_length|].
  rewrite Hsg. cbn [mbind outcome_bind]. exists sg. cbn zeta. split; [reflexivity|]. split; [done|].
  intros v Hsigner Hnz. eapply signature_accepted; [exact Hsigner|exact Hnz|]. by split_and!.
Qed.
End facts.

(** ** Properties *)

(** the golden vectors are what the contract accepts: the script prints, for
    each operation, the digest that the vault at the printed address and chain
    computes from the printed arguments, and a signature that any such vault with
    the printed signer takes as the enclave's. *)
Theorem golden_vectors_accepted `{JsEngine, EvmLaws, Viem, !ViemLaws} acct :
  privateKeyToAccount Golden.TEST_SIGNER_KEY = Ret acct →
  ∃ out, Golden.main = Ret out ∧ get out (js "signer") = Some (JStr (account_address acct)) ∧
    ∀ name tag word, golden_op name tag word →
      let net := {| this := hex_value Golden.VAULT; chainid := Golden.CHAIN_ID |} in
      let cm := hex_value Golden.COMMITMENT in
      get out (name ++ js "Tag") = Some (JStr tag) ∧
      get out (name ++ js "Digest") = Some (JStr (bytesToHex (authorization_digest net word Golden.STREAM_ID cm
        Golden.CUMULATIVE_ACCRUED Golden.DEADLINE))) ∧
      ∃ sg, get out (name ++ js "Signature") = Some (JStr (bytesToHex sg)) ∧
        ∀ v, teeSigner v = hex_value (account_address acct) → teeSigner v ≠ 0 →
          signed_by_tee net v word Golden.STREAM_ID cm Golden.CUMULATIVE_ACCRUED Golden.DEADLINE sg.
Proof.
  intros Hacct.
  destruct (golden_vectors acct (js "withdraw") WITHDRAW_TAG WITHDRAW_TAG_word ltac:(by left)) as (sw & Ew & _ & Hw).
  destruct (golden_vectors acct (js "settle") SETTLE_TAG SETTLE_TAG_word ltac:(by right)) as (ss & Es & _ & Hs).
  cbn zeta in *. unfold Golden.main. rewrite Hacct. cbn [mbind outcome_bind]. rewrite Ew. cbn [mbind outcome_bind].
  rewrite Es. cbn [mbind outcome_bind]. eexists. split; [reflexivity|]. split; [reflexivity|].
  intros name tag word [(-> & -> & ->)|(-> & -> & ->)].
  - split; [reflexivity|]. split; [reflexivity|]. exists sw. by split.
  - split; [reflexivity|]. split; [reflexivity|]. exists ss. by split.
Qed.

(** C23: the offline check and the enclave agree: [verify-browser-ciphertext.ts],
    given a ciphertext in canonical hexadecimal ([0x] and lower-case digits, as viem
    writes it) and a commitment that is not empty, exits with 0 exactly when
    the enclave with that key would open the ciphertext of a request with that
    commitment, up to the letter case of the commitment's digits, in which the
    script and the enclave are equally tolerant; what it prints before is the hash
    of the plaintext. *)
Theorem verify_ct_agrees `{JsEngine, EvmLaws, Viem, !ViemLaws, Ecies, !EciesLaws} env ke c req :
  env_truthy (env (js "TEE_ECIES_PRIVKEY")) = Some ke → is_bytes c →
  encryptedTerms req = bytesToHex c → commitment req ≠ [] →
  ((VerifyCt.main env (Some (encryptedTerms req)) (Some (commitment req))).1 = 0 ↔
     ∃ opened, unseal ke req = Ret (inr opened)) ∧
  (∀ p, decrypt ke c = Ret p →
     (VerifyCt.main env (Some (encryptedTerms req)) (Some (commitment req))).2 = Some (bytesToHex (keccak p))).
Proof.
  intros Hke Hc Hct Hne. unfold VerifyCt.main, unseal. rewrite Hct, Hke.
  assert (env_truthy (Some (bytesToHex c)) = Some (bytesToHex c)) as -> by by rewrite bytesToHex_digits.
  assert (env_truthy (Some (commitment req)) = Some (commitment req)) as -> by by destruct (commitment req).
  assert (starts_with (bytesToHex c) (js "0x") = true) as -> by by rewrite bytesToHex_digits.
  rewrite buffer_from_hex_bytes by done. cbn [hexToBytes]. rewrite hexToBytes_bytesToHex_str by done.
  cbn [mbind outcome_bind]. destruct (decrypt ke c) as [p|e] eqn:Hp.
  2:{ cbn. split; [|done]. split; [done|]. by intros [? ?]. }
  pose proof (decrypt_bytes _ _ _ Hp) as Hpb. rewrite buffer_hex_bytes, keccak256_hex by done.
  cbn [mbind outcome_bind attempt step_bind call]. rewrite keccak256_hex by done. cbn [call mbind outcome_bind step_bind].
  assert (same_text (bytesToHex (keccak p)) (commitment req) =
    str_eqb (bytesToHex (keccak p)) (to_lower (commitment req))) as ->
    by (unfold same_text; by rewrite bytesToHex_to_lower by apply keccak_bytes).
  split.
  2:{ intros p' [= <-]. by destruct (decodeAbiParameters _ _). }
  destruct (decodeAbiParameters TERMS_ABI (bytesToHex p)) as [vs|e] eqn:Hd.
  - destruct (decoded_terms _ _ Hd) as (t & -> & _). destruct (str_eqb _ _); cbn; [by split; [eexists|]|].
    split; [done|]. by intros [? ?].
  - unfold decodeTerms. rewrite Hd. cbn. split; [done|]. intros [o E]. destruct (str_eqb _ _); discriminate E.
Qed.

(** ** Concrete runs *)

#[local] Existing Instance plain_engine.

Definition golden_account : @account toy_viem := ret_or 0 (@privateKeyToAccount toy_viem Golden.TEST_SIGNER_KEY).

Lemma golden_vectors_accepted_witness :
  ∃ out, Golden.main = Ret out ∧ get out (js "signer") = Some (JStr (account_address golden_account)).
Proof.
  destruct (golden_vectors_accepted golden_account ltac:(vm_compute; reflexivity)) as (out & Ho & Hs & _).
  exists out. split; [exact Ho|exact Hs].
Defined.

Definition vct_env : Environment := λ k, if str_eqb k (js "TEE_ECIES_PRIVKEY") then Some demo_key else None.

(** The ciphertext of the demo terms passes with its commitment. *)
Lemma verify_ct_agrees_witness :
  (VerifyCt.main vct_env (Some (encryptedTerms (demo_request 226 WITHDRAW_TAG)))
    (Some (commitment (demo_request 226 WITHDRAW_TAG)))).1 = 0.
Proof.
  apply (verify_ct_agrees vct_env demo_key demo_cipher (demo_request 226 WITHDRAW_TAG)).
  - reflexivity.
  - apply all_bytes. vm_compute. reflexivity.
  - reflexivity.
  - vm_compute. discriminate.
  - eexists. vm_compute. reflexivity.
Defined.
